(* ===== verification/_CoqProject ===== *)
-Q . S2P
Prelude.v
UsbDefs.v
DmaAlloc.v
MemAlloc.v
UsbCore.v
Canfd.v
Rtc.v
HidParser.v
