(* ===== verification/Prelude.v ===== *)
(** PLACEHOLDER *)
From stdpp Require Export base list numbers gmap fin_maps functions.
From Stdlib Require Export ZArith Lia.
From coqutil Require Z.bitblast Z.BitOps.

#[global] Open Scope Z_scope.

(** * Record update

    [r <| f := v |>] is the record [r] with its field [f] replaced and
    [r <| f ::= g |>] the one with [g] applied to it.  A record type gives its
    eta expansion as an instance of [Eta]; the update of each field is derived
    from it. *)
Class Eta (R : Type) := eta : R -> R.
Class Upd {R T : Type} (proj : R -> T) := upd : (T -> T) -> R -> R.
Arguments upd {R T} proj {Upd} f r : rename.

Ltac derive_upd :=
  lazymatch goal with
  | |- @Upd ?R ?T ?p =>
      let E := constr:(ltac:(typeclasses eauto) : Eta R) in
      let f := fresh "f" in
      let r := fresh "r" in
      refine (fun (f : T -> T) (r : R) => ltac:(
        let b := eval hnf in (E r) in
        lazymatch eval pattern (p r) in b with
        | ?g _ => let c := eval cbv beta in (g (f (p r))) in exact c
        end))
  end.
#[global] Hint Extern 1 (Upd _) => derive_upd : typeclass_instances.

Declare Scope csrc_scope.
Delimit Scope csrc_scope with csrc.
Notation "s <| p := v |>" := (upd p (fun _ => v) s)
  (at level 1, left associativity, p at level 0, v at level 99,
   format "s  <| p  :=  v |>") : csrc_scope.
Notation "s <| p ::= f |>" := (upd p f s)
  (at level 1, left associativity, p at level 0, f at level 99,
   format "s  <| p  ::=  f |>") : csrc_scope.
#[global] Open Scope csrc_scope.

(** * Machine integers *)

(** Unsigned and two's-complement truncation to a width. *)
Definition uwrap (w x : Z) : Z := x mod 2 ^ w.
Definition swrap (w x : Z) : Z :=
  let r := x mod 2 ^ w in if r <? 2 ^ (w - 1) then r else r - 2 ^ w.

Abbreviation u8 := (uwrap 8).
Abbreviation u16 := (uwrap 16).
Abbreviation u32 := (uwrap 32).
Abbreviation u64 := (uwrap 64).
Abbreviation s8 := (swrap 8).
Abbreviation s16 := (swrap 16).
Abbreviation s32 := (swrap 32).

(** A C truth value: zero is false, everything else is true. *)
Definition ctrue (x : Z) : bool := negb (x =? 0).

(** C's [int] division and remainder truncate towards zero. *)
Abbreviation cdiv := Z.quot.
Abbreviation crem := Z.rem.

Lemma uwrap_range w x : 0 <= w -> 0 <= uwrap w x < 2 ^ w.
Proof. intros. apply Z.mod_pos_bound. lia. Qed.

Lemma uwrap_id w x : 0 <= x < 2 ^ w -> uwrap w x = x.
Proof. apply Z.mod_small. Qed.

Lemma uwrap_idemp w x : 0 <= w -> uwrap w (uwrap w x) = uwrap w x.
Proof. intros. apply Z.mod_mod. lia. Qed.

Lemma swrap_range w x : 0 < w -> - 2 ^ (w - 1) <= swrap w x < 2 ^ (w - 1).
Proof.
  intros Hw. unfold swrap.
  assert (2 ^ w = 2 * 2 ^ (w - 1)) as E.
  { replace w with (Z.succ (w - 1)) at 1 by lia. apply Z.pow_succ_r. lia. }
  pose proof (Z.mod_pos_bound x (2 ^ w) ltac:(lia)).
  case_match eqn:Hlt; [apply Z.ltb_lt in Hlt | apply Z.ltb_ge in Hlt]; lia.
Qed.

Lemma swrap_id w x : 0 < w -> - 2 ^ (w - 1) <= x < 2 ^ (w - 1) -> swrap w x = x.
Proof.
  intros Hw Hx. unfold swrap.
  assert (2 ^ w = 2 * 2 ^ (w - 1)) as E.
  { replace w with (Z.succ (w - 1)) at 1 by lia. apply Z.pow_succ_r. lia. }
  destruct (decide (0 <= x)).
  - rewrite Z.mod_small by lia. case_match eqn:Hlt; [done|].
    apply Z.ltb_ge in Hlt. lia.
  - replace (x mod 2 ^ w) with (x + 2 ^ w).
    + case_match eqn:Hlt; [apply Z.ltb_lt in Hlt; lia|lia].
    + symmetry. rewrite <- (Z.mod_add x 1) by lia.
      rewrite Z.mul_1_l. apply Z.mod_small. lia.
Qed.

(** * Faults, results and the state-and-fault monad

    A C function is a computation [M S A]: it reads and writes a state [S]
    and either returns a value or stops with a [fault].  An undefined
    behaviour of C (an access outside an array, a null or uninitialised
    pointer, a shift by more than the width, a division by zero) is a fault,
    and so is a loop that does not end ([Diverges], which the definitions
    below return only when their fuel is used up). *)
Inductive fault :=
  | OutOfBounds
  | NullDeref
  | Uninit
  | BadShift
  | DivByZero
  | Diverges.

#[global] Instance fault_eq_dec : EqDecision fault.
Proof. solve_decision. Defined.

Inductive res (A : Type) :=
  | Ok (a : A)
  | Fault (f : fault).
Arguments Ok {_} _.
Arguments Fault {_} _.

#[global] Instance res_ret : MRet res := fun A a => Ok a.
#[global] Instance res_bind : MBind res := fun A B k m =>
  match m with Ok a => k a | Fault f => Fault f end.

Definition M (S A : Type) : Type := S -> res (A * S).

#[global] Instance M_ret {S} : MRet (M S) := fun A a s => Ok (a, s).
#[global] Instance M_bind {S} : MBind (M S) := fun A B k m s =>
  match m s with Ok (a, s') => k a s' | Fault f => Fault f end.

Section monad.
Context {S : Type}.

Definition fail {A} (f : fault) : M S A := fun _ => Fault f.
Definition gets {A} (f : S -> A) : M S A := fun s => Ok (f s, s).
Definition modify (f : S -> S) : M S unit := fun s => Ok (tt, f s).
Definition lift {A} (r : res A) : M S A := fun s =>
  match r with Ok a => Ok (a, s) | Fault f => Fault f end.
(** [if (b) { m }] *)
Definition when (b : bool) (m : M S unit) : M S unit :=
  if b then m else mret tt.

(** Weakest preconditions: [wp m Q s] says that [m] run in [s] returns
    (without a fault, in particular without running out of fuel) a value
    and a state related by [Q]. *)
Definition wp {A} (m : M S A) (Q : A -> S -> Prop) (s : S) : Prop :=
  match m s with Ok (a, s') => Q a s' | Fault _ => False end.

Lemma bind_Ok {A B} (m : M S A) (k : A -> M S B) s a s' :
  m s = Ok (a, s') -> (m ≫= k) s = k a s'.
Proof. unfold mbind, M_bind. by intros ->. Qed.

Lemma wp_ret {A} (a : A) (Q : A -> S -> Prop) s : Q a s -> wp (mret a) Q s.
Proof. done. Qed.

Lemma wp_bind {A B} (m : M S A) (k : A -> M S B) Q s :
  wp m (fun a s' => wp (k a) Q s') s -> wp (m ≫= k) Q s.
Proof. unfold wp, mbind, M_bind. by destruct (m s) as [[]|]. Qed.

Lemma wp_gets {A} (f : S -> A) (Q : A -> S -> Prop) s : Q (f s) s -> wp (gets f) Q s.
Proof. done. Qed.

Lemma wp_modify (f : S -> S) (Q : unit -> S -> Prop) s : Q tt (f s) -> wp (modify f) Q s.
Proof. done. Qed.

Lemma wp_lift {A} (r : res A) a (Q : A -> S -> Prop) s :
  r = Ok a -> Q a s -> wp (lift r) Q s.
Proof. by intros ->. Qed.

Lemma wp_mono {A} (m : M S A) (Q R : A -> S -> Prop) s :
  wp m Q s -> (forall a s', Q a s' -> R a s') -> wp m R s.
Proof. unfold wp. destruct (m s) as [[]|]; auto. Qed.

Lemma wp_when (b : bool) (m : M S unit) (Q : unit -> S -> Prop) s :
  (b = true -> wp m Q s) -> (b = false -> Q tt s) -> wp (when b m) Q s.
Proof. destruct b; intros H1 H2; [by apply H1|by apply wp_ret, H2]. Qed.

Lemma wp_run {A} (m : M S A) (Q : A -> S -> Prop) s :
  wp m Q s <-> exists a s', m s = Ok (a, s') /\ Q a s'.
Proof.
  unfold wp. destruct (m s) as [[a s']|]; split; try done; eauto.
  - by intros (? & ? & [= <- <-] & ?).
  - by intros (? & ? & ? & _).
Qed.
End monad.

Arguments wp : simpl never.

(** ** What a computation leaves alone

    [keeps f m]: whenever [m] returns, [f] of the state is what it was. *)
Definition keeps {S A B} (f : S -> B) (m : M S A) : Prop :=
  forall s a s', m s = Ok (a, s') -> f s' = f s.

Section keeps.
Context {S B : Type} (f : S -> B).

Lemma keeps_ret {A} (a : A) : keeps f (mret a).
Proof. by intros s b s' [= <- <-]. Qed.

Lemma keeps_bind {A C} (m : M S A) (k : A -> M S C) :
  keeps f m -> (forall a, keeps f (k a)) -> keeps f (m ≫= k).
Proof.
  intros Hm Hk s c s'. unfold mbind, M_bind. destruct (m s) as [[a t]|] eqn:E; [|done].
  intros E'. rewrite (Hk a t c s' E'). by apply (Hm s a).
Qed.

Lemma keeps_fail {A} e : keeps f (fail (A := A) e).
Proof. by intros s a s'. Qed.

Lemma keeps_gets {A} (g : S -> A) : keeps f (gets g).
Proof. by intros s a s' [= <- <-]. Qed.

Lemma keeps_modify (g : S -> S) : (forall s, f (g s) = f s) -> keeps f (modify g).
Proof. intros Hg s a s' [= <- <-]. apply Hg. Qed.

Lemma keeps_lift {A} (r : res A) : keeps f (lift r).
Proof. intros s a s'. unfold lift. by destruct r; intros [= <- <-]. Qed.

Lemma keeps_when b m : keeps f m -> keeps f (when b m).
Proof. destruct b; [done|]. intros _. apply keeps_ret. Qed.

Lemma keeps_if {A} (b : bool) (m n : M S A) :
  keeps f m -> keeps f n -> keeps f (if b then m else n).
Proof. by destruct b. Qed.
End keeps.

(** A computation on a part of the state, run on the whole. *)
Definition zoom {S T A} (get : S -> T) (put : T -> S -> S) (m : M T A) : M S A := fun s =>
  match m (get s) with Ok (a, t) => Ok (a, put t s) | Fault f => Fault f end.

Lemma wp_zoom {S T A} (get : S -> T) (put : T -> S -> S) (m : M T A)
    (Q : A -> S -> Prop) s :
  wp m (fun a t => Q a (put t s)) (get s) -> wp (zoom get put m) Q s.
Proof. unfold wp, zoom. by destruct (m (get s)) as [[]|]. Qed.

Lemma keeps_zoom {S T A B} (f : S -> B) (get : S -> T) (put : T -> S -> S) (m : M T A) :
  (forall s a t, m (get s) = Ok (a, t) -> f (put t s) = f s) -> keeps f (zoom get put m).
Proof.
  intros Hm s a s'. unfold zoom. destruct (m (get s)) as [[b t]|] eqn:E; [|done].
  intros [= <- <-]. by eapply Hm.
Qed.

(** Structural steps of a [keeps] goal; calls are closed by the hints. *)
Create HintDb keeps.
#[export] Hint Resolve keeps_ret keeps_fail keeps_gets keeps_lift : keeps.
Ltac keeps_step :=
  lazymatch goal with
  | |- keeps _ (_ ≫= _) => apply keeps_bind; [|intros ?]
  | |- keeps _ (if _ then _ else _) => apply keeps_if
  | |- keeps _ (when _ _) => apply keeps_when
  | |- keeps _ (match ?x with _ => _ end) => destruct x
  | |- keeps _ _ => solve [eauto with keeps | apply keeps_modify; intros; done]
  end.
Ltac keeps_tac := repeat keeps_step.

(** [for (i = lo; n iterations; i++) body(i)] *)
Fixpoint for_ {S} (n : nat) (i : Z) (body : Z -> M S unit) : M S unit :=
  match n with
  | O => mret tt
  | S n => body i ≫= fun _ => for_ n (i + 1) body
  end.

Lemma wp_for {S} (I : Z -> S -> Prop) (body : Z -> M S unit) n i s :
  I i s ->
  (forall j t, i <= j < i + Z.of_nat n -> I j t -> wp (body j) (fun _ => I (j + 1)) t) ->
  wp (for_ n i body) (fun _ => I (i + Z.of_nat n)) s.
Proof.
  revert i s. induction n as [|n IH]; intros i s Hi Hb; simpl.
  - apply wp_ret. by rewrite Z.add_0_r.
  - apply wp_bind. eapply wp_mono; [apply Hb; [lia|done]|].
    intros ? t Ht. cbn beta in *.
    replace (i + Z.of_nat (Datatypes.S n)) with (i + 1 + Z.of_nat n) by lia.
    apply IH; [done|]. intros j u Hj. apply Hb. lia.
Qed.

(** ** Hint database and step tactics *)
Create HintDb cwp.
#[export] Hint Resolve wp_ret wp_gets wp_modify : cwp.

(** Peel one monadic operation off a [wp] goal. *)
Ltac wp_step :=
  lazymatch goal with
  | |- wp (_ ≫= _) _ _ => apply wp_bind
  | |- wp (mret _) _ _ => apply wp_ret
  | |- wp (gets _) _ _ => apply wp_gets
  | |- wp (modify _) _ _ => apply wp_modify
  | |- wp (when _ _) _ _ => apply wp_when
  end.
(** Reduce the binds of [res] computations that returned. *)
Ltac res_simpl := unfold mbind, mret, res_bind, res_ret; cbv beta iota.
Ltac wp_steps := repeat (wp_step; cbn beta).

(** Turn boolean comparisons in the context into propositions. *)
Ltac breflect :=
  repeat match goal with
  | H : (_ && _)%bool = true |- _ => apply andb_true_iff in H; destruct H
  | H : (_ || _)%bool = false |- _ => apply orb_false_iff in H; destruct H
  | H : negb _ = true |- _ => apply negb_true_iff in H
  | H : negb _ = false |- _ => apply negb_false_iff in H
  | H : (_ =? _) = true |- _ => apply Z.eqb_eq in H
  | H : (_ =? _) = false |- _ => apply Z.eqb_neq in H
  | H : (_ <? _) = true |- _ => apply Z.ltb_lt in H
  | H : (_ <? _) = false |- _ => apply Z.ltb_ge in H
  | H : (_ <=? _) = true |- _ => apply Z.leb_le in H
  | H : (_ <=? _) = false |- _ => apply Z.leb_gt in H
  | H : (_ >=? _) = _ |- _ => rewrite Z.geb_leb in H
  | H : (_ >? _) = _ |- _ => rewrite Z.gtb_ltb in H
  end.

(** Case analysis on the first [if] of the goal, with its test reflected. *)
Ltac case_if :=
  match goal with
  | |- context [if ?b then _ else _] =>
      lazymatch type of b with bool => destruct b eqn:?; breflect end
  end.

(** * C arrays

    An array is a list; [aget] and [aset] are the checked accesses, which
    fault outside the array. *)
Definition zlookup {A} (l : list A) (i : Z) : option A :=
  if 0 <=? i then l !! Z.to_nat i else None.

Definition aget {A} (l : list A) (i : Z) : res A :=
  match zlookup l i with Some v => Ok v | None => Fault OutOfBounds end.

Definition aset {A} (l : list A) (i : Z) (v : A) : res (list A) :=
  match zlookup l i with
  | Some _ => Ok (<[Z.to_nat i := v]> l)
  | None => Fault OutOfBounds
  end.

Abbreviation zlen l := (Z.of_nat (length l)).

Section arrays.
Context {A : Type}.
Implicit Types l : list A.

Lemma zlookup_Some l i v :
  zlookup l i = Some v <-> 0 <= i /\ l !! Z.to_nat i = Some v.
Proof.
  unfold zlookup. case_match eqn:E; breflect; split; try done; try lia.
  by intros [].
Qed.

Lemma zlookup_lt l i v : zlookup l i = Some v -> 0 <= i < zlen l.
Proof. intros [? ?%lookup_lt_Some]%zlookup_Some. lia. Qed.

Lemma zlookup_is_Some l i : 0 <= i < zlen l -> exists v, zlookup l i = Some v.
Proof.
  intros Hi. destruct (lookup_lt_is_Some_2 l (Z.to_nat i)) as [v Hv]; [lia|].
  exists v. apply zlookup_Some. split; [lia|done].
Qed.

Lemma zlookup_None l i : zlookup l i = None <-> i < 0 \/ zlen l <= i.
Proof.
  unfold zlookup. case_match eqn:E; breflect; [|split; [lia|done]].
  rewrite lookup_ge_None. lia.
Qed.

Lemma aget_Ok l i v : aget l i = Ok v <-> zlookup l i = Some v.
Proof. unfold aget. destruct (zlookup l i); naive_solver. Qed.

Lemma aget_oob l i : i < 0 \/ zlen l <= i -> aget l i = Fault OutOfBounds.
Proof. intros. unfold aget. by rewrite (proj2 (zlookup_None l i)). Qed.

Lemma aget_in l i : 0 <= i < zlen l -> exists v, aget l i = Ok v.
Proof.
  intros [v Hv]%zlookup_is_Some. exists v. by apply aget_Ok.
Qed.

Lemma aset_Ok l i v : 0 <= i < zlen l -> aset l i v = Ok (<[Z.to_nat i := v]> l).
Proof. intros [w Hw]%zlookup_is_Some. unfold aset. by rewrite Hw. Qed.

Lemma aset_oob l i v : i < 0 \/ zlen l <= i -> aset l i v = Fault OutOfBounds.
Proof. intros. unfold aset. by rewrite (proj2 (zlookup_None l i)). Qed.

Lemma aset_inv l l' i v :
  aset l i v = Ok l' -> 0 <= i < zlen l /\ l' = <[Z.to_nat i := v]> l.
Proof.
  unfold aset. destruct (zlookup l i) eqn:E; [|done].
  intros [= <-]. split; [by eapply zlookup_lt|done].
Qed.

Lemma zlookup_insert l i j v :
  0 <= i < zlen l -> 0 <= j ->
  zlookup (<[Z.to_nat i := v]> l) j = if j =? i then Some v else zlookup l j.
Proof.
  intros Hi Hj. unfold zlookup. rewrite (proj2 (Z.leb_le 0 j)) by lia.
  destruct (j =? i) eqn:E; breflect.
  - subst. apply list_lookup_insert_eq. lia.
  - apply list_lookup_insert_ne. lia.
Qed.
End arrays.

(** Sums over integer arrays: the usage counters of the pools count the
    units marked 1. *)
Definition zsum (l : list Z) : Z := foldr Z.add 0 l.

Lemma zsum_app l k : zsum (l ++ k) = zsum l + zsum k.
Proof. induction l; simpl; lia. Qed.

Lemma Forall_const {A} (P : A -> Prop) n x : P x -> Forall P (replicate n x).
Proof. intros. induction n; simpl; by constructor. Qed.

Lemma zsum_replicate n v : zsum (replicate n v) = Z.of_nat n * v.
Proof. induction n; simpl; lia. Qed.

Lemma zsum_insert l i u v :
  l !! i = Some u -> zsum (<[i := v]> l) = zsum l - u + v.
Proof.
  revert i. induction l as [|w l IH]; intros [|i]; simpl; try done.
  - intros [= ->]. lia.
  - intros ?. rewrite (IH i) by done. lia.
Qed.


(** [fill v i n l] is [l] with the [n] entries from index [i] on replaced. *)
Fixpoint fill {A} (v : A) (n i : nat) (l : list A) : list A :=
  match n with O => l | S n => fill v n (S i) (<[i := v]> l) end.

Section fill.
Context {A : Type}.
Implicit Types (l : list A) (v : A).

Lemma length_fill v n i l : length (fill v n i l) = length l.
Proof. revert i l. induction n as [|n IH]; intros; simpl; [done|]. by rewrite IH, length_insert. Qed.

Lemma lookup_fill_in v n i l j :
  (i <= j < i + n)%nat -> (j < length l)%nat -> fill v n i l !! j = Some v.
Proof.
  revert i l. induction n as [|n IH]; intros i l Hj Hl; simpl; [lia|].
  destruct (decide (i = j)) as [->|]; [|apply IH; rewrite ?length_insert; lia].
  clear -Hl. assert (forall k m, (j < k)%nat -> m !! j = Some v -> fill v n k m !! j = Some v) as H.
  { induction n as [|n IH]; intros k m ? Hm; simpl; [done|].
    apply IH; [lia|]. by rewrite list_lookup_insert_ne by lia. }
  apply H; [lia|]. by apply list_lookup_insert_eq.
Qed.

Lemma lookup_fill_out v n i l j :
  ~ (i <= j < i + n)%nat -> fill v n i l !! j = l !! j.
Proof.
  revert i l. induction n as [|n IH]; intros i l Hj; simpl; [done|].
  rewrite IH by lia. apply list_lookup_insert_ne. lia.
Qed.

Lemma fill_fill v w n i l :
  (forall j, (i <= j < i + n)%nat -> l !! j = Some w) -> fill w n i (fill v n i l) = l.
Proof.
  intros H. apply list_eq. intros j.
  destruct (decide (i <= j < i + n)%nat) as [Hj|Hj].
  - pose proof (lookup_lt_Some _ _ _ (H j Hj)).
    rewrite lookup_fill_in by (rewrite ?length_fill; lia). by rewrite H.
  - by rewrite !lookup_fill_out.
Qed.

Lemma fill_id v n i l :
  (forall j, (i <= j < i + n)%nat -> l !! j = Some v) -> fill v n i l = l.
Proof.
  revert i. induction n as [|n IH]; intros i H; simpl; [done|].
  rewrite list_insert_id by (apply H; lia). apply IH. intros. apply H. lia.
Qed.
End fill.

Lemma zsum_fill n i l u v :
  (forall j, (i <= j < i + n)%nat -> l !! j = Some u) ->
  zsum (fill v n i l) = zsum l + Z.of_nat n * (v - u).
Proof.
  revert i l. induction n as [|n IH]; intros i l H; simpl fill; [lia|].
  rewrite IH; [rewrite (zsum_insert l i u v) by (apply H; lia); lia|].
  intros j Hj. rewrite list_lookup_insert_ne by lia. apply H. lia.
Qed.

(** * Polling

    [while (!ok(reg));], on the values the register takes. *)
Fixpoint poll (fuel : nat) (ok : Z -> bool) (reads : nat -> Z) (k : nat) : res unit :=
  match fuel with
  | O => Fault Diverges
  | S fuel => if ok (reads k) then Ok tt else poll fuel ok reads (S k)
  end.

(** * Bit fields *)

(** The mask of [width] bits from bit [pos] on. *)
Definition msk (width pos : Z) : Z := Z.shiftl (Z.ones width) pos.

Lemma shiftl_field a n : 0 <= n -> Z.shiftl a n = a * 2 ^ n.
Proof. intros. apply Z.shiftl_mul_pow2. lia. Qed.

(** Reading a field with a shift and a mask of [k] low bits. *)
Lemma field_shift_mask x n k :
  0 <= n -> 0 <= k -> Z.land (Z.shiftr x n) (Z.ones k) = (x / 2 ^ n) mod 2 ^ k.
Proof. intros. by rewrite Z.land_ones, Z.shiftr_div_pow2. Qed.

(** Reading a field with a mask in place and a shift down. *)
Lemma field_mask_shift x n k :
  0 <= n -> 0 <= k ->
  Z.shiftr (Z.land x (Z.shiftl (Z.ones k) n)) n = (x / 2 ^ n) mod 2 ^ k.
Proof.
  intros. rewrite <- field_shift_mask by lia. rewrite Z.shiftr_land.
  f_equal. rewrite Z.shiftr_shiftl_l by lia.
  replace (n - n) with 0 by lia. by rewrite Z.shiftl_0_r.
Qed.

(** Joining two fields that do not overlap is an addition. *)
Lemma land_shiftl_small a b n :
  0 <= n -> 0 <= a < 2 ^ n -> Z.land (Z.shiftl b n) a = 0.
Proof.
  intros Hn Ha. apply Z.bits_inj'. intros i Hi.
  rewrite Z.land_spec, Z.bits_0, Z.shiftl_spec by lia.
  destruct (decide (i < n)); [by rewrite Z.testbit_neg_r by lia|].
  replace a with (a mod 2 ^ n) by (apply Z.mod_small; lia).
  rewrite Z.mod_pow2_bits_high by lia. apply andb_false_r.
Qed.

Lemma lor_shiftl_add a b n :
  0 <= n -> 0 <= a < 2 ^ n -> Z.lor (Z.shiftl b n) a = b * 2 ^ n + a.
Proof.
  intros Hn Ha. rewrite Z.BitOps.or_to_plus, Z.shiftl_mul_pow2 by
    (lia || by apply land_shiftl_small). done.
Qed.

(** Testing one bit with a mask. *)
Lemma ctrue_bit v n : 0 <= n -> ctrue (Z.land v (Z.shiftl 1 n)) = Z.testbit v n.
Proof.
  intros Hn. unfold ctrue. apply eq_true_iff_eq. rewrite negb_true_iff, Z.eqb_neq. split.
  - intros H. destruct (Z.testbit v n) eqn:E; [done|]. exfalso. apply H.
    apply Z.bits_inj'. intros i Hi. rewrite Z.land_spec, Z.bits_0, Z.shiftl_1_l.
    destruct (decide (i = n)) as [->|]; [by rewrite E|].
    by rewrite Z.pow2_bits_false, andb_false_r by lia.
  - intros E H. assert (Z.testbit (Z.land v (Z.shiftl 1 n)) n = false) as F by (by rewrite H, Z.bits_0).
    by rewrite Z.land_spec, E, Z.shiftl_1_l, Z.pow2_bits_true in F by lia.
Qed.

Lemma uwrap_testbit w v i : 0 <= i < w -> Z.testbit (uwrap w v) i = Z.testbit v i.
Proof. intros. apply Z.mod_pow2_bits_low. lia. Qed.
