(* ===== verification/UsbDefs.v ===== *)
(** USB host library: constants, pointers, and the data types of the headers
    [inc/usb.h], [inc/ehci.h], [inc/ohci.h], [inc/usbh_lib.h] and
    [inc/usbh_config.h] that the components share.

    A pointer is its 64-bit address, a [Z]; [NULL] is 0.  The MA35D1 maps all
    DRAM twice: bit 32 of an address selects the uncached alias of the byte
    the lower 32 bits name.  Typed objects (devices, transfer requests,
    hardware descriptors) live in finite maps from pointers to records. *)
From S2P Require Import Prelude.

(** ** Pointers (Arch/Core_A/Include/mmio.h, Device/Nuvoton/MA35D1/Include/MA35D1.h) *)
Definition NULL : Z := 0.
Definition NON_CACHE : Z := 0x100000000.
Definition ptr_to_u32 (x : Z) : Z := u32 x.
Definition nc_ptr (x : Z) : Z := Z.lor (Z.land x 0xffffffff) NON_CACHE.
Definition ptr_s (x : Z) : Z := Z.land x 0xffffffff.
Definition addr_s (x : Z) : Z := ptr_s x.

(** ** Return codes (usbh_lib.h) *)
Definition USBH_OK : Z := 0.
Definition USBH_ERR_MEM_FREE_INVALID : Z := -5.
Definition USBH_ERR_MEMORY_OUT : Z := -10.
Definition USBH_ERR_IF_ALT_LIMIT : Z := -11.
Definition USBH_ERR_IF_EP_LIMIT : Z := -15.
Definition USBH_ERR_NOT_SUPPORTED : Z := -101.
Definition USBH_ERR_NOT_MATCHED : Z := -103.
Definition USBH_ERR_NOT_EXPECTED : Z := -104.
Definition USBH_ERR_INVALID_PARAM : Z := -105.
Definition USBH_ERR_NOT_FOUND : Z := -106.
Definition USBH_ERR_EP_NOT_FOUND : Z := -107.
Definition USBH_ERR_DESCRIPTOR : Z := -137.
Definition USBH_ERR_SET_DEV_ADDR : Z := -139.
Definition USBH_ERR_SET_CONFIG : Z := -151.
Definition USBH_ERR_TRANSFER : Z := -201.
Definition USBH_ERR_TIMEOUT : Z := -203.
Definition USBH_ERR_STALL : Z := -284.
Definition USBH_ERR_DATA_OVERRUN : Z := -288.
Definition UMAS_OK : Z := 0.
Definition UMAS_ERR_NO_DEVICE : Z := -1031.
Definition UMAS_ERR_IO : Z := -1033.
Definition UMAS_ERR_INIT_DEVICE : Z := -1035.
Definition UMAS_ERR_CMD_STATUS : Z := -1037.
Definition UMAS_ERR_IVALID_PARM : Z := -1038.
Definition UMAS_ERR_DRIVE_NOT_FOUND : Z := -1039.
Definition HID_RET_OK : Z := 0.
Definition HID_RET_IO_ERR : Z := -1082.
Definition HID_RET_INVALID_PARAMETER : Z := -1083.
Definition HID_RET_OUT_OF_MEMORY : Z := -1084.
Definition HID_RET_PARSING : Z := -1087.

(** ** Configuration (usbh_config.h) *)
Definition MAX_DESC_BUFF_SIZE : Z := 4096.
Definition MAX_UDEV_DRIVER : Z := 8.
Definition MAX_ALT_PER_IFACE : Z := 8.
Definition MAX_EP_PER_IFACE : Z := 6.
Definition HW_MEM_UNIT_SIZE : Z := 128.
Definition HW_MEM_UNIT_NUM : Z := 512.
Definition DMA_MEM_UNIT_SIZE : Z := 1024.
Definition DMA_MEM_UNIT_NUM : Z := 128.

(** ** Requests and descriptor types (usb.h) *)
Definition REQ_TYPE_OUT : Z := 0x00.
Definition REQ_TYPE_IN : Z := 0x80.
Definition REQ_TYPE_STD_DEV : Z := 0x00.
Definition REQ_TYPE_CLASS_DEV : Z := 0x20.
Definition REQ_TYPE_TO_DEV : Z := 0x00.
Definition REQ_TYPE_TO_IFACE : Z := 0x01.
Definition REQ_TYPE_TO_EP : Z := 0x02.
Definition USB_REQ_CLEAR_FEATURE : Z := 0x01.
Definition USB_REQ_SET_ADDRESS : Z := 0x05.
Definition USB_REQ_GET_DESCRIPTOR : Z := 0x06.
Definition USB_REQ_SET_CONFIGURATION : Z := 0x09.
Definition USB_REQ_SET_INTERFACE : Z := 0x0B.
Definition USB_DT_STANDARD : Z := 0x00.
Definition USB_DT_CLASS : Z := 0x20.
Definition USB_DT_DEVICE : Z := 0x01.
Definition USB_DT_CONFIGURATION : Z := 0x02.
Definition USB_DT_STRING : Z := 0x03.
Definition USB_DT_INTERFACE : Z := 0x04.
Definition USB_DT_ENDPOINT : Z := 0x05.
Definition USB_CLASS_HID : Z := 0x03.
Definition EP_ADDR_DIR_MASK : Z := 0x80.
Definition EP_ATTR_TT_MASK : Z := 0x03.

(** ** Descriptors and devices (usb.h) *)
Record DEV_REQ_T := mkDEV_REQ {
  bmRequestType : Z; bRequest : Z; wValue : Z; wIndex : Z; wLength : Z }.

(** The device descriptor: 18 packed bytes. *)
Record DESC_DEV_T := mkDESC_DEV {
  dev_bLength : Z; dev_bDescriptorType : Z; bcdUSB : Z; bDeviceClass : Z;
  bDeviceSubClass : Z; bDeviceProtocol : Z; bMaxPacketSize0 : Z; idVendor : Z;
  idProduct : Z; bcdDevice : Z; iManufacturer : Z; iProduct : Z;
  iSerialNumber : Z; bNumConfigurations : Z }.

Inductive SPEED_E := SPEED_LOW | SPEED_FULL | SPEED_HIGH.
#[global] Instance SPEED_E_eq_dec : EqDecision SPEED_E.
Proof. solve_decision. Defined.

Record EP_INFO_T := mkEP_INFO {
  ep_bEndpointAddress : Z; ep_bmAttributes : Z; ep_bInterval : Z; ep_bToggle : Z;
  ep_wMaxPacketSize : Z; hw_pipe : Z }.

Record UDEV_T := mkUDEV {
  descriptor : DESC_DEV_T;
  parent : Z;
  port_num : Z;
  dev_num : Z;
  cur_conf : Z;
  speed : SPEED_E;
  cfd_buff : Z;
  ep0 : EP_INFO_T;
  hc_driver : Z;
  iface_list : Z;
  udev_next : Z }.

#[global] Instance eta_EP_INFO_T : Eta EP_INFO_T := fun e =>
  mkEP_INFO (ep_bEndpointAddress e) (ep_bmAttributes e) (ep_bInterval e)
            (ep_bToggle e) (ep_wMaxPacketSize e) (hw_pipe e).
#[global] Instance eta_DESC_DEV_T : Eta DESC_DEV_T := fun d =>
  mkDESC_DEV (dev_bLength d) (dev_bDescriptorType d) (bcdUSB d) (bDeviceClass d)
    (bDeviceSubClass d) (bDeviceProtocol d) (bMaxPacketSize0 d) (idVendor d)
    (idProduct d) (bcdDevice d) (iManufacturer d) (iProduct d) (iSerialNumber d)
    (bNumConfigurations d).
#[global] Instance eta_UDEV_T : Eta UDEV_T := fun u =>
  mkUDEV (descriptor u) (parent u) (port_num u) (dev_num u) (cur_conf u) (speed u)
         (cfd_buff u) (ep0 u) (hc_driver u) (iface_list u) (udev_next u).

(** The objects as [memset(p, 0, sizeof *p)] leaves them. *)
Definition ep_zero : EP_INFO_T := mkEP_INFO 0 0 0 0 0 NULL.
Definition desc_dev_zero : DESC_DEV_T := mkDESC_DEV 0 0 0 0 0 0 0 0 0 0 0 0 0 0.
Definition udev_zero : UDEV_T :=
  mkUDEV desc_dev_zero NULL 0 0 0 SPEED_LOW NULL ep_zero NULL NULL NULL.

(** Sizes of the structures on the 64-bit target. *)
Definition sizeof_UDEV_T : Z := 88.
Definition sizeof_UTR_T : Z := 200.
Definition sizeof_IFACE_T : Z := 880.

(** A transfer request.  The eight isochronous slots are lists. *)
Record UTR_T := mkUTR {
  utr_udev : Z; utr_setup : DEV_REQ_T; utr_ep : Z; utr_buff : Z;
  bIsTransferDone : Z; utr_data_len : Z; utr_xfer_len : Z; bIsoNewSched : Z;
  iso_sf : Z; iso_xlen : list Z; iso_buff : list Z; iso_status : list Z;
  td_cnt : Z; utr_status : Z; utr_interval : Z; utr_context : Z; utr_func : Z;
  utr_next : Z }.
#[global] Instance eta_UTR_T : Eta UTR_T := fun u =>
  mkUTR (utr_udev u) (utr_setup u) (utr_ep u) (utr_buff u) (bIsTransferDone u)
    (utr_data_len u) (utr_xfer_len u) (bIsoNewSched u) (iso_sf u) (iso_xlen u)
    (iso_buff u) (iso_status u) (td_cnt u) (utr_status u) (utr_interval u)
    (utr_context u) (utr_func u) (utr_next u).
Definition utr_zero : UTR_T :=
  mkUTR NULL (mkDEV_REQ 0 0 0 0 0) NULL NULL 0 0 0 0 0 (replicate 8 0)
    (replicate 8 NULL) (replicate 8 0) 0 0 0 NULL NULL NULL.

(** ** Hardware transfer descriptors (ohci.h, ehci.h) *)
Record ED_T := mkED { ed_Info : Z; ed_TailP : Z; ed_HeadP : Z; ed_NextED : Z;
  ed_bInterval : Z; ed_next_sf : Z; ed_next : Z }.
Record TD_T := mkTD { td_Info : Z; td_CBP : Z; td_NextTD : Z; td_BE : Z;
  td_PSW : list Z; td_buff_start : Z; td_ed : Z; td_utr : Z; td_next : Z }.
Record QH_T := mkQH { HLink : Z; qh_Chrst : Z; qh_Cap : Z; Curr_qTD : Z;
  OL_Next_qTD : Z; OL_Alt_Next_qTD : Z; OL_Token : Z; OL_Bptr : list Z;
  qtd_list : Z; done_list : Z; qh_next : Z }.
Record qTD_T := mkqTD { Next_qTD : Z; Alt_Next_qTD : Z; qtd_Token : Z;
  qtd_Bptr : list Z; qtd_utr : Z; qtd_xfer_len : Z; qtd_qh : Z; qtd_next : Z }.
Record iTD_T := mkiTD { itd_Next_Link : Z; itd_Transaction : list Z; itd_Bptr : list Z;
  itd_iso_ep : Z; itd_utr : Z; itd_buff_base : Z; itd_fidx : Z; itd_trans_mask : Z;
  itd_sched_frnidx : Z; itd_next : Z }.
Record siTD_T := mksiTD { sitd_Next_Link : Z; sitd_Chrst : Z; sitd_Sched : Z;
  sitd_StsCtrl : Z; sitd_Bptr : list Z; sitd_BackLink : Z; sitd_iso_ep : Z;
  sitd_utr : Z; sitd_fidx : Z; sitd_sched_frnidx : Z; sitd_next : Z }.

#[global] Instance eta_TD_T : Eta TD_T := fun t => mkTD (td_Info t) (td_CBP t)
  (td_NextTD t) (td_BE t) (td_PSW t) (td_buff_start t) (td_ed t) (td_utr t) (td_next t).
#[global] Instance eta_QH_T : Eta QH_T := fun q => mkQH (HLink q) (qh_Chrst q) (qh_Cap q)
  (Curr_qTD q) (OL_Next_qTD q) (OL_Alt_Next_qTD q) (OL_Token q) (OL_Bptr q)
  (qtd_list q) (done_list q) (qh_next q).
#[global] Instance eta_qTD_T : Eta qTD_T := fun q => mkqTD (Next_qTD q) (Alt_Next_qTD q)
  (qtd_Token q) (qtd_Bptr q) (qtd_utr q) (qtd_xfer_len q) (qtd_qh q) (qtd_next q).

Definition ed_zero : ED_T := mkED 0 0 0 0 0 0 NULL.
Definition td_zero : TD_T := mkTD 0 0 0 0 (replicate 4 0) 0 NULL NULL NULL.
Definition qh_zero : QH_T := mkQH 0 0 0 0 0 0 0 (replicate 5 0) NULL NULL NULL.
Definition qtd_zero : qTD_T := mkqTD 0 0 0 (replicate 5 0) NULL 0 NULL NULL.
Definition itd_zero : iTD_T :=
  mkiTD 0 (replicate 8 0) (replicate 7 0) NULL NULL 0 0 0 0 NULL.
Definition sitd_zero : siTD_T := mksiTD 0 0 0 0 (replicate 2 0) 0 NULL NULL 0 0 NULL.

(** A unit of the hardware pool holds one object of one of the six types. *)
Inductive hw_obj :=
  | OED (x : ED_T) | OTD (x : TD_T) | OQH (x : QH_T)
  | OqTD (x : qTD_T) | OiTD (x : iTD_T) | OsiTD (x : siTD_T).

Inductive hw_kind := KED | KTD | KQH | KqTD | KiTD | KsiTD.
#[global] Instance hw_kind_eq_dec : EqDecision hw_kind.
Proof. solve_decision. Defined.

Definition QTD_LIST_END : Z := 0x1.
Definition QTD_STS_HALT : Z := Z.shiftl 1 6.

(** ** Pointer lemmas *)
Lemma land_u32 x : Z.land x 0xffffffff = u32 x.
Proof. apply (Z.land_ones x 32). lia. Qed.

Lemma nc_ptr_eq x : nc_ptr x = 0x100000000 + u32 x.
Proof.
  unfold nc_ptr. rewrite land_u32, Z.lor_comm.
  pose proof (uwrap_range 32 x ltac:(lia)).
  change NON_CACHE with (Z.shiftl 1 32).
  rewrite lor_shiftl_add by lia. lia.
Qed.

Lemma addr_s_eq x : addr_s x = u32 x.
Proof. apply land_u32. Qed.

Lemma addr_s_nc x : addr_s (nc_ptr x) = addr_s x.
Proof.
  rewrite !addr_s_eq, nc_ptr_eq. unfold uwrap.
  rewrite <- Z.add_mod_idemp_l by lia. change (0x100000000 mod 2 ^ 32) with 0.
  rewrite Z.add_0_l. apply Z.mod_mod. lia.
Qed.

Lemma ptr_to_u32_nc x : ptr_to_u32 (nc_ptr x) = ptr_to_u32 x.
Proof. pose proof (addr_s_nc x) as H. by rewrite !addr_s_eq in H. Qed.

Lemma nc_ptr_small x : 0 <= x < 2 ^ 32 -> nc_ptr x = 0x100000000 + x.
Proof. intros. rewrite nc_ptr_eq. by rewrite uwrap_id. Qed.

Lemma nc_ptr_not_null x : nc_ptr x <> NULL.
Proof. rewrite nc_ptr_eq. pose proof (uwrap_range 32 x ltac:(lia)). unfold NULL. lia. Qed.

Create HintDb ptr.
Create Rewrite HintDb ptr.
#[export] Hint Rewrite addr_s_nc ptr_to_u32_nc : ptr.
#[export] Hint Resolve nc_ptr_not_null : ptr.
