(* ===== verification/DmaAlloc.v ===== *)
(** The interface of the DMA buffer allocator, as its clients (the HID report
    parser, the USB core, the class drivers) use it.

    [MemAlloc.v] proves that [usbh_alloc_mem]/[usbh_free_mem] implement it;
    the clients' theorems hold for any implementation. *)
From S2P Require Import Prelude UsbDefs.

Class DmaAlloc (D : Type) := {
  da_alloc : Z -> M D Z;
  da_free : Z -> Z -> M D Z;
  (** The allocator's invariant. *)
  da_inv : D -> Prop;
  (** [p] is a live block of at least [n] bytes. *)
  da_block : D -> Z -> Z -> Prop;
  (** Two blocks that share no allocation unit. *)
  da_sep : Z -> Z -> Z -> Z -> Prop;
  (** Units in use, and the units a request takes. *)
  da_used : D -> Z;
  da_cost : Z -> Z;

  (** An allocation never faults.  It fails without an effect, or it returns a
      new block, apart from every live one, which all stay live. *)
  da_alloc_ok : forall n d, da_inv d -> 1 <= n ->
    wp (da_alloc n) (fun p d' => da_inv d' /\
      ((p = NULL /\ d' = d) \/
       (p <> NULL /\ da_block d' p n /\ da_used d' = da_used d + da_cost n /\
        forall q m, 1 <= m -> da_block d q m -> da_block d' q m /\ da_sep p n q m))) d;
  (** Freeing a live block succeeds and touches no block apart from it. *)
  da_free_ok : forall p n d, da_inv d -> 1 <= n -> da_block d p n ->
    wp (da_free p n) (fun r d' => r = 0 /\ da_inv d' /\
      da_used d' = da_used d - da_cost n /\
      forall q m, da_block d q m -> da_sep p n q m -> da_block d' q m) d;
  (** Separate blocks have no byte in common. *)
  da_sep_bytes : forall p n q m a, 0 <= n -> 0 <= m -> da_sep p n q m ->
    addr_s p <= a < addr_s p + n -> addr_s q <= a < addr_s q + m -> False }.
