(* ===== verification/MemAlloc.v ===== *)
(** USB host library: the memory pools of [src_core/mem_alloc.c].

    Three resources are handed out: runs of 1 KiB units of the DMA pool
    ([usbh_alloc_mem]/[usbh_free_mem], and the device and transfer-request
    objects that are carved out of it), single 128-byte units of the pool of
    hardware descriptors ([alloc_ohci_ED], ..., [free_ehci_siTD]), and USB
    device addresses.  The pools' locations are fixed by the linker: they are
    the parameter [Layout]. *)
From S2P Require Import Prelude UsbDefs DmaAlloc.

(** Where the linker puts [_dma_mem_pool] and [_hw_mem_pool]: in the low
    4 GiB, not over each other, not at 0. *)
Class Layout := {
  dma_pool : Z;
  hw_pool : Z;
  dma_pool_range : 0 < dma_pool /\ dma_pool + 131072 <= 2 ^ 32;
  hw_pool_range : 0 < hw_pool /\ hw_pool + 65536 <= 2 ^ 32;
  pools_disjoint : dma_pool + 131072 <= hw_pool \/ hw_pool + 65536 <= dma_pool }.

(** ** State *)
Record dma_st := mkDma {
  dma_unit_used : list Z;           (* _dma_unit_used[128] *)
  dma_mem_used_cnt : Z;             (* _dma_mem_used_cnt *)
  dma_bytes : Z -> Z }.             (* DRAM bytes, by physical address *)

Record hw_st := mkHw {
  hw_unit_used : list Z;            (* _hw_unit_used[512] *)
  hw_mem_used_cnt : Z;              (* _hw_mem_used_cnt *)
  sidx : Z;                         (* _sidx *)
  hw_kind_used : hw_kind -> Z;      (* _ohci_ed_used ... _ehci_sitd_used *)
  hw_mem : gmap Z hw_obj }.         (* the objects in _hw_mem_pool *)

Record addr_st := mkAddr {
  dev_addr_pool : list Z;           (* _dev_addr_pool[128] *)
  device_addr : Z }.                (* _device_addr *)

Record mem_st := mkMem {
  dma : dma_st;
  hw : hw_st;
  addrs : addr_st;
  g_udev_list : Z;
  udevs : gmap Z UDEV_T;            (* the UDEV_T objects, by pointer *)
  utrs : gmap Z UTR_T;              (* the UTR_T objects, by pointer *)
  utr_used : Z }.                   (* _utr_used *)

#[global] Instance eta_dma_st : Eta dma_st := fun s =>
  mkDma (dma_unit_used s) (dma_mem_used_cnt s) (dma_bytes s).
#[global] Instance eta_hw_st : Eta hw_st := fun s =>
  mkHw (hw_unit_used s) (hw_mem_used_cnt s) (sidx s) (hw_kind_used s) (hw_mem s).
#[global] Instance eta_addr_st : Eta addr_st := fun s =>
  mkAddr (dev_addr_pool s) (device_addr s).
#[global] Instance eta_mem_st : Eta mem_st := fun s =>
  mkMem (dma s) (hw s) (addrs s) (g_udev_list s) (udevs s) (utrs s) (utr_used s).

#[global] Instance hw_kind_countable : Countable hw_kind.
Proof.
  refine (inj_countable' (fun k => match k with
      KED => 0%nat | KTD => 1%nat | KQH => 2%nat | KqTD => 3%nat | KiTD => 4%nat | KsiTD => 5%nat end)
    (fun n => match n with
      0%nat => KED | 1%nat => KTD | 2%nat => KQH | 3%nat => KqTD | 4%nat => KiTD | _ => KsiTD end) _).
  by intros [].
Defined.

Definition on_dma {A} (m : M dma_st A) : M mem_st A := zoom dma (fun d s => s <| dma := d |>) m.
Definition on_hw {A} (m : M hw_st A) : M mem_st A := zoom hw (fun h s => s <| hw := h |>) m.
Definition on_addr {A} (m : M addr_st A) : M mem_st A := zoom addrs (fun a s => s <| addrs := a |>) m.

(** [memset(p, v, n)] on the bytes that [p] names. *)
Definition memset (p v n : Z) (m : Z -> Z) : Z -> Z := fun a =>
  if (addr_s p <=? a) && (a <? addr_s p + n) then v else m a.

(** ** usbh_memory_init *)
Definition usbh_memory_init (s : mem_st) : mem_st :=
  {| dma := mkDma (replicate 128 0) 0 (dma_bytes (dma s));
     hw := mkHw (replicate 512 0) 0 0 (fun _ => 0) (hw_mem (hw s));
     addrs := mkAddr (replicate 128 0) 1;
     g_udev_list := NULL; udevs := udevs s; utrs := utrs s; utr_used := 0 |}.

Definition usbh_memory_used : M mem_st Z := gets (fun s => u32 (dma_mem_used_cnt (dma s))).

Section mem_alloc.
Context `{L : Layout}.

(** ** DMA buffers *)

(** The search loop of [usbh_alloc_mem]: [n] iterations are left, the next one
    at index [i]. *)
Fixpoint dma_scan (used : list Z) (wanted : Z) (n : nat) (i found start : Z) : res (Z * Z) :=
  match n with
  | O => Ok (found, start)
  | S n =>
      u ← aget used i;
      if u =? 0 then
        let start := if found =? 0 then i else start in
        let found := found + 1 in
        if wanted <=? found then Ok (found, start)
        else dma_scan used wanted n (i + 1) found start
      else dma_scan used wanted n (i + 1) 0 start
  end.

(** [for (i = start; found > 0; i++, found--) _dma_unit_used[i] = 1;] *)
Fixpoint dma_mark (v : Z) (n : nat) (i : Z) (used : list Z) : res (list Z) :=
  match n with
  | O => Ok used
  | S n => used ← aset used i v; dma_mark v n (i + 1) used
  end.

Definition dma_unit (i : Z) : Z := dma_pool + DMA_MEM_UNIT_SIZE * i.

Definition units (size : Z) : Z := cdiv (size + DMA_MEM_UNIT_SIZE - 1) DMA_MEM_UNIT_SIZE.

Definition usbh_alloc_mem (size : Z) : M dma_st Z :=
  let wanted := units size in
  used ← gets dma_unit_used;
  '(found, start) ← lift (dma_scan used wanted (Z.to_nat (DMA_MEM_UNIT_NUM - wanted + 1)) 0 0 (-1));
  if found <? wanted then mret NULL
  else
    used ← lift (dma_mark 1 (Z.to_nat found) start used);
    modify (fun s => s <| dma_unit_used := used |>);;
    modify (fun s => s <| dma_mem_used_cnt ::= Z.add wanted |>);;
    modify (fun s => s <| dma_bytes ::=
      memset (nc_ptr (dma_unit start)) 0 (DMA_MEM_UNIT_SIZE * wanted) |>);;
    mret (nc_ptr (dma_unit start)).

(** The freeing loop only warns about a unit that is not in use. *)
Fixpoint dma_clear (n : nat) (i : Z) (used : list Z) : res (list Z) :=
  match n with
  | O => Ok used
  | S n => _ ← aget used i; used ← aset used i 0; dma_clear n (i + 1) used
  end.

Definition usbh_free_mem (p size : Z) : M dma_st Z :=
  let paddr := addr_s p in
  let base := addr_s dma_pool in
  if (paddr <? base) || (base + (DMA_MEM_UNIT_NUM - 1) * DMA_MEM_UNIT_SIZE <? paddr)
  then mret USBH_ERR_MEM_FREE_INVALID
  else
    let start := (paddr - base) `div` DMA_MEM_UNIT_SIZE in
    if negb (addr_s (dma_unit start) =? paddr) then mret USBH_ERR_MEM_FREE_INVALID
    else
      let wanted := units size in
      if base + DMA_MEM_UNIT_NUM * DMA_MEM_UNIT_SIZE <? u64 (paddr + wanted * DMA_MEM_UNIT_SIZE)
      then mret USBH_ERR_MEM_FREE_INVALID
      else
        used ← gets dma_unit_used;
        used ← lift (dma_clear (Z.to_nat wanted) start used);
        modify (fun s => s <| dma_unit_used := used |>);;
        modify (fun s => s <| dma_mem_used_cnt ::= fun c => c - wanted |>);;
        mret 0.

(** ** Devices *)

Definition get_udev (p : Z) : M mem_st UDEV_T := fun s =>
  match udevs s !! p with Some u => Ok (u, s) | None => Fault NullDeref end.
Definition put_udev (p : Z) (u : UDEV_T) : M mem_st unit :=
  modify (fun s => s <| udevs ::= <[p := u]> |>).

Definition alloc_device : M mem_st Z :=
  udev ← on_dma (usbh_alloc_mem sizeof_UDEV_T);
  if udev =? NULL then mret NULL
  else
    list ← gets g_udev_list;
    put_udev udev (udev_zero <| cur_conf := -1 |> <| udev_next := list |>);;
    modify (fun s => s <| g_udev_list := udev |>);;
    mret udev.

(** The [while (d != NULL)] loop of [free_device]. *)
Fixpoint device_unlink (fuel : nat) (d udev next : Z) : M mem_st unit :=
  match fuel with
  | O => fail Diverges
  | S fuel =>
      if d =? NULL then mret tt
      else
        dd ← get_udev d;
        if udev_next dd =? udev then put_udev d (dd <| udev_next := next |>)
        else device_unlink fuel (udev_next dd) udev next
  end.

Definition free_device (udev : Z) : M mem_st unit :=
  if udev =? NULL then mret tt
  else
    u ← get_udev udev;
    let u := u <| cfd_buff ::= ptr_s |> in
    put_udev udev u;;
    when (negb (cfd_buff u =? NULL))
      (_ ← on_dma (usbh_free_mem (cfd_buff u) MAX_DESC_BUFF_SIZE); mret tt);;
    head ← gets g_udev_list;
    (if head =? udev then
       h ← get_udev head;
       modify (fun s => s <| g_udev_list := udev_next h |>)
     else
       fuel ← gets (fun s => S (size (udevs s)));
       device_unlink fuel head udev (udev_next u));;
    _ ← on_dma (usbh_free_mem udev sizeof_UDEV_T);
    mret tt.

(** ** Device addresses *)
Fixpoint dev_addr_search (fuel : nat) : M addr_st Z :=
  match fuel with
  | O => fail Diverges
  | S fuel =>
      a ← gets device_addr;
      pool ← gets dev_addr_pool;
      u ← lift (aget pool a);
      if u =? 0 then
        pool ← lift (aset pool a 1);
        modify (fun s => s <| dev_addr_pool := pool |>);;
        mret a
      else
        modify (fun s => s <| device_addr ::= fun a => a + 1 |>);;
        modify (fun s => if 128 <=? device_addr s then s <| device_addr := 1 |> else s);;
        dev_addr_search fuel
  end.

(** 127 tries visit every address; a search that fails them all is back in
    the state it started from and never ends. *)
Definition alloc_dev_address : M addr_st Z :=
  modify (fun s => s <| device_addr ::= fun a => a + 1 |>);;
  modify (fun s => if 128 <=? device_addr s then s <| device_addr := 1 |> else s);;
  dev_addr_search 127.

Definition free_dev_address (dev_addr : Z) : M addr_st unit :=
  if dev_addr <? 128 then
    pool ← gets dev_addr_pool;
    pool ← lift (aset pool dev_addr 0);
    modify (fun s => s <| dev_addr_pool := pool |>)
  else mret tt.

(** ** Transfer requests *)
Definition alloc_utr (udev : Z) : M mem_st Z :=
  utr ← on_dma (usbh_alloc_mem sizeof_UTR_T);
  if utr =? NULL then mret NULL
  else
    modify (fun s => s <| utrs ::= <[utr := utr_zero <| utr_udev := udev |>]> |>);;
    modify (fun s => s <| utr_used ::= Z.add 1 |>);;
    mret utr.

Definition free_utr (utr : Z) : M mem_st unit :=
  if utr =? NULL then mret tt
  else
    _ ← on_dma (usbh_free_mem utr sizeof_UTR_T);
    modify (fun s => s <| utr_used ::= fun c => c - 1 |>).

(** ** Hardware descriptors *)
Definition hw_unit (i : Z) : Z := hw_pool + HW_MEM_UNIT_SIZE * i.

Definition count_kind (k : hw_kind) (d : Z) (s : hw_st) : hw_st :=
  s <| hw_mem_used_cnt ::= Z.add d |> <| hw_kind_used ::= fun f => <[k := f k + d]> f |>.

(** The body of the allocating loops on a free unit [i]. *)
Definition hw_take (k : hw_kind) (i : Z) (o : hw_obj) : M hw_st Z :=
  used ← gets hw_unit_used;
  used ← lift (aset used i 1);
  modify (fun s => s <| hw_unit_used := used |>);;
  modify (count_kind k 1);;
  modify (fun s => s <| hw_mem ::= <[nc_ptr (hw_unit i) := o]> |>);;
  mret (nc_ptr (hw_unit i)).

(** [for (i = 0; i < HW_MEM_UNIT_NUM; i++) if (_hw_unit_used[i] == 0)] *)
Fixpoint hw_first (used : list Z) (n : nat) (i : Z) : res (option Z) :=
  match n with
  | O => Ok None
  | S n =>
      u ← aget used i;
      if u =? 0 then Ok (Some i) else hw_first used n (i + 1)
  end.

Definition alloc_linear (k : hw_kind) (o : hw_obj) : M hw_st Z :=
  used ← gets hw_unit_used;
  r ← lift (hw_first used 512 0);
  match r with
  | Some i => hw_take k i o
  | None => mret NULL
  end.

Definition alloc_ohci_ED : M hw_st Z := alloc_linear KED (OED ed_zero).
Definition alloc_ohci_TD (utr : Z) : M hw_st Z :=
  alloc_linear KTD (OTD (td_zero <| td_utr := utr |>)).

(** [for (i = (_sidx+1) % NUM; i != _sidx; i = (i+1) % NUM)] *)
Fixpoint hw_next (used : list Z) (sidx : Z) (fuel : nat) (i : Z) : res (option Z) :=
  match fuel with
  | O => Fault Diverges
  | S fuel =>
      if i =? sidx then Ok None
      else
        u ← aget used i;
        if u =? 0 then Ok (Some i)
        else hw_next used sidx fuel (crem (i + 1) HW_MEM_UNIT_NUM)
  end.

Definition alloc_rotating (k : hw_kind) (o : hw_obj) : M hw_st Z :=
  used ← gets hw_unit_used;
  si ← gets sidx;
  r ← lift (hw_next used si 512 (crem (si + 1) HW_MEM_UNIT_NUM));
  match r with
  | Some i => modify (fun s => s <| sidx := i |>);; hw_take k i o
  | None => mret NULL
  end.

Definition qh_init : QH_T :=
  qh_zero <| Curr_qTD := QTD_LIST_END |> <| OL_Next_qTD := QTD_LIST_END |>
          <| OL_Alt_Next_qTD := QTD_LIST_END |> <| OL_Token := QTD_STS_HALT |>.
Definition qtd_init (utr : Z) : qTD_T :=
  qtd_zero <| Next_qTD := QTD_LIST_END |> <| Alt_Next_qTD := QTD_LIST_END |>
           <| qtd_Token := 0x1197B7F |> <| qtd_utr := utr |>.

Definition alloc_ehci_QH : M hw_st Z := alloc_rotating KQH (OQH qh_init).
Definition alloc_ehci_qTD (utr : Z) : M hw_st Z := alloc_rotating KqTD (OqTD (qtd_init utr)).
Definition alloc_ehci_iTD : M hw_st Z := alloc_rotating KiTD (OiTD itd_zero).
Definition alloc_ehci_siTD : M hw_st Z := alloc_rotating KsiTD (OsiTD sitd_zero).

(** The freeing loops compare the low 32 bits of the unit's address, so a
    cached and an uncached pointer free the same unit. *)
Fixpoint hw_index (p : Z) (n : nat) (i : Z) : option Z :=
  match n with
  | O => None
  | S n => if ptr_to_u32 (hw_unit i) =? ptr_to_u32 p then Some i else hw_index p n (i + 1)
  end.

Definition hw_free (k : hw_kind) (p : Z) : M hw_st unit :=
  match hw_index p 512 0 with
  | Some i =>
      modify (count_kind k (-1));;
      used ← gets hw_unit_used;
      used ← lift (aset used i 0);
      modify (fun s => s <| hw_unit_used := used |>)
  | None => mret tt
  end.

Definition free_ohci_ED (ed : Z) : M hw_st unit := hw_free KED ed.
Definition free_ohci_TD (td : Z) : M hw_st unit := hw_free KTD td.
Definition free_ehci_QH (qh : Z) : M hw_st unit := hw_free KQH qh.
Definition free_ehci_qTD (qtd : Z) : M hw_st unit := hw_free KqTD qtd.
Definition free_ehci_iTD (itd : Z) : M hw_st unit := hw_free KiTD itd.
Definition free_ehci_siTD (sitd : Z) : M hw_st unit := hw_free KsiTD sitd.

End mem_alloc.

(** * Invariants and specifications *)

(** The units [start .. start + w) are free. *)
Definition run_free (used : list Z) (start w : Z) : Prop :=
  forall j, start <= j < start + w -> zlookup used j = Some 0.

Definition bits01 (l : list Z) : Prop := Forall (fun u => u = 0 \/ u = 1) l.

Record dma_inv (d : dma_st) : Prop := {
  dma_len : length (dma_unit_used d) = 128%nat;
  dma_01 : bits01 (dma_unit_used d);
  dma_cnt : dma_mem_used_cnt d = zsum (dma_unit_used d) }.

(** What a successful allocation of the [w] units from [start] does. *)
Definition dma_taken `{Layout} (start w : Z) (d : dma_st) : dma_st :=
  {| dma_unit_used := fill 1 (Z.to_nat w) (Z.to_nat start) (dma_unit_used d);
     dma_mem_used_cnt := w + dma_mem_used_cnt d;
     dma_bytes := memset (nc_ptr (dma_unit start)) 0 (DMA_MEM_UNIT_SIZE * w) (dma_bytes d) |}.

Definition dma_released (start w : Z) (d : dma_st) : dma_st :=
  {| dma_unit_used := fill 0 (Z.to_nat w) (Z.to_nat start) (dma_unit_used d);
     dma_mem_used_cnt := dma_mem_used_cnt d - w;
     dma_bytes := dma_bytes d |}.

(** [start] is the lowest run of [w] free units that ends at or before [lim]. *)
Definition first_fit (used : list Z) (w lim start : Z) : Prop :=
  0 <= start /\ start + w <= lim /\ run_free used start w /\
  forall s, 0 <= s < start -> ~ run_free used s w.

Definition no_fit (used : list Z) (w lim : Z) : Prop :=
  forall s, 0 <= s -> s + w <= lim -> ~ run_free used s w.

(** * Lemmas on the DMA pool *)
Section dma_lemmas.
Context `{L : Layout}.
Implicit Types (d : dma_st) (used : list Z).

Lemma units_pos size : 1 <= size -> 1 <= units size.
Proof.
  intros. unfold units, DMA_MEM_UNIT_SIZE. rewrite Z.quot_div_nonneg by lia.
  apply Z.div_le_lower_bound; lia.
Qed.

Lemma units_bytes size : 0 <= size -> size <= DMA_MEM_UNIT_SIZE * units size < size + 1024.
Proof.
  intros. unfold units, DMA_MEM_UNIT_SIZE. rewrite Z.quot_div_nonneg by lia.
  pose proof (Z.div_mod (size + 1024 - 1) 1024 ltac:(lia)).
  pose proof (Z.mod_pos_bound (size + 1024 - 1) 1024 ltac:(lia)). lia.
Qed.

Lemma units_le size k : size <= 1024 * k -> 0 <= size -> units size <= k.
Proof.
  intros. unfold units, DMA_MEM_UNIT_SIZE. rewrite Z.quot_div_nonneg by lia.
  apply Z.lt_succ_r, Z.div_lt_upper_bound; lia.
Qed.

Lemma dma_scan_spec used wanted n : forall i found start,
  1 <= wanted -> 0 <= found <= i -> found < wanted -> i + Z.of_nat n <= zlen used ->
  run_free used (i - found) found -> (found <> 0 -> start = i - found) ->
  (found < i -> zlookup used (i - found - 1) <> Some 0) ->
  (forall s, 0 <= s -> s + wanted <= i -> ~ run_free used s wanted) ->
  exists f' st', dma_scan used wanted n i found start = Ok (f', st') /\
    ((f' = wanted /\ first_fit used wanted (i + Z.of_nat n) st') \/
     (f' < wanted /\ no_fit used wanted (i + Z.of_nat n))).
Proof.
  induction n as [|n IH]; intros i found start Hw Hf Hfw Hn Hrun Hst Hprev Hno; simpl.
  { exists found, start. split; [done|]. right. split; [done|].
    intros s Hs Hle. apply Hno; lia. }
  destruct (zlookup_is_Some used i) as [u Hu]; [lia|].
  rewrite (proj2 (aget_Ok used i u) Hu). unfold mbind at 1. simpl.
  replace (i + Z.of_nat (S n)) with (i + 1 + Z.of_nat n) by lia.
  destruct (u =? 0) eqn:Eu; breflect; subst.
  - set (start' := if found =? 0 then i else start).
    assert (start' = i - found) as Hst'.
    { subst start'. case_match eqn:E0; breflect; [lia|]. by apply Hst. }
    assert (run_free used (i + 1 - (found + 1)) (found + 1)) as Hrun'.
    { intros j Hj. destruct (decide (j = i)) as [->|]; [done|]. apply Hrun. lia. }
    assert (forall s, 0 <= s -> s + wanted <= i + 1 -> s < i - found ->
              ~ run_free used s wanted) as Hlow.
    { intros s Hs Hle Hlt Hr. destruct (decide (s + wanted <= i)); [by apply (Hno s)|].
      apply Hprev; [lia|]. apply Hr. lia. }
    case_match eqn:Ew; breflect.
    + exists (found + 1), start'. split; [done|]. left. rewrite Hst'.
      assert (found + 1 = wanted) as Ewanted by lia.
      split; [done|]. split_and!; [lia..| |].
      * rewrite <- Ewanted. replace (i - found) with (i + 1 - (found + 1)) by lia. done.
      * intros s Hs. apply Hlow; lia.
    + apply IH; try lia; [done| |].
      * intros ?. replace (i + 1 - (found + 1) - 1) with (i - found - 1) by lia.
        apply Hprev. lia.
      * intros s Hs Hle. apply Hlow; lia.
  - apply IH; try lia.
    + intros j Hj. lia.
    + intros _. replace (i + 1 - 0 - 1) with i by lia. congruence.
    + intros s Hs Hle Hr. destruct (decide (s + wanted <= i)); [by apply (Hno s)|].
      specialize (Hr i ltac:(lia)). congruence.
Qed.

Lemma aset_in used i v :
  0 <= i < zlen used -> aset used i v = Ok (<[Z.to_nat i := v]> used).
Proof. apply aset_Ok. Qed.

Lemma dma_mark_fill v n : forall i used,
  0 <= i -> i + Z.of_nat n <= zlen used ->
  dma_mark v n i used = Ok (fill v n (Z.to_nat i) used).
Proof.
  induction n as [|n IH]; intros i used Hi Hn; simpl; [done|].
  rewrite aset_Ok by lia. unfold mbind, res_bind. rewrite IH.
  - by replace (Z.to_nat (i + 1)) with (S (Z.to_nat i)) by lia.
  - lia.
  - rewrite length_insert. lia.
Qed.

Lemma dma_clear_fill n : forall i used,
  0 <= i -> i + Z.of_nat n <= zlen used ->
  dma_clear n i used = Ok (fill 0 n (Z.to_nat i) used).
Proof.
  induction n as [|n IH]; intros i used Hi Hn; simpl; [done|].
  destruct (aget_in used i) as [u ->]; [lia|]. unfold mbind at 1, res_bind at 1.
  rewrite aset_Ok by lia. unfold mbind, res_bind. rewrite IH.
  - by replace (Z.to_nat (i + 1)) with (S (Z.to_nat i)) by lia.
  - lia.
  - rewrite length_insert. lia.
Qed.

(** The search window of an allocation: a run must end before this unit. *)
Definition scan_limit (size : Z) : Z := Z.max 0 (DMA_MEM_UNIT_NUM - units size + 1).

Lemma alloc_mem_spec size d :
  length (dma_unit_used d) = 128%nat -> 1 <= size ->
  (usbh_alloc_mem size d = Ok (NULL, d) /\
     no_fit (dma_unit_used d) (units size) (scan_limit size)) \/
  (exists start, first_fit (dma_unit_used d) (units size) (scan_limit size) start /\
     usbh_alloc_mem size d = Ok (nc_ptr (dma_unit start), dma_taken start (units size) d)).
Proof.
  intros Hlen Hsize. pose proof (units_pos size Hsize) as Hw.
  unfold usbh_alloc_mem, mbind, M_bind, gets, lift.
  assert (Z.of_nat (Z.to_nat (DMA_MEM_UNIT_NUM - units size + 1)) = scan_limit size) as Hlim
    by (unfold scan_limit; lia).
  destruct (dma_scan_spec (dma_unit_used d) (units size)
    (Z.to_nat (DMA_MEM_UNIT_NUM - units size + 1)) 0 0 (-1))
    as (f & st & -> & Hres); try done; try lia.
  { unfold scan_limit, DMA_MEM_UNIT_NUM in *. lia. }
  { intros j ?. lia. }
  rewrite Hlim, Z.add_0_l in Hres. destruct Hres as [[-> Hff]|[Hlt Hno]].
  - right. exists st. split; [done|]. destruct Hff as (Hst & Hend & _).
    rewrite Z.ltb_irrefl, dma_mark_fill by (unfold scan_limit, DMA_MEM_UNIT_NUM in *; lia).
    done.
  - left. rewrite (proj2 (Z.ltb_lt f (units size)) Hlt). done.
Qed.

Lemma dma_unit_addr i : 0 <= i < 128 -> addr_s (dma_unit i) = dma_unit i.
Proof.
  intros. rewrite addr_s_eq. apply uwrap_id. unfold dma_unit, DMA_MEM_UNIT_SIZE.
  pose proof dma_pool_range. lia.
Qed.

Lemma dma_pool_addr : addr_s dma_pool = dma_pool.
Proof.
  rewrite addr_s_eq. apply uwrap_id. pose proof dma_pool_range. lia.
Qed.

(** A free of units [start ..] of the pool: the block must end in the pool. *)
Lemma free_mem_spec p size start d :
  length (dma_unit_used d) = 128%nat -> 0 <= size < 2 ^ 31 - 1024 ->
  addr_s p = dma_unit start -> 0 <= start < 128 ->
  usbh_free_mem p size d =
    if start + units size <=? 128 then Ok (0, dma_released start (units size) d)
    else Ok (USBH_ERR_MEM_FREE_INVALID, d).
Proof.
  intros Hlen Hsize Hp Hstart. pose proof dma_pool_range as [Hb1 Hb2].
  pose proof (units_bytes size ltac:(lia)) as Hu. unfold DMA_MEM_UNIT_SIZE in Hu.
  unfold usbh_free_mem. rewrite Hp, dma_pool_addr.
  assert (dma_unit start - dma_pool = start * DMA_MEM_UNIT_SIZE) as ->
    by (unfold dma_unit; lia).
  rewrite Z.div_mul by done. rewrite dma_unit_addr, Z.eqb_refl by lia. cbn [negb].
  rewrite uwrap_id
    by (unfold dma_unit, DMA_MEM_UNIT_SIZE in *; lia).
  unfold dma_unit, DMA_MEM_UNIT_SIZE, DMA_MEM_UNIT_NUM in *.
  case_if; [apply orb_true_iff in Heqb as [?|?]; breflect; lia|].
  destruct (start + units size <=? 128) eqn:E; breflect.
  - rewrite (proj2 (Z.ltb_ge _ _)) by lia.
    unfold mbind, M_bind, gets, lift. rewrite dma_clear_fill by lia. done.
  - rewrite (proj2 (Z.ltb_lt _ _)) by lia. done.
Qed.

Lemma dma_unit_dec p :
  (exists q, 0 <= q < 128 /\ addr_s p = dma_unit q) \/
  (forall i, 0 <= i < 128 -> addr_s p <> dma_unit i).
Proof.
  set (q := (addr_s p - dma_pool) / 1024).
  destruct (decide (0 <= q < 128 /\ addr_s p = dma_unit q)) as [|Hno]; [left; eauto|].
  right. intros i Hi E. apply Hno. assert (q = i) as ->; [|done].
  subst q. rewrite E. unfold dma_unit, DMA_MEM_UNIT_SIZE.
  replace (dma_pool + 1024 * i - dma_pool) with (i * 1024) by lia. by apply Z.div_mul.
Qed.

(** A pointer that is not the start of a unit of the pool is refused. *)
Lemma free_mem_bad p size d :
  (forall i, 0 <= i < 128 -> addr_s p <> dma_unit i) ->
  usbh_free_mem p size d = Ok (USBH_ERR_MEM_FREE_INVALID, d).
Proof.
  intros Hp. pose proof dma_pool_range as [Hb1 Hb2].
  unfold usbh_free_mem. rewrite dma_pool_addr. case_if; [done|].
  unfold DMA_MEM_UNIT_NUM, DMA_MEM_UNIT_SIZE in *.
  set (q := (addr_s p - dma_pool) / 1024).
  assert (0 <= q < 128) as Hq.
  { subst q. split; [apply Z.div_pos; lia|apply Z.div_lt_upper_bound; lia]. }
  rewrite dma_unit_addr by lia. case_if; [done|].
  exfalso. by apply (Hp q).
Qed.

(** ** The invariant *)
Lemma bits01_fill l v n i : v = 0 \/ v = 1 -> bits01 l -> bits01 (fill v n i l).
Proof.
  intros Hv Hl. apply Forall_lookup. intros j x Hx.
  destruct (decide (i <= j < i + n)%nat).
  - pose proof (lookup_lt_Some _ _ _ Hx) as Hlt. rewrite length_fill in Hlt.
    rewrite lookup_fill_in in Hx by lia. by injection Hx as <-.
  - rewrite lookup_fill_out in Hx by done. exact (Forall_lookup_1 _ _ _ _ Hl Hx).
Qed.

Lemma run_free_nat used start w u :
  0 <= start -> (forall j, start <= j < start + w -> zlookup used j = Some u) ->
  forall j, (Z.to_nat start <= j < Z.to_nat start + Z.to_nat w)%nat -> used !! j = Some u.
Proof.
  intros Hs H j Hj. assert (zlookup used (Z.of_nat j) = Some u) as [_ E]%zlookup_Some
    by (apply H; lia). by rewrite Nat2Z.id in E.
Qed.

Lemma dma_taken_inv start w d :
  dma_inv d -> 0 <= start -> 0 <= w -> run_free (dma_unit_used d) start w ->
  dma_inv (dma_taken start w d).
Proof.
  intros [Hl H01 Hc] ? ? Hr. split; simpl.
  - by rewrite length_fill.
  - apply bits01_fill; auto.
  - rewrite (zsum_fill _ _ _ 0) by by apply run_free_nat. lia.
Qed.

Lemma dma_released_inv start w d :
  dma_inv d -> 0 <= start -> 0 <= w ->
  (forall j, start <= j < start + w -> zlookup (dma_unit_used d) j = Some 1) ->
  dma_inv (dma_released start w d).
Proof.
  intros [Hl H01 Hc] ? ? Hr. split; simpl.
  - by rewrite length_fill.
  - apply bits01_fill; auto.
  - rewrite (zsum_fill _ _ _ 1) by by apply run_free_nat. lia.
Qed.

Lemma dma_taken_lookup start w d j :
  0 <= start -> 0 <= w -> start + w <= zlen (dma_unit_used d) ->
  zlookup (dma_unit_used (dma_taken start w d)) j =
    if (start <=? j) && (j <? start + w) then Some 1 else zlookup (dma_unit_used d) j.
Proof.
  intros. unfold zlookup. simpl.
  destruct ((start <=? j) && (j <? start + w)) eqn:E; breflect.
  - rewrite (proj2 (Z.leb_le 0 j)) by lia. apply lookup_fill_in; lia.
  - destruct (0 <=? j) eqn:E0; [|done]. breflect. apply lookup_fill_out.
    apply andb_false_iff in E as [|]; breflect; lia.
Qed.
End dma_lemmas.

(** * The DMA pool implements the allocator interface *)
Section dma_interface.
Context `{L : Layout}.

(** A live block: whole units of the pool, all of them in use. *)
Definition dma_block (d : dma_st) (p n : Z) : Prop :=
  exists start, addr_s p = dma_unit start /\ 0 <= start /\ start + units n <= 128 /\
    n < 2 ^ 31 - 1024 /\
    forall j, start <= j < start + units n -> zlookup (dma_unit_used d) j = Some 1.

Definition dma_sep (p n q m : Z) : Prop :=
  addr_s p + DMA_MEM_UNIT_SIZE * units n <= addr_s q \/
  addr_s q + DMA_MEM_UNIT_SIZE * units m <= addr_s p.

Lemma first_fit_bound size d start :
  length (dma_unit_used d) = 128%nat -> 1 <= size ->
  first_fit (dma_unit_used d) (units size) (scan_limit size) start ->
  0 <= start /\ start + units size <= 128 /\ size < 2 ^ 31 - 1024.
Proof.
  intros Hl Hs (H0 & H1 & _). pose proof (units_pos size Hs).
  pose proof (units_bytes size ltac:(lia)).
  unfold scan_limit, DMA_MEM_UNIT_NUM, DMA_MEM_UNIT_SIZE in *. lia.
Qed.

Lemma alloc_block_law n d :
  dma_inv d -> 1 <= n ->
  wp (usbh_alloc_mem n) (fun p d' => dma_inv d' /\
    ((p = NULL /\ d' = d) \/
     (p <> NULL /\ dma_block d' p n /\ dma_mem_used_cnt d' = dma_mem_used_cnt d + units n /\
      forall q m, 1 <= m -> dma_block d q m -> dma_block d' q m /\ dma_sep p n q m))) d.
Proof.
  intros Hinv Hn. pose proof (dma_len d Hinv) as Hl. pose proof (units_pos n Hn) as Hw.
  unfold wp. destruct (alloc_mem_spec n d Hl Hn) as [[-> _]|(start & Hff & ->)].
  { split; [done|]. by left. }
  destruct (first_fit_bound n d start Hl Hn Hff) as (H0 & H1 & H2).
  destruct Hff as (_ & _ & Hrun & _).
  assert (forall j, zlookup (dma_unit_used (dma_taken start (units n) d)) j =
    if (start <=? j) && (j <? start + units n) then Some 1 else zlookup (dma_unit_used d) j)
    as Hlook by (intros; apply dma_taken_lookup; lia).
  split; [apply dma_taken_inv; auto; lia|]. right.
  split; [apply nc_ptr_not_null|]. split.
  { exists start. split_and!; try lia; [by rewrite addr_s_nc, dma_unit_addr by lia|].
    intros j Hj. rewrite Hlook, (proj2 (Z.leb_le _ _)), (proj2 (Z.ltb_lt _ _)) by lia. done. }
  split; [simpl; lia|]. intros q m Hm (sq & Hq & Hq0 & Hq1 & Hq2 & Hused).
  pose proof (units_pos m Hm) as Hwm. split.
  - exists sq. split_and!; try done. intros j Hj. rewrite Hlook. case_if; [done|auto].
  - unfold dma_sep. rewrite addr_s_nc, dma_unit_addr, Hq by lia.
    destruct (decide (start + units n <= sq \/ sq + units m <= start)) as [|Hno].
    + unfold dma_unit, DMA_MEM_UNIT_SIZE. lia.
    + exfalso. set (j := Z.max start sq).
      pose proof (Hrun j ltac:(lia)). pose proof (Hused j ltac:(lia)). congruence.
Qed.

Lemma free_block_law p n d :
  dma_inv d -> 1 <= n -> dma_block d p n ->
  wp (usbh_free_mem p n) (fun r d' => r = 0 /\ dma_inv d' /\
    dma_mem_used_cnt d' = dma_mem_used_cnt d - units n /\
    forall q m, dma_block d q m -> dma_sep p n q m -> dma_block d' q m) d.
Proof.
  intros Hinv Hn (start & Hp & H0 & H1 & H2 & Hused).
  pose proof (dma_len d Hinv) as Hl. pose proof (units_pos n Hn) as Hw.
  unfold wp. rewrite (free_mem_spec p n start) by (done || lia).
  rewrite (proj2 (Z.leb_le _ _)) by lia. split; [done|].
  split; [apply dma_released_inv; auto; lia|]. split; [done|].
  intros q m (sq & Hq & Hq0 & Hq1 & Hq2 & Huq) Hsep. exists sq. split_and!; try done.
  intros j Hj. unfold dma_sep in Hsep. rewrite Hp, Hq in Hsep.
  unfold dma_unit, DMA_MEM_UNIT_SIZE in Hsep.
  apply zlookup_Some. split; [lia|]. simpl. rewrite lookup_fill_out by lia.
  by apply zlookup_Some, Huq.
Qed.

#[global] Instance dma_pool_alloc : DmaAlloc dma_st.
Proof.
  refine {| da_alloc := usbh_alloc_mem; da_free := usbh_free_mem; da_inv := dma_inv;
    da_block := dma_block; da_sep := dma_sep; da_used := dma_mem_used_cnt; da_cost := units |}.
  - intros. by apply alloc_block_law.
  - intros. by apply free_block_law.
  - intros p n q m a Hn Hm Hsep Ha Hb.
    pose proof (units_bytes n Hn). pose proof (units_bytes m Hm).
    unfold dma_sep in Hsep. lia.
Defined.
End dma_interface.

(** * Lemmas on the hardware descriptor pool *)
Definition sum_kinds (f : hw_kind -> Z) : Z := f KED + f KTD + f KQH + f KqTD + f KiTD + f KsiTD.

Record hw_inv (h : hw_st) : Prop := {
  hw_len : length (hw_unit_used h) = 512%nat;
  hw_01 : bits01 (hw_unit_used h);
  hw_sidx : 0 <= sidx h < 512;
  hw_cnt : hw_mem_used_cnt h = zsum (hw_unit_used h);
  hw_kinds : sum_kinds (hw_kind_used h) = hw_mem_used_cnt h }.

Section hw_lemmas.
Context `{L : Layout}.
Implicit Types (h : hw_st) (used : list Z).

Lemma hw_first_spec used n : forall i,
  0 <= i -> i + Z.of_nat n <= zlen used ->
  (exists j, hw_first used n i = Ok (Some j) /\ i <= j < i + Z.of_nat n /\
     zlookup used j = Some 0 /\ forall k, i <= k < j -> zlookup used k <> Some 0) \/
  (hw_first used n i = Ok None /\ forall k, i <= k < i + Z.of_nat n -> zlookup used k <> Some 0).
Proof.
  induction n as [|n IH]; intros i Hi Hn; simpl.
  { right. split; [done|]. lia. }
  destruct (zlookup_is_Some used i) as [u Hu]; [lia|].
  rewrite (proj2 (aget_Ok used i u) Hu). unfold mbind, res_bind.
  case_if; subst.
  { left. exists i. split_and!; try done; try lia. }
  destruct (IH (i + 1)) as [(j & -> & ? & ? & Hk)|[-> Hk]]; try lia.
  - left. exists j. split_and!; try done; try lia.
    intros k ?. destruct (decide (k = i)) as [->|]; [congruence|]. apply Hk. lia.
  - right. split; [done|]. intros k ?.
    destruct (decide (k = i)) as [->|]; [congruence|]. apply Hk. lia.
Qed.

(** The [k]-th unit the rotating search visits. *)
Definition rot (si k : Z) : Z := (si + 1 + k) mod 512.

Lemma rot_succ si k : 0 <= si -> 0 <= k -> crem (rot si k + 1) HW_MEM_UNIT_NUM = rot si (k + 1).
Proof.
  intros. unfold rot, HW_MEM_UNIT_NUM.
  pose proof (Z.mod_pos_bound (si + 1 + k) 512 ltac:(lia)).
  rewrite Z.rem_mod_nonneg by lia. rewrite Z.add_mod_idemp_l by lia. f_equal. lia.
Qed.

Lemma rot_last si : 0 <= si < 512 -> rot si 511 = si.
Proof.
  intros. unfold rot. replace (si + 1 + 511) with (si + 1 * 512) by lia.
  rewrite Z.mod_add by lia. apply Z.mod_small. lia.
Qed.

Lemma rot_other si k : 0 <= si < 512 -> 0 <= k < 511 -> rot si k <> si.
Proof.
  intros ? ? E. unfold rot in E.
  pose proof (Z.div_mod (si + 1 + k) 512 ltac:(lia)). nia.
Qed.

Lemma rot_surj si j : 0 <= si < 512 -> 0 <= j < 512 -> j <> si ->
  exists k, 0 <= k < 511 /\ rot si k = j.
Proof.
  intros. exists ((j - si - 1) mod 512). unfold rot.
  rewrite Z.add_mod_idemp_r by lia.
  replace (si + 1 + (j - si - 1)) with j by lia. rewrite (Z.mod_small j) by lia.
  split; [|done]. pose proof (Z.mod_pos_bound (j - si - 1) 512 ltac:(lia)).
  destruct (decide ((j - si - 1) mod 512 = 511)) as [E|]; [|lia].
  pose proof (Z.div_mod (j - si - 1) 512 ltac:(lia)). nia.
Qed.

Lemma hw_next_spec used si n : forall k,
  length used = 512%nat -> 0 <= si < 512 -> 0 <= k -> k + Z.of_nat n = 511 ->
  (exists m, hw_next used si (S n) (rot si k) = Ok (Some (rot si m)) /\ k <= m < 511 /\
     zlookup used (rot si m) = Some 0 /\
     forall q, k <= q < m -> zlookup used (rot si q) <> Some 0) \/
  (hw_next used si (S n) (rot si k) = Ok None /\
     forall q, k <= q < 511 -> zlookup used (rot si q) <> Some 0).
Proof.
  induction n as [|n IH]; intros k Hl Hsi Hk Hn.
  { right. replace k with 511 by lia. simpl. rewrite rot_last, Z.eqb_refl by done.
    split; [done|]. lia. }
  cbn [hw_next]. rewrite (proj2 (Z.eqb_neq _ _)) by (apply rot_other; lia).
  destruct (zlookup_is_Some used (rot si k)) as [u Hu].
  { unfold rot. pose proof (Z.mod_pos_bound (si + 1 + k) 512 ltac:(lia)). lia. }
  rewrite (proj2 (aget_Ok used _ u) Hu). unfold mbind, res_bind.
  destruct (u =? 0) eqn:Eu; breflect; subst.
  { left. exists k. split_and!; try done; try lia. }
  rewrite rot_succ by lia. change (if rot si (k + 1) =? si then _ else _) with
    (hw_next used si (S n) (rot si (k + 1))).
  destruct (IH (k + 1)) as [(m & -> & ? & ? & Hq)|[-> Hq]]; try done; try lia.
  - left. exists m. split_and!; try done; try lia.
    intros q ?. destruct (decide (q = k)) as [->|]; [congruence|]. apply Hq. lia.
  - right. split; [done|]. intros q ?.
    destruct (decide (q = k)) as [->|]; [congruence|]. apply Hq. lia.
Qed.

(** A unit taken for a descriptor of kind [k]. *)
Definition hw_taken (k : hw_kind) (i : Z) (o : hw_obj) (h : hw_st) : hw_st :=
  count_kind k 1 h <| hw_unit_used ::= <[Z.to_nat i := 1]> |>
                   <| hw_mem ::= <[nc_ptr (hw_unit i) := o]> |>.

Lemma hw_take_spec k i o h :
  length (hw_unit_used h) = 512%nat -> 0 <= i < 512 ->
  hw_take k i o h = Ok (nc_ptr (hw_unit i), hw_taken k i o h).
Proof.
  intros Hl Hi. unfold hw_take, mbind, M_bind, gets, lift.
  rewrite aset_Ok by lia. destruct h. done.
Qed.

Definition hw_released (k : hw_kind) (i : Z) (h : hw_st) : hw_st :=
  count_kind k (-1) h <| hw_unit_used ::= <[Z.to_nat i := 0]> |>.

Lemma hw_unit_addr i : 0 <= i < 512 -> ptr_to_u32 (hw_unit i) = hw_unit i.
Proof.
  intros. apply uwrap_id. unfold hw_unit, HW_MEM_UNIT_SIZE. pose proof hw_pool_range. lia.
Qed.

Lemma hw_index_None p n : forall i,
  (forall j, i <= j < i + Z.of_nat n -> ptr_to_u32 (hw_unit j) <> ptr_to_u32 p) ->
  hw_index p n i = None.
Proof.
  induction n as [|n IH]; intros i H; simpl; [done|].
  rewrite (proj2 (Z.eqb_neq _ _)) by (apply H; lia). apply IH. intros. apply H. lia.
Qed.

Lemma hw_index_Some p n : forall i j,
  0 <= i -> i <= j < i + Z.of_nat n -> i + Z.of_nat n <= 512 ->
  ptr_to_u32 p = hw_unit j -> hw_index p n i = Some j.
Proof.
  induction n as [|n IH]; intros i j Hi Hj Hn Hp; simpl; [lia|].
  rewrite hw_unit_addr, Hp by lia. destruct (hw_unit i =? hw_unit j) eqn:E; breflect.
  - f_equal. unfold hw_unit, HW_MEM_UNIT_SIZE in E. lia.
  - apply IH; try done; try lia. destruct (decide (i = j)) as [->|]; [done|lia].
Qed.

Lemma hw_free_spec k p i h :
  length (hw_unit_used h) = 512%nat -> 0 <= i < 512 -> ptr_to_u32 p = hw_unit i ->
  hw_free k p h = Ok (tt, hw_released k i h).
Proof.
  intros Hl Hi Hp. unfold hw_free. rewrite (hw_index_Some p 512 0 i) by (done || lia).
  unfold mbind, M_bind, gets, lift, modify. simpl.
  rewrite aset_Ok by (simpl; lia). destruct h. done.
Qed.

Lemma hw_free_foreign k p h :
  (forall j, 0 <= j < 512 -> ptr_to_u32 p <> hw_unit j) -> hw_free k p h = Ok (tt, h).
Proof.
  intros Hp. unfold hw_free. rewrite hw_index_None; [done|].
  intros j Hj. rewrite hw_unit_addr by lia. intros E. by apply (Hp j).
Qed.

Lemma sum_kinds_insert f k v : sum_kinds (<[k := v]> f) = sum_kinds f - f k + v.
Proof.
  unfold sum_kinds. destruct k; rewrite ?fn_lookup_insert, ?fn_lookup_insert_ne by done; lia.
Qed.

Lemma bits01_insert l i v : v = 0 \/ v = 1 -> bits01 l -> bits01 (<[i := v]> l).
Proof. intros. by apply (bits01_fill l v 1 i). Qed.

Lemma hw_taken_inv k i o h :
  hw_inv h -> zlookup (hw_unit_used h) i = Some 0 -> hw_inv (hw_taken k i o h).
Proof.
  intros [Hl H01 Hs Hc Hk] [? Hi]%zlookup_Some. split; simpl; try done.
  - by rewrite length_insert.
  - apply bits01_insert; auto.
  - rewrite (zsum_insert _ _ _ _ Hi). lia.
  - rewrite sum_kinds_insert. lia.
Qed.

Lemma hw_released_inv k i h :
  hw_inv h -> zlookup (hw_unit_used h) i = Some 1 -> hw_inv (hw_released k i h).
Proof.
  intros [Hl H01 Hs Hc Hk] [? Hi]%zlookup_Some. split; simpl; try done.
  - by rewrite length_insert.
  - apply bits01_insert; auto.
  - rewrite (zsum_insert _ _ _ _ Hi). lia.
  - rewrite sum_kinds_insert. lia.
Qed.
End hw_lemmas.

(** * Lemmas on the device list and the device addresses *)
Section device_lemmas.
Context `{L : Layout}.

(** The list of devices from [d] on, linked by [next]. *)
Fixpoint udev_chain (m : gmap Z UDEV_T) (d : Z) (l : list Z) : Prop :=
  match l with
  | [] => d = NULL
  | x :: l => d = x /\ d <> NULL /\ exists u, m !! d = Some u /\ udev_chain m (udev_next u) l
  end.

Lemma udev_chain_insert m d l p u :
  p ∉ l -> udev_chain m d l -> udev_chain (<[p := u]> m) d l.
Proof.
  revert d. induction l as [|x l IH]; intros d Hp; simpl; [done|].
  intros (-> & Hx & v & Hv & Hl). apply not_elem_of_cons in Hp as [Hne Hp].
  split_and!; try done. exists v. rewrite lookup_insert_ne by done. auto.
Qed.

(** Unlinking [udev] behind [x]. *)
Lemma udev_chain_unlink m l1 x udev l2 : forall d v u,
  NoDup (l1 ++ x :: udev :: l2) -> udev_chain m d (l1 ++ x :: udev :: l2) ->
  m !! x = Some v -> m !! udev = Some u ->
  udev_chain (<[x := v <| udev_next := udev_next u |>]> m) d (l1 ++ x :: l2).
Proof.
  induction l1 as [|y l1 IH]; intros d v u Hnd Hch Hv Hu.
  - simpl in Hch. destruct Hch as (-> & Hx & v' & _ & Hud & _ & u' & Hu' & Hch).
    assert (u' = u) as -> by congruence.
    apply list.NoDup_cons in Hnd as [Hx2 _]. apply not_elem_of_cons in Hx2 as [_ Hx2].
    simpl. split_and!; try done. eexists. rewrite lookup_insert_eq. split; [done|].
    simpl. by apply udev_chain_insert.
  - simpl in Hch. destruct Hch as (-> & Hy & w & Hw & Hch).
    apply list.NoDup_cons in Hnd as [Hyl Hnd]. simpl. split_and!; try done.
    exists w. rewrite lookup_insert_ne.
    + split; [done|]. by apply IH.
    + intros ->. apply Hyl, elem_of_app. right. left.
Qed.

(** The walk of [free_device] ends at the predecessor [x] of [udev]. *)
Lemma device_unlink_spec x udev nxt l2 v l1 : forall fuel d s,
  (length l1 < fuel)%nat -> NoDup (l1 ++ x :: udev :: l2) ->
  udev_chain (udevs s) d (l1 ++ x :: udev :: l2) -> udevs s !! x = Some v ->
  device_unlink fuel d udev nxt s =
    Ok (tt, s <| udevs ::= <[x := v <| udev_next := nxt |>]> |>).
Proof.
  induction l1 as [|y l1 IH]; intros fuel d s Hf Hnd Hch Hv.
  - destruct fuel as [|fuel]; [simpl in Hf; lia|].
    simpl in Hch. destruct Hch as (-> & Hx & v' & Hv' & Hnx & _).
    assert (v' = v) as -> by congruence. cbn [device_unlink].
    rewrite (proj2 (Z.eqb_neq _ _)) by done.
    unfold mbind, M_bind, get_udev. rewrite Hv, Hnx, Z.eqb_refl. done.
  - destruct fuel as [|fuel]; [simpl in Hf; lia|].
    simpl in Hch. destruct Hch as (-> & Hy & w & Hw & Hch).
    apply list.NoDup_cons in Hnd as [Hyl Hnd]. cbn [device_unlink].
    rewrite (proj2 (Z.eqb_neq _ _)) by done.
    unfold mbind, M_bind, get_udev. rewrite Hw. rewrite (proj2 (Z.eqb_neq _ _)).
    + apply IH; try done. simpl in Hf. lia.
    + intros E. rewrite E in Hch. destruct l1 as [|z l1]; simpl in Hch.
      * destruct Hch as (<- & _). apply list.NoDup_cons in Hnd as [Hnd _].
        apply Hnd. left.
      * destruct Hch as (<- & _). apply list.NoDup_cons in Hnd as [Hnd _].
        apply Hnd, elem_of_app. right. right. left.
Qed.

(** Writing a field of a device other than [next] keeps the chain. *)
Lemma udev_chain_keep m p u u' l : forall d,
  m !! p = Some u -> udev_next u' = udev_next u ->
  udev_chain m d l -> udev_chain (<[p := u']> m) d l.
Proof.
  induction l as [|x l IH]; intros d Hp Hn; simpl; [done|].
  intros (-> & Hx & v & Hv & Hl). split_and!; try done.
  destruct (decide (p = x)) as [->|Hne].
  - exists u'. rewrite lookup_insert_eq. split; [done|]. rewrite Hn.
    replace v with u in Hl by congruence. by apply IH.
  - exists v. rewrite lookup_insert_ne by done. auto.
Qed.

Lemma udev_chain_dom m l : forall d, udev_chain m d l -> forall x, x ∈ l -> x ∈ dom m.
Proof.
  induction l as [|y l IH]; intros d Hc x Hx; [by apply elem_of_nil in Hx|].
  simpl in Hc. destruct Hc as (-> & _ & u & Hu & Hc).
  apply elem_of_cons in Hx as [->|Hx]; [by eapply elem_of_dom_2|by eapply IH].
Qed.

Lemma udev_chain_length m l d : NoDup l -> udev_chain m d l -> (length l <= size m)%nat.
Proof.
  intros Hnd Hc. rewrite <- (size_list_to_set (C := gset Z) l) by done.
  rewrite <- (size_dom (D := gset Z)). apply subseteq_size. intros x Hx.
  apply elem_of_list_to_set in Hx. by eapply udev_chain_dom.
Qed.

Lemma udev_chain_head_notin m l1 x l2 d :
  NoDup (l1 ++ x :: l2) -> udev_chain m d (l1 ++ x :: l2) -> d = x -> l1 = [].
Proof.
  destruct l1 as [|y l1]; [done|]. simpl. intros [Hy _]%list.NoDup_cons (-> & _) ->.
  exfalso. apply Hy, elem_of_app. right. left.
Qed.

Lemma free_mem_total p size d :
  length (dma_unit_used d) = 128%nat -> 0 <= size < 2 ^ 31 - 1024 ->
  exists r d', usbh_free_mem p size d = Ok (r, d') /\ length (dma_unit_used d') = 128%nat.
Proof.
  intros Hl Hs.
  destruct (dma_unit_dec p) as [(q & Hq & Hp)|Hno].
  - rewrite (free_mem_spec p size q d Hl Hs Hp Hq).
    case_match; do 2 eexists; (split; [done|]); simpl; rewrite ?length_fill; done.
  - rewrite free_mem_bad by done. by do 2 eexists.
Qed.

Lemma wp_get_udev p u (Q : UDEV_T -> mem_st -> Prop) s :
  udevs s !! p = Some u -> Q u s -> wp (get_udev p) Q s.
Proof. intros Hu HQ. unfold wp, get_udev. by rewrite Hu. Qed.

Lemma wp_put_udev p u (Q : unit -> mem_st -> Prop) s :
  Q tt (s <| udevs := <[p := u]> (udevs s) |>) -> wp (put_udev p u) Q s.
Proof. done. Qed.

(** A free whose result is not looked at. *)
Lemma wp_free_any p n (Q : Z -> mem_st -> Prop) s :
  length (dma_unit_used (dma s)) = 128%nat -> 0 <= n < 2 ^ 31 - 1024 ->
  (forall r d, length (dma_unit_used d) = 128%nat -> Q r (s <| dma := d |>)) ->
  wp (on_dma (usbh_free_mem p n)) Q s.
Proof.
  intros Hl Hn HQ. apply wp_zoom. unfold wp.
  destruct (free_mem_total p n (dma s) Hl Hn) as (r & d & -> & Hd). by apply HQ.
Qed.

(** The address search, as the hardware search, visits [1..127] in a circle. *)
Definition addr_next (a : Z) : Z := if 128 <=? a + 1 then 1 else a + 1.

Fixpoint addr_iter (n : nat) (a : Z) : Z :=
  match n with O => a | S n => addr_iter n (addr_next a) end.

Lemma addr_next_range a : 0 <= a < 128 -> 1 <= addr_next a < 128.
Proof. intros. unfold addr_next. case_if; lia. Qed.

Lemma dev_addr_search_spec pool n : forall a,
  length pool = 128%nat -> 1 <= a < 128 ->
  (exists k, (k < n)%nat /\ zlookup pool (addr_iter k a) = Some 0 /\
     1 <= addr_iter k a < 128 /\
     (forall j, (j < k)%nat -> zlookup pool (addr_iter j a) <> Some 0) /\
     dev_addr_search n (mkAddr pool a) =
       Ok (addr_iter k a, mkAddr (<[Z.to_nat (addr_iter k a) := 1]> pool) (addr_iter k a))) \/
  ((forall j, (j < n)%nat -> zlookup pool (addr_iter j a) <> Some 0) /\
   dev_addr_search n (mkAddr pool a) = Fault Diverges).
Proof.
  induction n as [|n IH]; intros a Hl Ha.
  { right. split; [lia|done]. }
  destruct (zlookup_is_Some pool a) as [u Hu]; [lia|].
  cbn [dev_addr_search]. unfold mbind, M_bind, gets, lift, modify. simpl.
  rewrite (proj2 (aget_Ok pool a u) Hu). destruct (u =? 0) eqn:Eu; breflect; subst.
  { left. exists 0%nat. simpl. rewrite aset_Ok by lia. split_and!; try done; lia. }
  assert (forall s, s = (if 128 <=? a + 1 then mkAddr pool 1 else mkAddr pool (a + 1)) ->
    s = mkAddr pool (addr_next a)) as E by (intros s ->; unfold addr_next; by case_match).
  unfold upd, eta. simpl. rewrite (E _ eq_refl).
  pose proof (addr_next_range a ltac:(lia)).
  destruct (IH (addr_next a)) as [(k & ? & ? & ? & Hj & ->)|[Hj ->]]; try done.
  - left. exists (S k). simpl. split_and!; try done; try lia.
    intros [|j] ?; simpl; [congruence|]. apply Hj. lia.
  - right. split; [|done]. intros [|j] ?; simpl; [congruence|]. apply Hj. lia.
Qed.

Lemma addr_iter_mod n a : 1 <= a < 128 -> addr_iter n a = (a - 1 + Z.of_nat n) mod 127 + 1.
Proof.
  revert a. induction n as [|n IH]; intros a Ha; simpl addr_iter.
  - rewrite Z.add_0_r, Z.mod_small by lia. lia.
  - rewrite IH by (apply addr_next_range; lia). unfold addr_next. case_if.
    + replace (a - 1 + Z.of_nat (S n)) with (1 - 1 + Z.of_nat n + 1 * 127) by lia.
      by rewrite Z.mod_add by lia.
    + do 2 f_equal. lia.
Qed.

Lemma addr_iter_surj a b : 1 <= a < 128 -> 1 <= b < 128 ->
  exists n, (n < 127)%nat /\ addr_iter n a = b.
Proof.
  intros. exists (Z.to_nat ((b - a) mod 127)).
  pose proof (Z.mod_pos_bound (b - a) 127 ltac:(lia)). split; [lia|].
  rewrite addr_iter_mod, Z2Nat.id, Z.add_mod_idemp_r by lia.
  replace (a - 1 + (b - a)) with (b - 1) by lia. rewrite Z.mod_small by lia. lia.
Qed.
Lemma alloc_dev_address_cases s :
  length (dev_addr_pool s) = 128%nat -> 0 <= device_addr s < 128 ->
  (exists a, alloc_dev_address s = Ok (a, mkAddr (<[Z.to_nat a := 1]> (dev_addr_pool s)) a) /\
     1 <= a < 128 /\ zlookup (dev_addr_pool s) a = Some 0) \/
  (alloc_dev_address s = Fault Diverges /\
     forall a, 1 <= a < 128 -> zlookup (dev_addr_pool s) a <> Some 0).
Proof.
  destruct s as [pool a0]. simpl. intros Hl Ha.
  assert (alloc_dev_address (mkAddr pool a0) = dev_addr_search 127 (mkAddr pool (addr_next a0))) as ->.
  { unfold alloc_dev_address, mbind, M_bind, modify, addr_next. cbn -[dev_addr_search].
    by case_match. }
  pose proof (addr_next_range a0 Ha) as Hn.
  destruct (dev_addr_search_spec pool 127 (addr_next a0) Hl Hn)
    as [(k & _ & Hz & Hr & _ & ->)|[Hall ->]].
  - left. by eexists.
  - right. split; [done|]. intros a Hr.
    destruct (addr_iter_surj (addr_next a0) a Hn Hr) as (n & Hlt & <-). by apply Hall.
Qed.
End device_lemmas.

(** * Properties of the memory pools *)
Section properties.
Context `{L : Layout}.



(** C7: freeing what was just allocated, with the same size, gives the map of
    used units and the count back as they were. *)
Theorem usbh_alloc_free_roundtrip size d p d' :
  dma_inv d -> 1 <= size -> usbh_alloc_mem size d = Ok (p, d') -> p <> NULL ->
  exists d'', usbh_free_mem p size d' = Ok (0, d'') /\
    dma_unit_used d'' = dma_unit_used d /\ dma_mem_used_cnt d'' = dma_mem_used_cnt d.
Proof.
  intros Hinv Hs E Hp. pose proof (dma_len d Hinv) as Hl. pose proof (units_pos size Hs) as Hw.
  destruct (alloc_mem_spec size d Hl Hs) as [[E' _]|(start & Hff & E')];
    rewrite E' in E; injection E as <- <-; [done|].
  destruct (first_fit_bound size d start Hl Hs Hff) as (H0 & H1 & H2).
  rewrite (free_mem_spec _ size start); [|simpl; by rewrite length_fill|lia|
    by rewrite addr_s_nc, dma_unit_addr by lia|lia].
  rewrite (proj2 (Z.leb_le _ _)) by lia. eexists. split; [done|]. simpl. split; [|lia].
  apply fill_fill, run_free_nat; [done|]. apply Hff.
Qed.


(** C10: freeing a block twice is not refused; the second free subtracts the
    units again, so the count no longer matches the map. *)
Theorem usbh_free_mem_twice p n d :
  dma_inv d -> 1 <= n -> dma_block d p n ->
  exists d1 d2, usbh_free_mem p n d = Ok (0, d1) /\ usbh_free_mem p n d1 = Ok (0, d2) /\
    dma_unit_used d2 = dma_unit_used d1 /\
    dma_mem_used_cnt d2 = zsum (dma_unit_used d2) - units n.
Proof.
  intros Hinv Hn (start & Hp & H0 & H1 & H2 & Hused).
  pose proof (dma_len d Hinv) as Hl. pose proof (units_pos n Hn) as Hw.
  rewrite (free_mem_spec p n start d) by (done || lia).
  rewrite (proj2 (Z.leb_le _ _)) by lia. do 2 eexists. split; [done|].
  rewrite (free_mem_spec p n start) by (simpl; rewrite ?length_fill; done || lia).
  rewrite (proj2 (Z.leb_le _ _)) by lia. split; [done|].
  pose proof (dma_released_inv start (units n) d Hinv H0 ltac:(lia) Hused) as [_ _ Hc].
  assert (dma_unit_used (dma_released start (units n) (dma_released start (units n) d)) =
    dma_unit_used (dma_released start (units n) d)) as E.
  { simpl. apply fill_id. intros j Hj. apply lookup_fill_in; [done|]. lia. }
  split; [done|]. rewrite E, <- Hc. done.
Qed.

(** C5: [alloc_dev_address] returns, as long as one of the addresses 1 to 127
    is free, an address that was free, marks it used and keeps the others; it
    never ends (the search loop has no exit) exactly when all 127 are used. *)
Theorem alloc_dev_address_spec s :
  length (dev_addr_pool s) = 128%nat -> 0 <= device_addr s < 128 ->
  (exists a, alloc_dev_address s = Ok (a, mkAddr (<[Z.to_nat a := 1]> (dev_addr_pool s)) a) /\
     1 <= a < 128 /\ zlookup (dev_addr_pool s) a = Some 0) \/
  (alloc_dev_address s = Fault Diverges /\
     forall a, 1 <= a < 128 -> zlookup (dev_addr_pool s) a <> Some 0).
Proof. apply alloc_dev_address_cases. Qed.

(** C2: [free_device] ends, and takes exactly the device out of the list of
    devices, wherever in the list it is. *)
Theorem free_device_unlinks udev l1 l2 s :
  length (dma_unit_used (dma s)) = 128%nat ->
  NoDup (l1 ++ udev :: l2) -> udev_chain (udevs s) (g_udev_list s) (l1 ++ udev :: l2) ->
  udev <> NULL ->
  exists s', free_device udev s = Ok (tt, s') /\
    udev_chain (udevs s') (g_udev_list s') (l1 ++ l2) /\ hw s' = hw s /\ addrs s' = addrs s.
Proof.
  intros Hl Hnd Hch Hne.
  destruct (udevs s !! udev) as [u|] eqn:Hu.
  2:{ exfalso. assert (udev ∈ dom (udevs s)) as Hd%elem_of_dom; [|by destruct Hd as [? ?]; congruence].
      eapply udev_chain_dom; [done|]. apply elem_of_app. right. left. }
  set (u' := u <| cfd_buff ::= ptr_s |>).
  set (m := <[udev := u']> (udevs s)).
  assert (udev_chain m (g_udev_list s) (l1 ++ udev :: l2)) as Hch'
    by (by eapply udev_chain_keep).
  set (Q := fun (_ : unit) s' => udev_chain (udevs s') (g_udev_list s') (l1 ++ l2) /\
    hw s' = hw s /\ addrs s' = addrs s).
  assert (wp (free_device udev) Q s) as ([] & s' & ?)%wp_run; [|by exists s'].
  unfold free_device. rewrite (proj2 (Z.eqb_neq _ _)) by done.
  wp_step. eapply wp_get_udev; [done|]. fold u'. wp_step. apply wp_put_udev. fold m.
  assert (forall d, length (dma_unit_used d) = 128%nat ->
    wp (head ← gets g_udev_list;
      (if head =? udev
       then h ← get_udev head; modify (fun s => s <| g_udev_list := udev_next h |>)
       else fuel ← gets (fun s => S (size (udevs s)));
            device_unlink fuel head udev (udev_next u'));;
      _ ← on_dma (usbh_free_mem udev sizeof_UDEV_T); mret tt) Q
      (s <| udevs := m |> <| dma := d |>)) as Hrest.
  { intros d Hd. wp_steps. simpl. destruct (g_udev_list s =? udev) eqn:Eh; breflect.
    - wp_step. eapply wp_get_udev; [rewrite Eh; by apply lookup_insert_eq|]. wp_steps.
      apply wp_free_any; [done|by unfold sizeof_UDEV_T|]. intros r d' _. wp_steps.
      split; [|done]. simpl.
      pose proof (udev_chain_head_notin _ _ _ _ _ Hnd Hch Eh) as ->. simpl in *.
      destruct Hch' as (_ & _ & v & Hv & Hch'). unfold m in Hv.
      rewrite Eh, lookup_insert_eq in Hv. by injection Hv as <-.
    - destruct l1 as [|x l0 _] using rev_ind.
      { simpl in Hch. by destruct Hch as (? & _). }
      rewrite <- app_assoc in Hnd, Hch, Hch'. simpl in Hnd, Hch, Hch'.
      assert (exists v, m !! x = Some v) as [v Hv].
      { apply elem_of_dom. eapply udev_chain_dom; [exact Hch'|].
        apply elem_of_app. right. left. }
      wp_steps. unfold wp at 1. cbn -[device_unlink].
      rewrite (device_unlink_spec x udev (udev_next u) l2 v l0); simpl; try done.
      2:{ pose proof (udev_chain_length _ _ _ Hnd Hch') as Hlen.
          rewrite length_app in Hlen. simpl in Hlen. lia. }
      wp_step. apply wp_free_any; [done|by unfold sizeof_UDEV_T|]. intros r d' _. wp_steps.
      split; [|done]. simpl. rewrite <- app_assoc. simpl.
      change (udev_next u) with (udev_next u'). eapply udev_chain_unlink; try done.
      by apply lookup_insert_eq. }
  wp_step. apply wp_when; intros _.
  - wp_step. apply wp_free_any; [done|by unfold MAX_DESC_BUFF_SIZE|].
    intros r d Hd. wp_step. by apply Hrest.
  - by apply (Hrest (dma s)).
Qed.

(** The four EHCI allocations, with the kind they count and the object they
    initialise. *)
Definition ehci_allocs (utr : Z) : list (hw_kind * hw_obj * M hw_st Z) :=
  [(KQH, OQH qh_init, alloc_ehci_QH); (KqTD, OqTD (qtd_init utr), alloc_ehci_qTD utr);
   (KiTD, OiTD itd_zero, alloc_ehci_iTD); (KsiTD, OsiTD sitd_zero, alloc_ehci_siTD)].

Lemma alloc_rotating_spec k o h :
  hw_inv h ->
  (exists i, 0 <= i < 512 /\ i <> sidx h /\ zlookup (hw_unit_used h) i = Some 0 /\
     alloc_rotating k o h = Ok (nc_ptr (hw_unit i), hw_taken k i o (h <| sidx := i |>))) \/
  (alloc_rotating k o h = Ok (NULL, h) /\
     forall i, 0 <= i < 512 -> i <> sidx h -> zlookup (hw_unit_used h) i <> Some 0).
Proof.
  intros [Hl H01 Hs Hc Hk]. unfold alloc_rotating, mbind, M_bind, gets, lift.
  replace (crem (sidx h + 1) HW_MEM_UNIT_NUM) with (rot (sidx h) 0).
  2:{ unfold rot, HW_MEM_UNIT_NUM. rewrite Z.rem_mod_nonneg by lia. f_equal. lia. }
  destruct (hw_next_spec (hw_unit_used h) (sidx h) 511 0 Hl Hs) as
    [(m & -> & Hm & Hz & _)|[-> Hall]]; try lia.
  - left. exists (rot (sidx h) m).
    assert (0 <= rot (sidx h) m < 512) by (unfold rot; apply Z.mod_pos_bound; lia).
    split_and!; try done; try lia; [apply rot_other; lia|].
    unfold modify. by rewrite hw_take_spec.
  - right. split; [done|]. intros i Hi Hne.
    destruct (rot_surj (sidx h) i) as (q & Hq & <-); try done. by apply Hall.
Qed.

(** C3: every EHCI descriptor allocation either takes a free unit other than
    unit [_sidx], initialises it, counts it and leaves [_sidx] on it, or it
    returns NULL, changes nothing, and every unit other than [_sidx] is used
    (unit [_sidx] itself is never tried).  The pool's invariant is kept. *)
Theorem ehci_alloc_spec k o alloc utr h :
  hw_inv h -> (k, o, alloc) ∈ ehci_allocs utr ->
  (exists i, 0 <= i < 512 /\ i <> sidx h /\ zlookup (hw_unit_used h) i = Some 0 /\
     alloc h = Ok (nc_ptr (hw_unit i), hw_taken k i o (h <| sidx := i |>)) /\
     hw_inv (hw_taken k i o (h <| sidx := i |>))) \/
  (alloc h = Ok (NULL, h) /\
     forall i, 0 <= i < 512 -> i <> sidx h -> zlookup (hw_unit_used h) i <> Some 0).
Proof.
  intros Hinv Hin.
  assert (alloc = alloc_rotating k o) as ->.
  { unfold ehci_allocs in Hin. rewrite !elem_of_cons, elem_of_nil in Hin.
    by destruct Hin as [[= -> -> ->]|[[= -> -> ->]|[[= -> -> ->]|[[= -> -> ->]|[]]]]]. }
  destruct (alloc_rotating_spec k o h Hinv) as [(i & Hi & Hne & Hz & E)|[E Hall]].
  - left. exists i. split_and!; try done; try lia. apply hw_taken_inv; [|done].
    destruct Hinv. by split.
  - by right.
Qed.

(** C8: the OHCI allocations take the lowest free unit of the same pool, and
    fail, without a change, only when all 512 units are used. *)
Theorem ohci_alloc_spec utr k o alloc h :
  hw_inv h ->
  (k, o, alloc) ∈ [(KED, OED ed_zero, alloc_ohci_ED);
                   (KTD, OTD (td_zero <| td_utr := utr |>), alloc_ohci_TD utr)] ->
  (exists i, 0 <= i < 512 /\ zlookup (hw_unit_used h) i = Some 0 /\
     (forall j, 0 <= j < i -> zlookup (hw_unit_used h) j = Some 1) /\
     alloc h = Ok (nc_ptr (hw_unit i), hw_taken k i o h) /\ hw_inv (hw_taken k i o h)) \/
  (alloc h = Ok (NULL, h) /\ hw_mem_used_cnt h = 512).
Proof.
  intros Hinv Hin. pose proof Hinv as [Hl H01 Hs Hc Hk].
  assert (alloc = alloc_linear k o) as ->.
  { rewrite !elem_of_cons, elem_of_nil in Hin.
    by destruct Hin as [[= -> -> ->]|[[= -> -> ->]|[]]]. }
  assert (forall j, 0 <= j < 512 -> zlookup (hw_unit_used h) j <> Some 0 ->
    zlookup (hw_unit_used h) j = Some 1) as Hone.
  { intros j Hj Hnz. destruct (zlookup_is_Some (hw_unit_used h) j) as [v Hv]; [lia|].
    pose proof Hv as [_ Hv']%zlookup_Some.
    destruct (Forall_lookup_1 _ _ _ _ H01 Hv') as [->| ->]; [congruence|done]. }
  unfold alloc_linear, mbind, M_bind, gets, lift.
  destruct (hw_first_spec (hw_unit_used h) 512 0) as [(i & -> & Hi & Hz & Hlow)|[-> Hall]];
    try lia.
  - left. exists i. split_and!; try done; try lia.
    + intros j Hj. apply Hone; [lia|]. apply Hlow. lia.
    + apply hw_take_spec; [done|lia].
    + by apply hw_taken_inv.
  - right. split; [done|]. rewrite Hc. replace (hw_unit_used h) with (replicate 512 1).
    { by rewrite zsum_replicate. }
    apply list_eq. intros j. destruct (decide (j < 512)%nat) as [Hj|Hj].
    + rewrite lookup_replicate_2 by done. symmetry.
      assert (zlookup (hw_unit_used h) (Z.of_nat j) = Some 1) as [_ E]%zlookup_Some
        by (apply Hone; [lia|apply Hall; lia]). by rewrite Nat2Z.id in E.
    + rewrite !lookup_ge_None_2; rewrite ?length_replicate; try lia. done.
Qed.

Definition hw_frees : list (hw_kind * (Z -> M hw_st unit)) :=
  [(KED, free_ohci_ED); (KTD, free_ohci_TD); (KQH, free_ehci_QH);
   (KqTD, free_ehci_qTD); (KiTD, free_ehci_iTD); (KsiTD, free_ehci_siTD)].

(** C4: freeing a unit by any pointer to it (cached or not) clears exactly
    its mark and takes one off the two counts; a unit that was just taken is
    thereby given back with every count as before; a pointer that is not to a
    unit of the pool changes nothing. *)
Theorem hw_free_result k free p h :
  hw_inv h -> (k, free) ∈ hw_frees ->
  (exists i, 0 <= i < 512 /\ ptr_to_u32 p = hw_unit i /\ free p h = Ok (tt, hw_released k i h) /\
     (zlookup (hw_unit_used h) i = Some 1 -> hw_inv (hw_released k i h)) /\
     (forall o h0, h = hw_taken k i o h0 -> zlookup (hw_unit_used h0) i = Some 0 ->
        hw_unit_used (hw_released k i h) = hw_unit_used h0 /\
        hw_mem_used_cnt (hw_released k i h) = hw_mem_used_cnt h0 /\
        forall k', hw_kind_used (hw_released k i h) k' = hw_kind_used h0 k')) \/
  ((forall i, 0 <= i < 512 -> ptr_to_u32 p <> hw_unit i) /\ free p h = Ok (tt, h)).
Proof.
  intros Hinv Hin.
  assert (free = hw_free k) as ->.
  { unfold hw_frees in Hin. rewrite !elem_of_cons, elem_of_nil in Hin.
    by destruct Hin as [[= -> ->]|[[= -> ->]|[[= -> ->]|[[= -> ->]|[[= -> ->]|[[= -> ->]|[]]]]]]]. }
  set (q := (ptr_to_u32 p - hw_pool) / 128).
  destruct (decide (0 <= q < 512 /\ ptr_to_u32 p = hw_unit q)) as [[Hq Hp]|Hno].
  - left. exists q. split_and!; try done; try lia.
    + apply hw_free_spec; [apply Hinv|done|done].
    + by apply hw_released_inv.
    + intros o h0 -> [_ Hz]%zlookup_Some. split_and!.
      * simpl. rewrite list_insert_insert_eq. by apply list_insert_id.
      * simpl. lia.
      * intros k'. simpl. rewrite fn_lookup_insert.
        destruct (decide (k = k')) as [->|].
        -- rewrite fn_lookup_insert. lia.
        -- by rewrite !fn_lookup_insert_ne.
  - right. assert (forall i, 0 <= i < 512 -> ptr_to_u32 p <> hw_unit i) as Hbad.
    { intros i Hi E. apply Hno. assert (q = i) as ->; [|done].
      subst q. rewrite E. unfold hw_unit, HW_MEM_UNIT_SIZE.
      replace (hw_pool + 128 * i - hw_pool) with (i * 128) by lia. by apply Z.div_mul. }
    split; [done|]. by apply hw_free_foreign.
Qed.
End properties.

(** * Witnesses *)
Section witnesses.

Definition layout_ex : Layout.
Proof.
  refine {| dma_pool := 0x80100000; hw_pool := 0x80200000 |}; lia.
Defined.
#[local] Existing Instance layout_ex.

(** The state after [usbh_memory_init]. *)
Definition mem_ex : mem_st :=
  usbh_memory_init (mkMem (mkDma [] 7 (fun _ => 0xA5)) (mkHw [] 7 3 (fun _ => 1) ∅)
    (mkAddr [] 9) NULL ∅ ∅ 0).

Lemma mem_ex_dma : dma_inv (dma mem_ex).
Proof.
  split; [done| |done]. apply Forall_const. by left.
Qed.

Lemma mem_ex_hw : hw_inv (hw mem_ex).
Proof.
  split; try done. apply Forall_const. by left.
Qed.



Lemma usbh_alloc_free_roundtrip_witness :
  exists d'', usbh_free_mem (nc_ptr (dma_unit 0)) 2000 (dma_taken 0 2 (dma mem_ex)) = Ok (0, d'') /\
    dma_unit_used d'' = dma_unit_used (dma mem_ex) /\
    dma_mem_used_cnt d'' = dma_mem_used_cnt (dma mem_ex).
Proof.
  apply (usbh_alloc_free_roundtrip 2000 (dma mem_ex)); [apply mem_ex_dma|lia|reflexivity|].
  vm_compute. discriminate.
Defined.


Lemma usbh_free_mem_twice_witness :
  exists d1 d2, usbh_free_mem (nc_ptr (dma_unit 0)) 100 (dma_taken 0 1 (dma mem_ex)) = Ok (0, d1) /\
    usbh_free_mem (nc_ptr (dma_unit 0)) 100 d1 = Ok (0, d2) /\
    dma_unit_used d2 = dma_unit_used d1 /\
    dma_mem_used_cnt d2 = zsum (dma_unit_used d2) - units 100.
Proof.
  apply usbh_free_mem_twice.
  - apply dma_taken_inv; [apply mem_ex_dma|lia..|]. intros j Hj. by replace j with 0 by lia.
  - lia.
  - exists 0. split_and!; try reflexivity; try lia; [vm_compute; discriminate|].
    intros j Hj. change (units 100) with 1 in Hj. by replace j with 0 by lia.
Defined.

Lemma alloc_dev_address_spec_witness :
  (exists a, alloc_dev_address (addrs mem_ex) =
      Ok (a, mkAddr (<[Z.to_nat a := 1]> (dev_addr_pool (addrs mem_ex))) a) /\
     1 <= a < 128 /\ zlookup (dev_addr_pool (addrs mem_ex)) a = Some 0) \/
  (alloc_dev_address (addrs mem_ex) = Fault Diverges /\
     forall a, 1 <= a < 128 -> zlookup (dev_addr_pool (addrs mem_ex)) a <> Some 0).
Proof. apply alloc_dev_address_spec; [done|simpl; lia]. Defined.

(** Two devices, the second allocated after the first. *)
Definition mem_two : mem_st :=
  match (_ ← alloc_device; alloc_device) mem_ex with Ok (_, s) => s | Fault _ => mem_ex end.

Lemma free_device_unlinks_witness :
  exists s', free_device (nc_ptr 0x80100000) mem_two = Ok (tt, s') /\
    udev_chain (udevs s') (g_udev_list s') ([nc_ptr 0x80100400] ++ []) /\
    hw s' = hw mem_two /\ addrs s' = addrs mem_two.
Proof.
  apply free_device_unlinks.
  - reflexivity.
  - apply (bool_decide_unpack _). vm_compute. exact I.
  - simpl. split_and!; [reflexivity|vm_compute; discriminate|].
    eexists. split; [reflexivity|]. split_and!; [reflexivity|vm_compute; discriminate|].
    eexists. split; [reflexivity|]. reflexivity.
  - vm_compute. discriminate.
Defined.

Lemma ehci_alloc_spec_witness :
  (exists i, 0 <= i < 512 /\ i <> sidx (hw mem_ex) /\ zlookup (hw_unit_used (hw mem_ex)) i = Some 0 /\
     alloc_ehci_QH (hw mem_ex) =
       Ok (nc_ptr (hw_unit i), hw_taken KQH i (OQH qh_init) ((hw mem_ex) <| sidx := i |>)) /\
     hw_inv (hw_taken KQH i (OQH qh_init) ((hw mem_ex) <| sidx := i |>))) \/
  (alloc_ehci_QH (hw mem_ex) = Ok (NULL, hw mem_ex) /\
     forall i, 0 <= i < 512 -> i <> sidx (hw mem_ex) -> zlookup (hw_unit_used (hw mem_ex)) i <> Some 0).
Proof. apply (ehci_alloc_spec _ _ _ NULL); [apply mem_ex_hw|left]. Defined.

Lemma ohci_alloc_spec_witness :
  (exists i, 0 <= i < 512 /\ zlookup (hw_unit_used (hw mem_ex)) i = Some 0 /\
     (forall j, 0 <= j < i -> zlookup (hw_unit_used (hw mem_ex)) j = Some 1) /\
     alloc_ohci_ED (hw mem_ex) = Ok (nc_ptr (hw_unit i), hw_taken KED i (OED ed_zero) (hw mem_ex)) /\
     hw_inv (hw_taken KED i (OED ed_zero) (hw mem_ex))) \/
  (alloc_ohci_ED (hw mem_ex) = Ok (NULL, hw mem_ex) /\ hw_mem_used_cnt (hw mem_ex) = 512).
Proof. apply (ohci_alloc_spec NULL); [apply mem_ex_hw|left]. Defined.

Lemma hw_free_result_witness :
  (exists i, 0 <= i < 512 /\ ptr_to_u32 0x80200080 = hw_unit i /\
     free_ehci_QH 0x80200080 (hw mem_ex) = Ok (tt, hw_released KQH i (hw mem_ex)) /\
     (zlookup (hw_unit_used (hw mem_ex)) i = Some 1 -> hw_inv (hw_released KQH i (hw mem_ex))) /\
     (forall o h0, hw mem_ex = hw_taken KQH i o h0 -> zlookup (hw_unit_used h0) i = Some 0 ->
        hw_unit_used (hw_released KQH i (hw mem_ex)) = hw_unit_used h0 /\
        hw_mem_used_cnt (hw_released KQH i (hw mem_ex)) = hw_mem_used_cnt h0 /\
        forall k', hw_kind_used (hw_released KQH i (hw mem_ex)) k' = hw_kind_used h0 k')) \/
  ((forall i, 0 <= i < 512 -> ptr_to_u32 0x80200080 <> hw_unit i) /\
     free_ehci_QH 0x80200080 (hw mem_ex) = Ok (tt, hw mem_ex)).
Proof. apply hw_free_result; [apply mem_ex_hw|right; right; left]. Defined.
End witnesses.
