(* ===== verification/UsbCore.v ===== *)
(** USB host library: the core of [src_core/usb_core.c].

    Control transfers and the standard requests, enumeration of a device
    ([connect_device]), reset and disconnection, and the parser of the
    configuration descriptor ([usbh_parse_configuration],
    [usbh_parse_interface], [usbh_parse_endpoint]).

    What the core calls is a parameter, [Host]: the host controller's answers
    to requests, the class drivers' [probe] and [disconnect], the hub's port
    reset and the application's callbacks. *)
From S2P Require Import Prelude UsbDefs DmaAlloc MemAlloc.

(** ** Data *)
Record ALT_IFACE_T := mkALT {
  ifd : Z;                          (* pointer into the configuration buffer *)
  alt_ep : list EP_INFO_T }.        (* ep[MAX_EP_PER_IFACE] *)

Record IFACE_T := mkIFACE {
  if_udev : Z;
  if_num : Z;
  num_alt : Z;
  aif : Z;                          (* index into [alt] *)
  alt : list ALT_IFACE_T;           (* alt[MAX_ALT_PER_IFACE] *)
  driver : Z;
  context : Z;
  if_next : Z }.

#[global] Instance eta_ALT_IFACE_T : Eta ALT_IFACE_T := fun a => mkALT (ifd a) (alt_ep a).
#[global] Instance eta_IFACE_T : Eta IFACE_T := fun i =>
  mkIFACE (if_udev i) (if_num i) (num_alt i) (aif i) (alt i) (driver i) (context i) (if_next i).

Definition alt_zero : ALT_IFACE_T := mkALT NULL (replicate 6 ep_zero).
Definition iface_zero : IFACE_T :=
  mkIFACE NULL 0 0 0 (replicate 8 alt_zero) NULL NULL NULL.

(** The answer of the host controller driver to a control request: what its
    [ctrl_xfer] returns, whether the transfer is done before the time-out, and
    the status, length and data of the finished transfer. *)
Record ctrl_out := mkOut {
  co_submit : Z; co_done : bool; co_status : Z; co_xfer_len : Z; co_data : list Z }.

(** Calls out of the core, in order, as the state records them. *)
Inductive event :=
  | EvCtrl (dev_num : Z) (req : DEV_REQ_T)
  | EvXfer (utr : Z)
  | EvQuit (utr ep : Z)
  | EvPortReset (port : Z)
  | EvHubReset (hub port : Z)
  | EvProbe (drv iface : Z)
  | EvDisconnect (drv iface : Z)
  | EvConn (udev : Z)
  | EvDisconn (udev : Z).

Record core_st := mkCore {
  mem : mem_st;
  drivers : list Z;                 (* _drivers[MAX_UDEV_DRIVER] *)
  g_conn_func : Z;
  g_disconn_func : Z;
  ifaces : gmap Z IFACE_T;          (* the IFACE_T objects, by pointer *)
  evs : list event }.               (* newest first *)

#[global] Instance eta_core_st : Eta core_st := fun s =>
  mkCore (mem s) (drivers s) (g_conn_func s) (g_disconn_func s) (ifaces s) (evs s).

(** The environment.  The answers of the host controllers may depend on every
    call made so far; drivers and callbacks may change the state. *)
Class Host := {
  host_ctrl : list event -> DEV_REQ_T -> ctrl_out;
  host_ret : list event -> Z;       (* bulk, int, iso, quit and reset calls *)
  host_iso_null : Z -> bool;        (* hc_driver->iso_xfer == NULL *)
  host_probe : Z -> Z -> M core_st Z;
  host_disconnect : Z -> Z -> M core_st unit;
  host_callback : Z -> Z -> M core_st unit;
  host_pooling_hubs : M core_st unit }.

Definition on_mem {A} (m : M mem_st A) : M core_st A := zoom mem (fun x s => s <| mem := x |>) m.
Definition emit (e : event) : M core_st unit := modify (fun s => s <| evs ::= cons e |>).

(** ** Bytes of the configuration buffer *)

(** The [n] bytes from pointer [p] on. *)
Definition bytes_at (m : Z -> Z) (p : Z) (n : nat) : list Z :=
  (fun i => u8 (m (addr_s p + i))) <$> seqZ 0 (Z.of_nat n).

(** Overwrite the bytes from [p] on. *)
Fixpoint bytes_put (p : Z) (l : list Z) (m : Z -> Z) : Z -> Z :=
  match l with
  | [] => m
  | b :: l => bytes_put (p + 1) l (<[addr_s p := u8 b]> m)
  end.

Definition rd8 (buf : list Z) (off : Z) : res Z := aget buf off.
Definition rd16 (buf : list Z) (off : Z) : res Z :=
  lo ← rd8 buf off; hi ← rd8 buf (off + 1); mret (lo + 256 * hi).

(** ** The endpoint parser *)

(** The [while (len > 0)] loop of [usbh_parse_endpoint]: it stops at an endpoint
    descriptor, with an error, or with [len <= 0].  Offsets are relative to the
    configuration buffer [buf]; [ep_desc] is unset before the first turn. *)
Fixpoint ep_find (buf : list Z) (fuel : nat) (desc_buff parsed_len len : Z)
    (ep_desc : option Z) : res (Z + option Z * Z) :=
  match fuel with
  | O => Fault Diverges
  | S fuel =>
      if 0 <? len then
        bLength ← rd8 buf desc_buff;
        if (len <? bLength) || (bLength <? 2) then mret (inl USBH_ERR_DESCRIPTOR)
        else
          bDescriptorType ← rd8 buf (desc_buff + 1);
          if bDescriptorType =? USB_DT_ENDPOINT then mret (inr (Some desc_buff, parsed_len))
          else ep_find buf fuel (desc_buff + bLength) (parsed_len + bLength) (len - bLength)
                 (Some desc_buff)
      else mret (inr (ep_desc, parsed_len))
  end.

(** wMaxPacketSize: payload size times transactions per microframe. *)
Definition ep_pksz (pksz : Z) : Z :=
  Z.land pksz 0x07ff * (1 + Z.land (Z.shiftr pksz 11) 3).

Definition usbh_parse_endpoint (buf : list Z) (a : ALT_IFACE_T) (ep_idx desc_buff len : Z)
    : res (Z * ALT_IFACE_T) :=
  r ← ep_find buf (S (Z.to_nat len)) desc_buff 0 len None;
  match r with
  | inl err => mret (err, a)
  | inr (None, _) => Fault Uninit
  | inr (Some ep_desc, parsed_len) =>
      bEndpointAddress ← rd8 buf (ep_desc + 2);
      bmAttributes ← rd8 buf (ep_desc + 3);
      bInterval ← rd8 buf (ep_desc + 6);
      pksz ← rd16 buf (ep_desc + 4);
      ep ← aget (alt_ep a) ep_idx;
      eps ← aset (alt_ep a) ep_idx
        (ep <| ep_bEndpointAddress := bEndpointAddress |> <| ep_bmAttributes := bmAttributes |>
            <| ep_bInterval := bInterval |> <| ep_wMaxPacketSize := u16 (ep_pksz pksz) |>
            <| hw_pipe := NULL |>);
      bLength ← rd8 buf ep_desc;
      mret (parsed_len + bLength, a <| alt_ep := eps |>)
  end.

(** ** The interface parser *)

(** The inner loop of [usbh_parse_interface]: the next interface or endpoint
    descriptor.  It leaves with the remaining position, or to [parse_done] or
    [err_out]. *)
Inductive if_skip_exit :=
  | SkipAt (desc_buff parsed_len len : Z) (hdr : option Z)
  | SkipDone (parsed_len : Z)
  | SkipErr (ret : Z).

Fixpoint if_skip (buf : list Z) (fuel : nat) (desc_buff parsed_len len : Z) (hdr : option Z)
    : res if_skip_exit :=
  match fuel with
  | O => Fault Diverges
  | S fuel =>
      if 0 <? len then
        bLength ← rd8 buf desc_buff;
        if (len <? bLength) || (bLength <? 2) then mret (SkipErr USBH_ERR_DESCRIPTOR)
        else
          bDescriptorType ← rd8 buf (desc_buff + 1);
          if bDescriptorType =? USB_DT_CONFIGURATION then mret (SkipDone parsed_len)
          else if (bDescriptorType =? USB_DT_INTERFACE) || (bDescriptorType =? USB_DT_ENDPOINT)
          then mret (SkipAt desc_buff parsed_len len (Some desc_buff))
          else if_skip buf fuel (desc_buff + bLength) (parsed_len + bLength) (len - bLength)
                 (Some desc_buff)
      else mret (SkipAt desc_buff parsed_len len hdr)
  end.

(** The loop over the endpoints of an alternate setting, [n] of them left. *)
Fixpoint ep_loop (buf : list Z) (n : nat) (i desc_buff parsed_len len : Z) (a : ALT_IFACE_T)
    : res (Z + ALT_IFACE_T * Z * Z * Z) :=
  match n with
  | O => mret (inr (a, desc_buff, parsed_len, len))
  | S n =>
      '(ret, a) ← usbh_parse_endpoint buf a i desc_buff len;
      if ret <? 0 then mret (inl ret)
      else ep_loop buf n (i + 1) (desc_buff + ret) (parsed_len + ret) (len - ret) a
  end.

(** The [while (len > 0)] loop of [usbh_parse_interface] up to [parse_done]
    ([inr]) or [err_out] ([inl]).  [base] is the buffer's address. *)
Fixpoint if_loop (buf : list Z) (base : Z) (fuel : nat) (desc_buff parsed_len len : Z)
    (hdr : option Z) (iface : IFACE_T) : res (Z + Z * IFACE_T) :=
  match fuel with
  | O => Fault Diverges
  | S fuel =>
      if negb (0 <? len) then mret (inr (parsed_len, iface))
      else
        let if_desc := desc_buff in
        bDescriptorType ← rd8 buf (if_desc + 1);
        bLength ← rd8 buf if_desc;
        if negb (bDescriptorType =? USB_DT_INTERFACE) then
          if_loop buf base fuel (desc_buff + bLength) (parsed_len + bLength) (len - bLength)
            hdr iface
        else
          bInterfaceNumber ← rd8 buf (if_desc + 2);
          if negb (bInterfaceNumber =? if_num iface) then mret (inr (parsed_len, iface))
          else
            bNumEndpoints ← rd8 buf (if_desc + 4);
            if MAX_EP_PER_IFACE <? bNumEndpoints then mret (inl USBH_ERR_IF_EP_LIMIT)
            else if MAX_ALT_PER_IFACE <=? num_alt iface then mret (inl USBH_ERR_IF_ALT_LIMIT)
            else
              e ← if_skip buf (S (Z.to_nat (len - bLength))) (desc_buff + bLength)
                    (parsed_len + bLength) (len - bLength) hdr;
              match e with
              | SkipErr ret => mret (inl ret)
              | SkipDone parsed_len => mret (inr (parsed_len, iface))
              | SkipAt desc_buff parsed_len len hdr =>
                  a ← aget (alt iface) (num_alt iface);
                  alts ← aset (alt iface) (num_alt iface) (a <| ifd := base + if_desc |>);
                  let iface := iface <| alt := alts |> <| num_alt ::= fun n => u8 (n + 1) |> in
                  if len =? 0 then mret (inr (parsed_len, iface))
                  else
                    match hdr with
                    | None => Fault Uninit
                    | Some h =>
                        hType ← rd8 buf (h + 1);
                        if hType =? USB_DT_INTERFACE then
                          if_loop buf base fuel desc_buff parsed_len len hdr iface
                        else
                          a ← aget (alt iface) (num_alt iface - 1);
                          r ← ep_loop buf (Z.to_nat bNumEndpoints) 0 desc_buff parsed_len len a;
                          match r with
                          | inl ret => mret (inl ret)
                          | inr (a, desc_buff, parsed_len, len) =>
                              alts ← aset (alt iface) (num_alt iface - 1) a;
                              if_loop buf base fuel desc_buff parsed_len len hdr
                                (iface <| alt := alts |>)
                          end
                    end
              end
  end.

Section usb_core.
Context `{L : Layout} `{H : Host}.

(** ** Drivers and callbacks *)
Definition usbh_install_conn_callback (conn_func disconn_func : Z) : M core_st unit :=
  modify (fun s => s <| g_conn_func := conn_func |> <| g_disconn_func := disconn_func |>).

(** The loop of [usbh_register_driver], [n] slots left. *)
Fixpoint register_loop (n : nat) (i udrv : Z) (l : list Z) : res (Z * list Z) :=
  match n with
  | O => mret (USBH_ERR_MEMORY_OUT, l)
  | S n =>
      d ← aget l i;
      if d =? udrv then mret (0, l)
      else if d =? NULL then l ← aset l i udrv; mret (0, l)
      else register_loop n (i + 1) udrv l
  end.

Definition usbh_register_driver (udrv : Z) : M core_st Z :=
  l ← gets drivers;
  '(ret, l) ← lift (register_loop 8 0 udrv l);
  modify (fun s => s <| drivers := l |>);;
  mret ret.

(** A call of a host controller or hub function that returns a code. *)
Definition host_call (e : event) : M core_st Z :=
  emit e;; l ← gets evs; mret (host_ret l).

(** The driver of the device's host controller; NULL is a fault. *)
Definition hc_of (udev : Z) : M core_st Z :=
  u ← on_mem (get_udev udev);
  if hc_driver u =? NULL then fail NullDeref else mret (hc_driver u).

Definition reset_device (udev : Z) : M core_st Z :=
  u ← on_mem (get_udev udev);
  if parent u =? NULL then
    if negb (hc_driver u =? NULL) then host_call (EvPortReset (port_num u - 1))
    else mret USBH_ERR_NOT_FOUND
  else host_call (EvHubReset (parent u) (port_num u)).

(** ** Transfers *)
Definition get_utr (p : Z) : M mem_st UTR_T := fun s =>
  match utrs s !! p with Some u => Ok (u, s) | None => Fault NullDeref end.
Definition put_utr (p : Z) (u : UTR_T) : M mem_st unit :=
  modify (fun s => s <| utrs ::= <[p := u]> |>).

Definition usbh_bulk_xfer (utr : Z) : M core_st Z :=
  u ← on_mem (get_utr utr); _ ← hc_of (utr_udev u); host_call (EvXfer utr).
Definition usbh_int_xfer (utr : Z) : M core_st Z :=
  u ← on_mem (get_utr utr); _ ← hc_of (utr_udev u); host_call (EvXfer utr).
Definition usbh_iso_xfer (utr : Z) : M core_st Z :=
  u ← on_mem (get_utr utr);
  d ← on_mem (get_udev (utr_udev u));
  if hc_driver d =? NULL then mret (-1)
  else if host_iso_null (hc_driver d) then mret (-1)
  else host_call (EvXfer utr).
Definition usbh_quit_utr (utr : Z) : M core_st Z :=
  if utr =? NULL then mret USBH_ERR_NOT_FOUND
  else
    u ← on_mem (get_utr utr);
    if utr_udev u =? NULL then mret USBH_ERR_NOT_FOUND
    else _ ← hc_of (utr_udev u); host_call (EvQuit utr NULL).
Definition usbh_quit_xfer (udev ep : Z) : M core_st Z :=
  _ ← hc_of udev; host_call (EvQuit NULL ep).

(** [udev->field = ...] *)
Definition upd_udev (p : Z) (f : UDEV_T -> UDEV_T) : M core_st unit :=
  u ← on_mem (get_udev p); on_mem (put_udev p (f u)).

(** Where the data of a control transfer go: nowhere, to the [descriptor] of a
    device, or to DMA memory. *)
Inductive xfer_buff := BuffNull | BuffDesc (udev : Z) | BuffMem (p : Z).
Definition buff_ptr (b : xfer_buff) : Z :=
  match b with BuffNull => NULL | BuffDesc u => u | BuffMem p => p end.

(** The 18 bytes of the device descriptor. *)
Definition desc_bytes (d : DESC_DEV_T) : list Z :=
  [dev_bLength d; dev_bDescriptorType d; u8 (bcdUSB d); bcdUSB d / 256;
   bDeviceClass d; bDeviceSubClass d; bDeviceProtocol d; bMaxPacketSize0 d;
   u8 (idVendor d); idVendor d / 256; u8 (idProduct d); idProduct d / 256;
   u8 (bcdDevice d); bcdDevice d / 256; iManufacturer d; iProduct d;
   iSerialNumber d; bNumConfigurations d].
Definition bytes_desc (l : list Z) : DESC_DEV_T :=
  let b i := default 0 (l !! i) in
  mkDESC_DEV (b 0%nat) (b 1%nat) (b 2%nat + 256 * b 3%nat) (b 4%nat) (b 5%nat) (b 6%nat)
    (b 7%nat) (b 8%nat + 256 * b 9%nat) (b 10%nat + 256 * b 11%nat)
    (b 12%nat + 256 * b 13%nat) (b 14%nat) (b 15%nat) (b 16%nat) (b 17%nat).

(** The controller stores at most [n] bytes of [data] into the buffer. *)
Definition store_data (b : xfer_buff) (n : Z) (data : list Z) : M core_st unit :=
  let data := take (Z.to_nat n) data in
  match b with
  | BuffNull => mret tt
  | BuffDesc udev =>
      upd_udev udev (fun u => u <| descriptor ::= fun d =>
        bytes_desc ((u8 <$> data) ++ drop (length data) (desc_bytes d)) |>)
  | BuffMem p => on_mem (on_dma (modify (fun d => d <| dma_bytes ::= bytes_put p data |>)))
  end.

Definition clear_pipe (udev : Z) : M core_st unit :=
  upd_udev udev (fun u => u <| ep0 ::= fun e => e <| hw_pipe := NULL |> |>).

(** A control transfer: the status and the number of bytes transferred. *)
Definition usbh_ctrl_xfer (udev bmRequestType bRequest wValue wIndex wLength : Z)
    (buff : xfer_buff) (timeout : Z) : M core_st (Z * Z) :=
  utr ← on_mem (alloc_utr udev);
  if utr =? NULL then mret (USBH_ERR_MEMORY_OUT, 0)
  else
    u ← on_mem (get_utr utr);
    let req := mkDEV_REQ (u8 bmRequestType) (u8 bRequest) (u16 wValue) (u16 wIndex) (u16 wLength) in
    on_mem (put_utr utr (u <| utr_setup := req |> <| utr_buff := buff_ptr buff |>
      <| utr_data_len := u16 wLength |> <| bIsTransferDone := 0 |>));;
    _ ← hc_of udev;
    d ← on_mem (get_udev udev);
    log ← gets evs;
    emit (EvCtrl (dev_num d) req);;
    let out := host_ctrl log req in
    if co_submit out <? 0 then
      clear_pipe udev;;
      on_mem (free_utr utr);;
      mret (co_submit out, 0)
    else
      store_data buff (u16 wLength) (co_data out);;
      if negb (co_done out) then
        _ ← usbh_quit_utr utr;
        on_mem (free_utr utr);;
        clear_pipe udev;;
        mret (USBH_ERR_TIMEOUT, 0)
      else
        on_mem (free_utr utr);;
        mret (co_status out, if co_status out =? 0 then u32 (co_xfer_len out) else 0).

(** ** Standard requests *)
Definition TYPE_OUT_DEV : Z :=
  Z.lor (Z.lor REQ_TYPE_OUT REQ_TYPE_STD_DEV) REQ_TYPE_TO_DEV.
Definition TYPE_IN_DEV : Z :=
  Z.lor (Z.lor REQ_TYPE_IN REQ_TYPE_STD_DEV) REQ_TYPE_TO_DEV.

Definition usbh_set_address (udev : Z) : M core_st Z :=
  u ← on_mem (get_udev udev);
  if negb (dev_num u =? 0) then mret USBH_ERR_SET_DEV_ADDR
  else
    dn ← on_mem (on_addr alloc_dev_address);
    '(ret, _) ← usbh_ctrl_xfer udev TYPE_OUT_DEV USB_REQ_SET_ADDRESS dn 0 0 BuffNull 1000;
    if ret <? 0 then
      on_mem (on_addr (free_dev_address dn));;
      mret ret
    else
      upd_udev udev (fun u => u <| dev_num := u8 dn |>);;
      mret 0.

Definition usbh_set_configuration (udev conf_val : Z) : M core_st Z :=
  u ← on_mem (get_udev udev);
  if negb (cur_conf u =? -1) then mret USBH_ERR_SET_CONFIG
  else
    '(ret, _) ← usbh_ctrl_xfer udev TYPE_OUT_DEV USB_REQ_SET_CONFIGURATION conf_val 0 0
                  BuffNull 2000;
    if ret <? 0 then mret ret
    else
      upd_udev udev (fun u => u <| cur_conf := s8 conf_val |>);;
      mret 0.

(** [get_device_descriptor(udev, &udev->descriptor)], the use the core makes. *)
Fixpoint get_desc_loop (n : nat) (udev ret : Z) : M core_st Z :=
  match n with
  | O => mret ret
  | S n =>
      '(ret, _) ← usbh_ctrl_xfer udev TYPE_IN_DEV USB_REQ_GET_DESCRIPTOR
        (Z.shiftl (Z.lor USB_DT_STANDARD USB_DT_DEVICE) 8) 0 18 (BuffDesc udev) 1000;
      if ret =? 0 then mret 0 else get_desc_loop n udev ret
  end.
Definition usbh_get_device_descriptor (udev : Z) : M core_st Z := get_desc_loop 3 udev 0.

Definition read8 (p : Z) : M core_st Z :=
  gets (fun s => u8 (dma_bytes (dma (mem s)) (addr_s p))).
Definition read16 (p : Z) : M core_st Z :=
  lo ← read8 p; hi ← read8 (p + 1); mret (lo + 256 * hi).

Definition usbh_get_config_descriptor (udev desc_buff buff_len : Z) : M core_st Z :=
  '(ret, _) ← usbh_ctrl_xfer udev TYPE_IN_DEV USB_REQ_GET_DESCRIPTOR
    (Z.shiftl (Z.lor USB_DT_STANDARD USB_DT_CONFIGURATION) 8) 0 9 (BuffMem desc_buff) 1000;
  if ret <? 0 then mret ret
  else
    wTotalLength ← read16 (desc_buff + 2);
    if buff_len <? wTotalLength then mret USBH_ERR_DATA_OVERRUN
    else
      '(ret, _) ← usbh_ctrl_xfer udev TYPE_IN_DEV USB_REQ_GET_DESCRIPTOR
        (Z.shiftl (Z.lor USB_DT_STANDARD USB_DT_CONFIGURATION) 8) 0 wTotalLength
        (BuffMem desc_buff) 1000;
      if ret <? 0 then mret ret else mret 0.

Definition usbh_get_string_descriptor (udev index desc_buff buff_len : Z) : M core_st Z :=
  '(ret, _) ← usbh_ctrl_xfer udev TYPE_IN_DEV USB_REQ_GET_DESCRIPTOR
    (Z.lor (Z.shiftl (Z.lor USB_DT_STANDARD USB_DT_STRING) 8) index) 0x0409 buff_len
    (BuffMem desc_buff) 1000;
  mret ret.

Definition usbh_clear_halt (udev ep_addr : Z) : M core_st Z :=
  '(ret, _) ← usbh_ctrl_xfer udev
    (Z.lor (Z.lor REQ_TYPE_OUT REQ_TYPE_STD_DEV) REQ_TYPE_TO_EP) USB_REQ_CLEAR_FEATURE
    0 ep_addr 0 BuffNull 1000;
  mret ret.

(** ** Interfaces *)
Definition get_iface (p : Z) : M core_st IFACE_T := fun s =>
  match ifaces s !! p with Some i => Ok (i, s) | None => Fault NullDeref end.
Definition put_iface (p : Z) (i : IFACE_T) : M core_st unit :=
  modify (fun s => s <| ifaces ::= <[p := i]> |>).

(** A byte of the interface descriptor that [ifd] points to. *)
Definition ifd_byte (p off : Z) : M core_st Z :=
  if p =? NULL then fail NullDeref else read8 (p + off).

(** The search for an alternate setting, [n] entries left. *)
Fixpoint find_alt (n : nat) (i : Z) (l : list ALT_IFACE_T) (alt_setting : Z)
    : M core_st (option Z) :=
  match n with
  | O => mret None
  | S n =>
      a ← lift (aget l i);
      bAlternateSetting ← ifd_byte (ifd a) 3;
      if bAlternateSetting =? alt_setting then mret (Some i)
      else find_alt n (i + 1) l alt_setting
  end.

Definition usbh_set_interface (iface alt_setting : Z) : M core_st Z :=
  i ← get_iface iface;
  r ← find_alt (Z.to_nat (num_alt i)) 0 (alt i) alt_setting;
  match r with
  | None => mret USBH_ERR_NOT_FOUND
  | Some k =>
      '(ret, _) ← usbh_ctrl_xfer (if_udev i)
        (Z.lor (Z.lor REQ_TYPE_OUT REQ_TYPE_STD_DEV) REQ_TYPE_TO_IFACE) USB_REQ_SET_INTERFACE
        alt_setting (if_num i) 0 BuffNull 1000;
      (if ret =? 0 then
         i ← get_iface iface; put_iface iface (i <| aif := k |>)
       else mret tt);;
      mret ret
  end.

(** The probing loop: the index of the first driver that takes the interface. *)
Fixpoint probe_loop (n : nat) (i iface : Z) : M core_st (option Z) :=
  match n with
  | O => mret None
  | S n =>
      l ← gets drivers;
      d ← lift (aget l i);
      if negb (d =? NULL) then
        emit (EvProbe d iface);;
        r ← host_probe d iface;
        if r =? 0 then mret (Some i) else probe_loop n (i + 1) iface
      else probe_loop n (i + 1) iface
  end.

Definition free_iface (iface : Z) : M core_st unit :=
  _ ← on_mem (on_dma (usbh_free_mem iface sizeof_IFACE_T)); mret tt.

(** [desc_buff] is an offset into the configuration buffer [base]. *)
Definition usbh_parse_interface (udev base : Z) (buf : list Z) (desc_buff len : Z) : M core_st Z :=
  iface ← on_mem (on_dma (usbh_alloc_mem sizeof_IFACE_T));
  if iface =? NULL then mret USBH_ERR_MEMORY_OUT
  else
    num ← lift (rd8 buf (desc_buff + 2));
    let i0 := iface_zero <| if_udev := udev |> <| aif := 0 |> <| if_num := num |> in
    put_iface iface i0;;
    r ← lift (if_loop buf base (S (Z.to_nat len)) desc_buff 0 len None i0);
    match r with
    | inl ret => free_iface iface;; mret ret
    | inr (parsed_len, i) =>
        put_iface iface i;;
        matched ← probe_loop 8 0 iface;
        match matched with
        | Some k =>
            l ← gets drivers;
            drv ← lift (aget l k);
            i ← get_iface iface;
            u ← on_mem (get_udev udev);
            put_iface iface (i <| driver := drv |> <| if_next := iface_list u |>);;
            upd_udev udev (fun u => u <| iface_list := iface |>);;
            mret parsed_len
        | None => free_iface iface;; mret parsed_len
        end
    end.

(** The search for the next interface descriptor in [usbh_parse_configuration].
    The comparison of the [int] len with a [size_t] is unsigned. *)
Fixpoint conf_skip (buf : list Z) (fuel : nat) (desc_buff len : Z) : res (Z + Z * Z) :=
  match fuel with
  | O => Fault Diverges
  | S fuel =>
      if 2 <=? u64 len then
        bLength ← rd8 buf desc_buff;
        if (len <? bLength) || (bLength <? 2) then mret (inl USBH_ERR_DESCRIPTOR)
        else
          bDescriptorType ← rd8 buf (desc_buff + 1);
          if bDescriptorType =? USB_DT_INTERFACE then mret (inr (desc_buff, len))
          else conf_skip buf fuel (desc_buff + bLength) (len - bLength)
      else mret (inr (desc_buff, len))
  end.

(** The loop over the [n] interfaces left. *)
Fixpoint conf_loop (udev base : Z) (buf : list Z) (n : nat) (desc_buff len : Z) : M core_st Z :=
  match n with
  | O => mret (if 0 <? len then USBH_ERR_DESCRIPTOR else len)
  | S n =>
      r ← lift (conf_skip buf (S (Z.to_nat len)) desc_buff len);
      match r with
      | inl ret => mret ret
      | inr (desc_buff, len) =>
          ret ← usbh_parse_interface udev base buf desc_buff len;
          if ret <? 0 then mret ret
          else conf_loop udev base buf n (desc_buff + ret) (len - ret)
      end
  end.

(** [buf] is the configuration buffer as it is when parsing starts. *)
Definition usbh_parse_configuration (udev base : Z) (buf : list Z) : M core_st Z :=
  wTotalLength ← lift (rd16 buf 2);
  bLength ← lift (rd8 buf 0);
  bNumInterfaces ← lift (rd8 buf 4);
  conf_loop udev base buf (Z.to_nat bNumInterfaces) bLength (wTotalLength - bLength).

Definition parse_conf_at (udev conf : Z) : M core_st Z :=
  m ← gets (fun s => dma_bytes (dma (mem s)));
  usbh_parse_configuration udev conf (bytes_at m conf (Z.to_nat MAX_DESC_BUFF_SIZE)).

(** ** Connection, reset, disconnection *)
Definition USB_REQ_SET_FEATURE : Z := 0x03.

(** Hub and controller initialisation is outside the core. *)
Definition usbh_core_init (hub_and_hc_init : M core_st unit) : M core_st unit :=
  modify (fun s => s <| drivers := replicate 8 NULL |> <| g_conn_func := NULL |>
                     <| g_disconn_func := NULL |> <| mem ::= usbh_memory_init |>);;
  hub_and_hc_init.

Definition enable_remote_wakeup (udev : Z) : M core_st unit :=
  _ ← usbh_ctrl_xfer udev TYPE_OUT_DEV USB_REQ_SET_FEATURE 0x01 0x0000 0x0000 BuffNull 1000;
  mret tt.

Definition call_conn (udev : Z) : M core_st unit :=
  f ← gets g_conn_func;
  when (negb (f =? NULL)) (emit (EvConn udev);; host_callback f udev).
Definition call_disconn (udev : Z) : M core_st unit :=
  f ← gets g_disconn_func;
  when (negb (f =? NULL)) (emit (EvDisconn udev);; host_callback f udev).

(** Give the device's address back and return an error. *)
Definition drop_address (udev ret : Z) : M core_st Z :=
  u ← on_mem (get_udev udev);
  on_mem (on_addr (free_dev_address (dev_num u)));;
  mret ret.

(** [connect_device] once the device has its address. *)
Definition connect_configure (udev : Z) : M core_st Z :=
  ret ← usbh_get_device_descriptor udev;
  if ret <? 0 then drop_address udev ret
  else
    conf ← on_mem (on_dma (usbh_alloc_mem MAX_DESC_BUFF_SIZE));
    if conf =? NULL then drop_address udev USBH_ERR_MEMORY_OUT
    else
      upd_udev udev (fun u => u <| cfd_buff := conf |>);;
      ret ← usbh_get_config_descriptor udev conf MAX_DESC_BUFF_SIZE;
      if ret <? 0 then drop_address udev ret
      else
        bConfigurationValue ← read8 (conf + 5);
        ret ← usbh_set_configuration udev bConfigurationValue;
        if ret <? 0 then drop_address udev ret
        else
          ret ← parse_conf_at udev conf;
          if ret <? 0 then drop_address udev ret
          else
            bmAttributes ← read8 (conf + 7);
            when (ctrue (Z.land bmAttributes (Z.shiftl 1 5))) (enable_remote_wakeup udev);;
            call_conn udev;;
            mret ret.

Definition connect_device (udev : Z) : M core_st Z :=
  _ ← usbh_get_device_descriptor udev;
  _ ← reset_device udev;
  ret ← usbh_set_address udev;
  if ret <? 0 then mret ret else connect_configure udev.

(** The loop that takes the device's interfaces down. *)
Fixpoint drop_ifaces (fuel : nat) (udev iface : Z) : M core_st unit :=
  match fuel with
  | O => fail Diverges
  | S fuel =>
      if iface =? NULL then mret tt
      else
        i ← get_iface iface;
        upd_udev udev (fun u => u <| iface_list := if_next i |>);;
        (if driver i =? NULL then fail NullDeref else mret tt);;
        emit (EvDisconnect (driver i) iface);;
        host_disconnect (driver i) iface;;
        free_iface iface;;
        u ← on_mem (get_udev udev);
        drop_ifaces fuel udev (iface_list u)
  end.

(** The offset of [ep0] in [UDEV_T]. *)
Definition ep0_ptr (udev : Z) : Z := udev + 48.

Definition quit_and_drop (udev : Z) : M core_st unit :=
  _ ← usbh_quit_xfer udev (ep0_ptr udev);
  u ← on_mem (get_udev udev);
  fuel ← gets (fun s => S (size (ifaces s)));
  drop_ifaces fuel udev (iface_list u).

Definition usbh_reset_device (udev : Z) : M core_st Z :=
  host_pooling_hubs;;
  call_disconn udev;;
  quit_and_drop udev;;
  _ ← reset_device udev;
  u ← on_mem (get_udev udev);
  let dn := dev_num u in
  upd_udev udev (fun u => u <| dev_num := 0 |>);;
  '(ret, _) ← usbh_ctrl_xfer udev TYPE_OUT_DEV USB_REQ_SET_ADDRESS dn 0 0 BuffNull 1000;
  upd_udev udev (fun u => u <| dev_num := dn |>);;
  if ret <? 0 then mret ret
  else
    ret ← usbh_get_device_descriptor udev;
    if ret <? 0 then mret ret
    else
      u ← on_mem (get_udev udev);
      let conf := cfd_buff u in
      ret ← usbh_get_config_descriptor udev conf MAX_DESC_BUFF_SIZE;
      if ret <? 0 then mret ret
      else
        upd_udev udev (fun u => u <| cur_conf := -1 |>);;
        bConfigurationValue ← read8 (conf + 5);
        ret ← usbh_set_configuration udev bConfigurationValue;
        if ret <? 0 then mret ret
        else
          ret ← parse_conf_at udev conf;
          if ret <? 0 then mret ret
          else
            enable_remote_wakeup udev;;
            call_conn udev;;
            mret ret.

Definition disconnect_device (udev : Z) : M core_st unit :=
  call_disconn udev;;
  quit_and_drop udev;;
  u ← on_mem (get_udev udev);
  on_mem (on_addr (free_dev_address (dev_num u)));;
  on_mem (free_device udev).

(** ** Endpoint search *)

(** The first of the [n] endpoints left that [test] accepts. *)
Fixpoint find_ep_loop (test : EP_INFO_T -> bool) (n : nat) (i : Z) (l : list EP_INFO_T)
    : res (option Z) :=
  match n with
  | O => mret None
  | S n =>
      e ← aget l i;
      if test e then mret (Some i) else find_ep_loop test n (i + 1) l
  end.

Definition ep_matches (dir_type : Z) (e : EP_INFO_T) : bool :=
  (Z.land (ep_bEndpointAddress e) EP_ADDR_DIR_MASK =? Z.land dir_type EP_ADDR_DIR_MASK) &&
  (Z.land (ep_bmAttributes e) EP_ATTR_TT_MASK =? Z.land dir_type EP_ATTR_TT_MASK).

(** The index of the endpoint found in the active alternate setting. *)
Definition usbh_iface_find_ep (iface ep_addr dir_type : Z) : M core_st (option Z) :=
  i ← get_iface iface;
  a ← lift (aget (alt i) (aif i));
  bNumEndpoints ← ifd_byte (ifd a) 4;
  lift (find_ep_loop
    (if ep_addr =? 0 then ep_matches dir_type else fun e => ep_bEndpointAddress e =? ep_addr)
    (Z.to_nat bNumEndpoints) 0 (alt_ep a)).

End usb_core.

(** * Lemmas on transfers *)
Section xfer_lemmas.
Context `{L : Layout} `{H : Host}.

(** What a transfer to [udev] may change: DRAM bytes, the transfer requests,
    the log, and the descriptor and the pipe of endpoint 0 of the device. *)
Definition same_dev (u u' : UDEV_T) : Prop :=
  u' = u <| descriptor := descriptor u' |> <| ep0 := ep0 u' |>.

Record frame (udev : Z) (s s' : core_st) : Prop := {
  fr_units : dma_unit_used (dma (mem s')) = dma_unit_used (dma (mem s));
  fr_cnt : dma_mem_used_cnt (dma (mem s')) = dma_mem_used_cnt (dma (mem s));
  fr_addrs : addrs (mem s') = addrs (mem s);
  fr_list : g_udev_list (mem s') = g_udev_list (mem s);
  fr_drivers : drivers s' = drivers s;
  fr_conn : g_conn_func s' = g_conn_func s;
  fr_ifaces : ifaces s' = ifaces s;
  fr_other : forall p, p <> udev -> udevs (mem s') !! p = udevs (mem s) !! p;
  fr_dev : forall u, udevs (mem s) !! udev = Some u ->
    exists u', udevs (mem s') !! udev = Some u' /\ same_dev u u' }.

Lemma same_dev_refl u : same_dev u u.
Proof. unfold same_dev. by destruct u. Qed.

Lemma same_dev_trans u v w : same_dev u v -> same_dev v w -> same_dev u w.
Proof. unfold same_dev. intros -> ->. by destruct u. Qed.

#[global] Instance frame_refl udev : Reflexive (frame udev).
Proof. intros s. split; eauto using same_dev_refl. Qed.

#[global] Instance frame_trans udev : Transitive (frame udev).
Proof.
  intros s t r [? ? ? ? ? ? ? Ho Hd] [? ? ? ? ? ? ? Ho' Hd']. split; try congruence.
  - intros p Hp. rewrite Ho', Ho; done.
  - intros u (v & Hv & ?)%Hd. destruct (Hd' v Hv) as (w & ? & ?).
    exists w. split; [done|]. by eapply same_dev_trans.
Qed.

Lemma wp_on_mem {A} (m : M mem_st A) (Q : A -> core_st -> Prop) s :
  wp m (fun a t => Q a (s <| mem := t |>)) (mem s) -> wp (on_mem m) Q s.
Proof. apply (wp_zoom mem (fun x s => s <| mem := x |>)). Qed.

Lemma wp_core_get_udev p u (Q : UDEV_T -> core_st -> Prop) s :
  udevs (mem s) !! p = Some u -> Q u s -> wp (on_mem (get_udev p)) Q s.
Proof. intros Hu HQ. apply wp_on_mem. eapply wp_get_udev; [done|]. by destruct s. Qed.

Lemma wp_hc_of udev u (Q : Z -> core_st -> Prop) s :
  udevs (mem s) !! udev = Some u -> hc_driver u <> NULL -> Q (hc_driver u) s ->
  wp (hc_of udev) Q s.
Proof.
  intros Hu Hh HQ. unfold hc_of. wp_step. eapply wp_core_get_udev; [done|].
  rewrite (proj2 (Z.eqb_neq _ _)) by done. by wp_step.
Qed.

(** Writing the descriptor or the pipe of the device stays in the frame. *)
Lemma frame_put udev u u' s :
  udevs (mem s) !! udev = Some u -> same_dev u u' ->
  frame udev s (s <| mem := (mem s) <| udevs := <[udev := u']> (udevs (mem s)) |> |>).
Proof.
  intros Hu Hs. split; try done.
  - intros p Hp. simpl. by rewrite lookup_insert_ne.
  - intros v Hv. simplify_eq. exists u'. simpl. by rewrite lookup_insert_eq.
Qed.

Lemma wp_upd_udev udev u f (Q : unit -> core_st -> Prop) s :
  udevs (mem s) !! udev = Some u ->
  Q tt (s <| mem := (mem s) <| udevs := <[udev := f u]> (udevs (mem s)) |> |>) ->
  wp (upd_udev udev f) Q s.
Proof.
  intros Hu HQ. unfold upd_udev. wp_step. eapply wp_core_get_udev; [done|].
  by apply wp_on_mem, wp_put_udev.
Qed.

Lemma wp_clear_pipe udev u (Q : unit -> core_st -> Prop) s :
  udevs (mem s) !! udev = Some u -> (forall s', frame udev s s' -> evs s' = evs s -> utrs (mem s') = utrs (mem s) -> Q tt s') ->
  wp (clear_pipe udev) Q s.
Proof.
  intros Hu HQ. unfold clear_pipe. eapply wp_upd_udev; [done|].
  apply HQ; [|done..]. eapply frame_put; [done|]. by destruct u.
Qed.

(** A transfer request in flight: [s'] is [s] up to the frame, with the unit
    [start] taken for the request [utr]. *)
Record in_flight (udev start : Z) (s s' : core_st) : Prop := {
  fl_frame : frame udev (s <| mem ::= fun m => m <| dma ::= dma_taken start 1 |> |>) s';
  fl_start : 0 <= start < 128;
  fl_free : zlookup (dma_unit_used (dma (mem s))) start = Some 0;
  fl_utr : exists r, utrs (mem s') !! nc_ptr (dma_unit start) = Some r /\ utr_udev r = udev }.

Lemma in_flight_frame udev start s s' s'' :
  in_flight udev start s s' -> frame udev s' s'' ->
  utrs (mem s'') = utrs (mem s') -> in_flight udev start s s''.
Proof.
  intros [Hf ? ? Hr] Hf' Hu. split; try done; [by etrans|]. by rewrite Hu.
Qed.

Lemma wp_alloc_utr udev (Q : Z -> core_st -> Prop) s :
  dma_inv (dma (mem s)) -> udev <> NULL ->
  (forall start, 0 <= start < 128 -> forall s', in_flight udev start s s' -> evs s' = evs s ->
     Q (nc_ptr (dma_unit start)) s') ->
  (no_fit (dma_unit_used (dma (mem s))) 1 128 -> Q NULL s) ->
  wp (on_mem (alloc_utr udev)) Q s.
Proof.
  intros Hinv Hn Hok Hno. apply wp_on_mem. unfold alloc_utr. wp_step.
  apply (wp_zoom dma (fun d s => s <| dma := d |>)). unfold wp at 1.
  destruct (alloc_mem_spec sizeof_UTR_T (dma (mem s)) (dma_len _ Hinv) ltac:(done))
    as [[-> Hnf]|(start & Hff & ->)].
  - rewrite Z.eqb_refl. wp_step. assert (s = s <| mem := (mem s) <| dma := dma (mem s) |> |>)
      as <- by (by destruct s as [[]]). by apply Hno.
  - destruct Hff as (H0 & H1 & Hr & _).
    change (units sizeof_UTR_T) with 1 in *. change (scan_limit sizeof_UTR_T) with 128 in *.
    rewrite (proj2 (Z.eqb_neq _ _)) by apply nc_ptr_not_null. wp_steps.
    apply (Hok start); [lia| |done]. split; [|lia|by apply Hr; lia|].
    + split; try done; simpl; eauto using same_dev_refl.
    + simpl. rewrite lookup_insert_eq. by eexists.
Qed.

Lemma wp_free_utr udev start (Q : unit -> core_st -> Prop) s0 s :
  length (dma_unit_used (dma (mem s0))) = 128%nat ->
  in_flight udev start s0 s ->
  (forall s', frame udev s0 s' -> evs s' = evs s -> Q tt s') ->
  wp (on_mem (free_utr (nc_ptr (dma_unit start)))) Q s.
Proof.
  intros Hl [Hf Hs Hz _] HQ. apply wp_on_mem. unfold free_utr.
  rewrite (proj2 (Z.eqb_neq _ _)) by apply nc_ptr_not_null. wp_step.
  apply (wp_zoom dma (fun d s => s <| dma := d |>)). unfold wp at 1.
  destruct Hf as [Hu Hc]. simpl in Hu, Hc.
  rewrite (free_mem_spec _ sizeof_UTR_T start); [|by rewrite Hu, length_insert|done|
    by rewrite addr_s_nc, dma_unit_addr|done].
  change (units sizeof_UTR_T) with 1. rewrite (proj2 (Z.leb_le _ _)) by lia.
  wp_step. apply HQ; [|done]. split; simpl; try done.
  - rewrite Hu, list_insert_insert_eq. by apply list_insert_id, zlookup_Some.
  - rewrite Hc. lia.
Qed.

(** Storing data keeps the frame when DMA data go where no structure of the
    model lives (the byte map). *)
Lemma wp_store_data udev b n data u (Q : unit -> core_st -> Prop) s :
  udevs (mem s) !! udev = Some u -> (forall d, b = BuffDesc d -> d = udev) ->
  (forall s', frame udev s s' -> evs s' = evs s -> utrs (mem s') = utrs (mem s) -> Q tt s') ->
  wp (store_data b n data) Q s.
Proof.
  intros Hu Hb HQ. unfold store_data. destruct b as [|d|p].
  - wp_step. by apply HQ.
  - rewrite (Hb d eq_refl). eapply wp_upd_udev; [done|].
    apply HQ; [|done..]. eapply frame_put; [done|]. by destruct u.
  - apply wp_on_mem. apply (wp_zoom dma (fun d s => s <| dma := d |>)). wp_step.
    apply HQ; [|done..]. split; simpl; eauto using same_dev_refl.
Qed.

(** The status and length [usbh_ctrl_xfer] makes of the controller's answer. *)
Definition ctrl_result (out : ctrl_out) : Z * Z :=
  if co_submit out <? 0 then (co_submit out, 0)
  else if co_done out then
    (co_status out, if co_status out =? 0 then u32 (co_xfer_len out) else 0)
  else (USBH_ERR_TIMEOUT, 0).

Definition mk_req (bmRequestType bRequest wValue wIndex wLength : Z) : DEV_REQ_T :=
  mkDEV_REQ (u8 bmRequestType) (u8 bRequest) (u16 wValue) (u16 wIndex) (u16 wLength).

Definition host_ready (udev : Z) (s : core_st) : Prop :=
  dma_inv (dma (mem s)) /\ udev <> NULL /\
  exists u, udevs (mem s) !! udev = Some u /\ hc_driver u <> NULL.

Lemma host_ready_frame udev s s' : host_ready udev s -> frame udev s s' -> host_ready udev s'.
Proof.
  intros ([Hl H01 Hc] & Hn & u & Hu & Hh) Hf. split; [|split; [done|]].
  - split; rewrite ?(fr_units _ _ _ Hf), ?(fr_cnt _ _ _ Hf); done.
  - destruct (fr_dev _ _ _ Hf u Hu) as (u' & Hu' & E). exists u'. split; [done|].
    by rewrite E.
Qed.

(** The control requests in a log. *)
Definition ctrl_reqs (l : list event) : list (Z * DEV_REQ_T) :=
  omap (fun e => match e with EvCtrl d r => Some (d, r) | _ => None end) l.

Lemma wp_quit_utr udev start s0 u (Q : Z -> core_st -> Prop) s :
  in_flight udev start s0 s -> udev <> NULL ->
  udevs (mem s) !! udev = Some u -> hc_driver u <> NULL ->
  (forall r, Q r (s <| evs ::= cons (EvQuit (nc_ptr (dma_unit start)) NULL) |>)) ->
  wp (usbh_quit_utr (nc_ptr (dma_unit start))) Q s.
Proof.
  intros [_ _ _ (r & Hr & Hu)] Hn Hd Hh HQ. unfold usbh_quit_utr.
  rewrite (proj2 (Z.eqb_neq _ _)) by apply nc_ptr_not_null. wp_step.
  apply wp_on_mem. unfold wp at 1, get_utr. rewrite Hr, Hu.
  rewrite (proj2 (Z.eqb_neq _ _)) by done. wp_step.
  eapply wp_hc_of; [done..|]. unfold host_call, emit. wp_steps. apply HQ.
Qed.

(** The specification of a control transfer that its callers use. *)
Lemma wp_ctrl_xfer udev rt rq v i l b t (Q : Z * Z -> core_st -> Prop) s u :
  host_ready udev s -> udevs (mem s) !! udev = Some u ->
  (forall d, b = BuffDesc d -> d = udev) ->
  (no_fit (dma_unit_used (dma (mem s))) 1 128 -> Q (USBH_ERR_MEMORY_OUT, 0) s) ->
  (forall s', frame udev s s' ->
     ctrl_reqs (evs s') = (dev_num u, mk_req rt rq v i l) :: ctrl_reqs (evs s) ->
     Q (ctrl_result (host_ctrl (evs s) (mk_req rt rq v i l))) s') ->
  wp (usbh_ctrl_xfer udev rt rq v i l b t) Q s.
Proof.
  intros ([Hl H01 Hc] & Hn & u0 & Hu0 & Hh) Hu Hb Hno HQ.
  assert (u0 = u) as -> by congruence.
  unfold usbh_ctrl_xfer. wp_step. apply wp_alloc_utr; [done|done| |].
  2:{ intros Hnf. rewrite Z.eqb_refl. wp_step. auto. }
  intros start Hs s1 Hfl1 Hev1. rewrite (proj2 (Z.eqb_neq _ _)) by apply nc_ptr_not_null.
  pose proof Hfl1 as [Hf1 _ _ (r & Hr & Hru)].
  destruct (fr_dev _ _ _ Hf1 u Hu) as (u1 & Hu1 & E1).
  assert (hc_driver u1 <> NULL) as Hh1 by (rewrite E1; exact Hh).
  assert (dev_num u1 = dev_num u) as Hd1 by (rewrite E1; done).
  wp_step. apply wp_on_mem. unfold wp at 1, get_utr. rewrite Hr.
  fold (mk_req rt rq v i l). wp_step. apply wp_on_mem. unfold put_utr. wp_step. wp_step.
  eapply wp_hc_of; [exact Hu1|exact Hh1|]. wp_step.
  eapply wp_core_get_udev; [exact Hu1|]. unfold emit. wp_steps.
  match goal with |- wp _ _ ?s => set (s2 := s) end.
  assert (in_flight udev start s s2) as Hfl2.
  { destruct Hfl1. split; try done.
    - etrans; [done|]. split; simpl; eauto using same_dev_refl.
    - simpl. rewrite lookup_insert_eq. eexists. split; [done|]. simpl. by destruct r. }
  assert (ctrl_reqs (evs s2) = (dev_num u, mk_req rt rq v i l) :: ctrl_reqs (evs s)) as Hev2
    by (simpl; rewrite Hd1, Hev1; done).
  match goal with |- context [host_ctrl ?l _] => change l with (evs s1) end.
  rewrite Hev1. set (out := host_ctrl (evs s) (mk_req rt rq v i l)) in *.
  assert (forall s' e, frame udev s s' -> ctrl_reqs (evs s') = ctrl_reqs (evs s2) ->
    ctrl_result out = e -> Q e s') as Hend by (intros s' e ? Hev <-; apply HQ; [done|]; by rewrite Hev).
  unfold ctrl_result in Hend.
  destruct (co_submit out <? 0) eqn:Esub.
  - wp_step. eapply wp_clear_pipe; [exact Hu1|]. intros s3 Hf3 Hev3 Hr3. wp_step.
    apply (wp_free_utr udev start _ s); [done|by eapply in_flight_frame|].
    intros s4 Hf4 Hev4. wp_step. apply Hend; [done|by rewrite Hev4, Hev3|done].
  - wp_step. eapply wp_store_data; [exact Hu1|done|]. intros s3 Hf3 Hev3 Hr3.
    assert (in_flight udev start s s3) as Hfl3 by by eapply in_flight_frame.
    destruct (fr_dev _ _ _ Hf3 u1 Hu1) as (u3 & Hu3 & E3).
    destruct (co_done out); simpl negb; cbv iota; wp_step.
    + apply (wp_free_utr udev start _ s); [done|done|]. intros s4 Hf4 Hev4. wp_step.
      apply Hend; [done|by rewrite Hev4, Hev3|done].
    + eapply wp_quit_utr; [done|done|exact Hu3|by rewrite E3|]. intros rq'. wp_step.
      apply (wp_free_utr udev start _ s); [done| |].
      { eapply in_flight_frame; [done| |done]. split; simpl; eauto using same_dev_refl. }
      intros s4 Hf4 Hev4. wp_step.
      destruct (fr_dev _ _ _ Hf4 u Hu) as (u4 & Hu4 & _).
      eapply wp_clear_pipe; [exact Hu4|]. intros s5 Hf5 Hev5 _. wp_step.
      apply Hend; [by etrans| |done]. rewrite Hev5, Hev4. simpl. by rewrite Hev3.
Qed.
End xfer_lemmas.

(** * What the standard requests leave alone *)
Section keep_lemmas.
Context `{L : Layout} `{H : Host}.

(** The pool of device addresses and the address of [udev]. *)
Definition addr_key (udev : Z) (s : core_st) : addr_st * option Z :=
  (addrs (mem s), dev_num <$> udevs (mem s) !! udev).

(** Drivers and callbacks that do not touch the core's addresses. *)
Definition host_keeps_addr (udev : Z) : Prop :=
  (forall d i, keeps (addr_key udev) (host_probe d i)) /\
  (forall f u, keeps (addr_key udev) (host_callback f u)).

Context (udev : Z).
#[local] Abbreviation keep := (keeps (addr_key udev)).

Lemma keep_on_dma {A} (m : M dma_st A) : keep (on_mem (on_dma m)).
Proof.
  apply keeps_zoom. intros s a t. unfold on_dma, zoom.
  destruct (m (dma (mem s))) as [[]|]; [|done]. by intros [= <- <-].
Qed.

Lemma keep_get_udev p : keep (on_mem (get_udev p)).
Proof.
  apply keeps_zoom. intros s a t. unfold get_udev.
  destruct (udevs (mem s) !! p); [|done]. by intros [= <- <-].
Qed.

Lemma keep_get_utr p : keep (on_mem (get_utr p)).
Proof.
  apply keeps_zoom. intros s a t. unfold get_utr.
  destruct (utrs (mem s) !! p); [|done]. by intros [= <- <-].
Qed.

Lemma keep_put_utr p u : keep (on_mem (put_utr p u)).
Proof. apply keeps_zoom. by intros s a t [= <- <-]. Qed.

Lemma keep_upd_udev p g : (forall u, dev_num (g u) = dev_num u) -> keep (upd_udev p g).
Proof.
  intros Hg s a s'. unfold upd_udev, mbind, M_bind, on_mem, zoom, get_udev, put_udev, modify.
  destruct (udevs (mem s) !! p) as [u|] eqn:Hu; [|done]. simpl. intros [= <- <-].
  unfold addr_key. simpl. f_equal. destruct (decide (p = udev)) as [->|].
  - rewrite lookup_insert_eq, Hu. simpl. by rewrite Hg.
  - by rewrite lookup_insert_ne.
Qed.

Lemma keep_alloc_utr p : keep (on_mem (alloc_utr p)).
Proof.
  apply keeps_zoom. intros s a t. unfold alloc_utr, mbind, M_bind, on_dma, zoom.
  destruct (usbh_alloc_mem sizeof_UTR_T (dma (mem s))) as [[q d]|]; [|done].
  destruct (q =? NULL); by intros [= <- <-].
Qed.

Lemma keep_free_utr p : keep (on_mem (free_utr p)).
Proof.
  apply keeps_zoom. intros s a t. unfold free_utr, mbind, M_bind, on_dma, zoom.
  destruct (p =? NULL); [by intros [= <- <-]|].
  destruct (usbh_free_mem p sizeof_UTR_T (dma (mem s))) as [[q d]|]; [|done].
  by intros [= <- <-].
Qed.

Lemma keep_emit e : keep (emit e).
Proof. by apply keeps_modify. Qed.

Lemma keep_read8 p : keep (read8 p).
Proof. apply keeps_gets. Qed.

Lemma keep_get_iface p : keep (get_iface p).
Proof.
  intros s a s'. unfold get_iface. destruct (ifaces s !! p); [|done]. by intros [= <- <-].
Qed.

Lemma keep_put_iface p i : keep (put_iface p i).
Proof. by apply keeps_modify. Qed.

#[local] Hint Resolve keep_on_dma keep_get_udev keep_get_utr keep_put_utr keep_alloc_utr
  keep_free_utr keep_emit keep_read8 keep_get_iface keep_put_iface : keeps.
#[local] Hint Extern 2 (keeps _ (upd_udev _ _)) =>
  apply keep_upd_udev; intros; reflexivity : keeps.

Lemma keep_hc_of p : keep (hc_of p).
Proof. unfold hc_of. keeps_tac. Qed.
Lemma keep_host_call e : keep (host_call e).
Proof. unfold host_call. keeps_tac. Qed.
#[local] Hint Resolve keep_hc_of keep_host_call : keeps.

Lemma keep_reset_device p : keep (reset_device p).
Proof. unfold reset_device. keeps_tac. Qed.
Lemma keep_quit_utr p : keep (usbh_quit_utr p).
Proof. unfold usbh_quit_utr. keeps_tac. Qed.
Lemma keep_clear_pipe p : keep (clear_pipe p).
Proof. unfold clear_pipe. keeps_tac. Qed.
Lemma keep_store_data b n data : keep (store_data b n data).
Proof. unfold store_data. keeps_tac. Qed.
#[local] Hint Resolve keep_reset_device keep_quit_utr keep_clear_pipe keep_store_data : keeps.

Lemma keep_ctrl_xfer p rt rq v i l b t : keep (usbh_ctrl_xfer p rt rq v i l b t).
Proof. unfold usbh_ctrl_xfer. keeps_tac. Qed.
#[local] Hint Resolve keep_ctrl_xfer : keeps.

Lemma keep_get_desc_loop n p r : keep (get_desc_loop n p r).
Proof. revert r. induction n as [|n IH]; intros r; simpl; keeps_tac. Qed.
Lemma keep_get_device_descriptor p : keep (usbh_get_device_descriptor p).
Proof. apply keep_get_desc_loop. Qed.
Lemma keep_get_config_descriptor p b l : keep (usbh_get_config_descriptor p b l).
Proof. unfold usbh_get_config_descriptor, read16. keeps_tac. Qed.
Lemma keep_set_configuration p c : keep (usbh_set_configuration p c).
Proof. unfold usbh_set_configuration. keeps_tac. Qed.
#[local] Hint Resolve keep_get_device_descriptor keep_get_config_descriptor
  keep_set_configuration : keeps.

Context (Hhost : host_keeps_addr udev).

Lemma keep_probe_loop n i p : keep (probe_loop n i p).
Proof.
  destruct Hhost as [Hp _]. revert i. induction n as [|n IH]; intros i; simpl; keeps_tac.
Qed.
Lemma keep_free_iface p : keep (free_iface p).
Proof. unfold free_iface. keeps_tac. Qed.
#[local] Hint Resolve keep_probe_loop keep_free_iface : keeps.

Lemma keep_parse_interface p base buf off len : keep (usbh_parse_interface p base buf off len).
Proof. unfold usbh_parse_interface. keeps_tac. Qed.
#[local] Hint Resolve keep_parse_interface : keeps.

Lemma keep_conf_loop p base buf n : forall off len, keep (conf_loop p base buf n off len).
Proof. induction n as [|n IH]; intros off len; simpl; keeps_tac. Qed.
#[local] Hint Resolve keep_conf_loop : keeps.

Lemma keep_parse_conf_at p c : keep (parse_conf_at p c).
Proof. unfold parse_conf_at, usbh_parse_configuration. keeps_tac. Qed.
Lemma keep_call_conn p : keep (call_conn p).
Proof. destruct Hhost as [_ Hc]. unfold call_conn. keeps_tac. Qed.
Lemma keep_wakeup p : keep (enable_remote_wakeup p).
Proof. unfold enable_remote_wakeup. keeps_tac. Qed.
End keep_lemmas.

(** * Descriptors laid out in the buffer *)

(** [buf] holds the bytes [l] from offset [off] on. *)
Definition holds (buf : list Z) (off : Z) (l : list Z) : Prop :=
  0 <= off /\ forall i v, l !! i = Some v -> zlookup buf (off + Z.of_nat i) = Some v.

(** A descriptor: its first byte is its length, at least 2. *)
Definition desc_ok (d : list Z) : Prop := 2 <= zlen d /\ d !! 0%nat = Some (zlen d).
Definition desc_type (d : list Z) : Z := default 0 (d !! 1%nat).
Definition byte (d : list Z) (i : nat) : Z := default 0 (d !! i).

(** Descriptors the parser steps over between the ones it knows. *)
Definition desc_other (d : list Z) : Prop :=
  desc_ok d /\ desc_type d <> USB_DT_CONFIGURATION /\ desc_type d <> USB_DT_INTERFACE /\
  desc_type d <> USB_DT_ENDPOINT.

(** An endpoint: the descriptors in front of it and its own, of 7 bytes or more. *)
Definition ep_ok (e : list (list Z) * list Z) : Prop :=
  Forall desc_other e.1 /\ desc_ok e.2 /\ 7 <= zlen e.2 /\ desc_type e.2 = USB_DT_ENDPOINT.
Definition ep_enc (e : list (list Z) * list Z) : list Z := concat e.1 ++ e.2.

(** What an endpoint descriptor means. *)
Definition ep_dec (d : list Z) (old : EP_INFO_T) : EP_INFO_T :=
  mkEP_INFO (byte d 2) (byte d 3) (byte d 6) (ep_bToggle old)
    (u16 (ep_pksz (byte d 4 + 256 * byte d 5))) NULL.

Section layout_lemmas.
Implicit Types (buf l d : list Z).

Lemma holds_app buf off l k : holds buf off (l ++ k) <-> holds buf off l /\ holds buf (off + zlen l) k.
Proof.
  unfold holds. split.
  - intros [Hoff Hh]. split; (split; [lia|]).
    + intros i v Hi. apply Hh. by apply lookup_app_l_Some.
    + intros i v Hi. rewrite <- Z.add_assoc, <- Nat2Z.inj_add. apply Hh.
      rewrite lookup_app_r by lia. by replace (length l + i - length l)%nat with i by lia.
  - intros [[Hoff Hl] [_ Hk]]. split; [lia|]. intros i v Hi.
    apply lookup_app_Some in Hi as [Hi|[Hle Hi]]; [by apply Hl|].
    replace (off + Z.of_nat i) with (off + zlen l + Z.of_nat (i - length l)) by lia. by apply Hk.
Qed.

Lemma rd8_holds buf off l i v : holds buf off l -> l !! i = Some v ->
  rd8 buf (off + Z.of_nat i) = Ok v.
Proof. intros [_ Hh] Hi. apply aget_Ok. by apply Hh. Qed.

Lemma byte_lookup d (i : nat) : (i < length d)%nat -> d !! i = Some (byte d i).
Proof. intros [v Hv]%lookup_lt_is_Some_2. unfold byte. by rewrite Hv. Qed.

Lemma rd8_byte buf off d i : holds buf off d -> 0 <= i < zlen d ->
  rd8 buf (off + i) = Ok (byte d (Z.to_nat i)).
Proof.
  intros Hh Hi. rewrite <- (Z2Nat.id i) at 1 by lia.
  eapply rd8_holds; [done|]. apply byte_lookup. lia.
Qed.

Lemma rd8_len buf off d : desc_ok d -> holds buf off d -> rd8 buf off = Ok (zlen d).
Proof.
  intros [_ Hl] Hh. rewrite <- (Z.add_0_r off). by apply (rd8_holds buf off d 0).
Qed.

Lemma rd8_type buf off d : desc_ok d -> holds buf off d -> rd8 buf (off + 1) = Ok (desc_type d).
Proof. intros [Hl _] Hh. apply (rd8_byte buf off d 1); [done|lia]. Qed.

Lemma ep_find_spec buf os d : forall fuel off parsed len e0,
  Forall desc_other os -> desc_ok d -> desc_type d = USB_DT_ENDPOINT ->
  holds buf off (concat os ++ d) -> zlen (concat os ++ d) <= len -> len < Z.of_nat fuel ->
  ep_find buf fuel off parsed len e0 =
    Ok (inr (Some (off + zlen (concat os)), parsed + zlen (concat os))).
Proof.
  induction os as [|o os IH]; intros fuel off parsed len e0 Hos Hd Ht Hh Hlen Hf;
    (destruct fuel as [|fuel]; [lia|]); cbn [ep_find].
  - simpl in *. pose proof (proj1 Hd). rewrite (proj2 (Z.ltb_lt 0 len)) by lia.
    rewrite (rd8_len buf off d) by done. unfold mbind, res_bind.
    rewrite (proj2 (Z.ltb_ge _ _)), (proj2 (Z.ltb_ge _ 2)) by lia. simpl.
    rewrite (rd8_type buf off d), Ht, Z.eqb_refl by done. by rewrite !Z.add_0_r.
  - apply Forall_cons_1 in Hos as [[Ho (_ & _ & Hoe)] Hos]. simpl in *. pose proof (proj1 Ho).
    rewrite <- app_assoc in Hh. apply holds_app in Hh as [Hho Hh].
    rewrite <- app_assoc, length_app in Hlen.
    rewrite (proj2 (Z.ltb_lt 0 len)) by (rewrite ?length_app in *; lia).
    rewrite (rd8_len buf off o) by done. unfold mbind, res_bind.
    rewrite (proj2 (Z.ltb_ge _ _)), (proj2 (Z.ltb_ge _ 2)) by lia. simpl.
    rewrite (rd8_type buf off o) by done. rewrite (proj2 (Z.eqb_neq _ _)) by done.
    rewrite (IH fuel) by (done || lia). rewrite length_app. do 3 f_equal; [f_equal|]; lia.
Qed.

(** The endpoint parser on a well-formed endpoint. *)
Lemma parse_endpoint_spec buf a (i : nat) off len e old :
  ep_ok e -> holds buf off (ep_enc e) -> zlen (ep_enc e) <= len ->
  alt_ep a !! i = Some old ->
  usbh_parse_endpoint buf a (Z.of_nat i) off len =
    Ok (zlen (ep_enc e), a <| alt_ep ::= <[i := ep_dec e.2 old]> |>).
Proof.
  intros (Hos & Hd & H7 & Ht) Hh Hlen Hold. unfold usbh_parse_endpoint, ep_enc in *.
  destruct e as [os d]. cbn [fst snd] in *.
  assert (0 <= len) by (pose proof (zlen (concat os ++ d)); lia).
  rewrite (ep_find_spec buf os d) by (done || lia). unfold mbind, res_bind.
  apply holds_app in Hh as [_ Hh]. rewrite !Z.add_0_l.
  set (o := off + zlen (concat os)) in *.
  rewrite (rd8_byte buf o d 2) by (done || lia). rewrite (rd8_byte buf o d 3) by (done || lia).
  rewrite (rd8_byte buf o d 6) by (done || lia). unfold rd16, mbind, res_bind.
  rewrite (rd8_byte buf o d 4) by (done || lia).
  replace (o + 4 + 1) with (o + 5) by lia. rewrite (rd8_byte buf o d 5) by (done || lia).
  pose proof (lookup_lt_Some _ _ _ Hold).
  rewrite (proj2 (aget_Ok _ _ old)) by (apply zlookup_Some; rewrite Nat2Z.id; split; [lia|done]).
  res_simpl. rewrite aset_Ok by lia. res_simpl. rewrite (rd8_len _ _ d) by done.
  rewrite Nat2Z.id, length_app, Nat2Z.inj_add. by destruct a.
Qed.

(** The endpoint array after the endpoints [es] from index [i] on. *)
Fixpoint eps_dec (i : nat) (es : list (list (list Z) * list Z)) (l : list EP_INFO_T)
    : list EP_INFO_T :=
  match es with
  | [] => l
  | e :: es => eps_dec (S i) es (<[i := ep_dec e.2 (default ep_zero (l !! i))]> l)
  end.

Definition eps_enc (es : list (list (list Z) * list Z)) : list Z := concat (ep_enc <$> es).

Lemma ep_loop_spec buf es : forall (i : nat) off parsed len a,
  Forall ep_ok es -> holds buf off (eps_enc es) -> zlen (eps_enc es) <= len ->
  (i + length es <= length (alt_ep a))%nat ->
  ep_loop buf (length es) (Z.of_nat i) off parsed len a =
    Ok (inr (a <| alt_ep := eps_dec i es (alt_ep a) |>, off + zlen (eps_enc es),
             parsed + zlen (eps_enc es), len - zlen (eps_enc es))).
Proof.
  induction es as [|e es IH]; intros i off parsed len a Hes Hh Hlen Hi; cbn [ep_loop length].
  - unfold eps_enc. simpl. rewrite !Z.add_0_r, Z.sub_0_r. by destruct a.
  - apply Forall_cons_1 in Hes as [He Hes]. unfold eps_enc in *. cbn [fmap list_fmap concat] in *.
    apply holds_app in Hh as [Hhe Hh]. rewrite length_app, Nat2Z.inj_add in Hlen |- *.
    cbn [length] in Hi.
    destruct (lookup_lt_is_Some_2 (alt_ep a) i) as [old Hold]; [lia|].
    rewrite (parse_endpoint_spec buf a i off len e old) by (done || lia). res_simpl.
    rewrite (proj2 (Z.ltb_ge _ 0)) by lia.
    replace (Z.of_nat i + 1) with (Z.of_nat (S i)) by lia.
    rewrite IH by (done || lia || (simpl; rewrite ?length_insert; lia)).
    rewrite !Z.add_assoc, Z.sub_add_distr. cbn [eps_dec]. by rewrite Hold.
Qed.

(** The descriptor at which [if_skip] stops. *)
Definition stops (d : list Z) : Prop :=
  desc_ok d /\ (desc_type d = USB_DT_INTERFACE \/ desc_type d = USB_DT_ENDPOINT).

Lemma if_skip_spec buf os rest : forall fuel off parsed len hdr,
  Forall desc_other os -> holds buf off (concat os ++ rest) ->
  (rest = [] /\ len = zlen (concat os) \/
   (exists d k, rest = d ++ k /\ stops d) /\ zlen (concat os ++ rest) <= len) ->
  len < Z.of_nat fuel ->
  exists hdr', if_skip buf fuel off parsed len hdr =
      Ok (SkipAt (off + zlen (concat os)) (parsed + zlen (concat os)) (len - zlen (concat os)) hdr') /\
    (rest <> [] -> hdr' = Some (off + zlen (concat os))).
Proof.
  induction os as [|o os IH]; intros fuel off parsed len hdr Hos Hh Hlen Hf;
    (destruct fuel as [|fuel]; [lia|]); cbn [if_skip].
  - simpl in *. rewrite !Z.add_0_r, Z.sub_0_r.
    destruct Hlen as [[-> ->]|[(d & k & -> & [Hd Ht]) Hlen]].
    { rewrite Z.ltb_irrefl. by exists hdr. }
    apply holds_app in Hh as [Hh _]. rewrite length_app in Hlen. pose proof (proj1 Hd).
    rewrite (proj2 (Z.ltb_lt 0 len)) by lia. rewrite (rd8_len buf off d) by done. res_simpl.
    rewrite (proj2 (Z.ltb_ge _ _)), (proj2 (Z.ltb_ge _ 2)) by lia. cbn [orb].
    rewrite (rd8_type buf off d) by done. exists (Some off). split; [|done].
    by destruct Ht as [->| ->].
  - apply Forall_cons_1 in Hos as [[Ho (Hc & Hi & He)] Hos]. pose proof (proj1 Ho).
    cbn [concat] in *. rewrite <- app_assoc in Hh. apply holds_app in Hh as [Hho Hh].
    rewrite <- app_assoc, !(length_app o), !Nat2Z.inj_add in Hlen.
    rewrite (proj2 (Z.ltb_lt 0 len)) by (destruct Hlen as [[_ ->]|[_ Hlen]]; lia).
    rewrite (rd8_len buf off o) by done. res_simpl.
    rewrite (proj2 (Z.ltb_ge _ _)), (proj2 (Z.ltb_ge _ 2))
      by (destruct Hlen as [[_ ->]|[_ Hlen]]; lia). cbn [orb].
    rewrite (rd8_type buf off o) by done.
    rewrite !(proj2 (Z.eqb_neq _ _)) by done. cbn [orb].
    destruct (IH fuel (off + zlen o) (parsed + zlen o) (len - zlen o) (Some off))
      as (h & -> & Hh'); try done; try lia.
    { destruct Hlen as [[-> ->]|[Hr Hlen]]; [left|right]; (split; [done|lia]). }
    rewrite length_app, Nat2Z.inj_add. exists h.
    rewrite !Z.add_assoc, Z.sub_add_distr. split; [done|].
    exact Hh'.
Qed.

(** An alternate setting: its interface descriptor, other descriptors, and its
    endpoints. *)
Record alt_src := mkAltSrc {
  as_if : list Z; as_other : list (list Z); as_eps : list (list (list Z) * list Z) }.

Definition alt_ok (num : Z) (a : alt_src) : Prop :=
  desc_ok (as_if a) /\ 9 <= zlen (as_if a) /\ desc_type (as_if a) = USB_DT_INTERFACE /\
  byte (as_if a) 2 = num /\ byte (as_if a) 4 = zlen (as_eps a) /\
  zlen (as_eps a) <= MAX_EP_PER_IFACE /\ Forall desc_other (as_other a) /\
  Forall ep_ok (as_eps a) /\ match as_eps a with e :: _ => e.1 = [] | [] => True end.

Definition alt_enc (a : alt_src) : list Z :=
  as_if a ++ concat (as_other a) ++ eps_enc (as_eps a).
Definition alts_enc (l : list alt_src) : list Z := concat (alt_enc <$> l).

(** The settings from index [k] on, as the parser records them. *)
Fixpoint alts_dec (base off : Z) (k : nat) (l : list alt_src) (alts : list ALT_IFACE_T)
    : list ALT_IFACE_T :=
  match l with
  | [] => alts
  | a :: l =>
      alts_dec base (off + zlen (alt_enc a)) (S k) l
        (<[k := mkALT (base + off) (eps_dec 0 (as_eps a) (replicate 6 ep_zero))]> alts)
  end.

(** What may follow the settings of interface [num]: nothing, or the first
    descriptor of another interface. *)
Definition next_iface (num : Z) (rest : list Z) : Prop :=
  rest = [] \/ exists d k, rest = d ++ k /\ desc_ok d /\ 9 <= zlen d /\
    desc_type d = USB_DT_INTERFACE /\ byte d 2 <> num.

Lemma alts_stop num (l : list alt_src) rest : Forall (alt_ok num) l -> next_iface num rest ->
  alts_enc l ++ rest = [] \/
  exists d k, alts_enc l ++ rest = d ++ k /\ desc_ok d /\ desc_type d = USB_DT_INTERFACE.
Proof.
  intros Hl Hr. destruct l as [|a l].
  - destruct Hr as [->|(d & k & -> & ? & _ & ? & _)]; [by left|right; by exists d, k].
  - right. apply Forall_cons_1 in Hl as [(? & _ & ? & _) _].
    exists (as_if a), (concat (as_other a) ++ eps_enc (as_eps a) ++ alts_enc l ++ rest).
    split_and!; try done. unfold alts_enc, alt_enc. simpl. by rewrite <- !app_assoc.
Qed.

Lemma if_loop_stop buf base fuel off parsed hdr i rest :
  next_iface (if_num i) rest -> holds buf off rest ->
  if_loop buf base (S fuel) off parsed (zlen rest) hdr i = Ok (inr (parsed, i)).
Proof.
  intros [->|(d & k & -> & Hd & H9 & Ht & Hn)] Hh; [done|].
  apply holds_app in Hh as [Hh _]. cbn [if_loop]. rewrite length_app.
  rewrite (proj2 (Z.ltb_lt _ _)) by lia. cbn [negb].
  rewrite (rd8_type buf off d), (rd8_len buf off d), Ht by done. res_simpl. simpl negb. cbv iota.
  rewrite (rd8_byte buf off d 2) by (done || lia). res_simpl.
  change (byte d (Z.to_nat 2)) with (byte d 2). by rewrite (proj2 (Z.eqb_neq _ _)).
Qed.

(** One turn of [if_loop] on an alternate setting. *)
Lemma if_loop_turn buf base fuel off parsed hdr i (k : nat) a (l : list alt_src) rest :
  alt_ok (if_num i) a -> Forall (alt_ok (if_num i)) l -> next_iface (if_num i) rest ->
  num_alt i = Z.of_nat k -> (k < 8)%nat -> alt i !! k = Some alt_zero -> length (alt i) = 8%nat ->
  holds buf off (alt_enc a ++ alts_enc l ++ rest) -> (length l < fuel)%nat ->
  exists hdr', if_loop buf base (S fuel) off parsed (zlen (alt_enc a ++ alts_enc l ++ rest)) hdr i =
    if_loop buf base fuel (off + zlen (alt_enc a)) (parsed + zlen (alt_enc a))
      (zlen (alts_enc l ++ rest)) hdr'
      (i <| alt ::= <[k := mkALT (base + off) (eps_dec 0 (as_eps a) (replicate 6 ep_zero))]> |>
         <| num_alt := Z.of_nat (S k) |>).
Proof.
  intros (Hd & H9 & Ht & Hn & Hb4 & H6 & Ho & He & Hfirst) Hl Hr Hk Hk8 Halt Hlen8 Hh Hfuel.
  pose proof (alts_stop _ _ _ Hl Hr) as Hstop.
  set (tl := alts_enc l ++ rest) in *.
  unfold alt_enc in *. rewrite <- !app_assoc in *.
  pose proof Hh as Hh0. apply holds_app in Hh as [Hif Hh].
  set (body := concat (as_other a) ++ eps_enc (as_eps a) ++ tl) in *.
  cbn [if_loop]. rewrite (length_app (as_if a)), Nat2Z.inj_add.
  rewrite (proj2 (Z.ltb_lt _ _)) by lia. cbn [negb].
  rewrite (rd8_type buf off _ Hd Hif), (rd8_len buf off _ Hd Hif), Ht. res_simpl.
  simpl negb. cbv iota. rewrite (rd8_byte buf off (as_if a) 2) by (done || lia). res_simpl.
  change (byte (as_if a) (Z.to_nat 2)) with (byte (as_if a) 2). rewrite Hn, Z.eqb_refl.
  cbn [negb]. rewrite (rd8_byte buf off (as_if a) 4) by (done || lia). res_simpl.
  change (byte (as_if a) (Z.to_nat 4)) with (byte (as_if a) 4). rewrite Hb4.
  rewrite (proj2 (Z.ltb_ge _ _)) by done.
  rewrite (proj2 (Z.leb_gt _ _)) by (unfold MAX_ALT_PER_IFACE; lia).
  replace (zlen (as_if a) + zlen body - zlen (as_if a)) with (zlen body) by lia.
  destruct (if_skip_spec buf (as_other a) (eps_enc (as_eps a) ++ tl)
    (S (Z.to_nat (zlen body))) (off + zlen (as_if a)) (parsed + zlen (as_if a)) (zlen body) hdr)
    as (h & -> & Hhdr); [done|done| |lia|].
  { destruct (as_eps a) as [|e es] eqn:Ees.
    - cbn. destruct Hstop as [Htl|(d & q & Htl & Hdd & Htt)].
      + left. split; [done|]. unfold body. rewrite Htl. simpl. by rewrite app_nil_r.
      + right. split; [|done]. exists d, q. split; [done|]. split; auto.
    - right. split; [|done]. apply Forall_cons_1 in He as [(_ & Hed & _ & Het) _].
      exists e.2, (eps_enc es ++ tl). split; [|split; auto]. unfold eps_enc. simpl.
      unfold ep_enc at 1. rewrite Hfirst. simpl. by rewrite <- app_assoc. }
  rewrite Hk. rewrite (proj2 (aget_Ok (alt i) (Z.of_nat k) alt_zero))
    by (apply zlookup_Some; rewrite Nat2Z.id; split; [lia|done]).
  rewrite aset_Ok by lia. res_simpl. rewrite Nat2Z.id.
  exists h. set (i1 := i <| alt := _ |> <| num_alt ::= _ |>).
  assert (num_alt i1 = Z.of_nat (S k)) as Hn1
    by (simpl; rewrite Hk, uwrap_id by lia; lia).
  assert (length (alt i1) = 8%nat) as Hl1 by (simpl; by rewrite length_insert).
  assert (alt i1 !! k = Some (mkALT (base + off) (replicate 6 ep_zero))) as Ha1
    by (simpl; apply list_lookup_insert_eq; lia).
  assert (zlen body - zlen (concat (as_other a)) = zlen (eps_enc (as_eps a) ++ tl)) as ->
    by (unfold body; rewrite length_app; lia).
  set (pos := off + zlen (as_if a) + zlen (concat (as_other a))) in *.
  assert (off + zlen (as_if a ++ concat (as_other a) ++ eps_enc (as_eps a)) =
    pos + zlen (eps_enc (as_eps a))) as -> by (unfold pos; rewrite !length_app; lia).
  assert (parsed + zlen (as_if a ++ concat (as_other a) ++ eps_enc (as_eps a)) =
    parsed + zlen (as_if a) + zlen (concat (as_other a)) + zlen (eps_enc (as_eps a))) as ->
    by (rewrite !length_app; lia).
  unfold body in Hh. apply holds_app in Hh as [_ Hh].
  replace (off + zlen (as_if a) + zlen (concat (as_other a))) with pos in Hh by done.
  destruct (as_eps a) as [|e es] eqn:Ees.
  - assert (i1 = i <| alt ::= <[k := mkALT (base + off) (eps_dec 0 [] (replicate 6 ep_zero))]> |>
                   <| num_alt := Z.of_nat (S k) |>) as ->.
    { unfold i1, upd. simpl. f_equal. exact Hn1. }
    unfold eps_enc in *. cbn [fmap list_fmap concat app length] in *. rewrite !Z.add_0_r.
    destruct Hstop as [->|(d & q & Htl & Hdd & Htt)].
    + simpl Z.of_nat. destruct fuel as [|fuel]; [lia|]. done.
    + rewrite Htl in *. rewrite Hhdr by (destruct d; [by destruct Hdd|done]).
      pose proof (proj1 Hdd). apply holds_app in Hh as [Hh _].
      rewrite (proj2 (Z.eqb_neq _ 0)) by (rewrite length_app; lia).
      rewrite (rd8_type buf _ d), Htt by done. done.
  - pose proof He as [(_ & Hed & H7 & Het) _]%Forall_cons_1.
    assert (holds buf pos e.2) as Hhe.
    { unfold eps_enc in Hh. cbn [fmap list_fmap concat] in Hh. unfold ep_enc at 1 in Hh.
      rewrite Hfirst in Hh. cbn [concat app] in Hh. rewrite <- !app_assoc in Hh. by apply holds_app in Hh as [Hh _]. }
    assert (0 < zlen (eps_enc (e :: es))) as Hpos.
    { unfold eps_enc. cbn [fmap list_fmap concat]. unfold ep_enc at 1.
      rewrite !length_app. lia. }
    rewrite (proj2 (Z.eqb_neq _ 0)) by (rewrite length_app; lia).
    rewrite Hhdr by (intros E; apply app_nil in E as [E _]; rewrite E in Hpos; done).
    rewrite (rd8_type buf pos e.2), Het by done. res_simpl. simpl (_ =? _). cbv iota.
    rewrite Hn1. replace (Z.of_nat (S k) - 1) with (Z.of_nat k) by lia.
    rewrite (proj2 (aget_Ok _ _ _)) by (apply zlookup_Some; rewrite Nat2Z.id; split; [lia|done]).
    res_simpl. rewrite Nat2Z.id. apply holds_app in Hh as [Hh _].
    rewrite (ep_loop_spec buf (e :: es) 0) by
      (done || (simpl; unfold MAX_EP_PER_IFACE in *; rewrite ?length_app; simpl in *; lia)).
    rewrite aset_Ok by lia. res_simpl. rewrite Nat2Z.id.
    replace (zlen (eps_enc (e :: es) ++ tl) - zlen (eps_enc (e :: es))) with (zlen tl)
      by (rewrite length_app; lia).
    f_equal. unfold i1, upd. simpl. rewrite list_insert_insert_eq. f_equal. exact Hn1.
Qed.

Lemma if_loop_spec buf base (l : list alt_src) rest : forall fuel off parsed hdr i (k : nat),
  Forall (alt_ok (if_num i)) l -> next_iface (if_num i) rest ->
  num_alt i = Z.of_nat k -> (k + length l <= 8)%nat -> length (alt i) = 8%nat ->
  (forall j, (k <= j < 8)%nat -> alt i !! j = Some alt_zero) ->
  holds buf off (alts_enc l ++ rest) -> (length l < fuel)%nat ->
  if_loop buf base fuel off parsed (zlen (alts_enc l ++ rest)) hdr i =
    Ok (inr (parsed + zlen (alts_enc l),
      i <| alt ::= alts_dec base off k l |> <| num_alt := Z.of_nat (k + length l) |>)).
Proof.
  induction l as [|a l IH]; intros fuel off parsed hdr i k Hl Hr Hk Hle Hlen Hz Hh Hf.
  - destruct fuel as [|fuel]; [simpl in Hf; lia|]. unfold alts_enc in *. cbn [fmap list_fmap concat app] in *.
    rewrite if_loop_stop by done. rewrite Z.add_0_r. cbn [length]. rewrite Nat.add_0_r, <- Hk.
    by destruct i.
  - destruct fuel as [|fuel]; [simpl in Hf; lia|]. apply Forall_cons_1 in Hl as [Ha Hl].
    cbn [length] in *. change (alts_enc (a :: l)) with (alt_enc a ++ alts_enc l) in *.
    rewrite <- app_assoc in *.
    destruct (if_loop_turn buf base fuel off parsed hdr i k a l rest) as (h & ->);
      try done; try lia; [by apply Hz; lia|].
    apply holds_app in Hh as [_ Hh].
    rewrite (IH fuel (off + zlen (alt_enc a)) _ h _ (S k)); simpl; try done; try lia.
    + rewrite length_app, Nat2Z.inj_add, Z.add_assoc.
      replace (S (k + length l)) with (k + S (length l))%nat by lia. done.
    + by rewrite length_insert.
    + intros j Hj. rewrite list_lookup_insert_ne by lia. apply Hz. lia.
Qed.

(** The search of [usbh_iface_find_ep] returns the first match. *)
Lemma find_ep_loop_spec test (l : list EP_INFO_T) n : forall i,
  0 <= i -> i + Z.of_nat n <= zlen l ->
  (exists j e, find_ep_loop test n i l = Ok (Some j) /\ i <= j < i + Z.of_nat n /\
     zlookup l j = Some e /\ test e = true /\
     forall k x, i <= k < j -> zlookup l k = Some x -> test x = false) \/
  (find_ep_loop test n i l = Ok None /\
     forall k x, i <= k < i + Z.of_nat n -> zlookup l k = Some x -> test x = false).
Proof.
  induction n as [|n IH]; intros i Hi Hn; cbn [find_ep_loop].
  { right. split; [done|]. lia. }
  destruct (zlookup_is_Some l i) as [e He]; [lia|].
  rewrite (proj2 (aget_Ok l i e) He). res_simpl. destruct (test e) eqn:Et.
  { left. exists i, e. split_and!; try done; try lia. }
  destruct (IH (i + 1)) as [(j & x & -> & ? & ? & ? & Hk)|[-> Hk]]; try lia.
  - left. exists j, x. split_and!; try done; try lia. intros k y Hky Hy.
    destruct (decide (k = i)) as [->|]; [congruence|]. apply (Hk k y); [lia|done].
  - right. split; [done|]. intros k y Hky Hy.
    destruct (decide (k = i)) as [->|]; [congruence|]. apply (Hk k y); [lia|done].
Qed.
End layout_lemmas.

(** * Properties *)
Section properties.
Context `{L : Layout} `{H : Host}.


(** The cases of [usbh_set_address], whenever it returns. *)
Lemma set_address_cases udev s u ret s' :
  length (dev_addr_pool (addrs (mem s))) = 128%nat ->
  0 <= device_addr (addrs (mem s)) < 128 -> udevs (mem s) !! udev = Some u ->
  usbh_set_address udev s = Ok (ret, s') ->
  (dev_num u <> 0 /\ ret = USBH_ERR_SET_DEV_ADDR /\ s' = s) \/
  (dev_num u = 0 /\ ret < 0 /\
     dev_addr_pool (addrs (mem s')) = dev_addr_pool (addrs (mem s)) /\
     dev_num <$> udevs (mem s') !! udev = Some 0) \/
  (dev_num u = 0 /\ ret = 0 /\ exists a, 1 <= a < 128 /\
     zlookup (dev_addr_pool (addrs (mem s))) a = Some 0 /\
     dev_addr_pool (addrs (mem s')) = <[Z.to_nat a := 1]> (dev_addr_pool (addrs (mem s))) /\
     dev_num <$> udevs (mem s') !! udev = Some a).
Proof.
  intros Hl Hd Hu. unfold usbh_set_address, mbind, M_bind.
  unfold on_mem at 1, zoom at 1, get_udev at 1. rewrite Hu.
  replace (s <| mem := mem s |>) with s by by destruct s.
  destruct (dev_num u =? 0) eqn:E0; breflect; cbn [negb].
  2:{ intros [= <- <-]. by left. }
  unfold on_mem at 1, zoom at 1, on_addr at 1, zoom at 1.
  destruct (alloc_dev_address_cases (addrs (mem s)) Hl Hd) as [(a & -> & Ha & Hz)|[-> _]];
    [|done].
  set (s1 := s <| mem := _ |>).
  destruct (usbh_ctrl_xfer udev TYPE_OUT_DEV USB_REQ_SET_ADDRESS a 0 0 BuffNull 1000 s1)
    as [[[r n] s2]|] eqn:Ex; [|done].
  pose proof (keep_ctrl_xfer udev _ _ _ _ _ _ _ _ s1 _ s2 Ex) as Hk.
  unfold addr_key in Hk. injection Hk as Hka Hkd.
  simpl in Hkd. rewrite Hu in Hkd. simpl in Hkd.
  destruct (r <? 0) eqn:Er; breflect.
  - unfold on_mem, zoom, on_addr, zoom, free_dev_address.
    rewrite (proj2 (Z.ltb_lt a 128)) by lia. unfold gets, lift, modify, mbind, M_bind.
    rewrite Hka. simpl. rewrite aset_Ok by (rewrite length_insert; lia).
    intros [= <- <-]. right. left. split; [done|]. split; [done|]. simpl.
    rewrite list_insert_insert_eq, Hkd, E0. split; [|done].
    apply list_insert_id. by apply zlookup_Some.
  - unfold upd_udev, mbind, M_bind, on_mem, zoom, get_udev, put_udev, modify.
    destruct (udevs (mem s2) !! udev) as [w|] eqn:Hw; [|done]. intros [= <- <-].
    right. right. split; [done|]. split; [done|]. exists a. split; [done|]. split; [done|].
    simpl. rewrite Hka, lookup_insert_eq. simpl. split; [done|]. f_equal.
    apply uwrap_id. lia.
Qed.

(** C14: [usbh_set_address] on a device that has no address yet: it returns, and
    either it fails and the pool of addresses is as before, or it succeeds and
    the device has an address from 1 to 127 that was free and is now taken.  A
    device that has an address is refused and nothing is sent. *)
Theorem usbh_set_address_spec udev s u :
  host_ready udev s -> udevs (mem s) !! udev = Some u ->
  length (dev_addr_pool (addrs (mem s))) = 128%nat ->
  0 <= device_addr (addrs (mem s)) < 128 ->
  (exists a, 1 <= a < 128 /\ zlookup (dev_addr_pool (addrs (mem s))) a = Some 0) ->
  exists ret s', usbh_set_address udev s = Ok (ret, s') /\
  ((dev_num u <> 0 /\ ret = USBH_ERR_SET_DEV_ADDR /\ s' = s) \/
   (dev_num u = 0 /\ ret < 0 /\
      dev_addr_pool (addrs (mem s')) = dev_addr_pool (addrs (mem s)) /\
      dev_num <$> udevs (mem s') !! udev = Some 0) \/
   (dev_num u = 0 /\ ret = 0 /\ exists a, 1 <= a < 128 /\
      zlookup (dev_addr_pool (addrs (mem s))) a = Some 0 /\
      dev_addr_pool (addrs (mem s')) = <[Z.to_nat a := 1]> (dev_addr_pool (addrs (mem s))) /\
      dev_num <$> udevs (mem s') !! udev = Some a)).
Proof.
  intros Hr Hu Hl Hd (a0 & Ha0 & Hz0).
  assert (exists ret s', usbh_set_address udev s = Ok (ret, s')) as (ret & s' & E).
  2:{ exists ret, s'. split; [done|]. by eapply set_address_cases. }
  assert (wp (usbh_set_address udev) (fun _ _ => True) s) as (ret & s' & E & _)%wp_run;
    [|by exists ret, s'].
  unfold usbh_set_address. wp_step. eapply wp_core_get_udev; [done|].
  destruct (negb (dev_num u =? 0)); [by wp_step|]. wp_step. apply wp_on_mem.
  apply (wp_zoom addrs (fun a s => s <| addrs := a |>)). unfold wp at 1.
  destruct (alloc_dev_address_cases (addrs (mem s)) Hl Hd) as [(a & -> & Ha & _)|[_ Hno]].
  2:{ by destruct (Hno a0 Ha0). }
  wp_step. eapply wp_ctrl_xfer; [|exact Hu|done| |].
  { destruct Hr as (? & ? & ?). split; [done|]. split; done. }
  { intros _. change (USBH_ERR_MEMORY_OUT <? 0) with true. cbv beta iota. wp_step.
    apply wp_on_mem. apply (wp_zoom addrs (fun a s => s <| addrs := a |>)).
    unfold free_dev_address. rewrite (proj2 (Z.ltb_lt a 128)) by lia. wp_steps.
    eapply wp_lift; [apply aset_Ok; simpl; rewrite length_insert; lia|]. by wp_steps. }
  intros s2 Hf2 _. destruct (ctrl_result _) as [r n]. cbv beta iota. destruct (r <? 0).
  - wp_step. apply wp_on_mem. apply (wp_zoom addrs (fun a s => s <| addrs := a |>)).
    unfold free_dev_address. rewrite (proj2 (Z.ltb_lt a 128)) by lia. wp_steps.
    eapply wp_lift; [apply aset_Ok; rewrite (fr_addrs _ _ _ Hf2); simpl; rewrite length_insert; lia|].
    by wp_steps.
  - destruct (fr_dev _ _ _ Hf2 u Hu) as (u2 & Hu2 & _). wp_step.
    eapply wp_upd_udev; [exact Hu2|]. by wp_steps.
Qed.

(** [ends_addr udev a pool m]: started with address [a] taken in [pool] by the
    device, [m] gives it back if it returns an error and keeps the pool if not. *)
Definition ends_addr (udev a : Z) (pool : list Z) (m : M core_st Z) : Prop :=
  forall s r s', dev_addr_pool (addrs (mem s)) = pool ->
    dev_num <$> udevs (mem s) !! udev = Some a -> m s = Ok (r, s') ->
    (r < 0 -> dev_addr_pool (addrs (mem s')) = <[Z.to_nat a := 0]> pool) /\
    (0 <= r -> dev_addr_pool (addrs (mem s')) = pool).

Section ends.
Context (udev a : Z) (pool : list Z) (Ha : 1 <= a < 128) (Hl : length pool = 128%nat).

Lemma ends_ret r : 0 <= r -> ends_addr udev a pool (mret r).
Proof. intros Hr s r' s' Hp _ [= <- <-]. split; [lia|done]. Qed.

Lemma ends_drop x : x < 0 -> ends_addr udev a pool (drop_address udev x).
Proof.
  intros Hx s r s' Hp Hd. unfold drop_address, mbind, M_bind, on_mem, zoom, get_udev, on_addr, zoom.
  destruct (udevs (mem s) !! udev) as [u|] eqn:Hu; [|done]. simpl in Hd. injection Hd as Hd.
  unfold free_dev_address. rewrite Hd, (proj2 (Z.ltb_lt a 128)) by lia.
  unfold gets, lift, modify, mbind, M_bind. simpl. rewrite Hp, aset_Ok by lia.
  intros [= <- <-]. split; [done|lia].
Qed.

Lemma ends_bind {A} (m : M core_st A) (k : A -> M core_st Z) :
  keeps (addr_key udev) m -> (forall x, ends_addr udev a pool (k x)) ->
  ends_addr udev a pool (m ≫= k).
Proof.
  intros Hm Hk s r s' Hp Hd. unfold mbind, M_bind.
  destruct (m s) as [[x t]|] eqn:E; [|done]. pose proof (Hm s x t E) as Ek.
  unfold addr_key in Ek. injection Ek as Eka Ekd. apply Hk; [by rewrite Eka|by rewrite Ekd].
Qed.

(** [if (ret < 0) { free_dev_address(udev->dev_num); return ret; }] *)
Lemma ends_check r (k : M core_st Z) : ends_addr udev a pool k ->
  ends_addr udev a pool (if r <? 0 then drop_address udev r else k).
Proof. intros Hk. destruct (r <? 0) eqn:E; breflect; [by apply ends_drop|done]. Qed.
End ends.

Lemma connect_tail udev a pool :
  1 <= a < 128 -> length pool = 128%nat -> host_keeps_addr udev ->
  ends_addr udev a pool (connect_configure udev).
Proof.
  intros Ha Hl Hh. unfold connect_configure.
  apply ends_bind; [apply keep_get_device_descriptor|intros r1]. apply ends_check; [done..|].
  apply ends_bind; [apply keep_on_dma|intros conf]. destruct (conf =? NULL).
  { by apply ends_drop. }
  apply ends_bind; [by apply keep_upd_udev|intros _].
  apply ends_bind; [apply keep_get_config_descriptor|intros r2]. apply ends_check; [done..|].
  apply ends_bind; [apply keep_read8|intros cv].
  apply ends_bind; [apply keep_set_configuration|intros r3]. apply ends_check; [done..|].
  apply ends_bind; [by apply keep_parse_conf_at|intros r4].
  destruct (r4 <? 0) eqn:E; breflect; [by apply ends_drop|].
  apply ends_bind; [apply keep_read8|intros attr].
  apply ends_bind; [apply keeps_when, keep_wakeup|intros _].
  apply ends_bind; [by apply keep_call_conn|intros _]. by apply ends_ret.
Qed.

(** C12: a connection that fails gives the device's address back.  Whatever the
    device, the controller and the drivers answer, if [connect_device] returns
    an error then the pool of addresses is as it was before, and if it returns
    success then exactly one address, free before, is taken. *)
Theorem connect_device_address udev s u ret s' :
  host_keeps_addr udev ->
  length (dev_addr_pool (addrs (mem s))) = 128%nat ->
  0 <= device_addr (addrs (mem s)) < 128 ->
  udevs (mem s) !! udev = Some u ->
  connect_device udev s = Ok (ret, s') ->
  (ret < 0 -> dev_addr_pool (addrs (mem s')) = dev_addr_pool (addrs (mem s))) /\
  (0 <= ret -> exists a, 1 <= a < 128 /\ zlookup (dev_addr_pool (addrs (mem s))) a = Some 0 /\
     dev_addr_pool (addrs (mem s')) = <[Z.to_nat a := 1]> (dev_addr_pool (addrs (mem s)))).
Proof.
  intros Hh Hl Hd Hu. unfold connect_device, mbind at 1, M_bind at 1.
  destruct (usbh_get_device_descriptor udev s) as [[r0 s1]|] eqn:E1; [|done].
  apply (keep_get_device_descriptor udev udev) in E1 as K1.
  unfold mbind at 1, M_bind at 1. destruct (reset_device udev s1) as [[r1 s2]|] eqn:E2; [|done].
  apply (keep_reset_device udev udev) in E2 as K2. rewrite K1 in K2. clear E1 E2 K1.
  unfold addr_key in K2. injection K2 as Ka Kd. rewrite Hu in Kd.
  destruct (udevs (mem s2) !! udev) as [u2|] eqn:Hu2; [|done]. rewrite <- Ka in Hl, Hd |- *.
  unfold mbind at 1, M_bind at 1. destruct (usbh_set_address udev s2) as [[r3 s3]|] eqn:E3; [|done].
  destruct (set_address_cases udev s2 u2 r3 s3 Hl Hd Hu2 E3)
    as [(_ & -> & ->)|[(_ & Hneg & Hp & _)|(_ & -> & a & Ha & Hz & Hp & Hdn)]].
  { intros [= <- <-]. split; [done|]. unfold USBH_ERR_SET_DEV_ADDR. lia. }
  { rewrite (proj2 (Z.ltb_lt r3 0)) by done. intros [= <- <-]. split; [done|lia]. }
  rewrite Z.ltb_irrefl. intros E.
  set (pool := <[Z.to_nat a := 1]> (dev_addr_pool (addrs (mem s2)))) in *.
  assert (length pool = 128%nat) as Hpl by (unfold pool; by rewrite length_insert).
  destruct (connect_tail udev a pool Ha Hpl Hh s3 ret s' Hp Hdn E) as [Hneg Hpos]. split.
  - intros Hr. rewrite (Hneg Hr). unfold pool. rewrite list_insert_insert_eq.
    by apply list_insert_id, zlookup_Some.
  - intros Hr. exists a. by rewrite (Hpos Hr).
Qed.


(** C18: the endpoint parser ends on every buffer; it dereferences an
    uninitialised pointer exactly when it is called with no bytes left. *)
Theorem usbh_parse_endpoint_total buf a i off len :
  usbh_parse_endpoint buf a i off len <> Fault Diverges /\
  (len <= 0 <-> usbh_parse_endpoint buf a i off len = Fault Uninit).
Proof.
  assert (forall fuel off parsed len e0, Z.max 0 len < Z.of_nat fuel ->
    (0 < len \/ e0 <> None) ->
    match ep_find buf fuel off parsed len e0 with
    | Ok (inr (None, _)) => False | Fault f => f = OutOfBounds | _ => True end) as Hfind.
  { intros fuel. induction fuel as [|fuel IH]; intros o p n e0 Hf Hp; [lia|].
    cbn [ep_find]. destruct (0 <? n) eqn:E0; breflect.
    2:{ destruct e0; simpl; [done|]. destruct Hp; [lia|done]. }
    unfold rd8, aget. destruct (zlookup buf o) as [bl|]; res_simpl; [|done].
    case_if; [done|]. destruct (zlookup buf (o + 1)) as [ty|]; res_simpl; [|done].
    case_if; [done|]. apply IH; [lia|]. by right. }
  unfold usbh_parse_endpoint. destruct (decide (len <= 0)) as [Hle|Hgt].
  { replace (Z.to_nat len) with 0%nat by lia. cbn [ep_find].
    rewrite (proj2 (Z.ltb_ge 0 len)) by lia. by res_simpl. }
  specialize (Hfind (S (Z.to_nat len)) off 0 len None ltac:(lia) ltac:(lia)).
  assert (forall A (P : A -> Prop) (r : res A), r <> Fault Diverges -> r <> Fault Uninit ->
    r <> Fault Diverges /\ (len <= 0 <-> r = Fault Uninit)) as Hfin
    by (intros; split; [done|]; split; [lia|done]).
  apply (Hfin _ (fun _ => True)).
  all: destruct (ep_find _ _ _ _ _ _) as [[e|[[d|] p]]|f]; res_simpl; try done; try by subst.
  all: unfold rd16, rd8, aget, aset; res_simpl; repeat (case_match; simplify_eq; try done).
Qed.

(** C11: the parser of an interface reads back every well-formed description:
    on the alternate settings [l] of an interface, up to eight of them, followed
    by nothing or by another interface, the loop of [usbh_parse_interface]
    consumes exactly their bytes and records, for each, the address of its
    descriptor and the fields of its endpoints. *)
Theorem usbh_parse_interface_roundtrip buf base (l : list alt_src) rest off udev num :
  Forall (alt_ok num) l -> next_iface num rest -> (length l <= 8)%nat ->
  holds buf off (alts_enc l ++ rest) ->
  let len := zlen (alts_enc l ++ rest) in
  let i := iface_zero <| if_udev := udev |> <| aif := 0 |> <| if_num := num |> in
  if_loop buf base (S (Z.to_nat len)) off 0 len None i =
    Ok (inr (zlen (alts_enc l),
      i <| alt ::= alts_dec base off 0 l |> <| num_alt := zlen l |>)).
Proof.
  intros Hl Hr H8 Hh len i. unfold len.
  apply (if_loop_spec buf base l rest _ off 0 None i 0); try done.
  - intros j Hj. apply lookup_replicate_2. lia.
  - assert (9 * zlen l <= zlen (alts_enc l)) as H9.
    { clear -Hl. induction Hl as [|a l (_ & H9 & _) _ IH]; [done|].
      change (alts_enc (a :: l)) with (alt_enc a ++ alts_enc l). unfold alt_enc.
      rewrite !length_app. cbn [length]. lia. }
    rewrite length_app. lia.
Qed.

(** C19: a descriptor of length 0 that is not an interface descriptor makes the
    loop of [usbh_parse_interface] run forever, for example behind the last
    endpoint of an interface. *)
Theorem usbh_parse_interface_zero_length buf base fuel off parsed len hdr i ty :
  0 < len -> rd8 buf off = Ok 0 -> rd8 buf (off + 1) = Ok ty -> ty <> USB_DT_INTERFACE ->
  if_loop buf base fuel off parsed len hdr i = Fault Diverges.
Proof.
  intros Hlen H0 Hty Hn. revert off parsed len Hlen H0 Hty.
  induction fuel as [|fuel IH]; intros off parsed len Hlen H0 Hty; [done|]. cbn [if_loop].
  rewrite (proj2 (Z.ltb_lt 0 len)) by done. cbn [negb]. rewrite H0, Hty. res_simpl.
  rewrite (proj2 (Z.eqb_neq _ _)) by done. cbn [negb].
  rewrite !Z.add_0_r, Z.sub_0_r. by apply IH.
Qed.

(** C17: [usbh_iface_find_ep] returns the first endpoint of the active setting
    that matches: by address, or by direction and type when the address is 0. *)
Theorem usbh_iface_find_ep_first iface ep_addr dir_type s i a :
  ifaces s !! iface = Some i -> zlookup (alt i) (aif i) = Some a -> ifd a <> NULL ->
  let n := u8 (dma_bytes (dma (mem s)) (addr_s (ifd a + 4))) in
  n <= zlen (alt_ep a) ->
  let test := fun e => if ep_addr =? 0 then ep_matches dir_type e
                       else ep_bEndpointAddress e =? ep_addr in
  (exists j e, usbh_iface_find_ep iface ep_addr dir_type s = Ok (Some j, s) /\ 0 <= j < n /\
     zlookup (alt_ep a) j = Some e /\ test e = true /\
     forall k x, 0 <= k < j -> zlookup (alt_ep a) k = Some x -> test x = false) \/
  (usbh_iface_find_ep iface ep_addr dir_type s = Ok (None, s) /\
     forall k x, 0 <= k < n -> zlookup (alt_ep a) k = Some x -> test x = false).
Proof.
  intros Hi Ha Hnn n Hn test.
  assert (usbh_iface_find_ep iface ep_addr dir_type s =
    match find_ep_loop test (Z.to_nat n) 0 (alt_ep a) with
    | Ok r => Ok (r, s) | Fault f => Fault f end) as ->.
  { unfold usbh_iface_find_ep, mbind, M_bind, get_iface. rewrite Hi.
    unfold lift, ifd_byte. rewrite (proj2 (aget_Ok _ _ a)) by done.
    rewrite (proj2 (Z.eqb_neq _ _)) by done. unfold read8, gets, test. fold n.
    by destruct (ep_addr =? 0). }
  pose proof (uwrap_range 8 (dma_bytes (dma (mem s)) (addr_s (ifd a + 4))) ltac:(lia)) as Hr.
  destruct (find_ep_loop_spec test (alt_ep a) (Z.to_nat n) 0) as [(j & e & -> & Hj & ?)|[-> Hk]];
    [lia|unfold n in *; lia| |].
  - left. exists j, e. split; [done|]. split; [unfold n in *; lia|done].
  - right. split; [done|]. intros k x Hkx. apply Hk. unfold n in *. lia.
Qed.

(** C16: drivers fill the table from the front: registering a driver that is in
    the table changes nothing, a new one takes the first free of the eight
    slots, and a ninth is refused. *)
Theorem usbh_register_driver_spec udrv l s :
  udrv <> NULL -> NULL ∉ l -> (length l <= 8)%nat ->
  drivers s = l ++ replicate (8 - length l) NULL ->
  usbh_register_driver udrv s =
    if decide (udrv ∈ l) then Ok (0, s)
    else if decide (length l = 8%nat) then Ok (USBH_ERR_MEMORY_OUT, s)
    else Ok (0, s <| drivers := l ++ udrv :: replicate (7 - length l) NULL |>).
Proof.
  intros Hn Hl H8 Hd.
  assert (forall l pre n, NULL ∉ l -> (length pre + length l + n = 8)%nat ->
    register_loop (length l + n) (zlen pre) udrv (pre ++ l ++ replicate n NULL) =
    if decide (udrv ∈ l) then Ok (0, pre ++ l ++ replicate n NULL)
    else if decide (n = 0%nat) then Ok (USBH_ERR_MEMORY_OUT, pre ++ l ++ replicate n NULL)
    else Ok (0, pre ++ l ++ udrv :: replicate (n - 1) NULL)) as Hloop.
  { clear -Hn. induction l as [|x l IH]; intros pre n Hl Hlen.
    - destruct n as [|n]; [done|]. cbn [length app Nat.add register_loop].
      assert (zlookup (pre ++ replicate (S n) NULL) (zlen pre) = Some NULL) as Hz.
      { apply zlookup_Some. split; [lia|]. rewrite Nat2Z.id.
        rewrite lookup_app_r by lia. by rewrite Nat.sub_diag. }
      rewrite (proj2 (aget_Ok _ _ _) Hz). res_simpl.
      rewrite (proj2 (Z.eqb_neq _ _)) by done. rewrite Z.eqb_refl.
      rewrite aset_Ok by (rewrite length_app, length_replicate; lia). res_simpl.
      rewrite Nat2Z.id, insert_app_r_alt, Nat.sub_diag by lia.
      rewrite decide_False by apply not_elem_of_nil. rewrite decide_False by done.
      by replace (S n - 1)%nat with n by lia.
    - apply not_elem_of_cons in Hl as [Hx Hl]. cbn [length Nat.add register_loop app] in *.
      assert (zlookup (pre ++ x :: l ++ replicate n NULL) (zlen pre) = Some x) as Hz.
      { apply zlookup_Some. split; [lia|]. rewrite Nat2Z.id.
        rewrite lookup_app_r by lia. by rewrite Nat.sub_diag. }
      rewrite (proj2 (aget_Ok _ _ _) Hz). res_simpl.
      destruct (x =? udrv) eqn:Ex; breflect.
      { subst. rewrite decide_True by left. done. }
      rewrite (proj2 (Z.eqb_neq _ _)) by done.
      specialize (IH (pre ++ [x]) n Hl). rewrite length_app in IH. cbn [length] in IH.
      rewrite <- !app_assoc in IH. cbn [app] in IH.
      replace (zlen pre + 1) with (Z.of_nat (length pre + 1)) by lia.
      rewrite IH by lia. rewrite (decide_ext (udrv ∈ x :: l) (udrv ∈ l)); [done|].
      rewrite elem_of_cons. split; [by intros [->|?]|by right]. }
  unfold usbh_register_driver, mbind, M_bind, gets, lift, modify. rewrite Hd.
  specialize (Hloop l [] (8 - length l)%nat Hl ltac:(simpl; lia)).
  replace (length l + (8 - length l))%nat with 8%nat in Hloop by lia.
  cbn [length app] in Hloop. change (Z.of_nat 0) with 0 in Hloop. rewrite Hloop.
  destruct (decide (udrv ∈ l)); [by rewrite <- Hd; destruct s|].
  destruct (decide (length l = 8%nat)) as [E|E].
  - rewrite decide_True by lia. rewrite <- Hd. by destruct s.
  - rewrite decide_False by lia. by replace (8 - length l - 1)%nat with (7 - length l)%nat by lia.
Qed.

End properties.

(** * Witnesses *)
Section witnesses.
#[local] Existing Instance layout_ex.

(** A controller that completes every request with no data, a driver that
    takes nothing. *)
Definition host_ex : Host :=
  {| host_ctrl := fun _ _ => mkOut 0 true 0 0 [];
     host_ret := fun _ => 0;
     host_iso_null := fun _ => false;
     host_probe := fun _ _ => mret (-1);
     host_disconnect := fun _ _ => mret tt;
     host_callback := fun _ _ => mret tt;
     host_pooling_hubs := mret tt |}.
#[local] Existing Instance host_ex.

Definition dev_ex : Z := nc_ptr 0x80110000.
Definition udev_ex : UDEV_T := udev_zero <| cur_conf := -1 |> <| hc_driver := 0x1000 |>.
Definition core_ex : core_st :=
  mkCore (mem_ex <| udevs := {[ dev_ex := udev_ex ]} |>) (replicate 8 NULL) NULL NULL ∅ [].

Lemma core_ex_dev : udevs (mem core_ex) !! dev_ex = Some udev_ex.
Proof. apply lookup_singleton_eq. Qed.

Lemma core_ex_ready : host_ready dev_ex core_ex.
Proof.
  split; [exact mem_ex_dma|]. split; [apply nc_ptr_not_null|].
  exists udev_ex. split; [apply core_ex_dev|done].
Qed.


Lemma usbh_set_address_spec_witness :
  exists ret s', usbh_set_address dev_ex core_ex = Ok (ret, s') /\
  ((dev_num udev_ex <> 0 /\ ret = USBH_ERR_SET_DEV_ADDR /\ s' = core_ex) \/
   (dev_num udev_ex = 0 /\ ret < 0 /\
      dev_addr_pool (addrs (mem s')) = dev_addr_pool (addrs (mem core_ex)) /\
      dev_num <$> udevs (mem s') !! dev_ex = Some 0) \/
   (dev_num udev_ex = 0 /\ ret = 0 /\ exists a, 1 <= a < 128 /\
      zlookup (dev_addr_pool (addrs (mem core_ex))) a = Some 0 /\
      dev_addr_pool (addrs (mem s')) = <[Z.to_nat a := 1]> (dev_addr_pool (addrs (mem core_ex))) /\
      dev_num <$> udevs (mem s') !! dev_ex = Some a)).
Proof.
  apply usbh_set_address_spec; [apply core_ex_ready|apply core_ex_dev|reflexivity|simpl; lia|].
  exists 1. split; [lia|reflexivity].
Defined.

Lemma connect_device_address_witness :
  exists ret s', connect_device dev_ex core_ex = Ok (ret, s') /\
  (ret < 0 -> dev_addr_pool (addrs (mem s')) = dev_addr_pool (addrs (mem core_ex))) /\
  (0 <= ret -> exists a, 1 <= a < 128 /\
     zlookup (dev_addr_pool (addrs (mem core_ex))) a = Some 0 /\
     dev_addr_pool (addrs (mem s')) = <[Z.to_nat a := 1]> (dev_addr_pool (addrs (mem core_ex)))).
Proof.
  assert ((match connect_device dev_ex core_ex with Ok _ => true | Fault _ => false end) = true)
    as Hrun by (vm_compute; reflexivity).
  destruct (connect_device dev_ex core_ex) as [[ret s']|] eqn:E; [clear Hrun|discriminate Hrun].
  exists ret, s'. split; [reflexivity|].
  apply (connect_device_address dev_ex core_ex udev_ex ret s').
  - split; intros; apply keeps_ret.
  - reflexivity.
  - simpl; lia.
  - apply core_ex_dev.
  - exact E.
Defined.


(** Interface 1 with one bulk endpoint behind a class-specific descriptor. *)
Definition alts_ex : list alt_src :=
  [mkAltSrc [9; 4; 1; 0; 1; 8; 6; 0x50; 0] [[3; 0x24; 7]] [([], [7; 5; 0x81; 2; 0; 2; 0])]].

Lemma alts_ex_ok : Forall (alt_ok 1) alts_ex.
Proof.
  apply Forall_singleton. split_and!; try done.
  - apply Forall_singleton. split_and!; done.
  - apply Forall_singleton. split_and!; try done.
Qed.

Lemma holds_self l : holds l 0 l.
Proof.
  split; [done|]. intros i v Hi. rewrite Z.add_0_l. apply zlookup_Some.
  split; [lia|]. by rewrite Nat2Z.id.
Qed.

Lemma usbh_parse_interface_roundtrip_witness :
  let len := zlen (alts_enc alts_ex ++ []) in
  let i := iface_zero <| if_udev := dev_ex |> <| aif := 0 |> <| if_num := 1 |> in
  if_loop (alts_enc alts_ex ++ []) 0x80101000 (S (Z.to_nat len)) 0 0 len None i =
    Ok (inr (zlen (alts_enc alts_ex),
      i <| alt ::= alts_dec 0x80101000 0 0 alts_ex |> <| num_alt := zlen alts_ex |>)).
Proof.
  apply (usbh_parse_interface_roundtrip _ _ alts_ex [] 0 dev_ex 1).
  - apply alts_ex_ok.
  - left. reflexivity.
  - vm_compute. lia.
  - apply holds_self.
Defined.

Lemma usbh_parse_interface_zero_length_witness :
  if_loop [0; 0x24] 0 1000 0 9 2 (Some 0) iface_zero = Fault Diverges.
Proof. apply (usbh_parse_interface_zero_length _ _ _ _ _ _ _ _ 0x24); done. Defined.

Definition iface_ex : IFACE_T := iface_zero <|
  alt := <[0%nat := mkALT 0x80101009 (<[0%nat := mkEP_INFO 0x81 2 0 0 512 NULL]> (replicate 6 ep_zero))]>
           (replicate 8 alt_zero) |>.

Lemma usbh_iface_find_ep_first_witness :
  let s := core_ex <| ifaces := {[ 0x2000 := iface_ex ]} |>
                   <| mem ::= fun m => m <| dma ::= fun d => d <| dma_bytes := fun _ => 1 |> |> |> in
  let a := mkALT 0x80101009 (<[0%nat := mkEP_INFO 0x81 2 0 0 512 NULL]> (replicate 6 ep_zero)) in
  let n := u8 (dma_bytes (dma (mem s)) (addr_s (ifd a + 4))) in
  let test := fun e => if 0 =? 0 then ep_matches 0x82 e else ep_bEndpointAddress e =? 0 in
  (exists j e, usbh_iface_find_ep 0x2000 0 0x82 s = Ok (Some j, s) /\ 0 <= j < n /\
     zlookup (alt_ep a) j = Some e /\ test e = true /\
     forall k x, 0 <= k < j -> zlookup (alt_ep a) k = Some x -> test x = false) \/
  (usbh_iface_find_ep 0x2000 0 0x82 s = Ok (None, s) /\
     forall k x, 0 <= k < n -> zlookup (alt_ep a) k = Some x -> test x = false).
Proof.
  apply (usbh_iface_find_ep_first 0x2000 0 0x82 _ iface_ex).
  - apply lookup_singleton_eq.
  - reflexivity.
  - vm_compute. discriminate.
  - vm_compute. discriminate.
Defined.

Lemma usbh_register_driver_spec_witness :
  usbh_register_driver 0x1000 core_ex =
    if decide (0x1000 ∈ @nil Z) then Ok (0, core_ex)
    else if decide (length (@nil Z) = 8%nat) then Ok (USBH_ERR_MEMORY_OUT, core_ex)
    else Ok (0, core_ex <| drivers := [] ++ 0x1000 :: replicate (7 - length (@nil Z)) NULL |>).
Proof.
  apply usbh_register_driver_spec; [done|apply not_elem_of_nil|simpl; lia|reflexivity].
Defined.

End witnesses.
