(* ===== verification/Canfd.v ===== *)
(** CAN FD controller driver: [Library/StdDriver/src/canfd.c] and the register
    and type definitions of [inc/canfd.h] and [Include/canfd_reg.h].

    The state of a controller is its registers and the bytes of its message
    RAM, addressed from the start of that RAM ([CANFD_SRAM_BASE_ADDR] above the
    controller); an access outside the RAM is a fault.  A register holds the
    value last written to it: what the hardware makes of a written value is not
    modelled.  Registers that the driver polls until the hardware changes them
    are streams of values, parameters of the functions that wait. *)
From S2P Require Import Prelude.

(** ** Registers (canfd_reg.h) *)
Inductive creg :=
  | DBTP | TEST | CCCR | NBTP | ECR | PSR | TDCR | IR | IE | ILS | ILE | GFC | SIDFC | XIDFC
  | NDAT1 | NDAT2 | RXF0C | RXF0S | RXF0A | RXBC | RXF1C | RXF1S | RXF1A | RXESC
  | TXBC | TXESC | TXBRP | TXBAR | TXBCR | TXBTO | TXBTIE | TXBCIE | TXEFC.
#[global] Instance creg_eq_dec : EqDecision creg.
Proof. solve_decision. Defined.

Definition CANFD_NBTP_NTSEG2_Pos : Z := 0.
Definition CANFD_NBTP_NTSEG1_Pos : Z := 8.
Definition CANFD_NBTP_NBRP_Pos : Z := 16.
Definition CANFD_NBTP_NSJW_Pos : Z := 25.
Definition CANFD_DBTP_DSJW_Pos : Z := 0.
Definition CANFD_DBTP_DTSEG2_Pos : Z := 4.
Definition CANFD_DBTP_DTSEG1_Pos : Z := 8.
Definition CANFD_DBTP_DBRP_Pos : Z := 16.
Definition CANFD_TDCR_TDCO_Pos : Z := 8.
Definition CANFD_CCCR_INIT_Msk : Z := msk 1 0.
Definition CANFD_CCCR_CCE_Msk : Z := msk 1 1.
Definition CANFD_CCCR_TEST_Msk : Z := msk 1 7.
Definition CANFD_CCCR_FDOE_Msk : Z := msk 1 8.
Definition CANFD_CCCR_BRSE_Msk : Z := msk 1 9.
Definition CANFD_TEST_LBCK_Msk : Z := msk 1 4.
Definition CANFD_ECR_TEC_Pos : Z := 0.
Definition CANFD_ECR_TEC_Msk : Z := msk 8 0.
Definition CANFD_ECR_REC_Pos : Z := 8.
Definition CANFD_ECR_REC_Msk : Z := msk 7 8.
Definition CANFD_PSR_ACT_Pos : Z := 3.
Definition CANFD_PSR_ACT_Msk : Z := msk 2 3.
Definition CANFD_GFC_RRFE_Pos : Z := 0.
Definition CANFD_GFC_RRFE_Msk : Z := msk 1 0.
Definition CANFD_GFC_RRFS_Pos : Z := 1.
Definition CANFD_GFC_RRFS_Msk : Z := msk 1 1.
Definition CANFD_GFC_ANFE_Pos : Z := 2.
Definition CANFD_GFC_ANFS_Pos : Z := 4.
Definition CANFD_SIDFC_FLSSA_Msk : Z := msk 14 2.
Definition CANFD_SIDFC_LSS_Pos : Z := 16.
Definition CANFD_XIDFC_FLESA_Msk : Z := msk 14 2.
Definition CANFD_XIDFC_LSE_Pos : Z := 16.
Definition CANFD_RXF0C_F0SA_Msk : Z := msk 14 2.
Definition CANFD_RXF0C_F0S_Pos : Z := 16.
Definition CANFD_RXF0C_F0WM_Pos : Z := 24.
Definition CANFD_RXF0C_F0WM_Msk : Z := msk 7 24.
Definition CANFD_RXF0S_RF0L_Msk : Z := msk 1 25.
Definition CANFD_RXFS_RFL : Z := CANFD_RXF0S_RF0L_Msk.
Definition CANFD_RXBC_RBSA_Msk : Z := msk 14 2.
Definition CANFD_RXF1C_F1SA_Msk : Z := msk 14 2.
Definition CANFD_RXF1C_F1S_Pos : Z := 16.
Definition CANFD_RXF1C_F1WM_Pos : Z := 24.
Definition CANFD_RXF1C_F1WM_Msk : Z := msk 7 24.
Definition CANFD_RXESC_F0DS_Msk : Z := msk 3 0.
Definition CANFD_RXESC_F0DS_Pos : Z := 0.
Definition CANFD_RXESC_F1DS_Msk : Z := msk 3 4.
Definition CANFD_RXESC_F1DS_Pos : Z := 4.
Definition CANFD_RXESC_RBDS_Msk : Z := msk 3 8.
Definition CANFD_RXESC_RBDS_Pos : Z := 8.
Definition CANFD_TXBC_TBSA_Msk : Z := msk 14 2.
Definition CANFD_TXBC_NDTB_Pos : Z := 16.
Definition CANFD_TXESC_TBDS_Msk : Z := msk 3 0.
Definition CANFD_TXESC_TBDS_Pos : Z := 0.
Definition CANFD_TXEFC_EFSA_Msk : Z := msk 14 2.
Definition CANFD_TXEFC_EFS_Pos : Z := 16.
Definition CANFD_TXEFC_EFWN_Pos : Z := 24.
Definition CANFD_TXEFC_EFWN_Msk : Z := msk 6 24.

(** Fields of the elements in message RAM (canfd.c). *)
Definition ELEM_ESI_Msk : Z := msk 1 31.
Definition ELEM_XTD_Msk : Z := msk 1 30.
Definition ELEM_RTR_Msk : Z := msk 1 29.
Definition ELEM_ID_Msk : Z := 0x1FFFFFFF.
Definition ELEM_FDF_Msk : Z := msk 1 21.
Definition ELEM_BSR_Msk : Z := msk 1 20.
Definition ELEM_DLC_Pos : Z := 16.
Definition ELEM_DLC_Msk : Z := msk 4 16.
Definition EVENT_MM_Pos : Z := 24.
Definition EVENT_MM_Msk : Z := msk 8 24.
Definition EVENT_TXTS_Msk : Z := msk 16 0.

Definition CANFD_SRAM_SIZE : Z := 1024 * 8.
Definition CANFD_NUM_RX_FIFOS : Z := 2.
Definition CANFD_MAX_11_BIT_FTR_ELEMS : Z := 128.
Definition CANFD_MAX_29_BIT_FTR_ELEMS : Z := 64.
Definition CANFD_MAX_RX_FIFO0_ELEMS : Z := 64.
Definition CANFD_MAX_RX_FIFO1_ELEMS : Z := 64.
Definition CANFD_MAX_RX_BUF_ELEMS : Z := 64.
Definition CANFD_MAX_TX_BUF_ELEMS : Z := 32.
Definition MAX_NOMINAL_BAUDRATE : Z := 1000000.
Definition MAX_DATA_BAUDRATE : Z := 8000000.
Definition sizeof_CANFD_STD_FILTER_T : Z := 4.
Definition sizeof_CANFD_EXT_FILTER_T : Z := 8.
Definition sizeof_CANFD_BUF_T : Z := 72.
Definition eCANFD_BYTE64 : Z := 7.
Definition eCANFD_IDLE : Z := 1.

(** ** Data (canfd.h) *)
Inductive E_CANFD_ID_TYPE := eCANFD_SID | eCANFD_XID.
Inductive E_CANFD_FRM_TYPE := eCANFD_DATA_FRM | eCANFD_REMOTE_FRM.
#[global] Instance id_type_eq_dec : EqDecision E_CANFD_ID_TYPE.
Proof. solve_decision. Defined.
#[global] Instance frm_type_eq_dec : EqDecision E_CANFD_FRM_TYPE.
Proof. solve_decision. Defined.

Record CANFD_RAM_PART_T := mkRamPart {
  u32SIDFC_FLSSA : Z; u32XIDFC_FLESA : Z; u32RXF0C_F0SA : Z; u32RXF1C_F1SA : Z;
  u32RXBC_RBSA : Z; u32TXEFC_EFSA : Z; u32TXBC_TBSA : Z }.
Record CANFD_ELEM_SIZE_T := mkElemSize {
  u32SIDFC : Z; u32XIDFC : Z; u32RxFifo0 : Z; u32RxFifo1 : Z;
  u32RxBuf : Z; u32TxBuf : Z; u32TxEventFifo : Z }.
#[global] Instance eta_ram_part : Eta CANFD_RAM_PART_T := fun r =>
  mkRamPart (u32SIDFC_FLSSA r) (u32XIDFC_FLESA r) (u32RXF0C_F0SA r) (u32RXF1C_F1SA r)
    (u32RXBC_RBSA r) (u32TXEFC_EFSA r) (u32TXBC_TBSA r).

(** The configuration: bit rates, modes and the division of the message RAM. *)
Record CANFD_FD_T := mkFD {
  normBitRate : Z; dataBitRate : Z; bFDEn : Z; bBitRateSwitchEn : Z; bEnableLoopBack : Z;
  sMRamStartAddr : CANFD_RAM_PART_T; sElemSize : CANFD_ELEM_SIZE_T; u32MRamSize : Z }.

(** A message; [au8Data] is its 64 bytes, which are also its 16 words. *)
Record CANFD_FD_MSG_T := mkMsg {
  eIdType : E_CANFD_ID_TYPE; eFrmType : E_CANFD_FRM_TYPE; u32Id : Z; u32DLC : Z;
  au8Data : list Z; u8MsgMarker : Z; bFDFormat : Z; bBitRateSwitch : Z;
  bErrStaInd : Z; bEvntFifoCon : Z }.
#[global] Instance eta_msg : Eta CANFD_FD_MSG_T := fun m =>
  mkMsg (eIdType m) (eFrmType m) (u32Id m) (u32DLC m) (au8Data m) (u8MsgMarker m)
    (bFDFormat m) (bBitRateSwitch m) (bErrStaInd m) (bEvntFifoCon m).

Record CANFD_TX_EVNT_ELEM_T := mkTxEvnt {
  ev_eIdType : E_CANFD_ID_TYPE; ev_u32Id : Z; ev_u32DLC : Z; ev_u32TxTs : Z;
  ev_u32MsgMarker : Z; ev_bErrStaInd : Z; ev_bRemote : Z; ev_bFDFormat : Z;
  ev_bBitRateSwitch : Z }.

(** One controller; [sys_1f0] is the word at [SYS_BASE + 0x1F0], which holds
    the revision of the chip. *)
Record canfd_st := mkCan { cregs : creg -> Z; ram : Z -> Z; sys_1f0 : Z }.
#[global] Instance eta_canfd_st : Eta canfd_st := fun s => mkCan (cregs s) (ram s) (sys_1f0 s).

Definition rd (r : creg) : M canfd_st Z := gets (fun s => cregs s r).
Definition wr (r : creg) (v : Z) : M canfd_st unit :=
  modify (fun s => s <| cregs ::= <[r := u32 v]> |>).
(** [reg |= v], [reg &= ~v] *)
Definition set_bits (r : creg) (v : Z) : M canfd_st unit := x ← rd r; wr r (Z.lor x v).
Definition clr_bits (r : creg) (v : Z) : M canfd_st unit := x ← rd r; wr r (Z.ldiff x v).

(** Little-endian words of the message RAM. *)
Definition ram32 (m : Z -> Z) (a : Z) : Z :=
  m a + 2 ^ 8 * m (a + 1) + 2 ^ 16 * m (a + 2) + 2 ^ 24 * m (a + 3).
Definition ram32_put (a v : Z) (m : Z -> Z) : Z -> Z :=
  <[a := u8 v]> (<[a + 1 := u8 (v / 2 ^ 8)]> (<[a + 2 := u8 (v / 2 ^ 16)]>
    (<[a + 3 := u8 (v / 2 ^ 24)]> m))).
Definition in_ram (a n : Z) : bool := (0 <=? a) && (a + n <=? CANFD_SRAM_SIZE).
Definition check_ram (a n : Z) : M canfd_st unit :=
  if in_ram a n then mret tt else fail OutOfBounds.
Definition rd8 (a : Z) : M canfd_st Z := check_ram a 1;; gets (fun s => ram s a).
Definition rd32 (a : Z) : M canfd_st Z := check_ram a 4;; gets (fun s => ram32 (ram s) a).
Definition wr32 (a v : Z) : M canfd_st unit :=
  check_ram a 4;; modify (fun s => s <| ram ::= ram32_put a v |>).

(** [CANFD_MemSet] on the message RAM. *)
Definition CANFD_MemSet (a c count : Z) : M canfd_st unit :=
  when (0 <? count) (check_ram a count);;
  modify (fun s => s <| ram ::= fun m x => if (a <=? x) && (x <? a + count) then u8 c else m x |>).

(** ** Register reads

    [CANFD_ReadReg] reads a register again until the value has been the same
    often enough.  [reads k] is the value of the [k]-th read. *)
Definition CANFD_REG_READ_TIME : Z := 3.

Fixpoint read_again (fuel : nat) (reads : nat -> Z) (k : nat) (last cnt : Z) : res Z :=
  match fuel with
  | O => Fault Diverges
  | S fuel =>
      if cnt <? CANFD_REG_READ_TIME then
        let v := reads k in
        if v =? last then read_again fuel reads (S k) last (cnt + 1)
        else read_again fuel reads (S k) v 0
      else Ok last
  end.

(** Only revision 0 of the chip reads again. *)
Definition CANFD_ReadReg (fuel : nat) (chip : Z) (reads : nat -> Z) : res Z :=
  if Z.land chip 0xf000000 =? 0 then read_again fuel reads 1 (reads 0%nat) 0
  else Ok (reads 0%nat).

(** The call of [CANFD_ReadReg] on a register that keeps its value. *)
Definition read_reg (r : creg) : M canfd_st Z := fun s =>
  lift (CANFD_ReadReg 8 (sys_1f0 s) (fun _ => cregs s r)) s.

(** ** Layout of the message RAM *)
Definition sizeof (n size : Z) : Z := u32 (n * size).

Definition CANFD_CalculateRamAddress (psConfigAddr : CANFD_RAM_PART_T)
    (psConfigSize : CANFD_ELEM_SIZE_T) : CANFD_RAM_PART_T :=
  let place n size (put : Z -> CANFD_RAM_PART_T -> CANFD_RAM_PART_T) '(p, off) :=
    if 0 <? n then (put off p, u32 (off + sizeof n size)) else (p, off) in
  let st := (psConfigAddr, 0) in
  let st := place (u32SIDFC psConfigSize) sizeof_CANFD_STD_FILTER_T
              (fun off p => p <| u32SIDFC_FLSSA := off |>) st in
  let st := place (u32XIDFC psConfigSize) sizeof_CANFD_EXT_FILTER_T
              (fun off p => p <| u32XIDFC_FLESA := off |>) st in
  let st := place (u32TxBuf psConfigSize) sizeof_CANFD_BUF_T
              (fun off p => p <| u32TXBC_TBSA := off |>) st in
  let st := place (u32RxBuf psConfigSize) sizeof_CANFD_BUF_T
              (fun off p => p <| u32RXBC_RBSA := off |>) st in
  let st := place (u32RxFifo0 psConfigSize) sizeof_CANFD_BUF_T
              (fun off p => p <| u32RXF0C_F0SA := off |>) st in
  let '(p, off) := place (u32RxFifo1 psConfigSize) sizeof_CANFD_BUF_T
              (fun off p => p <| u32RXF1C_F1SA := off |>) st in
  if 0 <? u32TxEventFifo psConfigSize then p <| u32TXEFC_EFSA := off |> else p.

Definition CANFD_OP_CAN_MODE : Z := 0.
Definition TRUE : Z := 1.
Definition FALSE : Z := 0.

Definition CANFD_GetDefaultConfig (u8OpMode : Z) : CANFD_FD_T :=
  let fd := if u8OpMode =? CANFD_OP_CAN_MODE then FALSE else TRUE in
  let data := if u8OpMode =? CANFD_OP_CAN_MODE then 0 else 1000000 in
  let sz := mkElemSize 4 4 32 32 32 8 8 in
  mkFD 500000 data fd fd FALSE (CANFD_CalculateRamAddress (mkRamPart 0 0 0 0 0 0 0) sz)
    sz CANFD_SRAM_SIZE.

(** ** Data length codes *)
Definition CANFD_EncodeDLC (u8NumberOfBytes : Z) : Z :=
  if u8NumberOfBytes <=? 8 then u8NumberOfBytes
  else if u8NumberOfBytes <=? 12 then 9
  else if u8NumberOfBytes <=? 16 then 10
  else if u8NumberOfBytes <=? 20 then 11
  else if u8NumberOfBytes <=? 24 then 12
  else if u8NumberOfBytes <=? 32 then 13
  else if u8NumberOfBytes <=? 48 then 14
  else 15.

Definition CANFD_DecodeDLC (u8Dlc : Z) : Z :=
  if u8Dlc <=? 8 then u8Dlc
  else if u8Dlc =? 9 then 12
  else if u8Dlc =? 10 then 16
  else if u8Dlc =? 11 then 20
  else if u8Dlc =? 12 then 24
  else if u8Dlc =? 13 then 32
  else if u8Dlc =? 14 then 48
  else 64.

(** ** Bit timing *)
Record bt_limits := mkLim {
  tseg1_min : Z; tseg1_max : Z; tseg2_min : Z; tseg2_max : Z;
  brp_min : Z; brp_max : Z; sjw_max : Z; brp_inc : Z }.
Definition N_limits : bt_limits := mkLim 2 256 2 128 1 512 128 1.
Definition D_limits : bt_limits := mkLim 1 32 1 16 1 32 16 1.
Definition limits (u32Set_NBTP : Z) : bt_limits :=
  if ctrue u32Set_NBTP then N_limits else D_limits.

(** The sample point reached with [tseg] time quanta after the first one, and
    the two segments that reach it. *)
Definition CANFD_Update_Spt (sampl_pt tseg u32Set_NBTP : Z) : Z * Z * Z :=
  let l := limits u32Set_NBTP in
  let tseg2 := tseg + 1 - cdiv (sampl_pt * (tseg + 1)) 1000 in
  let tseg2 := if tseg2 <? tseg2_min l then tseg2_min l else tseg2 in
  let tseg2 := if tseg2 >? tseg2_max l then tseg2_max l else tseg2 in
  let tseg1 := tseg - tseg2 in
  let '(tseg1, tseg2) :=
    if tseg1 >? tseg1_max l then (tseg1_max l, tseg - tseg1_max l) else (tseg1, tseg2) in
  (cdiv (1000 * (tseg + 1 - tseg2)) (tseg + 1), tseg1, tseg2).

(** The CiA recommended sample point, in permille. *)
Definition cia_sample_point (u32BaudRate : Z) : Z :=
  if u32BaudRate >? 800000 then 750 else if u32BaudRate >? 500000 then 800 else 875.

Record bt_best := mkBest { best_error : Z; best_tseg : Z; best_brp : Z; spt_error : Z }.

(** The prescaler tried with the count [tseg] (odd: rounded up), if it is in
    range. *)
Definition bt_brp (l : bt_limits) (clock_freq u32BaudRate tseg : Z) : res (option Z) :=
  let tsegall := 1 + cdiv tseg 2 in
  let d := u32 (tsegall * u32BaudRate) in
  if d =? 0 then Fault DivByZero
  else
    let brp := s32 (u64 (clock_freq / d + crem tseg 2)) in
    let brp := cdiv brp (brp_inc l) * brp_inc l in
    if (brp <? brp_min l) || (brp >? brp_max l) then Ok None else Ok (Some brp).

Definition bt_rate (clock_freq brp tseg : Z) : Z :=
  swrap 64 (clock_freq / (brp * (1 + cdiv tseg 2))).

(** One round of the search; the flag is its [break]. *)
Definition bt_round (u32Set_NBTP clock_freq u32BaudRate sampl_pt tseg : Z) (b : bt_best)
    : res (bt_best * bool) :=
  bt_brp (limits u32Set_NBTP) clock_freq u32BaudRate tseg ≫= fun obrp =>
  match obrp with
  | None => Ok (b, false)
  | Some brp =>
      let error := Z.abs (u32BaudRate - bt_rate clock_freq brp tseg) in
      if error >? best_error b then Ok (b, false)
      else if error =? 0 then
        let '(spt, _, _) := CANFD_Update_Spt sampl_pt (cdiv tseg 2) u32Set_NBTP in
        let serr := Z.abs (sampl_pt - spt) in
        if serr >? spt_error b then
          Ok (mkBest error (best_tseg b) (best_brp b) (spt_error b), false)
        else Ok (mkBest error (cdiv tseg 2) brp serr, serr =? 0)
      else Ok (mkBest error (cdiv tseg 2) brp (spt_error b), false)
  end.

(** The rounds for [n] values of [tseg], downwards. *)
Fixpoint bt_search (n : nat) (u32Set_NBTP clock_freq u32BaudRate sampl_pt tseg : Z) (b : bt_best)
    : res bt_best :=
  match n with
  | O => Ok b
  | S n =>
      bt_round u32Set_NBTP clock_freq u32BaudRate sampl_pt tseg b ≫= fun '(b, stop) =>
      if stop : bool then Ok b
      else bt_search n u32Set_NBTP clock_freq u32BaudRate sampl_pt (tseg - 1) b
  end.

Definition tseg_first (l : bt_limits) : Z := (tseg1_max l + tseg2_max l) * 2 + 1.
Definition tseg_last (l : bt_limits) : Z := (tseg1_min l + tseg2_min l) * 2.
Definition tseg_rounds (l : bt_limits) : nat := Z.to_nat (tseg_first l - tseg_last l + 1).

Record bit_time := mkBT { bt_rate_real : Z; bt_brp_m1 : Z; bt_sjw_m1 : Z; bt_tseg1_m1 : Z; bt_tseg2_m1 : Z }.

(** The part of [CANFD_SetBitRate] before the registers are written. *)
Definition bit_timing (u32BaudRate u32SourceClock_Hz u32Set_NBTP : Z) : res bit_time :=
  let l := limits u32Set_NBTP in
  let clock_freq := u64 u32SourceClock_Hz in
  let sampl_pt := cia_sample_point u32BaudRate in
  bt_search (tseg_rounds l) u32Set_NBTP clock_freq u32BaudRate sampl_pt (tseg_first l)
    (mkBest 1000000000 0 0 1000) ≫= fun b =>
  let '(_, tseg1, tseg2) := CANFD_Update_Spt sampl_pt (best_tseg b) u32Set_NBTP in
  let sjw := if 2 >? sjw_max l then sjw_max l else 2 in
  let sjw := if tseg2 <? sjw then tseg2 else sjw in
  let best_brp := best_brp b - 1 in
  let sjw := sjw - 1 in
  let tseg1 := tseg1 - 1 in
  let tseg2 := tseg2 - 1 in
  let d := u64 ((best_brp + 1) * (tseg1 + tseg2 + 3)) in
  if d =? 0 then Fault DivByZero
  else Ok (mkBT (u32 (clock_freq / d)) best_brp sjw tseg1 tseg2).

(** Transmitter delay compensation is used beyond 2.5 MBit/s. *)
Definition tdc_offset (clock_freq sampl_pt u32BaudRate : Z) : Z :=
  let tdco := u32 (u64 (clock_freq / 1000 * sampl_pt) / u32BaudRate) in
  if tdco >? 127 then 127 else tdco.

Definition CANFD_SetBitRate (u32BaudRate u32SourceClock_Hz u32Set_NBTP : Z) : M canfd_st Z :=
  t ← lift (bit_timing u32BaudRate u32SourceClock_Hz u32Set_NBTP);
  let sh x p := s32 (Z.shiftl x p) in
  (if ctrue u32Set_NBTP then
     wr NBTP (Z.lor (sh (bt_brp_m1 t) CANFD_NBTP_NBRP_Pos)
             (Z.lor (sh (bt_sjw_m1 t) CANFD_NBTP_NSJW_Pos)
             (Z.lor (sh (bt_tseg1_m1 t) CANFD_NBTP_NTSEG1_Pos)
                    (sh (bt_tseg2_m1 t) CANFD_NBTP_NTSEG2_Pos))))
   else
     let tdc := bt_rate_real t >? 2500000 in
     when tdc
       (wr TDCR (Z.shiftl (tdc_offset (u64 u32SourceClock_Hz) (cia_sample_point u32BaudRate)
                             (bt_rate_real t)) CANFD_TDCR_TDCO_Pos));;
     wr DBTP (Z.lor (if tdc then msk 1 23 else 0)
             (Z.lor (sh (bt_brp_m1 t) CANFD_DBTP_DBRP_Pos)
             (Z.lor (sh (bt_sjw_m1 t) CANFD_DBTP_DSJW_Pos)
             (Z.lor (sh (bt_tseg1_m1 t) CANFD_DBTP_DTSEG1_Pos)
                    (sh (bt_tseg2_m1 t) CANFD_DBTP_DTSEG2_Pos))))));;
  mret (bt_rate_real t).

Definition CANFD_CalculateTimingValues (u32NominalBaudRate u32DataBaudRate
    u32SourceClock_Hz : Z) : M canfd_st unit :=
  let nominal := if u32NominalBaudRate >? MAX_NOMINAL_BAUDRATE
                 then MAX_NOMINAL_BAUDRATE else u32NominalBaudRate in
  let data := if u32DataBaudRate >? MAX_DATA_BAUDRATE
              then MAX_DATA_BAUDRATE else u32DataBaudRate in
  CANFD_SetBitRate nominal (s32 u32SourceClock_Hz) 1;;
  cccr ← rd CCCR;
  when (ctrue (Z.land cccr CANFD_CCCR_FDOE_Msk))
    (CANFD_SetBitRate data (s32 u32SourceClock_Hz) 0;; mret tt).

(** ** Configuration of the message RAM *)

(** Words of an element whose data field has the size code [u32Size]. *)
Definition elem_words (u32Size : Z) : Z :=
  if u32Size <? 5 then u32 (u32Size + 4) else u32 (u32Size * 4 - 10).
Definition clear_elems (start size n : Z) : M canfd_st unit :=
  CANFD_MemSet start 0 (u32 (elem_words size * 4 * n)).

(** [reg = (reg & ~mask) | (v << pos)] *)
Definition put_field (r : creg) (mask pos v : Z) : M canfd_st unit :=
  x ← rd r; wr r (Z.lor (Z.ldiff x mask) (Z.shiftl v pos)).

Definition rx_fifo_config (rxfc : creg) (sa n u32FifoWM : Z) (s_pos wm_pos : Z) : M canfd_st unit :=
  wr rxfc (Z.lor sa (Z.lor (u32 (Z.shiftl n s_pos)) (u32 (Z.shiftl u32FifoWM wm_pos)))).

Definition CANFD_InitRxFifo (u32RxFifoNum : Z) (psRamConfig : CANFD_RAM_PART_T)
    (psElemSize : CANFD_ELEM_SIZE_T) (u32FifoWM eFifoSize : Z) : M canfd_st unit :=
  if u32RxFifoNum >? CANFD_NUM_RX_FIFOS then mret tt
  else if u32RxFifo0 psElemSize >? CANFD_MAX_RX_FIFO0_ELEMS then mret tt
  else if u32RxFifo1 psElemSize >? CANFD_MAX_RX_FIFO1_ELEMS then mret tt
  else if u32RxFifoNum =? 0 then
    if ctrue (u32RxFifo0 psElemSize) then
      rx_fifo_config RXF0C (u32RXF0C_F0SA psRamConfig) (u32RxFifo0 psElemSize) u32FifoWM
        CANFD_RXF0C_F0S_Pos CANFD_RXF0C_F0WM_Pos;;
      put_field RXESC CANFD_RXESC_F0DS_Msk CANFD_RXESC_F0DS_Pos eFifoSize;;
      clear_elems (Z.land (u32RXF0C_F0SA psRamConfig) CANFD_RXF0C_F0SA_Msk) eFifoSize
        (u32RxFifo0 psElemSize)
    else wr RXF0C 0
  else if u32RxFifoNum =? 1 then
    if ctrue (u32RxFifo1 psElemSize) then
      rx_fifo_config RXF1C (u32RXF1C_F1SA psRamConfig) (u32RxFifo1 psElemSize) u32FifoWM
        CANFD_RXF1C_F1S_Pos CANFD_RXF1C_F1WM_Pos;;
      put_field RXESC CANFD_RXESC_F1DS_Msk CANFD_RXESC_F1DS_Pos eFifoSize;;
      clear_elems (Z.land (u32RXF1C_F1SA psRamConfig) CANFD_RXF1C_F1SA_Msk) eFifoSize
        (u32RxFifo1 psElemSize)
    else wr RXF1C 0
  else mret tt.

Definition CANFD_InitTxDBuf (psRamConfig : CANFD_RAM_PART_T) (psElemSize : CANFD_ELEM_SIZE_T)
    (eTxBufSize : Z) : M canfd_st unit :=
  let sa := Z.land (u32TXBC_TBSA psRamConfig) CANFD_TXBC_TBSA_Msk in
  wr TXBC (Z.lor (Z.shiftl (Z.land (u32TxBuf psElemSize) 0x3F) CANFD_TXBC_NDTB_Pos) sa);;
  put_field TXESC CANFD_TXESC_TBDS_Msk CANFD_TXESC_TBDS_Pos eTxBufSize;;
  clear_elems sa eTxBufSize (u32TxBuf psElemSize).

Definition CANFD_InitRxDBuf (psRamConfig : CANFD_RAM_PART_T) (psElemSize : CANFD_ELEM_SIZE_T)
    (eRxBufSize : Z) : M canfd_st unit :=
  let sa := Z.land (u32RXBC_RBSA psRamConfig) CANFD_RXBC_RBSA_Msk in
  wr RXBC sa;;
  put_field RXESC CANFD_RXESC_RBDS_Msk CANFD_RXESC_RBDS_Pos eRxBufSize;;
  clear_elems sa eRxBufSize (u32RxBuf psElemSize).

Definition CANFD_ConfigSIDFC (psRamConfig : CANFD_RAM_PART_T) (psElemSize : CANFD_ELEM_SIZE_T)
    : M canfd_st unit :=
  let sa := Z.land (u32SIDFC_FLSSA psRamConfig) CANFD_SIDFC_FLSSA_Msk in
  wr SIDFC (Z.lor (Z.shiftl (Z.land (u32SIDFC psElemSize) 0xFF) CANFD_SIDFC_LSS_Pos) sa);;
  CANFD_MemSet sa 0 (u32 (u32SIDFC psElemSize * 4)).

Definition CANFD_ConfigXIDFC (psRamConfig : CANFD_RAM_PART_T) (psElemSize : CANFD_ELEM_SIZE_T)
    : M canfd_st unit :=
  let sa := Z.land (u32XIDFC_FLESA psRamConfig) CANFD_XIDFC_FLESA_Msk in
  wr XIDFC (Z.lor (Z.shiftl (Z.land (u32XIDFC psElemSize) 0xFF) CANFD_XIDFC_LSE_Pos) sa);;
  CANFD_MemSet sa 0 (u32 (u32XIDFC psElemSize * 8)).

Definition CANFD_InitTxEvntFifo (psRamConfig : CANFD_RAM_PART_T) (psElemSize : CANFD_ELEM_SIZE_T)
    (u32FifoWaterLvl : Z) : M canfd_st unit :=
  wr TXEFC (Z.lor (u32 (Z.shiftl u32FifoWaterLvl CANFD_TXEFC_EFWN_Pos))
           (Z.lor (u32 (Z.shiftl (u32TxEventFifo psElemSize) CANFD_TXEFC_EFS_Pos))
                  (Z.land (u32TXEFC_EFSA psRamConfig) CANFD_TXEFC_EFSA_Msk))).

Definition CANFD_SetSIDFltr (u32FltrIdx u32Filter : Z) : M canfd_st unit :=
  if u32FltrIdx >=? CANFD_MAX_11_BIT_FTR_ELEMS then mret tt
  else
    sidfc ← rd SIDFC;
    wr32 (Z.land sidfc CANFD_SIDFC_FLSSA_Msk + u32FltrIdx * sizeof_CANFD_STD_FILTER_T) u32Filter.

Definition CANFD_SetXIDFltr (u32FltrIdx u32FilterLow u32FilterHigh : Z) : M canfd_st unit :=
  if u32FltrIdx >=? CANFD_MAX_29_BIT_FTR_ELEMS then mret tt
  else
    xidfc ← rd XIDFC;
    let a := Z.land xidfc CANFD_XIDFC_FLESA_Msk + u32FltrIdx * sizeof_CANFD_EXT_FILTER_T in
    wr32 a u32FilterLow;;
    wr32 (a + 4) u32FilterHigh.

Definition CANFD_SetGFC (eNMStdFrm eEMExtFrm u32RejRmtStdFrm u32RejRmtExtFrm : Z) : M canfd_st unit :=
  x ← rd GFC;
  wr GFC (Z.land x (Z.lor CANFD_GFC_RRFS_Msk CANFD_GFC_RRFE_Msk));;
  wr GFC (Z.lor (Z.shiftl eNMStdFrm CANFD_GFC_ANFS_Pos)
         (Z.lor (Z.shiftl eEMExtFrm CANFD_GFC_ANFE_Pos)
         (Z.lor (u32 (Z.shiftl u32RejRmtStdFrm CANFD_GFC_RRFS_Pos))
                (u32 (Z.shiftl u32RejRmtExtFrm CANFD_GFC_RRFE_Pos))))).

(** ** Clock and opening *)
Record clk_cfg := mkClk { CLKSEL4 : Z; CLKDIV0 : Z; CLK_GetPLLClockFreq : Z -> Z }.
Definition APLL : Z := 3.
Definition VPLL : Z := 5.
Definition CANFD2_MODULE : Z :=
  Z.lor (Z.shiftl 4 26) (Z.lor (Z.shiftl 1 22) (Z.lor (Z.shiftl 18 17)
    (Z.lor (Z.shiftl 7 10) (Z.lor (Z.shiftl 8 5) 10)))).
Definition CANFD3_MODULE : Z :=
  Z.lor (Z.shiftl 4 26) (Z.lor (Z.shiftl 1 22) (Z.lor (Z.shiftl 19 17)
    (Z.lor (Z.shiftl 7 10) (Z.lor (Z.shiftl 12 5) 11)))).

Definition CANFD_GetClockDiv (clk : clk_cfg) (u32CAN_Port : Z) : res Z :=
  let sh := u32 (4 * u32CAN_Port) in
  if sh >=? 32 then Fault BadShift
  else Ok (Z.shiftr (Z.land (CLKDIV0 clk) (Z.shiftl 7 sh)) sh).

Definition CANFD_GetClockSource (clk : clk_cfg) (u32CAN_Port : Z) : res Z :=
  let sh := u32 (16 + u32CAN_Port) in
  if sh >=? 32 then Fault BadShift
  else Ok (Z.shiftr (Z.land (CLKSEL4 clk) (Z.shiftl 1 sh)) sh).

(** The clock of a port: [arg] is what [CANFD_Open] passes to
    [CANFD_GetClockSource] and [vpll] the answer it takes for the VPLL. *)
Definition port_clock (clk : clk_cfg) (arg vpll port : Z) : res Z :=
  src ← CANFD_GetClockSource clk arg;
  div ← CANFD_GetClockDiv clk port;
  Ok (CLK_GetPLLClockFreq clk (if src =? vpll then VPLL else APLL) `div` u32 (Z.shiftl (u32 (div + 1)) 1)).

(** [psCanfd] is the number of the controller. *)
Definition u32CANFD_CLK (clk : clk_cfg) (psCanfd : Z) : res Z :=
  if psCanfd =? 0 then port_clock clk 0 1 0
  else if psCanfd =? 1 then port_clock clk 1 1 1
  else if psCanfd =? 2 then port_clock clk CANFD2_MODULE 0 2
  else if psCanfd =? 3 then port_clock clk CANFD3_MODULE 1 3
  else Fault Uninit.

Definition CANFD_Open (clk : clk_cfg) (psCanfd : Z) (psCanfdStr : CANFD_FD_T) : M canfd_st unit :=
  u32CANFD_CLK ← lift (u32CANFD_CLK clk psCanfd);
  let ram := sMRamStartAddr psCanfdStr in
  let sz := sElemSize psCanfdStr in
  set_bits CCCR CANFD_CCCR_CCE_Msk;;
  when (ctrue (bBitRateSwitchEn psCanfdStr)) (set_bits CCCR CANFD_CCCR_BRSE_Msk);;
  when (ctrue (bFDEn psCanfdStr)) (set_bits CCCR CANFD_CCCR_FDOE_Msk);;
  wr RXF0C 0;;
  wr RXF1C 0;;
  CANFD_CalculateTimingValues (normBitRate psCanfdStr) (dataBitRate psCanfdStr) u32CANFD_CLK;;
  when (ctrue (u32SIDFC sz)) (CANFD_ConfigSIDFC ram sz);;
  when (ctrue (u32XIDFC sz)) (CANFD_ConfigXIDFC ram sz);;
  when (ctrue (u32TxBuf sz)) (CANFD_InitTxDBuf ram sz eCANFD_BYTE64);;
  when (ctrue (u32RxBuf sz)) (CANFD_InitRxDBuf ram sz eCANFD_BYTE64);;
  when (ctrue (u32RxFifo0 sz)) (CANFD_InitRxFifo 0 ram sz 0 eCANFD_BYTE64);;
  when (ctrue (u32RxFifo1 sz)) (CANFD_InitRxFifo 1 ram sz 0 eCANFD_BYTE64);;
  when (ctrue (u32TxEventFifo sz)) (CANFD_InitTxEvntFifo ram sz 0);;
  when (ctrue (bEnableLoopBack psCanfdStr))
    (set_bits CCCR CANFD_CCCR_TEST_Msk;; set_bits TEST CANFD_TEST_LBCK_Msk).

(** The interrupt lines [CANFD_Close] disables, in order. *)
Definition CANFD_Close (psCanfd : Z) : list Z :=
  if psCanfd =? 0 then [103; 163]
  else if psCanfd =? 1 then [132; 164]
  else if psCanfd =? 2 then [157; 165]
  else if psCanfd =? 3 then [158; 166]
  else [].

(** ** Interrupts and status *)
Definition CANFD_EnableInt (u32IntLine0 u32IntLine1 u32TXBTIE u32TXBCIE : Z) : M canfd_st unit :=
  when (ctrue u32IntLine0)
    (set_bits IE u32IntLine0;; clr_bits ILS u32IntLine0;; set_bits ILE (Z.shiftl 1 0));;
  when (ctrue u32IntLine1)
    (set_bits IE u32IntLine1;; set_bits ILS u32IntLine1;; set_bits ILE (Z.shiftl 1 1));;
  set_bits TXBTIE u32TXBTIE;;
  set_bits TXBCIE u32TXBCIE.

Definition CANFD_DisableInt (u32IntLine0 u32IntLine1 u32TXBTIE u32TXBCIE : Z) : M canfd_st unit :=
  when (ctrue u32IntLine0) (clr_bits IE u32IntLine0;; clr_bits ILE (Z.shiftl 1 0));;
  when (ctrue u32IntLine1) (clr_bits IE u32IntLine1;; clr_bits ILE (Z.shiftl 1 1));;
  clr_bits TXBTIE u32TXBTIE;;
  clr_bits TXBCIE u32TXBCIE.

Definition CANFD_GetStatusFlag (u32IntTypeFlag : Z) : M canfd_st Z :=
  ir ← read_reg IR; mret (Z.land ir u32IntTypeFlag).
Definition CANFD_ClearStatusFlag (u32InterruptFlag : Z) : M canfd_st unit :=
  wr IR u32InterruptFlag.

(** What [CANFD_GetBusErrCount] stores through its two pointers: nothing
    through a null one. *)
Definition CANFD_GetBusErrCount (pu8TxErrBuf pu8RxErrBuf : bool) : M canfd_st (option Z * option Z) :=
  ecr ← rd ECR;
  mret (if pu8TxErrBuf then Some (u8 (Z.land (Z.shiftr ecr CANFD_ECR_TEC_Pos) CANFD_ECR_TEC_Msk)) else None,
        if pu8RxErrBuf then Some (u8 (Z.land (Z.shiftr ecr CANFD_ECR_REC_Pos) CANFD_ECR_REC_Msk)) else None).

(** [cccr] are the values of [CCCR] after the write. *)
Definition CANFD_RunToNormal (fuel : nat) (cccr : nat -> Z) (u8Enable : Z) : M canfd_st unit :=
  let init v := ctrue (Z.land v CANFD_CCCR_INIT_Msk) in
  if ctrue u8Enable then
    clr_bits CCCR (Z.lor CANFD_CCCR_CCE_Msk CANFD_CCCR_INIT_Msk);;
    lift (poll fuel (fun v => negb (init v)) cccr 0)
  else
    set_bits CCCR CANFD_CCCR_INIT_Msk;;
    lift (poll fuel init cccr 0).

Definition CANFD_GetRxFifoWaterLvl (u32RxFifoNum : Z) : M canfd_st Z :=
  if u32RxFifoNum =? 0 then
    x ← read_reg RXF0C; mret (Z.shiftr (Z.land x CANFD_RXF0C_F0WM_Msk) CANFD_RXF0C_F0WM_Pos)
  else
    x ← read_reg RXF1C; mret (Z.shiftr (Z.land x CANFD_RXF1C_F1WM_Msk) CANFD_RXF1C_F1WM_Pos).

Definition CANFD_GetTxEvntFifoWaterLvl : M canfd_st Z :=
  x ← read_reg TXEFC; mret (Z.shiftr (Z.land x CANFD_TXEFC_EFWN_Msk) CANFD_TXEFC_EFWN_Pos).

(** [1UL << i] on 64 bits. *)
Definition bit_ul (i : Z) : res Z :=
  if i >=? 64 then Fault BadShift else Ok (Z.shiftl 1 i).

Definition CANFD_TxBufCancelReq (u32TxBufIdx : Z) : M canfd_st unit :=
  x ← read_reg TXBCR; b ← lift (bit_ul u32TxBufIdx); wr TXBCR (Z.lor x b).
Definition CANFD_IsTxBufCancelFin (u32TxBufIdx : Z) : M canfd_st Z :=
  x ← read_reg TXBCR; b ← lift (bit_ul u32TxBufIdx); mret (u32 (Z.shiftr (Z.land x b) u32TxBufIdx)).
Definition CANFD_IsTxBufTransmitOccur (u32TxBufIdx : Z) : M canfd_st Z :=
  x ← read_reg TXBTO; b ← lift (bit_ul u32TxBufIdx); mret (u32 (Z.shiftr (Z.land x b) u32TxBufIdx)).

(** ** Transmission *)

(** The words of [au32Data]. *)
Definition msg_word (m : CANFD_FD_MSG_T) (i : Z) : res Z :=
  b0 ← aget (au8Data m) (4 * i);
  b1 ← aget (au8Data m) (4 * i + 1);
  b2 ← aget (au8Data m) (4 * i + 2);
  b3 ← aget (au8Data m) (4 * i + 3);
  Ok (b0 + 2 ^ 8 * b1 + 2 ^ 16 * b2 + 2 ^ 24 * b3).

(** The element of message [m], written at [a]. *)
Definition elem_id (m : CANFD_FD_MSG_T) : Z :=
  if decide (eIdType m = eCANFD_XID)
  then Z.lor ELEM_XTD_Msk (Z.land (u32Id m) 0x1FFFFFFF)
  else u32 (Z.shiftl (Z.land (u32Id m) 0x7FF) 18).

Definition write_elem (a : Z) (m : CANFD_FD_MSG_T) : M canfd_st unit :=
  wr32 a (elem_id m);;
  when (bool_decide (eFrmType m = eCANFD_REMOTE_FRM))
    (x ← rd32 a; wr32 a (Z.lor x ELEM_RTR_Msk));;
  wr32 (a + 4) (Z.shiftl (CANFD_EncodeDLC (u8 (u32DLC m))) 16);;
  when (ctrue (bFDFormat m)) (x ← rd32 (a + 4); wr32 (a + 4) (Z.lor x ELEM_FDF_Msk));;
  when (ctrue (bBitRateSwitch m)) (x ← rd32 (a + 4); wr32 (a + 4) (Z.lor x ELEM_BSR_Msk));;
  for_ (Z.to_nat (u32 (u32DLC m + 3) / 4)) 0 (fun i =>
    w ← lift (msg_word m i); wr32 (a + 8 + 4 * i) w).

(** The wait for an idle bus: [psr k] is the [k]-th value of [PSR]; [timeout]
    rounds. *)
Fixpoint wait_idle (timeout : nat) (psr : nat -> Z) (k : nat) : bool :=
  if Z.shiftr (Z.land (psr k) CANFD_PSR_ACT_Msk) CANFD_PSR_ACT_Pos =? eCANFD_IDLE then true
  else match timeout with O => false | S timeout => wait_idle timeout psr (S k) end.

Definition CANFD_TransmitDMsg (SystemCoreClock : Z) (psr : nat -> Z) (u32TxBufIdx : Z)
    (psTxMsg : CANFD_FD_MSG_T) : M canfd_st Z :=
  let u32TimeOutCount := SystemCoreClock / 100 in
  if u32TxBufIdx >=? CANFD_MAX_TX_BUF_ELEMS then mret 0
  else
    txbrp ← read_reg TXBRP;
    if ctrue (Z.land txbrp (Z.shiftl 1 u32TxBufIdx)) then mret 0
    else
      txbc ← rd TXBC;
      write_elem (Z.land txbc 0xFFFF + u32TxBufIdx * sizeof_CANFD_BUF_T) psTxMsg;;
      chip ← gets sys_1f0;
      if (Z.land chip 0xf000000 =? 0) && negb (wait_idle (Z.to_nat u32TimeOutCount) psr 0)
      then mret 0
      else wr TXBAR (Z.shiftl 1 u32TxBufIdx);; mret 1.

(** [txbrp] are the values of [TXBRP] after the request. *)
Definition CANFD_TransmitTxMsg (fuel : nat) (SystemCoreClock : Z) (psr txbrp : nat -> Z)
    (u32TxBufIdx : Z) (psTxMsg : CANFD_FD_MSG_T) : M canfd_st Z :=
  u32Success ← CANFD_TransmitDMsg SystemCoreClock psr u32TxBufIdx psTxMsg;
  when (u32Success =? 1)
    (lift (poll fuel (fun v => ctrue (Z.land v (Z.shiftl 1 u32TxBufIdx))) txbrp 0));;
  mret u32Success.

(** ** Reception *)

(** [for (u32Idx = 0; u32Idx < n; u32Idx++) au8Data[u32Idx] = psRxBuf->au8Data[u32Idx]] *)
Fixpoint copy_data (n : nat) (i a : Z) (d : list Z) : M canfd_st (list Z) :=
  match n with
  | O => mret d
  | S n => b ← rd8 (a + 8 + i); d ← lift (aset d i b); copy_data n (i + 1) a d
  end.

(** A message read from the element at [psRxBuf] into [psMsgBuf]. *)
Definition CANFD_CopyDBufToMsgBuf (psRxBuf : Z) (psMsgBuf : CANFD_FD_MSG_T) : M canfd_st CANFD_FD_MSG_T :=
  id ← rd32 psRxBuf;
  let m := psMsgBuf <| bErrStaInd := if ctrue (Z.land id ELEM_ESI_Msk) then TRUE else FALSE |> in
  let m :=
    if ctrue (Z.land id ELEM_XTD_Msk)
    then m <| u32Id := Z.land id ELEM_ID_Msk |> <| eIdType := eCANFD_XID |>
    else m <| u32Id := Z.land (Z.shiftr id 18) 0x7FF |> <| eIdType := eCANFD_SID |> in
  let m := m <| eFrmType := if ctrue (Z.land id ELEM_RTR_Msk)
                            then eCANFD_REMOTE_FRM else eCANFD_DATA_FRM |> in
  conf ← rd32 (psRxBuf + 4);
  let m := m <| bFDFormat := if ctrue (Z.land conf ELEM_FDF_Msk) then TRUE else FALSE |> in
  let m := m <| bBitRateSwitch := if ctrue (Z.land conf ELEM_BSR_Msk) then TRUE else FALSE |> in
  let m := m <| u32DLC := CANFD_DecodeDLC (Z.shiftr (Z.land conf ELEM_DLC_Msk) ELEM_DLC_Pos) |> in
  d ← copy_data (Z.to_nat (u32DLC m)) 0 psRxBuf (au8Data m);
  mret (m <| au8Data := d |>).

Definition CANFD_CopyRxFifoToMsgBuf := CANFD_CopyDBufToMsgBuf.

(** The flag registers of the receive buffers: [NDAT1] for the first 32. *)
Definition ndat (u8MbIdx : Z) : creg := if u8MbIdx <? 32 then NDAT1 else NDAT2.
Definition ndat_bit (u8MbIdx : Z) : Z := if u8MbIdx <? 32 then u8MbIdx else u8MbIdx - 32.

(** A read returns the result and the message buffer. *)
Definition CANFD_ReadRxBufMsg (u8MbIdx : Z) (psMsgBuf : CANFD_FD_MSG_T)
    : M canfd_st (Z * CANFD_FD_MSG_T) :=
  if u8MbIdx <? CANFD_MAX_RX_BUF_ELEMS then
    x ← read_reg (ndat u8MbIdx);
    if ctrue (Z.land (Z.shiftr x (ndat_bit u8MbIdx)) 1) then
      rxbc ← read_reg RXBC;
      m ← CANFD_CopyDBufToMsgBuf (Z.land rxbc 0xFFFF + u8MbIdx * sizeof_CANFD_BUF_T) psMsgBuf;
      y ← read_reg (ndat u8MbIdx);
      wr (ndat u8MbIdx) (Z.lor y (Z.shiftl 1 (ndat_bit u8MbIdx)));;
      mret (1, m)
    else mret (0, psMsgBuf)
  else mret (0, psMsgBuf).

(** The registers of the receive FIFO and the position of its lost flag. *)
Definition rx_fifo (u8FifoIdx : Z) : creg * creg * creg * Z :=
  if u8FifoIdx =? 0 then (RXF0S, RXF0C, RXF0A, 3) else (RXF1S, RXF1C, RXF1A, 7).

Definition CANFD_ReadRxFifoMsg (u8FifoIdx : Z) (psMsgBuf : CANFD_FD_MSG_T)
    : M canfd_st (Z * CANFD_FD_MSG_T) :=
  if u8FifoIdx <? CANFD_NUM_RX_FIFOS then
    let '(pRXFS, pRXFC, pRXFA, msgLostBit) := rx_fifo u8FifoIdx in
    x ← read_reg pRXFS;
    if Z.land x 0x7F >? 0 then
      y ← read_reg pRXFS;
      let GetIndex := u8 (Z.land (Z.shiftr y 8) 0x3F) in
      c ← read_reg pRXFC;
      m ← CANFD_CopyRxFifoToMsgBuf (Z.land c 0xFFFF + GetIndex * sizeof_CANFD_BUF_T) psMsgBuf;
      wr pRXFA GetIndex;;
      z ← read_reg pRXFS;
      if ctrue (Z.land z CANFD_RXFS_RFL) then wr IR (Z.shiftl 1 msgLostBit);; mret (2, m)
      else mret (1, m)
    else mret (0, psMsgBuf)
  else mret (0, psMsgBuf).

(** ** Transmit events *)
Definition CANFD_GetTxBufferElementAddress (u32Idx : Z) : M canfd_st Z :=
  x ← read_reg TXESC;
  let u32Size := Z.shiftr (Z.land x CANFD_TXESC_TBDS_Msk) CANFD_TXESC_TBDS_Pos in
  let u32Size := elem_words u32Size in
  y ← read_reg TXBC;
  mret (u32 (Z.land y CANFD_TXBC_TBSA_Msk + u32 (u32Idx * u32Size * 4))).

(** [mem] are the words of the physical memory. *)
Definition CANFD_CopyTxEvntFifoToUsrBuf (mem : Z -> Z) (u32TxEvntNum : Z) : M canfd_st CANFD_TX_EVNT_ELEM_T :=
  a ← CANFD_GetTxBufferElementAddress u32TxEvntNum;
  let w0 := mem a in
  let w1 := mem (a + 4) in
  let flag m := if Z.land w0 m >? 0 then TRUE else FALSE in
  let xid := Z.land w0 ELEM_XTD_Msk >? 0 in
  mret (mkTxEvnt
    (if xid then eCANFD_XID else eCANFD_SID)
    (if xid then Z.land w0 ELEM_ID_Msk else Z.shiftr (Z.land w0 ELEM_ID_Msk) 18)
    (CANFD_DecodeDLC (u8 (Z.shiftr (Z.land w1 ELEM_DLC_Msk) ELEM_DLC_Pos)))
    (Z.land w1 EVENT_TXTS_Msk)
    (Z.shiftr (Z.land w1 EVENT_MM_Msk) EVENT_MM_Pos)
    (flag ELEM_ESI_Msk) (flag ELEM_RTR_Msk) (flag ELEM_FDF_Msk) (flag ELEM_BSR_Msk)).

(** * Register reads *)

(** Four equal consecutive values from the [k]-th on. *)
Definition run4 (reads : nat -> Z) (k : nat) : Prop :=
  reads (k + 1)%nat = reads k /\ reads (k + 2)%nat = reads k /\ reads (k + 3)%nat = reads k.

Lemma read_again_first fuel reads k c k0 :
  (c <= 3)%nat -> (c < k)%nat -> (k <= k0 + 4)%nat -> (k0 + 5 - k < fuel)%nat ->
  (forall j, (k - 1 - c <= j < k)%nat -> reads j = reads (k - 1)%nat) ->
  (c = 3%nat -> k = k0 + 4)%nat ->
  (k - 1 - c <= k0)%nat ->
  run4 reads k0 -> (forall j, (j < k0)%nat -> ~ run4 reads j) ->
  read_again fuel reads k (reads (k - 1)%nat) (Z.of_nat c) = Ok (reads k0).
Proof.
  revert k c. induction fuel as [|fuel IH]; intros k c Hc Hck Hk Hf Heq H3 Hlo Hrun Hfirst; [lia|].
  cbn [read_again]. unfold CANFD_REG_READ_TIME. destruct Hrun as (R1 & R2 & R3).
  destruct (decide (c = 3%nat)) as [->|Hc3].
  { rewrite (proj2 (Z.ltb_ge _ _)) by lia. f_equal. symmetry. apply Heq. lia. }
  rewrite (proj2 (Z.ltb_lt _ _)) by lia. cbv zeta.
  destruct (decide (k = k0 + 4)%nat) as [->|Hk4]; [lia|].
  case_if.
  - replace (Z.of_nat c + 1) with (Z.of_nat (S c)) by lia.
    replace (reads (k - 1)%nat) with (reads (S k - 1)%nat) by (rewrite <- Heqb; f_equal; lia).
    apply IH; try lia; try done.
    + intros j Hj. replace (S k - 1)%nat with k by lia. rewrite Heqb.
      destruct (decide (j = k)) as [->|]; [done|apply Heq; lia].
    + intros Hc4. destruct (decide (S k = k0 + 4)%nat) as [|]; [done|]. exfalso.
      apply (Hfirst (k - 3)%nat); [lia|].
      assert (forall j, (k - 3 <= j <= k)%nat -> reads j = reads (k - 1)%nat) as E.
      { intros j Hj. destruct (decide (j = k)) as [->|]; [done|apply Heq; lia]. }
      repeat split; (transitivity (reads (k - 1)%nat); [|symmetry]; apply E; lia).
  - replace 0 with (Z.of_nat 0) by done. replace (reads k) with (reads (S k - 1)%nat) by (f_equal; lia).
    apply IH; try lia; try done.
    + intros j Hj. f_equal. lia.
    + destruct (decide (k <= k0)%nat); [lia|]. exfalso. apply Heqb.
      assert (forall j, (k0 <= j <= k0 + 3)%nat -> reads j = reads k0) as E.
      { intros j Hj. assert (j = k0 \/ j = k0 + 1 \/ j = k0 + 2 \/ j = k0 + 3)%nat as
          [->|[->|[->| ->]]] by lia; done. }
      rewrite (E k), (E (k - 1)%nat) by lia. done.
Qed.

(** The first position with four equal values. *)
Lemma first_run reads k :
  run4 reads k -> exists k0, (k0 <= k)%nat /\ run4 reads k0 /\ forall j, (j < k0)%nat -> ~ run4 reads j.
Proof.
  assert (forall j, Decision (run4 reads j)) as D by (intros; unfold run4; apply _).
  induction k as [k IH] using lt_wf_ind. intros Hk.
  destruct (decide (Exists (fun j => run4 reads j) (seq 0 k))) as [E|E].
  - apply Exists_exists in E as (j & Hj & Hr). apply in_seq in Hj.
    destruct (IH j) as (k0 & ? & ? & ?); [lia|done|]. exists k0. split; [lia|done].
  - exists k. split; [lia|]. split; [done|]. intros j Hj Hr. apply E, Exists_exists.
    exists j. split; [apply in_seq; lia|done].
Qed.

(** C26: [CANFD_ReadReg] returns the value of the first four equal consecutive reads
    when the register settles; the other revisions take the first read. *)
Theorem CANFD_ReadReg_first_run fuel chip reads k :
  run4 reads k -> (k + 4 < fuel)%nat ->
  if Z.land chip 0xf000000 =? 0
  then exists k0, (k0 <= k)%nat /\ run4 reads k0 /\ (forall j, (j < k0)%nat -> ~ run4 reads j) /\
         CANFD_ReadReg fuel chip reads = Ok (reads k0)
  else CANFD_ReadReg fuel chip reads = Ok (reads 0%nat).
Proof.
  intros Hr Hf. unfold CANFD_ReadReg. case_if; [|done].
  destruct (first_run reads k Hr) as (k0 & Hk0 & Hr0 & Hfirst).
  exists k0. split; [done|]. split; [done|]. split; [done|].
  apply (read_again_first fuel reads 1 0 k0); try lia; try done.
  intros j Hj. f_equal. lia.
Qed.

Lemma CANFD_ReadReg_first_run_witness :
  CANFD_ReadReg 20 0 (fun k => if decide (k < 5)%nat then Z.of_nat (k / 2) else 9) = Ok 9.
Proof.
  set (reads := fun k : nat => if decide (k < 5)%nat then Z.of_nat (k / 2) else 9).
  destruct (CANFD_ReadReg_first_run 20 0 reads 5) as (k0 & ? & ? & ? & ->);
    [by repeat split|lia|].
  assert (k0 = 0 \/ k0 = 1 \/ k0 = 2 \/ k0 = 3 \/ k0 = 4 \/ k0 = 5)%nat as
    [->|[->|[->|[->|[->| ->]]]]] by lia; try done.
  all: exfalso; match goal with H : run4 _ _ |- _ => by vm_compute in H; destruct H as (? & ? & ?) end.
Defined.

Lemma read_reg_spec r s : read_reg r s = Ok (cregs s r, s).
Proof.
  unfold read_reg, lift, CANFD_ReadReg. case_if; [|done].
  cbn [read_again]. unfold CANFD_REG_READ_TIME. by rewrite !Z.eqb_refl.
Qed.

Lemma wp_read_reg r (Q : Z -> canfd_st -> Prop) s : Q (cregs s r) s -> wp (read_reg r) Q s.
Proof. unfold wp. by rewrite read_reg_spec. Qed.

(** * The message RAM layout *)

(** The areas lie one behind the other from [off] to [fin]. *)
Fixpoint packed (off : Z) (l : list (Z * Z)) (fin : Z) : Prop :=
  match l with
  | [] => off = fin
  | (a, bytes) :: l => (0 < bytes -> a = off) /\ packed (off + bytes) l fin
  end.

(** Start and length in bytes of the areas, in the order of the layout. *)
Definition areas (p : CANFD_RAM_PART_T) (sz : CANFD_ELEM_SIZE_T) : list (Z * Z) :=
  [(u32SIDFC_FLSSA p, u32SIDFC sz * 4); (u32XIDFC_FLESA p, u32XIDFC sz * 8);
   (u32TXBC_TBSA p, u32TxBuf sz * 72); (u32RXBC_RBSA p, u32RxBuf sz * 72);
   (u32RXF0C_F0SA p, u32RxFifo0 sz * 72); (u32RXF1C_F1SA p, u32RxFifo1 sz * 72);
   (u32TXEFC_EFSA p, u32TxEventFifo sz * 8)].
Definition areas_bytes (sz : CANFD_ELEM_SIZE_T) : Z :=
  u32SIDFC sz * 4 + u32XIDFC sz * 8 + u32TxBuf sz * 72 + u32RxBuf sz * 72 +
  u32RxFifo0 sz * 72 + u32RxFifo1 sz * 72 + u32TxEventFifo sz * 8.
Record sizes_pos (sz : CANFD_ELEM_SIZE_T) : Prop := {
  sp_sid : 0 <= u32SIDFC sz; sp_xid : 0 <= u32XIDFC sz; sp_tx : 0 <= u32TxBuf sz;
  sp_rx : 0 <= u32RxBuf sz; sp_f0 : 0 <= u32RxFifo0 sz; sp_f1 : 0 <= u32RxFifo1 sz;
  sp_ev : 0 <= u32TxEventFifo sz }.

Lemma layout_packed p sz :
  sizes_pos sz -> areas_bytes sz < 2 ^ 32 ->
  packed 0 (areas (CANFD_CalculateRamAddress p sz) sz) (areas_bytes sz).
Proof.
  intros [] Hb. destruct sz as [a b c d e f g], p; unfold areas_bytes in *; simpl in *.
  unfold CANFD_CalculateRamAddress, sizeof, sizeof_CANFD_STD_FILTER_T, sizeof_CANFD_EXT_FILTER_T,
    sizeof_CANFD_BUF_T; simpl.
  repeat case_if; simpl; rewrite ?uwrap_id by (rewrite ?uwrap_id; lia); repeat split; lia.
Qed.

Lemma packed_bounds off l fin :
  packed off l fin -> Forall (fun '(_, n) => 0 <= n) l -> off <= fin.
Proof.
  revert off. induction l as [|[a n] l IH]; simpl; intros off Hp Hn; [lia|].
  apply Forall_cons_1 in Hn as [Hn Hl]. destruct Hp as [_ Hp]. specialize (IH _ Hp Hl). lia.
Qed.

Lemma packed_lookup off l fin i a n :
  packed off l fin -> Forall (fun '(_, n) => 0 <= n) l -> l !! i = Some (a, n) -> 0 < n ->
  off <= a /\ a + n <= fin /\
  forall j b m, (i < j)%nat -> l !! j = Some (b, m) -> 0 < m -> a + n <= b.
Proof.
  revert off i a n. induction l as [|[c k] l IH]; intros off i a n Hp Hn Hi Hpos; [done|].
  apply Forall_cons_1 in Hn as [Hk Hl]. destruct Hp as [Hc Hp].
  destruct i as [|i]; simpl in Hi.
  - injection Hi as -> ->. rewrite Hc by done. pose proof (packed_bounds _ _ _ Hp Hl).
    repeat split; try lia. intros [|j] b m Hj Hb Hm; [lia|].
    destruct (IH _ j _ _ Hp Hl Hb Hm) as (? & _). lia.
  - destruct (IH _ i _ _ Hp Hl Hi Hpos) as (? & ? & H). repeat split; try lia.
    intros [|j] b m Hj Hb Hm; [lia|]. apply (H j b m); [lia|done|done].
Qed.

Lemma packed_mod4 off l fin i a n :
  packed off l fin -> Forall (fun '(_, n) => n mod 4 = 0) l -> off mod 4 = 0 ->
  l !! i = Some (a, n) -> 0 < n -> a mod 4 = 0.
Proof.
  revert off i. induction l as [|[c k] l IH]; intros off i Hp Hm Hoff Hi Hpos; [done|].
  apply Forall_cons_1 in Hm as [Hk Hl]. destruct Hp as [Hc Hp]. destruct i as [|i]; simpl in Hi.
  - injection Hi as -> ->. by rewrite Hc.
  - apply (IH (off + k) i); [done|done| |done|done].
    rewrite Z.add_mod, Hoff, Hk by lia. done.
Qed.

(** C24: The areas of the message RAM that [CANFD_CalculateRamAddress] lays out are
    disjoint, in the order of the layout, and within the sum of their sizes;
    those of the default configuration fit into the RAM. *)
Theorem CANFD_CalculateRamAddress_disjoint p sz i a n :
  sizes_pos sz -> areas_bytes sz < 2 ^ 32 ->
  areas (CANFD_CalculateRamAddress p sz) sz !! i = Some (a, n) -> 0 < n ->
  0 <= a /\ a + n <= areas_bytes sz /\
  (forall j b m, (i < j)%nat ->
     areas (CANFD_CalculateRamAddress p sz) sz !! j = Some (b, m) -> 0 < m -> a + n <= b) /\
  forall u8OpMode, areas_bytes (sElemSize (CANFD_GetDefaultConfig u8OpMode)) <= CANFD_SRAM_SIZE.
Proof.
  intros Hs Hb Hi Hn.
  assert (Forall (fun '(_, n) => 0 <= n) (areas (CANFD_CalculateRamAddress p sz) sz)) as Hf.
  { destruct Hs. repeat constructor; lia. }
  destruct (packed_lookup _ _ _ _ _ _ (layout_packed p sz Hs Hb) Hf Hi Hn) as (? & ? & ?).
  repeat split; try done.
Qed.

Lemma CANFD_CalculateRamAddress_disjoint_witness :
  let sz := sElemSize (CANFD_GetDefaultConfig 1) in
  let p := sMRamStartAddr (CANFD_GetDefaultConfig 1) in
  u32TXBC_TBSA p = 48 /\ u32TXBC_TBSA p + 8 * 72 <= u32RXF1C_F1SA p.
Proof.
  cbv zeta. split; [reflexivity|].
  set (sz := sElemSize (CANFD_GetDefaultConfig 1)).
  destruct (CANFD_CalculateRamAddress_disjoint (mkRamPart 0 0 0 0 0 0 0) sz 2 48 (8 * 72))
    as (_ & _ & H & _); [constructor; vm_compute; done|vm_compute; done|reflexivity|lia|].
  exact (H 5%nat _ (32 * 72) ltac:(lia) ltac:(reflexivity) ltac:(lia)).
Defined.

(** * Data length codes *)

(** C27: [CANFD_EncodeDLC] chooses the smallest frame size that holds the bytes, and
    encodes and decodes every size exactly. *)
Theorem CANFD_DLC_smallest n :
  0 <= n <= 64 ->
  let d := CANFD_EncodeDLC n in
  0 <= d <= 15 /\ n <= CANFD_DecodeDLC d /\
  (forall e, 0 <= e <= 15 -> n <= CANFD_DecodeDLC e -> CANFD_DecodeDLC d <= CANFD_DecodeDLC e) /\
  CANFD_EncodeDLC (CANFD_DecodeDLC d) = d /\
  forall e, 0 <= e <= 15 -> CANFD_EncodeDLC (CANFD_DecodeDLC e) = e.
Proof.
  intros Hn d.
  assert (forall e, 0 <= e <= 15 -> CANFD_EncodeDLC (CANFD_DecodeDLC e) = e) as Henc.
  { intros e He. assert (e ∈ seqZ 0 16) as Hin by (apply elem_of_seqZ; lia).
    clear He. revert e Hin. apply list.Forall_forall. by repeat constructor. }
  assert (0 <= d <= 15) as Hd.
  { unfold d, CANFD_EncodeDLC. repeat case_if; lia. }
  assert (n <= CANFD_DecodeDLC d) as Hle.
  { unfold d, CANFD_EncodeDLC. repeat (case_if; [cbn; try lia|]); try (cbn; lia).
    unfold CANFD_DecodeDLC. case_if; lia. }
  repeat split; try lia; [|by apply Henc|done].
  intros e He Hne. unfold d, CANFD_EncodeDLC.
  repeat (case_if; [unfold CANFD_DecodeDLC in *; repeat case_if; lia|]).
  unfold CANFD_DecodeDLC in *; repeat case_if; lia.
Qed.

Lemma CANFD_DLC_smallest_witness : CANFD_DecodeDLC (CANFD_EncodeDLC 33) <= 48.
Proof.
  destruct (CANFD_DLC_smallest 33) as (_ & _ & H & _); [lia|].
  apply (H 14); [lia|]. vm_compute. done.
Defined.

(** * Bit timing *)
Definition spts : list Z := [750; 800; 875].

(** What [CANFD_Update_Spt] returns, for every sample point and segment sum the
    search can choose. *)
Definition spt_ok (set sp t : Z) : bool :=
  let l := limits set in
  let '(spt, t1, t2) := CANFD_Update_Spt sp t set in
  (t1 + t2 =? t) && (tseg1_min l <=? t1) && (t1 <=? tseg1_max l) &&
  (tseg2_min l <=? t2) && (t2 <=? tseg2_max l) && (0 <=? spt) && (spt <=? 1000).

Lemma spt_all : forallb (fun set =>
  let l := limits set in
  forallb (fun sp => forallb (spt_ok set sp)
    (seqZ (tseg1_min l + tseg2_min l) (tseg1_max l + tseg2_max l - tseg1_min l - tseg2_min l + 1)))
  spts) [0; 1] = true.
Proof. by vm_compute. Qed.

Lemma limits_cases set : limits set = limits 0 \/ limits set = limits 1.
Proof. unfold limits at 1 3. destruct (ctrue set); auto. Qed.

Lemma spt_range set sp t :
  sp ∈ spts ->
  tseg1_min (limits set) + tseg2_min (limits set) <= t <= tseg1_max (limits set) + tseg2_max (limits set) ->
  let '(spt, t1, t2) := CANFD_Update_Spt sp t set in
  t1 + t2 = t /\ tseg1_min (limits set) <= t1 <= tseg1_max (limits set) /\
  tseg2_min (limits set) <= t2 <= tseg2_max (limits set) /\ 0 <= spt <= 1000.
Proof.
  intros Hsp Ht.
  assert (exists z, In z [0; 1] /\ limits set = limits z) as (z & Hz & El).
  { destruct (limits_cases set); [exists 0|exists 1]; simpl; auto. }
  assert (CANFD_Update_Spt sp t set = CANFD_Update_Spt sp t z) as ->.
  { unfold CANFD_Update_Spt. by rewrite El. }
  rewrite El in *. pose proof spt_all as Hall.
  rewrite forallb_forall in Hall. specialize (Hall z Hz). cbv zeta in Hall.
  rewrite forallb_forall in Hall. specialize (Hall sp (proj1 (list_elem_of_In _ _) Hsp)).
  rewrite forallb_forall in Hall.
  assert (spt_ok z sp t = true) as Hok.
  { apply Hall, list_elem_of_In, elem_of_seqZ. lia. }
  unfold spt_ok in Hok. destruct (CANFD_Update_Spt sp t z) as [[spt t1] t2].
  breflect. lia.
Qed.

Lemma cia_spts baud : cia_sample_point baud ∈ spts.
Proof. unfold cia_sample_point, spts. repeat case_if; set_solver. Qed.

Section search.
Context (set clock baud : Z).
Context (Hclock : 0 < clock < 2 ^ 31) (Hbaud : 1 <= baud <= MAX_DATA_BAUDRATE).

Let l := limits set.
Let sp := cia_sample_point baud.

(** The quotient from which the prescaler is chosen, for [t] time quanta. *)
Definition quot_at (t : Z) : Z := clock / (t * baud).

(** The candidates of the search, and the errors of a candidate. *)
Definition is_cand (tseg brp : Z) : Prop :=
  tseg_last l <= tseg <= tseg_first l /\
  brp = quot_at (1 + tseg / 2) + tseg mod 2 /\ brp_min l <= brp <= brp_max l.
Definition rate_at (t brp : Z) : Z := clock / (brp * t).
Definition cand_err (tseg brp : Z) : Z := Z.abs (baud - rate_at (1 + tseg / 2) brp).
Definition spt_err (t : Z) : Z := Z.abs (sp - fst (fst (CANFD_Update_Spt sp t set))).

Lemma limits_facts :
  brp_min l = 1 /\ brp_inc l = 1 /\ 32 <= brp_max l <= 512 /\
  4 <= tseg_last l /\ tseg_first l <= 769 /\ tseg_last l < tseg_first l /\
  tseg_last l = 2 * (tseg1_min l + tseg2_min l) /\ tseg_first l = 2 * (tseg1_max l + tseg2_max l) + 1 /\
  1 <= tseg2_min l /\ 1 <= tseg1_min l /\ 2 <= sjw_max l.
Proof. unfold l, limits, tseg_first, tseg_last. destruct (ctrue set); simpl; lia. Qed.

Lemma bt_brp_spec tseg :
  tseg_last l <= tseg <= tseg_first l ->
  let brp := quot_at (1 + tseg / 2) + tseg mod 2 in
  bt_brp l clock baud tseg =
    Ok (if (brp <? brp_min l) || (brp >? brp_max l) then None else Some brp) /\ 0 <= brp.
Proof.
  intros Ht brp. pose proof limits_facts as (E1 & E2 & _ & ? & ? & _).
  unfold MAX_DATA_BAUDRATE in *. unfold bt_brp.
  rewrite Z.quot_div_nonneg, Z.rem_mod_nonneg by lia. cbv zeta.
  assert (3 <= 1 + tseg / 2 <= 385) as Hq.
  { pose proof (Z.div_mod tseg 2). pose proof (Z.mod_pos_bound tseg 2). lia. }
  rewrite uwrap_id by nia.
  rewrite (proj2 (Z.eqb_neq _ _)) by nia. fold (quot_at (1 + tseg / 2)). fold brp.
  assert (0 <= quot_at (1 + tseg / 2) <= 2 ^ 30) as Hqa.
  { assert (3 <= (1 + tseg / 2) * baud) by nia.
    unfold quot_at. split; [apply Z.div_pos; lia|]. apply Z.div_le_upper_bound; lia. }
  pose proof (Z.mod_pos_bound tseg 2 ltac:(lia)).
  rewrite uwrap_id, swrap_id by (unfold brp; lia). rewrite E2, Z.quot_1_r, Z.mul_1_r.
  case_if; (split; [done|unfold brp; lia]).
Qed.

Lemma bt_rate_spec brp tseg :
  tseg_last l <= tseg -> 1 <= brp -> bt_rate clock brp tseg = rate_at (1 + tseg / 2) brp.
Proof.
  intros Ht Hb. pose proof limits_facts as (_ & _ & _ & ? & _). unfold bt_rate, rate_at.
  rewrite Z.quot_div_nonneg by lia. apply swrap_id; [lia|].
  assert (0 <= tseg / 2) by (apply Z.div_pos; lia).
  assert (0 <= clock / (brp * (1 + tseg / 2)) <= clock); [|lia].
  split; [apply Z.div_pos; nia|]. apply Z.div_le_upper_bound; nia.
Qed.

(** Below the quotient the rate is at least the wanted one, above it at most. *)
Lemma rate_low t brp : 0 < t -> 1 <= brp <= quot_at t -> baud <= rate_at t brp.
Proof.
  intros Ht Hb. unfold rate_at, quot_at in *. apply Z.div_le_lower_bound; [nia|].
  pose proof (Z.mul_div_le clock (t * baud) ltac:(nia)). nia.
Qed.

Lemma rate_high t brp : 0 < t -> quot_at t < brp -> rate_at t brp <= baud.
Proof.
  intros Ht Hb. unfold rate_at, quot_at in *.
  pose proof (Z.mul_succ_div_gt clock (t * baud) ltac:(nia)).
  assert (0 <= clock / (t * baud)) by (apply Z.div_pos; nia).
  apply Z.lt_succ_r. apply Z.div_lt_upper_bound; nia.
Qed.

Lemma rate_mono t b1 b2 : 0 < t -> 1 <= b1 <= b2 -> rate_at t b2 <= rate_at t b1.
Proof. intros Ht Hb. unfold rate_at. apply Z.div_le_compat_l; nia. Qed.

Lemma cand_err_bound tseg brp : is_cand tseg brp -> 0 <= cand_err tseg brp <= 1000000000.
Proof.
  intros (Ht & -> & Hb). pose proof limits_facts as (Em & _ & _ & ? & ? & _).
  unfold cand_err, MAX_DATA_BAUDRATE in *. set (t := 1 + tseg / 2) in *.
  assert (0 < t) by (unfold t; assert (0 <= tseg / 2) by (apply Z.div_pos; lia); lia).
  pose proof (Z.mod_pos_bound tseg 2 ltac:(lia)).
  remember (quot_at t + tseg mod 2) as b eqn:Eb. rewrite Em in Hb.
  assert (rate_at t b <= 2 * baud).
  { pose proof (Z.mul_succ_div_gt clock (t * baud) ltac:(nia)) as Hm. fold (quot_at t) in Hm.
    assert (Z.succ (quot_at t) <= 2 * b) by lia.
    unfold rate_at. apply Z.lt_succ_r. apply Z.div_lt_upper_bound; [nia|].
    assert (t * baud * Z.succ (quot_at t) <= t * baud * (2 * b)) by (apply Z.mul_le_mono_nonneg_l; nia).
    nia. }
  assert (0 <= rate_at t b) by (unfold rate_at; apply Z.div_pos; nia). lia.
Qed.

(** [b] is the best of the candidates above [lo]. *)
Definition best_above (lo : Z) (b : bt_best) : Prop :=
  (b = mkBest 1000000000 0 0 1000 /\ forall tseg brp, lo < tseg -> ~ is_cand tseg brp) \/
  exists tseg brp,
    is_cand tseg brp /\ lo < tseg /\ best_tseg b = tseg / 2 /\ best_brp b = brp /\
    best_error b = cand_err tseg brp /\
    (forall tseg' brp', lo < tseg' -> is_cand tseg' brp' -> best_error b <= cand_err tseg' brp') /\
    (best_error b <> 0 -> spt_error b = 1000) /\
    (best_error b = 0 -> spt_error b = spt_err (tseg / 2) /\
       forall tseg' brp', lo < tseg' -> is_cand tseg' brp' -> cand_err tseg' brp' = 0 ->
         spt_error b <= spt_err (tseg' / 2)).

Lemma best_exact lo lo' b :
  best_above lo b -> best_error b = 0 -> spt_error b = 0 -> lo' <= lo -> best_above lo' b.
Proof.
  intros [[-> _]|(t & brp & Hc & Hlo & H1 & H2 & H3 & H4 & H5 & H6)] He Hs Hle; [done|].
  right. exists t, brp. rewrite He, Hs in *. destruct (H6 eq_refl) as [H7 H8].
  split; [done|]. split; [lia|]. repeat (split; [done|]).
  split; [intros t' b' _ _; unfold cand_err; lia|].
  split; [done|]. intros _. split; [done|]. intros t' b' _ _ _. unfold spt_err; lia.
Qed.

Lemma best_skip lo b :
  best_above lo b ->
  (forall brp, is_cand lo brp ->
     best_error b < cand_err lo brp \/
     best_error b = 0 /\ cand_err lo brp = 0 /\ spt_error b <= spt_err (lo / 2)) ->
  best_above (lo - 1) b.
Proof.
  intros [[-> Hn]|(t & brp & Hc & Hlo & H1 & H2 & H3 & H4 & H5 & H6)] Hx.
  - left. split; [done|]. intros tseg brp Ht Hc.
    destruct (decide (tseg = lo)) as [->|]; [|by apply (Hn tseg brp); [lia|]].
    pose proof (cand_err_bound _ _ Hc). destruct (Hx _ Hc) as [Hl|(Hl & _)]; cbn in Hl; lia.
  - right. exists t, brp. split; [done|]. split; [lia|]. repeat (split; [done|]).
    split.
    { intros t' b' Ht' Hc'. destruct (decide (t' = lo)) as [->|]; [|apply H4; [lia|done]].
      destruct (Hx _ Hc') as [?|(-> & -> & _)]; lia. }
    split; [done|]. intros E0. destruct (H6 E0) as [H7 H8]. split; [done|].
    intros t' b' Ht' Hc' E'. destruct (decide (t' = lo)) as [->|]; [|by apply (H8 t' b'); [lia| |]].
    destruct (Hx _ Hc') as [?|(_ & _ & ?)]; lia.
Qed.

Lemma best_take lo b brp serr :
  best_above lo b -> is_cand lo brp -> cand_err lo brp <= best_error b ->
  (cand_err lo brp = 0 -> serr = spt_err (lo / 2) /\ (best_error b = 0 -> serr <= spt_error b)) ->
  (cand_err lo brp <> 0 -> serr = spt_error b) ->
  best_above (lo - 1) (mkBest (cand_err lo brp) (lo / 2) brp serr).
Proof.
  intros Hb Hc Hle Hs0 Hs1. right. exists lo, brp. cbn [best_error best_tseg best_brp spt_error].
  split; [done|]. split; [lia|]. repeat (split; [done|]).
  assert (forall b', is_cand lo b' -> b' = brp) as Hu.
  { intros b' (_ & -> & _). by destruct Hc as (_ & -> & _). }
  assert (cand_err lo brp <> 0 -> spt_error b = 1000) as H1000.
  { intros E. destruct Hb as [[-> _]|(t & bb & _ & _ & _ & _ & _ & _ & H5 & _)]; [done|].
    apply H5. unfold cand_err in *. lia. }
  split.
  { intros t' b' Ht' Hc'. destruct (decide (t' = lo)) as [->|]; [by rewrite (Hu b')|].
    destruct Hb as [[_ Hn]|(t & bb & _ & _ & _ & _ & _ & H4 & _)].
    - by exfalso; apply (Hn t' b'); [lia|].
    - etransitivity; [exact Hle|]. apply H4; [lia|done]. }
  split; [intros E; by rewrite Hs1, H1000|].
  intros E. destruct (Hs0 E) as [-> Hsb]. split; [done|].
  intros t' b' Ht' Hc' E'. destruct (decide (t' = lo)) as [->|]; [done|].
  destruct Hb as [[_ Hn]|(t & bb & _ & _ & _ & _ & _ & H4 & _ & H6)].
  - by exfalso; apply (Hn t' b'); [lia|].
  - assert (best_error b = 0) as E0.
    { specialize (H4 t' b' ltac:(lia) Hc'). rewrite E', E in *. lia. }
    etransitivity; [by apply Hsb|]. by apply (proj2 (H6 E0) t' b'); [lia| |].
Qed.

Lemma spt_err_bound tseg : tseg_last l <= tseg <= tseg_first l -> 0 <= spt_err (tseg / 2) <= 1000.
Proof.
  intros Ht. pose proof limits_facts as (_ & _ & _ & _ & _ & _ & E1 & E2 & _).
  pose proof (Z.div_mod tseg 2 ltac:(lia)). pose proof (Z.mod_pos_bound tseg 2 ltac:(lia)).
  pose proof (spt_range set sp (tseg / 2) (cia_spts baud)) as Hr. fold l in Hr.
  specialize (Hr ltac:(lia)). unfold spt_err.
  destruct (CANFD_Update_Spt sp (tseg / 2) set) as [[spt t1] t2]. cbn.
  pose proof (cia_spts baud) as Hsp. fold sp in Hsp. unfold spts in Hsp.
  rewrite !elem_of_cons in Hsp. destruct Hsp as [?|[?|[?|Hn]]]; [lia..|by apply elem_of_nil in Hn].
Qed.

Lemma bt_round_spec tseg b :
  tseg_last l <= tseg <= tseg_first l -> best_above tseg b ->
  exists b' stop, bt_round set clock baud sp tseg b = Ok (b', stop) /\
    best_above (tseg - 1) b' /\ (stop = true -> best_error b' = 0 /\ spt_error b' = 0).
Proof.
  intros Ht Hb. pose proof limits_facts as (Em & _ & _ & ? & _).
  destruct (bt_brp_spec tseg Ht) as [E _]. unfold bt_round. fold l. rewrite E. res_simpl. clear E.
  case_if.
  { exists b, false. split; [done|]. split; [|done]. apply best_skip; [done|].
    intros brp (_ & -> & ?). apply orb_true_iff in Heqb0 as [?|?]; breflect; lia. }
  set (brp := quot_at (1 + tseg / 2) + tseg mod 2) in *.
  assert (is_cand tseg brp) as Hc by (repeat split; lia).
  rewrite bt_rate_spec, Z.quot_div_nonneg by lia. fold (cand_err tseg brp).
  destruct (spt_err_bound tseg Ht) as [Hs0 Hs1]. unfold spt_err in Hs0, Hs1.
  assert (forall b', is_cand tseg b' -> b' = brp) as Hu by (by intros b' (_ & -> & _)).
  assert (best_error b = 0 \/ spt_error b = 1000) as H1000.
  { destruct Hb as [[-> _]|(? & ? & _ & _ & _ & _ & _ & _ & H5 & _)]; [by right|].
    destruct (decide (best_error b = 0)); auto. }
  pose proof (cand_err_bound _ _ Hc). case_if.
  { exists b, false. split; [done|]. split; [|done]. apply best_skip; [done|].
    intros b' Hb'. rewrite (Hu b') by done. left. lia. }
  case_if.
  - destruct (CANFD_Update_Spt sp (tseg / 2) set) as [[spt t1] t2] eqn:Es. cbn in Hs0, Hs1.
    assert (spt_err (tseg / 2) = Z.abs (sp - spt)) as Ese by (unfold spt_err; by rewrite Es).
    case_if.
    + eexists _, _. split; [done|]. split; [|done].
      assert (best_error b = 0) as E0 by lia.
      replace (mkBest _ _ _ _) with b by (destruct b; cbn in *; congruence).
      apply best_skip; [done|]. intros b' Hb'. rewrite (Hu b') by done. right. lia.
    + eexists _, _. split; [done|]. split.
      * apply (best_take _ b); [done|done|lia| |lia]. intros _. by rewrite Ese.
      * intros Hst. breflect. by split.
  - eexists _, _. split; [done|]. split; [|done]. by apply (best_take _ b); [| |lia| |].
Qed.

Lemma bt_search_spec n tseg b :
  tseg <= tseg_first l -> tseg_last l <= tseg + 1 - Z.of_nat n -> best_above tseg b ->
  exists b', bt_search n set clock baud sp tseg b = Ok b' /\ best_above (tseg - Z.of_nat n) b'.
Proof.
  revert tseg b. induction n as [|n IH]; intros tseg b Hf Hl Hb; cbn [bt_search].
  { exists b. split; [done|]. by replace (tseg - Z.of_nat 0) with tseg by lia. }
  destruct (bt_round_spec tseg b ltac:(lia) Hb) as (b' & stop & -> & Hb' & Hs). res_simpl.
  destruct stop.
  - exists b'. split; [done|]. destruct (Hs eq_refl). eapply best_exact; [done..|]. lia.
  - destruct (IH (tseg - 1) b' ltac:(lia) ltac:(lia) Hb') as (b'' & -> & H'').
    exists b''. split; [done|]. by replace (tseg - Z.of_nat (S n)) with (tseg - 1 - Z.of_nat n) by lia.
Qed.

Lemma search_result :
  exists b, bt_search (tseg_rounds l) set clock baud sp (tseg_first l) (mkBest 1000000000 0 0 1000) = Ok b /\
    best_above (tseg_last l - 1) b.
Proof.
  pose proof limits_facts as (_ & _ & _ & ? & ? & ? & _). unfold tseg_rounds.
  destruct (bt_search_spec (Z.to_nat (tseg_first l - tseg_last l + 1)) (tseg_first l)
    (mkBest 1000000000 0 0 1000)) as (b & -> & Hb); [lia|lia| |].
  { left. split; [done|]. intros tseg brp ? (? & _). lia. }
  exists b. split; [done|]. by replace (tseg_last l - 1) with
    (tseg_first l - Z.of_nat (Z.to_nat (tseg_first l - tseg_last l + 1))) by lia.
Qed.

(** What the chosen timing must satisfy: segments and prescaler in range, no
    other prescaler and bit length (with a quotient below [brp_max]) gives a
    rate closer to the wanted one, and none that gives it exactly has a closer
    sample point. *)
Record best_timing (brp tseg1 tseg2 : Z) : Prop := {
  btm_brp : brp_min l <= brp <= brp_max l;
  btm_tseg1 : tseg1_min l <= tseg1 <= tseg1_max l;
  btm_tseg2 : tseg2_min l <= tseg2 <= tseg2_max l;
  btm_rate : forall t b, tseg1_min l + tseg2_min l < t <= tseg1_max l + tseg2_max l + 1 ->
    brp_min l <= b <= brp_max l -> quot_at t < brp_max l ->
    Z.abs (baud - rate_at (1 + tseg1 + tseg2) brp) <= Z.abs (baud - rate_at t b);
  btm_spt : rate_at (1 + tseg1 + tseg2) brp = baud ->
    forall t b, tseg1_min l + tseg2_min l < t <= tseg1_max l + tseg2_max l + 1 ->
    brp_min l <= b <= brp_max l -> quot_at t < brp_max l -> rate_at t b = baud ->
    spt_err (tseg1 + tseg2) <= spt_err (t - 1) }.

(** Every prescaler is as good as one of the candidates of its bit length. *)
Lemma cand_for t b :
  tseg1_min l + tseg2_min l < t <= tseg1_max l + tseg2_max l + 1 ->
  brp_min l <= b <= brp_max l -> quot_at t < brp_max l ->
  exists tseg brp, is_cand tseg brp /\ tseg / 2 = t - 1 /\
    cand_err tseg brp <= Z.abs (baud - rate_at t b).
Proof.
  intros Ht Hb Hq. pose proof limits_facts as (Em & _ & _ & H1 & _ & _ & E1 & E2 & _).
  unfold MAX_DATA_BAUDRATE in *. destruct (decide (b <= quot_at t)) as [Hle|Hgt].
  - assert ((2 * (t - 1)) / 2 = t - 1 /\ (2 * (t - 1)) mod 2 = 0) as [D1 D2].
    { rewrite Z.mul_comm. by rewrite Z.div_mul, Z.mod_mul. }
    exists (2 * (t - 1)), (quot_at t). unfold is_cand, cand_err. rewrite D1, D2.
    replace (1 + (t - 1)) with t by lia. repeat split; try lia.
    pose proof (rate_low t b ltac:(lia) ltac:(lia)).
    pose proof (rate_low t (quot_at t) ltac:(lia) ltac:(lia)).
    pose proof (rate_mono t b (quot_at t) ltac:(lia) ltac:(lia)). lia.
  - assert ((2 * (t - 1) + 1) / 2 = t - 1 /\ (2 * (t - 1) + 1) mod 2 = 1) as [D1 D2].
    { pose proof (Z.div_mod (2 * (t - 1) + 1) 2 ltac:(lia)).
      pose proof (Z.mod_pos_bound (2 * (t - 1) + 1) 2 ltac:(lia)). lia. }
    assert (0 <= quot_at t) by (unfold quot_at; apply Z.div_pos; nia).
    exists (2 * (t - 1) + 1), (quot_at t + 1). unfold is_cand, cand_err. rewrite D1, D2.
    replace (1 + (t - 1)) with t by lia. repeat split; try lia.
    pose proof (rate_high t b ltac:(lia) ltac:(lia)).
    pose proof (rate_high t (quot_at t + 1) ltac:(lia) ltac:(lia)).
    pose proof (rate_mono t (quot_at t + 1) b ltac:(lia) ltac:(lia)). lia.
Qed.

Lemma no_cand : quot_at (tseg1_max l + tseg2_max l + 1) > brp_max l -> forall tseg brp, ~ is_cand tseg brp.
Proof.
  intros Hq tseg brp ((Ht1 & Ht2) & -> & Hb1 & Hb2).
  pose proof limits_facts as (_ & _ & _ & H1 & _ & _ & E1 & E2 & _).
  pose proof (Z.div_mod tseg 2 ltac:(lia)). pose proof (Z.mod_pos_bound tseg 2 ltac:(lia)).
  assert (quot_at (tseg1_max l + tseg2_max l + 1) <= quot_at (1 + tseg / 2)); [|lia].
  apply Z.div_le_compat_l; [lia|]. split; [nia|]. apply Z.mul_le_mono_nonneg_r; lia.
Qed.

Lemma some_cand : quot_at (tseg1_max l + tseg2_max l + 1) <= brp_max l -> exists tseg brp, is_cand tseg brp.
Proof.
  intros Hq. pose proof limits_facts as (Em & _ & ? & H1 & _ & ? & E1 & E2 & _).
  set (t := tseg1_max l + tseg2_max l) in *. assert (0 < t) by lia.
  destruct (decide (quot_at (t + 1) = 0)) as [E|E].
  - exists (tseg_first l), 1. unfold is_cand. rewrite E2.
    replace ((2 * t + 1) / 2) with t by (apply Z.div_unique with 1; lia).
    replace ((2 * t + 1) mod 2) with 1 by (apply Z.mod_unique with t; lia).
    replace (1 + t) with (t + 1) by lia. clearbody t. lia.
  - assert (0 <= quot_at (t + 1)) by (unfold quot_at, MAX_DATA_BAUDRATE in *; apply Z.div_pos; nia).
    exists (2 * t), (quot_at (t + 1)). unfold is_cand.
    replace (2 * t / 2) with t by (apply Z.div_unique with 0; lia).
    replace ((2 * t) mod 2) with 0 by (apply Z.mod_unique with t; lia).
    replace (1 + t) with (t + 1) by lia. clearbody t. lia.
Qed.

Lemma best_is_best b :
  best_above (tseg_last l - 1) b -> quot_at (tseg1_max l + tseg2_max l + 1) <= brp_max l ->
  let '(_, tseg1, tseg2) := CANFD_Update_Spt sp (best_tseg b) set in
  best_timing (best_brp b) tseg1 tseg2 /\ tseg1 + tseg2 = best_tseg b.
Proof.
  intros Hb Hq. pose proof limits_facts as (_ & _ & _ & H1 & _ & _ & E1 & E2 & _).
  destruct Hb as [[_ Hn]|(tseg & brp & Hc & Hlo & -> & -> & Ee & Hmin & _ & Hz)].
  { destruct (some_cand Hq) as (tseg & brp & Hc). exfalso.
    apply (Hn tseg brp); [destruct Hc; lia|done]. }
  pose proof Hc as ((Ht1 & Ht2) & _ & Hbr).
  pose proof (Z.div_mod tseg 2 ltac:(lia)). pose proof (Z.mod_pos_bound tseg 2 ltac:(lia)).
  pose proof (spt_range set sp (tseg / 2) (cia_spts baud)) as Hr. fold l in Hr.
  specialize (Hr ltac:(lia)).
  destruct (CANFD_Update_Spt sp (tseg / 2) set) as [[spt tseg1] tseg2] eqn:Es.
  destruct Hr as (Hsum & Hr1 & Hr2 & _). split; [|done].
  assert (cand_err tseg brp = Z.abs (baud - rate_at (1 + tseg1 + tseg2) brp)) as Ec.
  { unfold cand_err. by replace (1 + tseg1 + tseg2) with (1 + tseg / 2) by lia. }
  assert (forall tseg' brp', is_cand tseg' brp' -> tseg_last l - 1 < tseg') as Hlast.
  { intros t' b' ((? & _) & _). lia. }
  constructor; [lia..| |].
  - intros t b' Ht Hb' Hqt. destruct (cand_for t b' Ht Hb' Hqt) as (t' & br & Hc' & _ & Hle).
    rewrite <- Ec, <- Ee. etransitivity; [|exact Hle]. by apply Hmin; [eapply Hlast|].
  - intros Hex t b' Ht Hb' Hqt Hrt. destruct (cand_for t b' Ht Hb' Hqt) as (t' & br & Hc' & Ht' & Hle).
    rewrite Hrt in Hle. destruct Hz as [Hz1 Hz2]; [rewrite Ee, Ec, Hex; lia|].
    rewrite Hsum, <- Hz1, <- Ht'. apply (Hz2 t' br); [by eapply Hlast|done|].
    unfold cand_err in *. lia.
Qed.

Lemma bit_timing_spec :
  if quot_at (tseg1_max l + tseg2_max l + 1) >? brp_max l
  then bit_timing baud clock set = Fault DivByZero
  else exists t, bit_timing baud clock set = Ok t /\
    let brp := bt_brp_m1 t + 1 in let tseg1 := bt_tseg1_m1 t + 1 in let tseg2 := bt_tseg2_m1 t + 1 in
    best_timing brp tseg1 tseg2 /\ bt_sjw_m1 t = Z.min 2 tseg2 - 1 /\
    bt_rate_real t = rate_at (1 + tseg1 + tseg2) brp.
Proof.
  pose proof limits_facts as (Em & _ & Hbm & H1 & Hf & _ & E1 & E2 & _ & _ & Hsjw).
  destruct search_result as (b & Hs & Hb).
  unfold bit_timing. rewrite uwrap_id by lia. cbv zeta. fold l sp. rewrite Hs. res_simpl.
  case_if.
  - destruct Hb as [[-> _]|(t & brp & Hc & _)]; [|by exfalso; eapply no_cand; [lia|]].
    cbn [best_tseg best_brp].
    destruct (CANFD_Update_Spt sp 0 set) as [[spt tseg1] tseg2]. by rewrite Z.mul_0_l.
  - pose proof (best_is_best b Hb Heqb0) as Hbest.
    destruct (CANFD_Update_Spt sp (best_tseg b) set) as [[spt tseg1] tseg2].
    destruct Hbest as [Ht Hsum]. pose proof Ht as []. 
    replace (best_brp b - 1 + 1) with (best_brp b) by lia.
    replace (tseg1 - 1 + (tseg2 - 1) + 3) with (1 + tseg1 + tseg2) by lia.
    assert (1 <= best_brp b * (1 + tseg1 + tseg2) <= 2 ^ 30) as Hd.
    { pose proof limits_facts. nia. }
    rewrite uwrap_id by lia. rewrite (proj2 (Z.eqb_neq _ _)) by lia.
    eexists. split; [done|]. cbn [bt_rate_real bt_brp_m1 bt_sjw_m1 bt_tseg1_m1 bt_tseg2_m1].
    replace (best_brp b - 1 + 1) with (best_brp b) by lia.
    replace (tseg1 - 1 + 1) with tseg1 by lia. replace (tseg2 - 1 + 1) with tseg2 by lia.
    split; [done|]. split.
    + rewrite Z.gtb_ltb, (proj2 (Z.ltb_ge (sjw_max l) 2)) by lia. f_equal. case_if; lia.
    + unfold rate_at. apply uwrap_id. split; [apply Z.div_pos; lia|].
      apply Z.div_lt_upper_bound; nia.
Qed.
End search.

(** The fields of the bit timing registers, put together. *)
Lemma lor_fields hi mid lo n m :
  0 <= n -> n <= m -> 0 <= lo < 2 ^ n -> 0 <= mid -> mid * 2 ^ n + lo < 2 ^ m ->
  Z.lor (Z.shiftl hi m) (Z.lor (Z.shiftl mid n) lo) = hi * 2 ^ m + mid * 2 ^ n + lo.
Proof. intros. rewrite (lor_shiftl_add lo mid), lor_shiftl_add by lia. lia. Qed.

Definition nbtp_value (brp sjw tseg1 tseg2 : Z) : Z :=
  sjw * 2 ^ 25 + brp * 2 ^ 16 + tseg1 * 2 ^ 8 + tseg2.
Definition dbtp_value (tdc brp sjw tseg1 tseg2 : Z) : Z :=
  tdc * 2 ^ 23 + brp * 2 ^ 16 + tseg1 * 2 ^ 8 + tseg2 * 2 ^ 4 + sjw.

Lemma nbtp_fields brp sjw tseg1 tseg2 :
  0 <= brp < 2 ^ 9 -> 0 <= sjw < 2 ^ 6 -> 0 <= tseg1 < 2 ^ 8 -> 0 <= tseg2 < 2 ^ 7 ->
  u32 (Z.lor (s32 (Z.shiftl brp 16)) (Z.lor (s32 (Z.shiftl sjw 25))
    (Z.lor (s32 (Z.shiftl tseg1 8)) (s32 (Z.shiftl tseg2 0))))) = nbtp_value brp sjw tseg1 tseg2.
Proof.
  intros. rewrite !(swrap_id 32) by (rewrite ?Z.shiftl_mul_pow2; lia).
  rewrite Z.shiftl_0_r, (lor_shiftl_add tseg2 tseg1) by lia.
  rewrite Z.lor_assoc, (Z.lor_comm (Z.shiftl brp 16)), <- Z.lor_assoc.
  rewrite lor_fields by lia. unfold nbtp_value. rewrite uwrap_id; lia.
Qed.

Lemma dbtp_fields tdc brp sjw tseg1 tseg2 :
  0 <= tdc < 2 -> 0 <= brp < 2 ^ 5 -> 0 <= sjw < 2 ^ 4 -> 0 <= tseg1 < 2 ^ 5 -> 0 <= tseg2 < 2 ^ 4 ->
  u32 (Z.lor (Z.shiftl tdc 23) (Z.lor (s32 (Z.shiftl brp 16)) (Z.lor (s32 (Z.shiftl sjw 0))
    (Z.lor (s32 (Z.shiftl tseg1 8)) (s32 (Z.shiftl tseg2 4)))))) = dbtp_value tdc brp sjw tseg1 tseg2.
Proof.
  intros. rewrite !(swrap_id 32) by (rewrite ?Z.shiftl_mul_pow2; lia).
  rewrite Z.shiftl_0_r, (Z.lor_comm sjw), <- Z.lor_assoc, (lor_shiftl_add sjw tseg2) by lia.
  rewrite (lor_shiftl_add _ tseg1) by lia.
  rewrite lor_fields by lia. unfold dbtp_value. rewrite uwrap_id; lia.
Qed.

(** Transmitter delay compensation, in the registers. *)
Definition tdc_on (set rate : Z) : bool := negb (ctrue set) && (2500000 <? rate).

Lemma limits_if set : limits set = if ctrue set then N_limits else D_limits.
Proof. done. Qed.

(** The registers after the search. *)
Lemma SetBitRate_regs set clock baud s :
  0 < clock < 2 ^ 31 -> 1 <= baud <= MAX_DATA_BAUDRATE ->
  quot_at clock baud (tseg1_max (limits set) + tseg2_max (limits set) + 1) <= brp_max (limits set) ->
  exists brp tseg1 tseg2 rate,
    best_timing set clock baud brp tseg1 tseg2 /\ rate = rate_at clock (1 + tseg1 + tseg2) brp /\
    CANFD_SetBitRate baud clock set s = Ok (rate, s <| cregs ::= fun c =>
      if ctrue set then
        <[NBTP := nbtp_value (brp - 1) (Z.min 2 tseg2 - 1) (tseg1 - 1) (tseg2 - 1)]> c
      else
        <[DBTP := dbtp_value (if tdc_on set rate then 1 else 0)
             (brp - 1) (Z.min 2 tseg2 - 1) (tseg1 - 1) (tseg2 - 1)]>
        (if tdc_on set rate
         then <[TDCR := Z.min 127 (clock / 1000 * cia_sample_point baud / rate) * 2 ^ 8]> c
         else c) |>).
Proof.
  intros Hc Hb Hq. pose proof (bit_timing_spec set clock baud Hc Hb) as Ht.
  rewrite Z.gtb_ltb, (proj2 (Z.ltb_ge _ _)) in Ht by done.
  destruct Ht as ([rate brp sjw tseg1 tseg2] & Ht & Hbest & Hsjw & Hrate).
  cbn [bt_rate_real bt_brp_m1 bt_sjw_m1 bt_tseg1_m1 bt_tseg2_m1] in *.
  exists (brp + 1), (tseg1 + 1), (tseg2 + 1), rate. split; [done|]. split; [done|].
  rewrite !Z.add_simpl_r, <- Hsjw. destruct Hbest as [Hb1 Hb2 Hb3 _ _]. rewrite limits_if in *.
  unfold CANFD_SetBitRate, tdc_on. unfold mbind, M_bind, lift. rewrite Ht. cbv beta iota.
  cbn [bt_rate_real bt_brp_m1 bt_sjw_m1 bt_tseg1_m1 bt_tseg2_m1].
  destruct (ctrue set); cbn in Hb1, Hb2, Hb3; cbn [negb andb].
  - unfold wr, modify. cbv beta iota.
    unfold CANFD_NBTP_NBRP_Pos, CANFD_NBTP_NSJW_Pos, CANFD_NBTP_NTSEG1_Pos, CANFD_NBTP_NTSEG2_Pos.
    by rewrite nbtp_fields by lia.
  - unfold CANFD_DBTP_DBRP_Pos, CANFD_DBTP_DSJW_Pos, CANFD_DBTP_DTSEG1_Pos, CANFD_DBTP_DTSEG2_Pos,
      CANFD_TDCR_TDCO_Pos, msk. rewrite Z.gtb_ltb. change (Z.ones 1) with 1.
    replace (if 2500000 <? rate then Z.shiftl 1 23 else 0)
      with (Z.shiftl (if 2500000 <? rate then 1 else 0) 23) by (by destruct (2500000 <? rate)).
    destruct (2500000 <? rate) eqn:Er; unfold when, wr, modify; cbv beta iota;
      rewrite dbtp_fields by lia; [|done]. breflect.
    rewrite (uwrap_id 64 clock) by lia. unfold tdc_offset.
    assert (0 <= cia_sample_point baud <= 875) as Hsp by (unfold cia_sample_point; repeat case_if; lia).
    assert (0 <= clock / 1000 <= 2 ^ 31) as Hk.
    { split; [apply Z.div_pos; lia|]. apply Z.div_le_upper_bound; lia. }
    rewrite (uwrap_id 64) by nia.
    assert (0 <= clock / 1000 * cia_sample_point baud / rate < 2 ^ 32) as Hd.
    { split; [apply Z.div_pos; nia|]. apply Z.div_lt_upper_bound; nia. }
    rewrite (uwrap_id 32 (_ / rate)) by lia. rewrite Z.shiftl_mul_pow2 by lia.
    replace (if _ >? 127 then 127 else _) with (Z.min 127 (clock / 1000 * cia_sample_point baud / rate))
      by (case_if; lia).
    rewrite uwrap_id by lia. done.
Qed.


(** A controller after reset. *)
Definition can_ex : canfd_st := mkCan (fun r => if decide (r = CCCR) then 1 else 0) (fun _ => 0xA5) 0x1000000.


(** * Opening a controller *)
Lemma wp_wr r v (Q : unit -> canfd_st -> Prop) s :
  Q tt (s <| cregs ::= <[r := u32 v]> |>) -> wp (wr r v) Q s.
Proof. done. Qed.

Lemma wp_set_bits r v (Q : unit -> canfd_st -> Prop) s :
  Q tt (s <| cregs ::= <[r := u32 (Z.lor (cregs s r) v)]> |>) -> wp (set_bits r v) Q s.
Proof. done. Qed.

Lemma wp_put_field r m p v (Q : unit -> canfd_st -> Prop) s :
  Q tt (s <| cregs ::= <[r := u32 (Z.lor (Z.ldiff (cregs s r) m) (Z.shiftl v p))]> |>) ->
  wp (put_field r m p v) Q s.
Proof. done. Qed.

(** [bytes] bytes from [a] on are cleared. *)
Definition cleared (a bytes : Z) (m m' : Z -> Z) : Prop :=
  forall x, m' x = if (a <=? x) && (x <? a + bytes) then 0 else m x.

Lemma wp_MemSet a count (Q : unit -> canfd_st -> Prop) s :
  0 <= a -> 0 <= count -> a + count <= CANFD_SRAM_SIZE ->
  (forall s', cregs s' = cregs s -> cleared a count (ram s) (ram s') -> Q tt s') ->
  wp (CANFD_MemSet a 0 count) Q s.
Proof.
  intros Ha Hc Hf HQ. unfold CANFD_MemSet. wp_steps.
  - intros _. unfold check_ram, in_ram. rewrite (proj2 (andb_true_iff _ _)) by (split; apply Z.leb_le; lia).
    wp_steps. by apply HQ.
  - intros _. wp_steps. by apply HQ.
Qed.

(** One area set up: [n] elements of [size] bytes from [a] on, described by the
    value [v] of register [r]; [esc] is the register of its element size. *)
Record area_set (r esc : creg) (v n a size : Z) (s s' : canfd_st) : Prop := {
  as_reg : n <> 0 -> cregs s' r = v;
  as_others : forall q, q <> r -> q <> esc -> cregs s' q = cregs s q;
  as_ram : cleared a (n * size) (ram s) (ram s') }.

Lemma area_set_none r esc v a size s : area_set r esc v 0 a size s s.
Proof.
  constructor; [done|done|]. intros x. destruct ((a <=? x) && (x <? a + 0 * size)) eqn:E; [|done].
  breflect. lia.
Qed.

(** Start addresses are multiples of four below 64 KiB. *)
Definition addr_ok (a : Z) : Prop := 0 <= a < 2 ^ 16 /\ a mod 4 = 0.

Lemma land_addr a : addr_ok a -> Z.land a (msk 14 2) = a.
Proof.
  intros [Ha H4]. unfold msk. pose proof (Z.div_mod a 4 ltac:(lia)) as E. rewrite H4 in E.
  replace a with (Z.shiftl (a / 4) 2) by (rewrite Z.shiftl_mul_pow2; lia).
  rewrite <- Z.shiftl_land, Z.land_ones by lia. f_equal. apply Z.mod_small.
  split; [apply Z.div_pos; lia|]. apply Z.div_lt_upper_bound; lia.
Qed.

Lemma list_reg n a : addr_ok a -> 0 <= n < 256 ->
  u32 (Z.lor (Z.shiftl (Z.land n 0xFF) 16) a) = n * 2 ^ 16 + a.
Proof.
  intros [Ha _] Hn. rewrite lor_shiftl_add by lia. change 255 with (Z.ones 8).
  rewrite Z.land_ones, Z.mod_small by lia. apply uwrap_id. lia.
Qed.

Lemma wp_when_area r esc v n a size m (Q : unit -> canfd_st -> Prop) s :
  (n <> 0 -> wp m (fun _ => area_set r esc v n a size s) s) ->
  (forall s', area_set r esc v n a size s s' -> Q tt s') ->
  wp (when (ctrue n) m) Q s.
Proof.
  intros Hm HQ. apply wp_when; unfold ctrue; intros Hn; breflect.
  - eapply wp_mono; [by apply Hm|]. intros [] s' H. by apply HQ.
  - subst n. apply HQ, area_set_none.
Qed.

(** The end of an operation that wrote [r] and perhaps [esc] and clears the
    area. *)
Lemma wp_area r esc v n a size count (s t : canfd_st) :
  cregs t r = v -> (forall q, q <> r -> q <> esc -> cregs t q = cregs s q) -> ram t = ram s ->
  count = n * size -> 0 <= a -> 0 <= n -> 0 < size -> a + n * size <= CANFD_SRAM_SIZE ->
  wp (CANFD_MemSet a 0 (u32 count)) (fun _ => area_set r esc v n a size s) t.
Proof.
  intros Hr Hq Hm -> Ha Hn Hs Hf. unfold CANFD_SRAM_SIZE in *. rewrite uwrap_id by nia.
  apply wp_MemSet; [done|nia|done|]. intros s' Hreg Hc.
  constructor; [by rewrite Hreg|intros; rewrite Hreg; by apply Hq|by rewrite <- Hm].
Qed.

Section open.
Context (p : CANFD_RAM_PART_T) (sz : CANFD_ELEM_SIZE_T).

(** The counts within the limits of canfd.h, the areas within the RAM. *)
Record sizes_ok : Prop := {
  so_pos : sizes_pos sz;
  so_sid : u32SIDFC sz <= CANFD_MAX_11_BIT_FTR_ELEMS; so_xid : u32XIDFC sz <= CANFD_MAX_29_BIT_FTR_ELEMS;
  so_tx : u32TxBuf sz <= CANFD_MAX_TX_BUF_ELEMS; so_rx : u32RxBuf sz <= CANFD_MAX_RX_BUF_ELEMS;
  so_f0 : u32RxFifo0 sz <= CANFD_MAX_RX_FIFO0_ELEMS; so_f1 : u32RxFifo1 sz <= CANFD_MAX_RX_FIFO1_ELEMS;
  so_ev : u32TxEventFifo sz <= 32; so_fit : areas_bytes sz <= CANFD_SRAM_SIZE }.
Context (Hsz : sizes_ok).

Lemma areas_addr i a n :
  areas (CANFD_CalculateRamAddress p sz) sz !! i = Some (a, n) -> 0 < n ->
  addr_ok a /\ a + n <= areas_bytes sz.
Proof.
  intros Hi Hn. pose proof Hsz as [Hpos _ _ _ _ _ _ _ Hfit]. unfold CANFD_SRAM_SIZE in Hfit.
  assert (Forall (fun '(_, n) => 0 <= n) (areas (CANFD_CalculateRamAddress p sz) sz)) as Hf.
  { destruct Hpos. repeat constructor; lia. }
  destruct (packed_lookup _ _ _ _ _ _ (layout_packed p sz Hpos ltac:(lia)) Hf Hi Hn) as (? & ? & _).
  split; [|done]. split; [lia|].
  assert (packed 0 (areas (CANFD_CalculateRamAddress p sz) sz) (areas_bytes sz)) as Hp
    by (apply layout_packed; [done|lia]).
  apply (packed_mod4 _ _ _ i a n Hp); [|done..].
  assert (forall x k, (x * (k * 4)) mod 4 = 0) as Hm.
  { intros. rewrite Z.mul_assoc. by apply Z.mod_mul. }
  unfold areas.
  repeat (apply Forall_cons_2; [first [apply (Hm _ 1)|apply (Hm _ 2)|apply (Hm _ 18)]|]).
  apply Forall_nil_2.
Qed.

Let p' := CANFD_CalculateRamAddress p sz.

Lemma nth_area i a n size :
  areas p' sz !! i = Some (a, n * size) -> 0 < size -> 0 < n ->
  addr_ok a /\ 0 <= a /\ a + n * size <= CANFD_SRAM_SIZE.
Proof.
  intros Hi Hs Hn. destruct (areas_addr i a (n * size) Hi) as [Ha Hf]; [nia|].
  pose proof (so_fit Hsz). destruct Ha as [? ?]. repeat split; lia.
Qed.

Ltac area_regs :=
  intros; cbn; rewrite ?fn_lookup_insert, ?fn_lookup_insert_ne by congruence; try done.

Lemma wp_SIDFC (Q : unit -> canfd_st -> Prop) s :
  (forall s', area_set SIDFC SIDFC (u32SIDFC sz * 2 ^ 16 + u32SIDFC_FLSSA p') (u32SIDFC sz)
                (u32SIDFC_FLSSA p') 4 s s' -> Q tt s') ->
  wp (when (ctrue (u32SIDFC sz)) (CANFD_ConfigSIDFC p' sz)) Q s.
Proof.
  apply wp_when_area. intros Hn. pose proof Hsz as [[] ? ? ? ? ? ? ? ?].
  destruct (nth_area 0 (u32SIDFC_FLSSA p') (u32SIDFC sz) 4) as (Ha & ? & ?); [done|lia|lia|].
  unfold CANFD_ConfigSIDFC, CANFD_SIDFC_FLSSA_Msk, CANFD_MAX_11_BIT_FTR_ELEMS in *.
  rewrite land_addr by done. wp_step. apply wp_wr.
  apply wp_area; try lia; area_regs. apply list_reg; [done|lia].
Qed.

Lemma wp_XIDFC (Q : unit -> canfd_st -> Prop) s :
  (forall s', area_set XIDFC XIDFC (u32XIDFC sz * 2 ^ 16 + u32XIDFC_FLESA p') (u32XIDFC sz)
                (u32XIDFC_FLESA p') 8 s s' -> Q tt s') ->
  wp (when (ctrue (u32XIDFC sz)) (CANFD_ConfigXIDFC p' sz)) Q s.
Proof.
  apply wp_when_area. intros Hn. pose proof Hsz as [[] ? ? ? ? ? ? ? ?].
  destruct (nth_area 1 (u32XIDFC_FLESA p') (u32XIDFC sz) 8) as (Ha & ? & ?); [done|lia|lia|].
  unfold CANFD_ConfigXIDFC, CANFD_XIDFC_FLESA_Msk, CANFD_MAX_29_BIT_FTR_ELEMS in *.
  rewrite land_addr by done. wp_step. apply wp_wr.
  apply wp_area; try lia; area_regs. apply list_reg; [done|lia].
Qed.

Lemma wp_TXBC (Q : unit -> canfd_st -> Prop) s :
  (forall s', area_set TXBC TXESC (u32TxBuf sz * 2 ^ 16 + u32TXBC_TBSA p') (u32TxBuf sz)
                (u32TXBC_TBSA p') 72 s s' -> Q tt s') ->
  wp (when (ctrue (u32TxBuf sz)) (CANFD_InitTxDBuf p' sz eCANFD_BYTE64)) Q s.
Proof.
  apply wp_when_area. intros Hn. pose proof Hsz as [[] ? ? ? ? ? ? ? ?].
  destruct (nth_area 2 (u32TXBC_TBSA p') (u32TxBuf sz) 72) as (Ha & ? & ?); [done|lia|lia|].
  unfold CANFD_InitTxDBuf, CANFD_TXBC_TBSA_Msk, CANFD_TXBC_NDTB_Pos, CANFD_MAX_TX_BUF_ELEMS,
    clear_elems in *.
  rewrite land_addr by done. wp_step. apply wp_wr. wp_step. apply wp_put_field.
  change (elem_words eCANFD_BYTE64 * 4) with 72. pose proof Ha as [? _].
  apply wp_area; try lia; area_regs. rewrite lor_shiftl_add by lia. change 63 with (Z.ones 6).
  rewrite Z.land_ones, Z.mod_small by lia. apply uwrap_id. lia.
Qed.

Lemma wp_RXBC (Q : unit -> canfd_st -> Prop) s :
  (forall s', area_set RXBC RXESC (u32RXBC_RBSA p') (u32RxBuf sz) (u32RXBC_RBSA p') 72 s s' -> Q tt s') ->
  wp (when (ctrue (u32RxBuf sz)) (CANFD_InitRxDBuf p' sz eCANFD_BYTE64)) Q s.
Proof.
  apply wp_when_area. intros Hn. pose proof Hsz as [[] ? ? ? ? ? ? ? ?].
  destruct (nth_area 3 (u32RXBC_RBSA p') (u32RxBuf sz) 72) as (Ha & ? & ?); [done|lia|lia|].
  unfold CANFD_InitRxDBuf, CANFD_RXBC_RBSA_Msk, clear_elems in *.
  rewrite land_addr by done. wp_step. apply wp_wr. wp_step. apply wp_put_field.
  change (elem_words eCANFD_BYTE64 * 4) with 72. pose proof Ha as [? _].
  apply wp_area; try lia; area_regs. apply uwrap_id. lia.
Qed.

Lemma fifo_reg n a : addr_ok a -> 0 <= n <= 64 ->
  u32 (Z.lor a (Z.lor (u32 (Z.shiftl n 16)) (u32 (Z.shiftl 0 24)))) = n * 2 ^ 16 + a.
Proof.
  intros [Ha _] Hn. rewrite Z.shiftl_0_l, Z.lor_0_r.
  rewrite (uwrap_id 32 (Z.shiftl _ _)) by (rewrite Z.shiftl_mul_pow2; lia).
  rewrite Z.lor_comm, lor_shiftl_add by lia. apply uwrap_id. lia.
Qed.

Lemma wp_RXF0 (Q : unit -> canfd_st -> Prop) s :
  (forall s', area_set RXF0C RXESC (u32RxFifo0 sz * 2 ^ 16 + u32RXF0C_F0SA p') (u32RxFifo0 sz)
                (u32RXF0C_F0SA p') 72 s s' -> Q tt s') ->
  wp (when (ctrue (u32RxFifo0 sz)) (CANFD_InitRxFifo 0 p' sz 0 eCANFD_BYTE64)) Q s.
Proof.
  apply wp_when_area. intros Hn. pose proof Hsz as [[] ? ? ? ? ? ? ? ?].
  destruct (nth_area 4 (u32RXF0C_F0SA p') (u32RxFifo0 sz) 72) as (Ha & ? & ?); [done|lia|lia|].
  unfold CANFD_InitRxFifo, CANFD_RXF0C_F0SA_Msk, CANFD_MAX_RX_FIFO0_ELEMS, CANFD_MAX_RX_FIFO1_ELEMS,
    CANFD_NUM_RX_FIFOS, clear_elems, rx_fifo_config, ctrue in *.
  do 3 (case_if; [lia|]). cbn [Z.eqb Pos.eqb]. rewrite (proj2 (Z.eqb_neq _ 0)) by done. cbn [negb].
  rewrite land_addr by done. wp_step. apply wp_wr. wp_step. apply wp_put_field.
  change (elem_words eCANFD_BYTE64 * 4) with 72.
  apply wp_area; try lia; area_regs. apply fifo_reg; [done|lia].
Qed.

Lemma wp_RXF1 (Q : unit -> canfd_st -> Prop) s :
  (forall s', area_set RXF1C RXESC (u32RxFifo1 sz * 2 ^ 16 + u32RXF1C_F1SA p') (u32RxFifo1 sz)
                (u32RXF1C_F1SA p') 72 s s' -> Q tt s') ->
  wp (when (ctrue (u32RxFifo1 sz)) (CANFD_InitRxFifo 1 p' sz 0 eCANFD_BYTE64)) Q s.
Proof.
  apply wp_when_area. intros Hn. pose proof Hsz as [[] ? ? ? ? ? ? ? ?].
  destruct (nth_area 5 (u32RXF1C_F1SA p') (u32RxFifo1 sz) 72) as (Ha & ? & ?); [done|lia|lia|].
  unfold CANFD_InitRxFifo, CANFD_RXF1C_F1SA_Msk, CANFD_MAX_RX_FIFO0_ELEMS, CANFD_MAX_RX_FIFO1_ELEMS,
    CANFD_NUM_RX_FIFOS, clear_elems, rx_fifo_config, ctrue in *.
  do 3 (case_if; [lia|]). cbn [Z.eqb Pos.eqb]. rewrite (proj2 (Z.eqb_neq _ 0)) by done. cbn [negb].
  rewrite land_addr by done. wp_step. apply wp_wr. wp_step. apply wp_put_field.
  change (elem_words eCANFD_BYTE64 * 4) with 72.
  apply wp_area; try lia; area_regs. apply fifo_reg; [done|lia].
Qed.

Lemma wp_TXEFC (Q : unit -> canfd_st -> Prop) s :
  (forall s', area_set TXEFC TXEFC (u32TxEventFifo sz * 2 ^ 16 + u32TXEFC_EFSA p') (u32TxEventFifo sz)
                (u32TXEFC_EFSA p') 0 s s' -> Q tt s') ->
  wp (when (ctrue (u32TxEventFifo sz)) (CANFD_InitTxEvntFifo p' sz 0)) Q s.
Proof.
  apply wp_when_area. intros Hn. pose proof Hsz as [[] ? ? ? ? ? ? ? ?].
  destruct (nth_area 6 (u32TXEFC_EFSA p') (u32TxEventFifo sz) 8) as (Ha & ? & ?); [done|lia|lia|].
  unfold CANFD_InitTxEvntFifo, CANFD_TXEFC_EFSA_Msk, CANFD_TXEFC_EFS_Pos.
  rewrite land_addr by done. apply wp_wr. constructor; area_regs.
  - rewrite Z.shiftl_0_l, Z.lor_0_l. destruct Ha as [? _].
    rewrite (uwrap_id 32 (Z.shiftl _ _)) by (rewrite Z.shiftl_mul_pow2; lia).
    rewrite lor_shiftl_add by lia. apply uwrap_id. lia.
  - intros x. case_if; [lia|done].
Qed.
End open.

(** The clock suits the bit rate: the longest bit needs a prescaler in range. *)
Definition rate_fits (set hz baud : Z) : Prop :=
  let l := limits set in
  1 <= baud /\
  quot_at hz (Z.min baud (if ctrue set then MAX_NOMINAL_BAUDRATE else MAX_DATA_BAUDRATE))
    (tseg1_max l + tseg2_max l + 1) <= brp_max l.

Lemma wp_SetBitRate set hz baud (Q : Z -> canfd_st -> Prop) s :
  0 < hz < 2 ^ 31 -> baud <= MAX_DATA_BAUDRATE -> 1 <= baud ->
  quot_at hz baud (tseg1_max (limits set) + tseg2_max (limits set) + 1) <= brp_max (limits set) ->
  (forall rate s', ram s' = ram s ->
     (forall r, r <> NBTP -> r <> DBTP -> r <> TDCR -> cregs s' r = cregs s r) -> Q rate s') ->
  wp (CANFD_SetBitRate baud hz set) Q s.
Proof.
  intros Hh Hm Hb Hf HQ.
  destruct (SetBitRate_regs set hz baud s Hh ltac:(lia) Hf) as (brp & t1 & t2 & rate & _ & _ & E).
  unfold wp. rewrite E. apply HQ; [done|]. intros r ? ? ?. cbn.
  destruct (ctrue set); [by rewrite fn_lookup_insert_ne|].
  rewrite fn_lookup_insert_ne by done. case_if; [|done]. by rewrite fn_lookup_insert_ne.
Qed.

Lemma wp_timing hz nominal data (Q : unit -> canfd_st -> Prop) s :
  0 < hz < 2 ^ 31 -> rate_fits 1 hz nominal ->
  (Z.testbit (cregs s CCCR) 8 = true -> rate_fits 0 hz data) ->
  (forall s', ram s' = ram s ->
     (forall r, r <> NBTP -> r <> DBTP -> r <> TDCR -> cregs s' r = cregs s r) -> Q tt s') ->
  wp (CANFD_CalculateTimingValues nominal data hz) Q s.
Proof.
  intros Hh [Hn1 Hn2] Hd HQ. unfold CANFD_CalculateTimingValues. cbv zeta.
  rewrite swrap_id by lia.
  replace (if nominal >? MAX_NOMINAL_BAUDRATE then MAX_NOMINAL_BAUDRATE else nominal)
    with (Z.min nominal MAX_NOMINAL_BAUDRATE) by (case_if; lia).
  replace (if data >? MAX_DATA_BAUDRATE then MAX_DATA_BAUDRATE else data)
    with (Z.min data MAX_DATA_BAUDRATE) by (case_if; lia).
  change (ctrue 1) with true in Hn2. cbv iota in Hn2.
  wp_step. apply wp_SetBitRate; [done| | |done|]; unfold MAX_NOMINAL_BAUDRATE, MAX_DATA_BAUDRATE in *; [lia..|].
  intros rate s1 Hm1 Hr1. wp_step. apply wp_gets. apply wp_when.
  - intros Hbit. change CANFD_CCCR_FDOE_Msk with (Z.shiftl 1 8) in Hbit.
    rewrite ctrue_bit, Hr1 in Hbit by done. destruct (Hd Hbit) as [Hd1 Hd2].
    change (ctrue 0) with false in Hd2. cbv iota in Hd2.
    unfold MAX_DATA_BAUDRATE in *. wp_step. apply wp_SetBitRate; unfold MAX_DATA_BAUDRATE; [done|lia|lia|done|].
    intros rate' s2 Hm2 Hr2. wp_step. apply HQ; [by rewrite Hm2|].
    intros r ? ? ?. rewrite Hr2, Hr1; done.
  - intros _. by apply HQ.
Qed.

(** The registers of the areas after [CANFD_Open]: count and start address. *)
Record areas_programmed (p : CANFD_RAM_PART_T) (sz : CANFD_ELEM_SIZE_T) (c : creg -> Z) : Prop := {
  ap_sid : u32SIDFC sz <> 0 -> c SIDFC = u32SIDFC sz * 2 ^ 16 + u32SIDFC_FLSSA p;
  ap_xid : u32XIDFC sz <> 0 -> c XIDFC = u32XIDFC sz * 2 ^ 16 + u32XIDFC_FLESA p;
  ap_tx : u32TxBuf sz <> 0 -> c TXBC = u32TxBuf sz * 2 ^ 16 + u32TXBC_TBSA p;
  ap_rx : u32RxBuf sz <> 0 -> c RXBC = u32RXBC_RBSA p;
  ap_f0 : u32RxFifo0 sz <> 0 -> c RXF0C = u32RxFifo0 sz * 2 ^ 16 + u32RXF0C_F0SA p;
  ap_f1 : u32RxFifo1 sz <> 0 -> c RXF1C = u32RxFifo1 sz * 2 ^ 16 + u32RXF1C_F1SA p;
  ap_ev : u32TxEventFifo sz <> 0 -> c TXEFC = u32TxEventFifo sz * 2 ^ 16 + u32TXEFC_EFSA p }.

Lemma areas_programmed_ext p sz c c' :
  areas_programmed p sz c -> (forall r, r <> CCCR -> r <> TEST -> c' r = c r) -> areas_programmed p sz c'.
Proof. intros [] Hc. constructor; intros; rewrite Hc; auto. Qed.

(** The areas one after the other cover the RAM up to the event FIFO. *)
Lemma cleared_app a n k m0 m1 m2 b :
  0 <= n -> 0 <= k -> (0 < k -> b = a + n) ->
  cleared a n m0 m1 -> cleared b k m1 m2 -> cleared a (n + k) m0 m2.
Proof.
  intros Hn Hk Hb H1 H2 x. rewrite (H2 x), (H1 x).
  destruct (decide (0 < k)) as [Hp|Hp].
  - rewrite Hb by done. repeat case_if; try done; lia.
  - replace k with 0 by lia. rewrite !Z.add_0_r. repeat case_if; try done; lia.
Qed.

Lemma wp_areas p sz (k : M canfd_st unit) (Q : unit -> canfd_st -> Prop) s :
  sizes_ok sz ->
  let p' := CANFD_CalculateRamAddress p sz in
  (forall s', areas_programmed p' sz (cregs s') ->
     cleared 0 (areas_bytes sz - u32TxEventFifo sz * 8) (ram s) (ram s') ->
     wp k Q s') ->
  wp (when (ctrue (u32SIDFC sz)) (CANFD_ConfigSIDFC p' sz);;
      when (ctrue (u32XIDFC sz)) (CANFD_ConfigXIDFC p' sz);;
      when (ctrue (u32TxBuf sz)) (CANFD_InitTxDBuf p' sz eCANFD_BYTE64);;
      when (ctrue (u32RxBuf sz)) (CANFD_InitRxDBuf p' sz eCANFD_BYTE64);;
      when (ctrue (u32RxFifo0 sz)) (CANFD_InitRxFifo 0 p' sz 0 eCANFD_BYTE64);;
      when (ctrue (u32RxFifo1 sz)) (CANFD_InitRxFifo 1 p' sz 0 eCANFD_BYTE64);;
      when (ctrue (u32TxEventFifo sz)) (CANFD_InitTxEvntFifo p' sz 0);; k) Q s.
Proof.
  intros Hsz p' HQ.
  wp_step. apply (wp_SIDFC p sz Hsz). intros s1 [R1 O1 M1].
  wp_step. apply (wp_XIDFC p sz Hsz). intros s2 [R2 O2 M2].
  wp_step. apply (wp_TXBC p sz Hsz). intros s3 [R3 O3 M3].
  wp_step. apply (wp_RXBC p sz Hsz). intros s4 [R4 O4 M4].
  wp_step. apply (wp_RXF0 p sz Hsz). intros s5 [R5 O5 M5].
  wp_step. apply (wp_RXF1 p sz Hsz). intros s6 [R6 O6 M6].
  wp_step. apply (wp_TXEFC p sz Hsz). intros s7 [R7 O7 M7].
  fold p' in R1, R2, R3, R4, R5, R6, R7, M1, M2, M3, M4, M5, M6, M7.
  pose proof Hsz as [[] _ _ _ _ _ _ _ Hfit]. unfold CANFD_SRAM_SIZE in Hfit.
  pose proof (layout_packed p sz (so_pos _ Hsz) ltac:(lia)) as Hp. fold p' in Hp. clearbody p'.
  destruct Hp as (P1 & P2 & P3 & P4 & P5 & P6 & _).
  apply HQ.
  - constructor; intros Hn;
      rewrite ?O7, ?O6, ?O5, ?O4, ?O3, ?O2 by done; auto.
  - rewrite Z.mul_0_r in M7. unfold areas_bytes.
    rewrite Z.add_simpl_r, <- (Z.add_0_r (_ + _ * 72)).
    repeat (eapply cleared_app; [lia..| | |eassumption]); try (intros; rewrite ?P2, ?P3, ?P4, ?P5, ?P6 by lia; lia).
    destruct (decide (0 < u32SIDFC sz)); [by rewrite <- P1 by lia|].
    intros x. rewrite (M1 x). repeat case_if; try done; lia.
Qed.

Lemma wp_when_bits (b : bool) r v (Q : unit -> canfd_st -> Prop) s :
  Q tt (if b then s <| cregs ::= <[r := u32 (Z.lor (cregs s r) v)]> |> else s) ->
  wp (when b (set_bits r v)) Q s.
Proof. by destruct b. Qed.


Definition clk_ex : clk_cfg := mkClk 0 0 (fun _ => 160000000).


(** C28: Controllers 0 and 1 run from the VPLL or the APLL, as bit [16 + port] of
    [CLKSEL4] says, divided by twice the divider of the port plus one.  For the
    controllers 2 and 3 [CANFD_Open] shifts by a module index of [clk.h], which
    is undefined behaviour whatever the configuration. *)
Theorem CANFD_Open_clock clk c s port :
  (port = 0 \/ port = 1 ->
   u32CANFD_CLK clk port = Ok
     (CLK_GetPLLClockFreq clk (if Z.testbit (CLKSEL4 clk) (16 + port) then VPLL else APLL) `div`
      (2 * ((CLKDIV0 clk / 2 ^ (4 * port)) mod 8 + 1)))) /\
  (port = 2 \/ port = 3 -> CANFD_Open clk port c s = Fault BadShift) /\
  (port < 0 \/ 3 < port -> CANFD_Open clk port c s = Fault Uninit).
Proof.
  split; [|split].
  - intros Hp. assert (u32CANFD_CLK clk port = port_clock clk port 1 port) as ->.
    { destruct Hp as [-> | ->]; done. }
    unfold port_clock, CANFD_GetClockSource, CANFD_GetClockDiv.
    rewrite !(uwrap_id 32) by lia. do 2 (case_if; [lia|]). res_simpl.
    change (Z.shiftl 1 (16 + port)) with (Z.shiftl (Z.ones 1) (16 + port)).
    change (Z.shiftl 7 (4 * port)) with (Z.shiftl (Z.ones 3) (4 * port)).
    rewrite !field_mask_shift by lia. change (2 ^ 1) with 2. change (2 ^ 3) with 8.
    pose proof (Z.mod_pos_bound (CLKDIV0 clk / 2 ^ (4 * port)) 8 ltac:(lia)).
    rewrite Z.shiftl_mul_pow2, !(uwrap_id 32) by (rewrite ?uwrap_id; lia).
    rewrite <- Z.testbit_spec' by lia. rewrite Z.mul_comm.
    destruct (Z.testbit (CLKSEL4 clk) (16 + port)); done.
  - by intros [-> | ->].
  - intros Hp. unfold CANFD_Open, mbind, M_bind, lift, u32CANFD_CLK.
    do 4 (case_if; [lia|]). done.
Qed.

Lemma CANFD_Open_clock_witness :
  CANFD_Open clk_ex 2 (CANFD_GetDefaultConfig 0) can_ex = Fault BadShift /\
  u32CANFD_CLK clk_ex 1 = Ok 80000000.
Proof.
  destruct (CANFD_Open_clock clk_ex (CANFD_GetDefaultConfig 0) can_ex 2) as (_ & H & _).
  destruct (CANFD_Open_clock clk_ex (CANFD_GetDefaultConfig 0) can_ex 1) as (H1 & _ & _).
  split; [by apply H; left|]. rewrite H1 by (by right). reflexivity.
Defined.

(** * Messages through the message RAM *)
Lemma ram32_put_other a v m x : x < a \/ a + 4 <= x -> ram32_put a v m x = m x.
Proof. intros Hx. unfold ram32_put. by rewrite !fn_lookup_insert_ne by lia. Qed.

Lemma ram32_put_byte a v m k :
  0 <= k < 4 -> ram32_put a v m (a + k) = u8 (v / 2 ^ (8 * k)).
Proof.
  intros Hk. unfold ram32_put.
  assert (k = 0 \/ k = 1 \/ k = 2 \/ k = 3) as [->|[->|[->| ->]]] by lia.
  - rewrite Z.add_0_r, fn_lookup_insert. change (2 ^ (8 * 0)) with 1. by rewrite Z.div_1_r.
  - by rewrite fn_lookup_insert_ne, fn_lookup_insert by lia.
  - by rewrite !fn_lookup_insert_ne, fn_lookup_insert by lia.
  - by rewrite !fn_lookup_insert_ne, fn_lookup_insert by lia.
Qed.

Lemma ram32_put_eq a v m : 0 <= v < 2 ^ 32 -> ram32 (ram32_put a v m) a = v.
Proof.
  intros Hv. unfold ram32. rewrite <- (Z.add_0_r a) at 2. rewrite !ram32_put_byte by lia.
  unfold uwrap. change (2 ^ (8 * 0)) with 1. change (2 ^ (8 * 1)) with (2 ^ 8).
  change (2 ^ (8 * 2)) with (2 ^ 16). change (2 ^ (8 * 3)) with (2 ^ 24).
  Z.div_mod_to_equations. lia.
Qed.

Lemma ram32_put_ne a v m b : b + 4 <= a \/ a + 4 <= b -> ram32 (ram32_put a v m) b = ram32 m b.
Proof. intros H. unfold ram32. by rewrite !ram32_put_other by lia. Qed.

Lemma wp_check_ram a n (Q : unit -> canfd_st -> Prop) s :
  0 <= a -> a + n <= CANFD_SRAM_SIZE -> Q tt s -> wp (check_ram a n) Q s.
Proof.
  intros Ha Hn HQ. unfold check_ram, in_ram.
  by rewrite (proj2 (andb_true_iff _ _)) by (split; apply Z.leb_le; lia).
Qed.

Lemma wp_wr32 a v (Q : unit -> canfd_st -> Prop) s :
  0 <= a -> a + 4 <= CANFD_SRAM_SIZE -> Q tt (s <| ram ::= ram32_put a v |>) -> wp (wr32 a v) Q s.
Proof. intros. unfold wr32. wp_step. by apply wp_check_ram. Qed.

Lemma wp_rd32 a (Q : Z -> canfd_st -> Prop) s :
  0 <= a -> a + 4 <= CANFD_SRAM_SIZE -> Q (ram32 (ram s) a) s -> wp (rd32 a) Q s.
Proof. intros. unfold rd32. wp_step. by apply wp_check_ram. Qed.

(** [if (b) word |= mask] *)
Lemma wp_when_or (b : bool) a v mask (Q : unit -> canfd_st -> Prop) s :
  0 <= a -> a + 4 <= CANFD_SRAM_SIZE -> ram32 (ram s) a = v ->
  (forall m', ram32 m' a = (if b then u32 (Z.lor v mask) else v) ->
     (forall x, x < a \/ a + 4 <= x -> m' x = ram s x) -> Q tt (s <| ram := m' |>)) ->
  wp (when b (x ← rd32 a; wr32 a (Z.lor x mask))) Q s.
Proof.
  intros Ha Hf Hv HQ. apply wp_when; intros ->.
  - wp_step. apply wp_rd32; [done..|]. apply wp_wr32; [done..|]. rewrite Hv.
    apply (HQ (ram32_put a (Z.lor v mask) (ram s))).
    + pose proof (uwrap_range 32 (Z.lor v mask) ltac:(lia)) as Hr.
      unfold ram32. rewrite <- (Z.add_0_r a) at 2. rewrite !ram32_put_byte by lia.
      unfold uwrap. change (2 ^ (8 * 0)) with 1. change (2 ^ (8 * 1)) with (2 ^ 8).
      change (2 ^ (8 * 2)) with (2 ^ 16). change (2 ^ (8 * 3)) with (2 ^ 24).
      Z.div_mod_to_equations. lia.
    + intros. by apply ram32_put_other.
  - destruct s as [c m i]. apply (HQ m); done.
Qed.

Definition is_xid (m : CANFD_FD_MSG_T) : bool := bool_decide (eIdType m = eCANFD_XID).
Definition is_remote (m : CANFD_FD_MSG_T) : bool := bool_decide (eFrmType m = eCANFD_REMOTE_FRM).
Definition id_low (m : CANFD_FD_MSG_T) : Z :=
  if is_xid m then u32Id m mod 2 ^ 29 else u32Id m mod 2 ^ 11 * 2 ^ 18.
Definition id_word (m : CANFD_FD_MSG_T) : Z :=
  Z.b2z (is_xid m) * 2 ^ 30 + Z.b2z (is_remote m) * 2 ^ 29 + id_low m.
Definition conf_word (m : CANFD_FD_MSG_T) : Z :=
  Z.b2z (ctrue (bFDFormat m)) * 2 ^ 21 + Z.b2z (ctrue (bBitRateSwitch m)) * 2 ^ 20 +
  CANFD_EncodeDLC (u32DLC m) * 2 ^ 16.

(** A message that fits: up to 64 bytes of data. *)
Record msg_ok (m : CANFD_FD_MSG_T) : Prop := {
  mo_dlc : 0 <= u32DLC m <= 64; mo_len : length (au8Data m) = 64%nat;
  mo_bytes : Forall (fun b => 0 <= b < 256) (au8Data m) }.

Lemma id_low_range m : 0 <= id_low m < 2 ^ 29.
Proof.
  unfold id_low. pose proof (Z.mod_pos_bound (u32Id m) (2 ^ 29) ltac:(lia)).
  pose proof (Z.mod_pos_bound (u32Id m) (2 ^ 11) ltac:(lia)). case_if; lia.
Qed.

Lemma elem_id_eq m : elem_id m = Z.b2z (is_xid m) * 2 ^ 30 + id_low m.
Proof.
  pose proof (id_low_range m) as H. unfold elem_id, id_low, is_xid in *.
  change 0x1FFFFFFF with (Z.ones 29). change 0x7FF with (Z.ones 11). rewrite !Z.land_ones by lia.
  destruct (decide (eIdType m = eCANFD_XID)) as [E|E].
  - rewrite bool_decide_true in * by done. apply (lor_shiftl_add _ 1); lia.
  - rewrite bool_decide_false in * by done. rewrite Z.shiftl_mul_pow2 by lia. rewrite uwrap_id by lia. cbn [Z.b2z]. lia.
Qed.

Lemma id_word_or m :
  (if is_remote m then u32 (Z.lor (elem_id m) ELEM_RTR_Msk) else elem_id m) = id_word m.
Proof.
  pose proof (id_low_range m). rewrite elem_id_eq. unfold id_word.
  destruct (is_remote m); cbn [Z.b2z]; [|lia]. change ELEM_RTR_Msk with (Z.shiftl 1 29).
  rewrite <- (lor_shiftl_add (id_low m) (Z.b2z (is_xid m)) 30) by lia.
  rewrite <- Z.lor_assoc, (Z.lor_comm (id_low m)). rewrite lor_fields by lia.
  apply uwrap_id. destruct (is_xid m); cbn; lia.
Qed.

Lemma EncodeDLC_range n : 0 <= n -> 0 <= CANFD_EncodeDLC n <= 15.
Proof. intros. unfold CANFD_EncodeDLC. repeat case_if; lia. Qed.

Lemma conf_word_or m :
  0 <= u32DLC m ->
  let v := Z.shiftl (CANFD_EncodeDLC (u32DLC m)) 16 in
  let v := if ctrue (bFDFormat m) then u32 (Z.lor v ELEM_FDF_Msk) else v in
  (if ctrue (bBitRateSwitch m) then u32 (Z.lor v ELEM_BSR_Msk) else v) = conf_word m.
Proof.
  intros Hd. pose proof (EncodeDLC_range _ Hd) as He. unfold conf_word.
  set (d := CANFD_EncodeDLC (u32DLC m)) in *. cbv zeta.
  change ELEM_FDF_Msk with (Z.shiftl 1 21). change ELEM_BSR_Msk with (Z.shiftl 1 20).
  rewrite !(Z.lor_comm (Z.shiftl d 16)).
  destruct (ctrue (bFDFormat m)), (ctrue (bBitRateSwitch m)); cbn [Z.b2z];
    rewrite ?(Z.shiftl_mul_pow2 d) by lia.
  - rewrite (lor_shiftl_add (d * 2 ^ 16) 1 21), (uwrap_id 32 (1 * 2 ^ 21 + d * 2 ^ 16)) by lia.
    rewrite <- (lor_shiftl_add (d * 2 ^ 16) 1 21) by lia.
    rewrite <- Z.lor_assoc, (Z.lor_comm (d * 2 ^ 16)), lor_fields by lia. apply uwrap_id; lia.
  - rewrite lor_shiftl_add by lia. rewrite uwrap_id by lia. lia.
  - rewrite Z.lor_comm, lor_shiftl_add by lia. rewrite uwrap_id by lia. lia.
  - lia.
Qed.

(** The element of [m] is at [a]. *)
Record elem_at (mem : Z -> Z) (a : Z) (m : CANFD_FD_MSG_T) : Prop := {
  ea_id : ram32 mem a = id_word m;
  ea_conf : ram32 mem (a + 4) = conf_word m;
  ea_data : forall j b, 0 <= j < u32DLC m -> au8Data m !! Z.to_nat j = Some b -> mem (a + 8 + j) = b }.

Lemma conf_word_range m : 0 <= u32DLC m -> 0 <= conf_word m < 2 ^ 22.
Proof.
  intros Hd. pose proof (EncodeDLC_range _ Hd). unfold conf_word.
  destruct (ctrue (bFDFormat m)), (ctrue (bBitRateSwitch m)); cbn [Z.b2z]; lia.
Qed.

(** The words of the data are written one by one. *)
Lemma wp_write_data a m n (Q : unit -> canfd_st -> Prop) s :
  msg_ok m -> 0 <= a -> a + 72 <= CANFD_SRAM_SIZE -> (n <= 16)%nat ->
  (forall mem, (forall x, x < a + 8 -> mem x = ram s x) ->
     (forall j b, 0 <= j < 4 * Z.of_nat n -> au8Data m !! Z.to_nat j = Some b -> mem (a + 8 + j) = b) ->
     Q tt (s <| ram := mem |>)) ->
  wp (for_ n 0 (fun i => w ← lift (msg_word m i); wr32 (a + 8 + 4 * i) w)) Q s.
Proof.
  intros [_ Hlen Hby] Ha Hf Hn HQ.
  eapply wp_mono; [apply (wp_for (fun i t => cregs t = cregs s /\ sys_1f0 t = sys_1f0 s /\
    (forall x, x < a + 8 -> ram t x = ram s x) /\
    (forall j b, 0 <= j < 4 * i -> au8Data m !! Z.to_nat j = Some b -> ram t (a + 8 + j) = b)))|].
  - repeat split; intros; lia.
  - intros i t Hi (Hc & Hi0 & Hlo & Hd).
    assert (forall k, 0 <= k < 4 -> exists b, aget (au8Data m) (4 * i + k) = Ok b /\ 0 <= b < 256 /\
              au8Data m !! Z.to_nat (4 * i + k) = Some b) as Hg.
    { intros k Hk. destruct (aget_in (au8Data m) (4 * i + k)) as [b Hb]; [lia|].
      exists b. split; [done|]. apply aget_Ok, zlookup_Some in Hb as [_ Hb].
      split; [|done]. by eapply Forall_lookup_1 in Hby. }
    destruct (Hg 0 ltac:(lia)) as (b0 & G0 & R0 & L0). destruct (Hg 1 ltac:(lia)) as (b1 & G1 & R1 & L1).
    destruct (Hg 2 ltac:(lia)) as (b2 & G2 & R2 & L2). destruct (Hg 3 ltac:(lia)) as (b3 & G3 & R3 & L3).
    wp_step. apply (wp_lift _ (b0 + 2 ^ 8 * b1 + 2 ^ 16 * b2 + 2 ^ 24 * b3)).
    { rewrite Z.add_0_r in G0. unfold msg_word. by rewrite G0, G1, G2, G3. }
    apply wp_wr32; [lia|lia|]. cbn. repeat split; try done.
    + intros x Hx. rewrite ram32_put_other by lia. by apply Hlo.
    + intros j b Hj Hb. destruct (decide (j < 4 * i)).
      { rewrite ram32_put_other by lia. apply Hd; [lia|done]. }
      replace (a + 8 + j) with (a + 8 + 4 * i + (j - 4 * i)) by lia. rewrite ram32_put_byte by lia.
      replace (Z.to_nat j) with (Z.to_nat (4 * i + (j - 4 * i))) in Hb by (f_equal; lia).
      remember (j - 4 * i) as k. assert (k = 0 \/ k = 1 \/ k = 2 \/ k = 3) as [->|[->|[->| ->]]] by lia;
        [rewrite L0 in Hb|rewrite L1 in Hb|rewrite L2 in Hb|rewrite L3 in Hb]; injection Hb as <-;
        unfold uwrap; cbn; Z.div_mod_to_equations; lia.
  - intros [] t (Hc & Hi0 & Hlo & Hd). destruct t as [c mem ch], s as [c0 mem0 ch0]; cbn in *.
    subst c ch. by apply (HQ mem).
Qed.

Lemma ram32_ext m m' a : (forall x, a <= x < a + 4 -> m' x = m x) -> ram32 m' a = ram32 m a.
Proof. intros H. unfold ram32. by rewrite !H by lia. Qed.

Lemma wp_write_elem a m (Q : unit -> canfd_st -> Prop) s :
  msg_ok m -> 0 <= a -> a + 72 <= CANFD_SRAM_SIZE ->
  (forall mem, elem_at mem a m -> Q tt (s <| ram := mem |>)) ->
  wp (write_elem a m) Q s.
Proof.
  intros Hm Ha Hf HQ. pose proof Hm as [Hd _ _]. unfold write_elem.
  pose proof (id_low_range m). pose proof (EncodeDLC_range (u32DLC m) ltac:(lia)) as He.
  assert (0 <= elem_id m < 2 ^ 32).
  { rewrite elem_id_eq. destruct (is_xid m); cbn [Z.b2z]; lia. }
  rewrite (uwrap_id 8 (u32DLC m)) by lia.
  wp_step. apply wp_wr32; [lia|lia|]. wp_step.
  apply (wp_when_or _ a (elem_id m)); [lia|lia|by apply ram32_put_eq|].
  intros m1 I1 F1. fold (is_remote m) in I1. rewrite id_word_or in I1.
  wp_step. apply wp_wr32; [lia|lia|]. wp_step.
  eapply (wp_when_or _ (a + 4)); [lia|lia|apply ram32_put_eq|].
  { rewrite Z.shiftl_mul_pow2; lia. }
  intros m2 I2 F2. wp_step. eapply (wp_when_or _ (a + 4)); [lia|lia|exact I2|].
  intros m3 I3 F3. rewrite conf_word_or in I3 by lia.
  assert (u32 (u32DLC m + 3) / 4 < 17) as Hn.
  { rewrite uwrap_id by lia. apply Z.div_lt_upper_bound; lia. }
  apply wp_write_data; [done|done|done|lia|]. cbn. intros mem Hlo Hdata.
  specialize (HQ mem). cbn in HQ. apply HQ. constructor.
  - rewrite <- I1. apply ram32_ext. intros x Hx. rewrite Hlo, F3 by lia. cbn. rewrite F2 by lia.
    cbn. by apply ram32_put_other; lia.
  - rewrite <- I3. apply ram32_ext. intros x Hx. by rewrite Hlo by lia.
  - intros j b Hj Hb. apply Hdata; [|done]. rewrite (uwrap_id 32) by lia.
    pose proof (Z.div_mod (u32DLC m + 3) 4 ltac:(lia)).
    pose proof (Z.mod_pos_bound (u32DLC m + 3) 4 ltac:(lia)). lia.
Qed.

(** Copying [n] bytes of data out of an element. *)
Lemma wp_copy_data n i a d (Q : list Z -> canfd_st -> Prop) s :
  0 <= i -> i + Z.of_nat n <= zlen d -> 0 <= a -> a + 8 + i + Z.of_nat n <= CANFD_SRAM_SIZE ->
  (forall d', length d' = length d ->
     (forall j, (j < Z.to_nat i)%nat -> d' !! j = d !! j) ->
     (forall j, i <= j < i + Z.of_nat n -> d' !! Z.to_nat j = Some (ram s (a + 8 + j))) -> Q d' s) ->
  wp (copy_data n i a d) Q s.
Proof.
  revert i d. induction n as [|n IH]; intros i d Hi Hn Ha Hf HQ; cbn [copy_data].
  { apply wp_ret, HQ; [done|done|]. lia. }
  wp_step. unfold rd8. wp_step. apply wp_check_ram; [lia|lia|]. apply wp_gets.
  wp_step. eapply wp_lift; [by apply aset_Ok; lia|].
  apply IH; rewrite ?length_insert; [lia..|].
  intros d' Hl Hlo Hd. apply HQ; [done| |].
  - intros j Hj. rewrite Hlo by lia. by apply list_lookup_insert_ne; lia.
  - intros j Hj. destruct (decide (j = i)) as [->|]; [|apply Hd; lia].
    rewrite Hlo by lia. apply list_lookup_insert_eq. lia.
Qed.

(** What a reader gets of a message [m] that was sent. *)
Record received (m m' : CANFD_FD_MSG_T) : Prop := {
  rc_type : eIdType m' = eIdType m; rc_frm : eFrmType m' = eFrmType m;
  rc_id : u32Id m' = u32Id m mod 2 ^ (if is_xid m then 29 else 11);
  rc_dlc : u32DLC m' = CANFD_DecodeDLC (CANFD_EncodeDLC (u32DLC m));
  rc_data : take (Z.to_nat (u32DLC m)) (au8Data m') = take (Z.to_nat (u32DLC m)) (au8Data m);
  rc_fdf : bFDFormat m' = Z.b2z (ctrue (bFDFormat m));
  rc_brs : bBitRateSwitch m' = Z.b2z (ctrue (bBitRateSwitch m));
  rc_esi : bErrStaInd m' = FALSE }.

Lemma bit_arith v n b : 0 <= n -> (v / 2 ^ n) mod 2 = Z.b2z b -> ctrue (Z.land v (msk 1 n)) = b.
Proof.
  intros Hn H. change (msk 1 n) with (Z.shiftl 1 n). rewrite ctrue_bit by done.
  apply Z.b2z_inj. by rewrite <- H, Z.testbit_spec' by done.
Qed.

Lemma id_word_bits m :
  ctrue (Z.land (id_word m) ELEM_ESI_Msk) = false /\
  ctrue (Z.land (id_word m) ELEM_XTD_Msk) = is_xid m /\
  ctrue (Z.land (id_word m) ELEM_RTR_Msk) = is_remote m.
Proof.
  pose proof (id_low_range m). unfold id_word.
  repeat split; (apply bit_arith; [lia|]);
    destruct (is_xid m), (is_remote m); cbn [Z.b2z]; Z.div_mod_to_equations; lia.
Qed.

Lemma conf_word_bits m :
  0 <= u32DLC m ->
  ctrue (Z.land (conf_word m) ELEM_FDF_Msk) = ctrue (bFDFormat m) /\
  ctrue (Z.land (conf_word m) ELEM_BSR_Msk) = ctrue (bBitRateSwitch m) /\
  Z.shiftr (Z.land (conf_word m) ELEM_DLC_Msk) ELEM_DLC_Pos = CANFD_EncodeDLC (u32DLC m).
Proof.
  intros Hd. pose proof (EncodeDLC_range _ Hd). unfold conf_word.
  set (d := CANFD_EncodeDLC (u32DLC m)) in *. clearbody d.
  repeat split; [apply bit_arith; [lia|]..|];
    [..|change ELEM_DLC_Msk with (Z.shiftl (Z.ones 4) 16); unfold ELEM_DLC_Pos;
        rewrite field_mask_shift by lia];
    destruct (ctrue (bFDFormat m)), (ctrue (bBitRateSwitch m)); cbn [Z.b2z];
    Z.div_mod_to_equations; lia.
Qed.

Lemma id_word_id m :
  (if is_xid m then Z.land (id_word m) ELEM_ID_Msk else Z.land (Z.shiftr (id_word m) 18) 0x7FF)
  = u32Id m mod 2 ^ (if is_xid m then 29 else 11).
Proof.
  pose proof (id_low_range m) as Hr. unfold id_word, id_low in *.
  destruct (is_xid m); cbn [Z.b2z].
  - change ELEM_ID_Msk with (Z.ones 29). rewrite Z.land_ones by lia.
    set (x := u32Id m mod 2 ^ 29) in *. clearbody x.
    destruct (is_remote m); cbn [Z.b2z]; Z.div_mod_to_equations; lia.
  - change 0x7FF with (Z.ones 11). rewrite field_shift_mask by lia.
    pose proof (Z.mod_pos_bound (u32Id m) (2 ^ 11) ltac:(lia)).
    set (x := u32Id m mod 2 ^ 11) in *. clearbody x.
    destruct (is_remote m); cbn [Z.b2z]; Z.div_mod_to_equations; lia.
Qed.

Lemma DecodeDLC_range d : 0 <= d <= 15 -> 0 <= CANFD_DecodeDLC d <= 64.
Proof. intros. unfold CANFD_DecodeDLC. repeat case_if; lia. Qed.

Lemma DecodeDLC_ge n : 0 <= n <= 64 -> n <= CANFD_DecodeDLC (CANFD_EncodeDLC n).
Proof.
  intros Hn. unfold CANFD_EncodeDLC. repeat (case_if; [cbn; try lia|]); try (cbn; lia).
  unfold CANFD_DecodeDLC. case_if; lia.
Qed.

Lemma wp_CopyDBuf a m buf (Q : CANFD_FD_MSG_T -> canfd_st -> Prop) s :
  msg_ok m -> length (au8Data buf) = 64%nat -> 0 <= a -> a + 72 <= CANFD_SRAM_SIZE ->
  elem_at (ram s) a m -> (forall m', received m m' -> Q m' s) ->
  wp (CANFD_CopyDBufToMsgBuf a buf) Q s.
Proof.
  intros [Hd Hlen Hby] Hbuf Ha Hf [Ei Ec Ed] HQ. unfold CANFD_CopyDBufToMsgBuf.
  wp_step. apply wp_rd32; [lia|lia|]. rewrite Ei. destruct (id_word_bits m) as (-> & -> & ->).
  cbv zeta. wp_step. apply wp_rd32; [lia|lia|]. rewrite Ec.
  destruct (conf_word_bits m ltac:(lia)) as (-> & -> & ->).
  pose proof (DecodeDLC_range _ (EncodeDLC_range (u32DLC m) ltac:(lia))) as Hr.
  pose proof (DecodeDLC_ge _ Hd) as Hge. pose proof (id_word_id m) as Hid.
  set (D := CANFD_DecodeDLC (CANFD_EncodeDLC (u32DLC m))) in *.
  wp_step. apply wp_copy_data; [lia| |lia| |].
  { destruct (is_xid m); cbn; rewrite Hbuf; lia. }
  { destruct (is_xid m); cbn; lia. }
  intros d' Hl' _ Hd'. apply wp_ret, HQ.
  assert (forall j, 0 <= j < D -> d' !! Z.to_nat j = Some (ram s (a + 8 + j))) as Hdat.
  { intros j Hj. apply Hd'. destruct (is_xid m); cbn; lia. }
  assert (take (Z.to_nat (u32DLC m)) d' = take (Z.to_nat (u32DLC m)) (au8Data m)) as Ht.
  { apply list_eq. intros j. destruct (decide (j < Z.to_nat (u32DLC m))%nat) as [Hj|Hj].
    - rewrite !lookup_take_lt by done. specialize (Hdat (Z.of_nat j) ltac:(lia)).
      rewrite Nat2Z.id in Hdat. rewrite Hdat. symmetry.
      destruct (lookup_lt_is_Some_2 (au8Data m) j) as [b Hb]; [lia|]. rewrite Hb. f_equal. symmetry.
      apply Ed; [lia|by rewrite Nat2Z.id].
    - by rewrite !lookup_take_ge by lia. }
  assert (eIdType m = if is_xid m then eCANFD_XID else eCANFD_SID) as E1.
  { unfold is_xid. by destruct (eIdType m). }
  assert (eFrmType m = if is_remote m then eCANFD_REMOTE_FRM else eCANFD_DATA_FRM) as E2.
  { unfold is_remote. by destruct (eFrmType m). }
  destruct (is_xid m) eqn:Ex; constructor; rewrite ?Ex; cbn; try done; by destruct (ctrue _).
Qed.

(** C21: A message written by [CANFD_TransmitDMsg] to a free buffer of the RAM is
    read back from there by [CANFD_CopyDBufToMsgBuf]: the identifier reduced to
    its width, the length rounded up to a frame size, the data and the flags.
    The request is made unless the bus (of a chip of revision 0) stays busy; a
    pending buffer is left alone. *)
Theorem CANFD_transmit_receive SystemCoreClock psr idx m buf s :
  let a := Z.land (cregs s TXBC) 0xFFFF + idx * sizeof_CANFD_BUF_T in
  0 <= idx < CANFD_MAX_TX_BUF_ELEMS -> a + sizeof_CANFD_BUF_T <= CANFD_SRAM_SIZE ->
  msg_ok m -> length (au8Data buf) = 64%nat ->
  if Z.testbit (cregs s TXBRP) idx
  then CANFD_TransmitDMsg SystemCoreClock psr idx m s = Ok (0, s)
  else exists s' m',
    CANFD_TransmitDMsg SystemCoreClock psr idx m s =
      Ok (if (Z.land (sys_1f0 s) 0xf000000 =? 0) &&
             negb (wait_idle (Z.to_nat (SystemCoreClock / 100)) psr 0)
          then (0, s') else (1, s' <| cregs ::= <[TXBAR := 2 ^ idx]> |>)) /\
    cregs s' = cregs s /\
    CANFD_CopyDBufToMsgBuf a buf s' = Ok (m', s') /\ received m m'.
Proof.
  intros a Hi Hf Hm Hbuf. unfold CANFD_MAX_TX_BUF_ELEMS, sizeof_CANFD_BUF_T in *.
  assert (0 <= Z.land (cregs s TXBC) 0xFFFF) as Hl.
  { change 0xFFFF with (Z.ones 16). rewrite Z.land_ones by lia. apply Z.mod_pos_bound. lia. }
  unfold CANFD_TransmitDMsg. rewrite Z.geb_leb.
  rewrite (proj2 (Z.leb_gt _ _)) by (unfold CANFD_MAX_TX_BUF_ELEMS; lia). cbv zeta.
  rewrite (bind_Ok _ _ _ _ _ (read_reg_spec TXBRP s)), ctrue_bit by lia.
  destruct (Z.testbit (cregs s TXBRP) idx); [done|].
  assert (rd TXBC s = Ok (cregs s TXBC, s)) as Er by done.
  rewrite (bind_Ok _ _ _ _ _ Er). unfold sizeof_CANFD_BUF_T. fold a.
  assert (wp (write_elem a m) (fun _ s' => cregs s' = cregs s /\ sys_1f0 s' = sys_1f0 s /\
    elem_at (ram s') a m) s) as ([] & s1 & E & Hc & Hs & He)%wp_run.
  { apply wp_write_elem; [done|lia|done|]. by intros. }
  rewrite (bind_Ok _ _ _ _ _ E).
  assert (wp (CANFD_CopyDBufToMsgBuf a buf) (fun m' s' => s' = s1 /\ received m m') s1)
    as (m' & s2 & E' & -> & Hr)%wp_run.
  { by apply (wp_CopyDBuf a m); [| |lia| | |]. }
  exists s1, m'. split; [|done]. unfold gets. unfold mbind, M_bind. rewrite Hs. case_match; [done|].
  unfold wr, modify, mret, M_ret. cbv beta iota. do 3 f_equal.
  rewrite Z.shiftl_1_l, uwrap_id; [done|].
  split; [apply Z.pow_nonneg; lia|]. apply Z.pow_lt_mono_r; lia.
Qed.

(** An extended remote frame of ten bytes. *)
Definition msg_ex : CANFD_FD_MSG_T :=
  mkMsg eCANFD_XID eCANFD_REMOTE_FRM 0xE1234567 10 (fill 7 10 0 (replicate 64 0)) 0 1 0 0 0.

Lemma msg_ex_ok : msg_ok msg_ex.
Proof.
  constructor; [vm_compute; by split|by vm_compute|].
  vm_compute au8Data. by repeat constructor.
Qed.

Lemma CANFD_transmit_receive_witness :
  exists s' m',
    CANFD_TransmitDMsg 1000 (fun _ => 0) 1 msg_ex can_ex =
      Ok (1, s' <| cregs ::= <[TXBAR := 2 ^ 1]> |>) /\
    CANFD_CopyDBufToMsgBuf 72 msg_ex s' = Ok (m', s') /\
    u32Id m' = 0x1234567 /\ u32DLC m' = 12.
Proof.
  pose proof (CANFD_transmit_receive 1000 (fun _ => 0) 1 msg_ex msg_ex can_ex) as H.
  cbv zeta in H. replace (Z.testbit (cregs can_ex TXBRP) 1) with false in H by done.
  destruct H as (s' & m' & E & Hc & E' & [_ _ Hid Hdlc _ _ _ _]);
    [by split|vm_compute; by intros|exact msg_ex_ok|by vm_compute|].
  exists s', m'. split; [exact E|]. split; [exact E'|].
  split; [rewrite Hid; by vm_compute|rewrite Hdlc; by vm_compute].
Defined.

(** * Reception *)


(** [msg_ex] received in element 2 of FIFO 1. *)
Definition fifo_ex : res (unit * canfd_st) :=
  write_elem 144 msg_ex (can_ex <| cregs ::= <[RXF1S := 0x201]> |>).


(** C29: The receive error count of [CANFD_GetBusErrCount] is always 0, whatever the
    controller counts: the count is shifted down and then masked in place. *)
Theorem CANFD_GetBusErrCount_rx_zero tx rx s :
  CANFD_GetBusErrCount tx rx s =
    Ok ((if tx then Some (cregs s ECR mod 2 ^ 8) else None, if rx then Some 0 else None), s).
Proof.
  unfold CANFD_GetBusErrCount, rd, gets, mbind, M_bind, mret, M_ret.
  assert (u8 (Z.land (Z.shiftr (cregs s ECR) CANFD_ECR_TEC_Pos) CANFD_ECR_TEC_Msk) =
          cregs s ECR mod 2 ^ 8) as ->.
  { change CANFD_ECR_TEC_Msk with (Z.ones 8). unfold CANFD_ECR_TEC_Pos.
    rewrite field_shift_mask, Z.div_1_r by lia. apply uwrap_idemp. lia. }
  assert (u8 (Z.land (Z.shiftr (cregs s ECR) CANFD_ECR_REC_Pos) CANFD_ECR_REC_Msk) = 0) as ->; [|done].
  change CANFD_ECR_REC_Msk with (Z.shiftl (Z.ones 7) 8). unfold uwrap.
  rewrite <- Z.land_ones by lia. rewrite <- Z.land_assoc.
  replace (Z.land (Z.shiftl (Z.ones 7) 8) (Z.ones 8)) with 0 by done. apply Z.land_0_r.
Qed.
