(* ===== verification/Rtc.v ===== *)
(** Real time clock driver: [Library/StdDriver/src/rtc.c] and the registers and
    types of [inc/rtc.h] and [Include/rtc_reg.h].

    The state is the registers of the clock and the file-scope digits of
    rtc.c.  The calendar and the time count on while they are read: the reads of
    [RTC->CAL] and [RTC->TIME] in [RTC_GetDateAndTime] are streams of values.
    A caller's structure is passed in and returned. *)
From S2P Require Import Prelude.

(** ** Registers and data *)
Inductive rreg := INIT | TIME | CAL | CLKFMT | WEEKDAY | TALM | CALM | INTEN | INTSTS | TICK | TAMSK | CAMSK.
#[global] Instance rreg_eq_dec : EqDecision rreg.
Proof. solve_decision. Defined.

Definition RTC_INIT_KEY : Z := 0xA5EB1357.
Definition RTC_CLOCK_12 : Z := 0.
Definition RTC_CLOCK_24 : Z := 1.
Definition RTC_AM : Z := 1.
Definition RTC_PM : Z := 2.
Definition RTC_YEAR2000 : Z := 2000.
Definition RTC_INIT_ACTIVE_Msk : Z := msk 1 0.
Definition RTC_CLKFMT_24HEN_Msk : Z := msk 1 0.
Definition RTC_WEEKDAY_WEEKDAY_Msk : Z := msk 3 0.
Definition RTC_TICK_TICK_Msk : Z := msk 3 0.
Definition RTC_TIME_SEC_Pos : Z := 0.
Definition RTC_TIME_SEC_Msk : Z := msk 4 0.
Definition RTC_TIME_TENSEC_Pos : Z := 4.
Definition RTC_TIME_TENSEC_Msk : Z := msk 3 4.
Definition RTC_TIME_MIN_Pos : Z := 8.
Definition RTC_TIME_MIN_Msk : Z := msk 4 8.
Definition RTC_TIME_TENMIN_Pos : Z := 12.
Definition RTC_TIME_TENMIN_Msk : Z := msk 3 12.
Definition RTC_TIME_HR_Pos : Z := 16.
Definition RTC_TIME_HR_Msk : Z := msk 4 16.
Definition RTC_TIME_TENHR_Pos : Z := 20.
Definition RTC_TIME_TENHR_Msk : Z := msk 2 20.
Definition RTC_CAL_DAY_Pos : Z := 0.
Definition RTC_CAL_DAY_Msk : Z := msk 4 0.
Definition RTC_CAL_TENDAY_Pos : Z := 4.
Definition RTC_CAL_TENDAY_Msk : Z := msk 2 4.
Definition RTC_CAL_MON_Pos : Z := 8.
Definition RTC_CAL_MON_Msk : Z := msk 4 8.
Definition RTC_CAL_TENMON_Pos : Z := 12.
Definition RTC_CAL_TENMON_Msk : Z := msk 1 12.
Definition RTC_CAL_YEAR_Pos : Z := 16.
Definition RTC_CAL_YEAR_Msk : Z := msk 4 16.
Definition RTC_CAL_TENYEAR_Pos : Z := 20.
Definition RTC_CAL_TENYEAR_Msk : Z := msk 4 20.

Record S_RTC_TIME_DATA_T := mkTime {
  u32Year : Z; u32Month : Z; u32Day : Z; u32DayOfWeek : Z; u32Hour : Z; u32Minute : Z;
  u32Second : Z; u32TimeScale : Z; u32AmPm : Z }.
#[global] Instance eta_time : Eta S_RTC_TIME_DATA_T := fun t =>
  mkTime (u32Year t) (u32Month t) (u32Day t) (u32DayOfWeek t) (u32Hour t) (u32Minute t)
    (u32Second t) (u32TimeScale t) (u32AmPm t).

(** The file-scope digits [g_u32hiYear], ... *)
Record rtc_digits := mkDigits {
  hiYear : Z; loYear : Z; hiMonth : Z; loMonth : Z; hiDay : Z; loDay : Z;
  hiHour : Z; loHour : Z; hiMin : Z; loMin : Z; hiSec : Z; loSec : Z }.

Record rtc_st := mkRtc { rregs : rreg -> Z; digits : rtc_digits }.
#[global] Instance eta_rtc_st : Eta rtc_st := fun s => mkRtc (rregs s) (digits s).

Definition rd (r : rreg) : M rtc_st Z := gets (fun s => rregs s r).
Definition wr (r : rreg) (v : Z) : M rtc_st unit :=
  modify (fun s => s <| rregs ::= <[r := u32 v]> |>).

(** ** Reading *)
Definition field (reg mask pos : Z) : Z := Z.shiftr (Z.land reg mask) pos.

(** The digits, from six reads of the date and six of the time.  The alarm
    registers have the fields of the current date and time. *)
Definition read_digits (cal time : nat -> Z) : rtc_digits :=
  mkDigits
    (field (cal 0%nat) RTC_CAL_TENYEAR_Msk RTC_CAL_TENYEAR_Pos)
    (field (cal 1%nat) RTC_CAL_YEAR_Msk RTC_CAL_YEAR_Pos)
    (field (cal 2%nat) RTC_CAL_TENMON_Msk RTC_CAL_TENMON_Pos)
    (field (cal 3%nat) RTC_CAL_MON_Msk RTC_CAL_MON_Pos)
    (field (cal 4%nat) RTC_CAL_TENDAY_Msk RTC_CAL_TENDAY_Pos)
    (field (cal 5%nat) RTC_CAL_DAY_Msk RTC_CAL_DAY_Pos)
    (field (time 0%nat) RTC_TIME_TENHR_Msk RTC_TIME_TENHR_Pos)
    (field (time 1%nat) RTC_TIME_HR_Msk RTC_TIME_HR_Pos)
    (field (time 2%nat) RTC_TIME_TENMIN_Msk RTC_TIME_TENMIN_Pos)
    (field (time 3%nat) RTC_TIME_MIN_Msk RTC_TIME_MIN_Pos)
    (field (time 4%nat) RTC_TIME_TENSEC_Msk RTC_TIME_TENSEC_Pos)
    (field (time 5%nat) RTC_TIME_SEC_Msk RTC_TIME_SEC_Pos).

Definition two (hi lo : Z) : Z := u32 (u32 (hi * 10) + lo).

(** The date and time of the digits; in 12-hour mode the hours of PM are 21 to
    32. *)
Definition from_digits (d : rtc_digits) (scale dow : Z) (sPt : S_RTC_TIME_DATA_T) : S_RTC_TIME_DATA_T :=
  let hour := two (hiHour d) (loHour d) in
  let '(hour, ampm) :=
    if scale =? RTC_CLOCK_12 then
      if hour >=? 21 then (hour - 20, RTC_PM) else (hour, RTC_AM)
    else (hour, u32AmPm sPt) in
  mkTime (u32 (two (hiYear d) (loYear d) + RTC_YEAR2000)) (two (hiMonth d) (loMonth d))
    (two (hiDay d) (loDay d)) dow hour (two (hiMin d) (loMin d)) (two (hiSec d) (loSec d)) scale ampm.

Definition get_date_time (cal time : nat -> Z) (sPt : S_RTC_TIME_DATA_T) : M rtc_st S_RTC_TIME_DATA_T :=
  clkfmt ← rd CLKFMT;
  weekday ← rd WEEKDAY;
  modify (fun s => s <| digits := read_digits cal time |>);;
  d ← gets digits;
  mret (from_digits d (Z.land clkfmt RTC_CLKFMT_24HEN_Msk) (Z.land weekday RTC_WEEKDAY_WEEKDAY_Msk) sPt).

(** [cal k] and [time k] are the [k]-th values of [RTC->CAL] and [RTC->TIME]. *)
Definition RTC_GetDateAndTime (cal time : nat -> Z) (sPt : S_RTC_TIME_DATA_T) : M rtc_st S_RTC_TIME_DATA_T :=
  get_date_time cal time sPt.

Definition RTC_GetAlarmDateAndTime (sPt : S_RTC_TIME_DATA_T) : M rtc_st S_RTC_TIME_DATA_T :=
  calm ← rd CALM;
  talm ← rd TALM;
  get_date_time (fun _ => calm) (fun _ => talm) sPt.

Definition RTC_GetDayOfWeek : M rtc_st Z :=
  weekday ← rd WEEKDAY; mret (Z.land weekday RTC_WEEKDAY_WEEKDAY_Msk).

(** ** Writing *)

(** Three pairs of digits in the fields from bit 20 down. *)
Definition pack_bcd (a b c : Z) : Z :=
  u32 (Z.lor (Z.shiftl (a / 10) 20) (Z.lor (Z.shiftl (a mod 10) 16)
      (Z.lor (Z.shiftl (b / 10) 12) (Z.lor (Z.shiftl (b mod 10) 8)
      (Z.lor (Z.shiftl (c / 10) 4) (c mod 10)))))).
Definition u32RegCAL (year month day : Z) : Z := pack_bcd (u64 (year - RTC_YEAR2000)) month day.
Definition u32RegTIME (hour minute second : Z) : Z := pack_bcd hour minute second.

(** The hour in the range of the mode: PM hours of 12-hour mode are 20 higher. *)
Definition pm_hour (scale ampm hour : Z) : Z :=
  if (scale =? RTC_CLOCK_12) && (ampm =? RTC_PM) then u32 (hour + 20) else hour.

(** The caller's structure is changed: its time scale and, for PM, its hour. *)
Definition set_scale (sPt : S_RTC_TIME_DATA_T) : M rtc_st S_RTC_TIME_DATA_T :=
  clkfmt ← rd CLKFMT;
  let scale := Z.land clkfmt RTC_CLKFMT_24HEN_Msk in
  mret (sPt <| u32TimeScale := scale |> <| u32Hour ::= pm_hour scale (u32AmPm sPt) |>).

Definition RTC_SetDateAndTime (sPt : S_RTC_TIME_DATA_T) : M rtc_st S_RTC_TIME_DATA_T :=
  sPt ← set_scale sPt;
  wr WEEKDAY (u32DayOfWeek sPt);;
  wr CAL (u32RegCAL (u32Year sPt) (u32Month sPt) (u32Day sPt));;
  wr TIME (u32RegTIME (u32Hour sPt) (u32Minute sPt) (u32Second sPt));;
  mret sPt.

Definition RTC_SetAlarmDateAndTime (sPt : S_RTC_TIME_DATA_T) : M rtc_st S_RTC_TIME_DATA_T :=
  sPt ← set_scale sPt;
  wr CALM (u32RegCAL (u32Year sPt) (u32Month sPt) (u32Day sPt));;
  wr TALM (u32RegTIME (u32Hour sPt) (u32Minute sPt) (u32Second sPt));;
  mret sPt.

Definition RTC_SetDate (u32Year u32Month u32Day u32DayOfWeek : Z) : M rtc_st unit :=
  wr WEEKDAY (Z.land u32DayOfWeek RTC_WEEKDAY_WEEKDAY_Msk);;
  wr CAL (u32RegCAL u32Year u32Month u32Day).

Definition RTC_SetTime (u32Hour u32Minute u32Second u32TimeMode u32AmPm : Z) : M rtc_st unit :=
  clkfmt ← rd CLKFMT;
  let u32TimeMode := Z.land clkfmt RTC_CLOCK_24 in
  wr TIME (u32RegTIME (pm_hour u32TimeMode u32AmPm u32Hour) u32Minute u32Second).

Definition RTC_SetAlarmDate (u32Year u32Month u32Day : Z) : M rtc_st unit :=
  wr CALM (u32RegCAL u32Year u32Month u32Day).

Definition RTC_SetAlarmTime (u32Hour u32Minute u32Second u32TimeMode u32AmPm : Z) : M rtc_st unit :=
  clkfmt ← rd CLKFMT;
  let u32TimeMode := Z.land clkfmt RTC_CLOCK_24 in
  wr TALM (u32RegTIME (pm_hour u32TimeMode u32AmPm u32Hour) u32Minute u32Second).

(** Six flags, the first in bit 5. *)
Definition mask_flags (a b c d e f : Z) : Z :=
  Z.lor (Z.shiftl a 5) (Z.lor (Z.shiftl b 4) (Z.lor (Z.shiftl c 3) (Z.lor (Z.shiftl d 2)
    (Z.lor (Z.shiftl e 1) (Z.shiftl f 0))))).

Definition RTC_SetAlarmDateMask (u8IsTenYMsk u8IsYMsk u8IsTenMMsk u8IsMMsk u8IsTenDMsk u8IsDMsk : Z)
    : M rtc_st unit :=
  wr CAMSK (mask_flags u8IsTenYMsk u8IsYMsk u8IsTenMMsk u8IsMMsk u8IsTenDMsk u8IsDMsk).

Definition RTC_SetAlarmTimeMask (u8IsTenHMsk u8IsHMsk u8IsTenMMsk u8IsMMsk u8IsTenSMsk u8IsSMsk : Z)
    : M rtc_st unit :=
  wr TAMSK (mask_flags u8IsTenHMsk u8IsHMsk u8IsTenMMsk u8IsMMsk u8IsTenSMsk u8IsSMsk).

Definition RTC_SetTickPeriod (u32TickSelection : Z) : M rtc_st unit :=
  tick ← rd TICK; wr TICK (Z.lor (Z.ldiff tick RTC_TICK_TICK_Msk) u32TickSelection).

Definition RTC_EnableInt (u32IntFlagMask : Z) : M rtc_st unit :=
  inten ← rd INTEN; wr INTEN (Z.lor inten u32IntFlagMask).

Definition RTC_DisableInt (u32IntFlagMask : Z) : M rtc_st unit :=
  inten ← rd INTEN;
  wr INTEN (Z.ldiff inten u32IntFlagMask);;
  wr INTSTS u32IntFlagMask.

(** [init k] is the [k]-th value read from [RTC->INIT]. *)
Definition RTC_Open (fuel : nat) (init : nat -> Z) (sPt : option S_RTC_TIME_DATA_T)
    : M rtc_st S_RTC_TIME_DATA_T :=
  let active v := v =? RTC_INIT_ACTIVE_Msk in
  wr INIT RTC_INIT_KEY;;
  when (negb (active (init 0%nat)))
    (wr INIT RTC_INIT_KEY;; lift (poll fuel active init 1));;
  match sPt with
  | None => fail NullDeref
  | Some sPt => RTC_SetDateAndTime sPt
  end.

(** * Digits *)
Definition bcd_value (a b c : Z) : Z :=
  (a / 10) * 2 ^ 20 + (a mod 10) * 2 ^ 16 + (b / 10) * 2 ^ 12 + (b mod 10) * 2 ^ 8 +
  (c / 10) * 2 ^ 4 + c mod 10.

(** A value of two digits, the first below 16. *)
Lemma two_digits a : 0 <= a < 160 -> 0 <= a / 10 < 16 /\ 0 <= a mod 10 < 10 /\ a = a / 10 * 10 + a mod 10.
Proof. intros. Z.div_mod_to_equations. lia. Qed.

Lemma pack_bcd_value a b c :
  0 <= a < 160 -> 0 <= b < 160 -> 0 <= c < 160 -> pack_bcd a b c = bcd_value a b c.
Proof.
  intros Ha%two_digits Hb%two_digits Hc%two_digits. unfold pack_bcd, bcd_value.
  rewrite (lor_shiftl_add _ (c / 10) 4), (lor_shiftl_add _ (b mod 10) 8), (lor_shiftl_add _ (b / 10) 12),
    (lor_shiftl_add _ (a mod 10) 16), (lor_shiftl_add _ (a / 10) 20) by lia.
  rewrite uwrap_id by lia. lia.
Qed.

(** Reading a pair of digits back: the tens from a field of [w] bits. *)
Lemma read_pairs a b c w :
  0 <= a < 160 -> 0 <= b < 160 -> 0 <= c < 160 -> 0 <= w <= 4 ->
  (a / 10 < 2 ^ w ->
     two (field (bcd_value a b c) (msk w 20) 20) (field (bcd_value a b c) (msk 4 16) 16) = a) /\
  (b / 10 < 2 ^ w ->
     two (field (bcd_value a b c) (msk w 12) 12) (field (bcd_value a b c) (msk 4 8) 8) = b) /\
  (c / 10 < 2 ^ w ->
     two (field (bcd_value a b c) (msk w 4) 4) (field (bcd_value a b c) (msk 4 0) 0) = c).
Proof.
  intros (? & ? & Ea)%two_digits (? & ? & Eb)%two_digits (? & ? & Ec)%two_digits Hw.
  unfold field, msk, bcd_value. rewrite !field_mask_shift by lia.
  set (a1 := a / 10) in *. set (a0 := a mod 10) in *. set (b1 := b / 10) in *.
  set (b0 := b mod 10) in *. set (c1 := c / 10) in *. set (c0 := c mod 10) in *.
  clearbody a1 a0 b1 b0 c1 c0.
  set (v := a1 * 2 ^ 20 + a0 * 2 ^ 16 + b1 * 2 ^ 12 + b0 * 2 ^ 8 + c1 * 2 ^ 4 + c0).
  assert (v / 2 ^ 20 = a1 /\ (v / 2 ^ 16) mod 2 ^ 4 = a0) as [-> ->]
    by (unfold v; clear v Hw; Z.div_mod_to_equations; lia).
  assert ((v / 2 ^ 8) mod 2 ^ 4 = b0 /\ (v / 2 ^ 0) mod 2 ^ 4 = c0) as [-> ->]
    by (unfold v; clear v Hw; Z.div_mod_to_equations; lia).
  assert (exists q, v / 2 ^ 12 = q * 16 + b1) as [q1 ->]
    by (exists (a1 * 16 + a0); unfold v; clear v Hw; Z.div_mod_to_equations; lia).
  assert (exists q, v / 2 ^ 4 = q * 16 + c1) as [q2 ->]
    by (exists (a1 * 2 ^ 12 + a0 * 2 ^ 8 + b1 * 2 ^ 4 + b0); unfold v; clear v Hw; Z.div_mod_to_equations; lia).
  assert (forall q x, 0 <= x < 2 ^ w -> (q * 16 + x) mod 2 ^ w = x) as Hm.
  { intros q x Hx. replace (q * 16) with (q * 2 ^ (4 - w) * 2 ^ w).
    - rewrite Z.add_comm, Z.mod_add by lia. by apply Z.mod_small.
    - rewrite <- Z.mul_assoc, <- Z.pow_add_r by lia. by replace (4 - w + w) with 4 by lia. }
  unfold two. repeat split; intros Hx; rewrite ?Hm, ?(Z.mod_small a1) by lia;
    rewrite !uwrap_id by (rewrite ?uwrap_id; lia); lia.
Qed.

(** * Setting and reading the clock *)

(** A date and time the clock can hold, in the mode [scale]. *)
Record valid_time (scale : Z) (d : S_RTC_TIME_DATA_T) : Prop := {
  vt_year : 2000 <= u32Year d <= 2099; vt_month : 1 <= u32Month d <= 12; vt_day : 1 <= u32Day d <= 31;
  vt_dow : 0 <= u32DayOfWeek d <= 6;
  vt_hour : if scale =? RTC_CLOCK_12
            then 1 <= u32Hour d <= 12 /\ (u32AmPm d = RTC_AM \/ u32AmPm d = RTC_PM)
            else 0 <= u32Hour d <= 23;
  vt_minute : 0 <= u32Minute d <= 59; vt_second : 0 <= u32Second d <= 59 }.

(** The registers that hold a date and a time. *)
Definition cal_value (d : S_RTC_TIME_DATA_T) : Z := bcd_value (u32Year d - 2000) (u32Month d) (u32Day d).
Definition time_value (scale : Z) (d : S_RTC_TIME_DATA_T) : Z :=
  bcd_value (pm_hour scale (u32AmPm d) (u32Hour d)) (u32Minute d) (u32Second d).

Definition scale_of (s : rtc_st) : Z := Z.land (rregs s CLKFMT) RTC_CLKFMT_24HEN_Msk.

Lemma scale_cases s : scale_of s = RTC_CLOCK_12 \/ scale_of s = RTC_CLOCK_24.
Proof.
  unfold scale_of. change RTC_CLKFMT_24HEN_Msk with (Z.ones 1). rewrite Z.land_ones by lia.
  pose proof (Z.mod_pos_bound (rregs s CLKFMT) (2 ^ 1) ltac:(lia)). unfold RTC_CLOCK_12, RTC_CLOCK_24. lia.
Qed.

Lemma hour_range scale d : valid_time scale d -> 0 <= pm_hour scale (u32AmPm d) (u32Hour d) <= 32.
Proof.
  intros [_ _ _ _ Hh _ _]. unfold pm_hour. destruct (scale =? RTC_CLOCK_12); cbn [andb]; [|lia].
  case_if; [rewrite uwrap_id by lia|]; lia.
Qed.

Lemma bcd_value_range a b c :
  0 <= a < 160 -> 0 <= b < 160 -> 0 <= c < 160 -> 0 <= bcd_value a b c < 2 ^ 32.
Proof. intros Ha%two_digits Hb%two_digits Hc%two_digits. unfold bcd_value. lia. Qed.

(** The digits of the date of [d] and the time of [e]. *)
Lemma from_registers scale dow d e out :
  valid_time scale d -> valid_time scale e ->
  from_digits (read_digits (fun _ => cal_value d) (fun _ => time_value scale e)) scale dow out =
    mkTime (u32Year d) (u32Month d) (u32Day d) dow (u32Hour e) (u32Minute e) (u32Second e) scale
      (if scale =? RTC_CLOCK_12 then u32AmPm e else u32AmPm out).
Proof.
  intros [Hy Hm Hd _ _ _ _] He. pose proof (hour_range scale e He) as Hr.
  destruct He as [_ _ _ _ Hh Hmi Hs].
  unfold read_digits, from_digits, cal_value, time_value. cbn [hiYear loYear hiMonth loMonth hiDay loDay
    hiHour loHour hiMin loMin hiSec loSec].
  set (h := pm_hour scale (u32AmPm e) (u32Hour e)) in *.
  assert (forall x k, 0 <= x -> x < 10 * k -> x / 10 < k) as Hdiv
    by (intros; apply Z.div_lt_upper_bound; lia).
  unfold RTC_CAL_TENYEAR_Msk, RTC_CAL_TENYEAR_Pos, RTC_CAL_YEAR_Msk, RTC_CAL_YEAR_Pos,
    RTC_CAL_TENMON_Msk, RTC_CAL_TENMON_Pos, RTC_CAL_MON_Msk, RTC_CAL_MON_Pos, RTC_CAL_TENDAY_Msk,
    RTC_CAL_TENDAY_Pos, RTC_CAL_DAY_Msk, RTC_CAL_DAY_Pos, RTC_TIME_TENHR_Msk, RTC_TIME_TENHR_Pos,
    RTC_TIME_HR_Msk, RTC_TIME_HR_Pos, RTC_TIME_TENMIN_Msk, RTC_TIME_TENMIN_Pos, RTC_TIME_MIN_Msk,
    RTC_TIME_MIN_Pos, RTC_TIME_TENSEC_Msk, RTC_TIME_TENSEC_Pos, RTC_TIME_SEC_Msk, RTC_TIME_SEC_Pos.
  destruct (read_pairs (u32Year d - 2000) (u32Month d) (u32Day d) 4) as (Ey & _ & _); [lia..|].
  destruct (read_pairs (u32Year d - 2000) (u32Month d) (u32Day d) 1) as (_ & Em & _); [lia..|].
  destruct (read_pairs (u32Year d - 2000) (u32Month d) (u32Day d) 2) as (_ & _ & Ed); [lia..|].
  destruct (read_pairs h (u32Minute e) (u32Second e) 2) as (Eh & _ & _); [lia..|].
  destruct (read_pairs h (u32Minute e) (u32Second e) 3) as (_ & Emi & Es); [lia..|].
  rewrite Ey, Em, Ed, Eh, Emi, Es by (apply Hdiv; lia). clear Ey Em Ed Eh Emi Es Hdiv.
  unfold RTC_YEAR2000.
  replace (u32Year d - 2000 + 2000) with (u32Year d) by lia. rewrite (uwrap_id 32 (u32Year d)) by lia.
  unfold h, pm_hour in *. clear Hr. destruct (scale =? RTC_CLOCK_12); cbn [andb] in *; [|done].
  destruct Hh as [Hh1 [-> | ->]]; cbn [Z.eqb]; unfold RTC_AM, RTC_PM; cbn [Z.eqb Pos.eqb].
  - rewrite Z.geb_leb, (proj2 (Z.leb_gt _ _)) by lia. done.
  - rewrite uwrap_id, Z.geb_leb, (proj2 (Z.leb_le _ _)) by lia. by replace (u32Hour e + 20 - 20) with (u32Hour e) by lia.
Qed.

Lemma reg_values scale d :
  valid_time scale d ->
  u32 (u32RegCAL (u32Year d) (u32Month d) (u32Day d)) = cal_value d /\
  u32 (u32RegTIME (pm_hour scale (u32AmPm d) (u32Hour d)) (u32Minute d) (u32Second d)) = time_value scale d.
Proof.
  intros Hv. pose proof (hour_range _ _ Hv). destruct Hv as [Hy Hm Hd _ _ Hmi Hs].
  unfold u32RegCAL, u32RegTIME, cal_value, time_value, RTC_YEAR2000.
  rewrite (uwrap_id 64) by lia. rewrite !pack_bcd_value by lia.
  rewrite !uwrap_id by (apply bcd_value_range; lia). done.
Qed.

(** The caller's structure after setting. *)
Definition scaled (scale : Z) (d : S_RTC_TIME_DATA_T) : S_RTC_TIME_DATA_T :=
  d <| u32TimeScale := scale |> <| u32Hour ::= pm_hour scale (u32AmPm d) |>.

Lemma SetDateAndTime_regs d s :
  valid_time (scale_of s) d ->
  RTC_SetDateAndTime d s = Ok (scaled (scale_of s) d,
    s <| rregs ::= fun r => <[TIME := time_value (scale_of s) d]> (<[CAL := cal_value d]>
                             (<[WEEKDAY := u32DayOfWeek d]> r)) |>).
Proof.
  intros Hv. destruct (reg_values _ _ Hv) as [Ec Et]. destruct Hv as [_ _ _ Hw _ _ _].
  unfold RTC_SetDateAndTime, set_scale, rd, wr, gets, modify, mbind, M_bind, mret, M_ret.
  fold (scale_of s). cbn. rewrite (uwrap_id 32 (u32DayOfWeek d)) by lia.
  cbn in Et. by rewrite Ec, Et.
Qed.

Lemma SetAlarm_regs d s :
  valid_time (scale_of s) d ->
  RTC_SetAlarmDateAndTime d s = Ok (scaled (scale_of s) d,
    s <| rregs ::= fun r => <[TALM := time_value (scale_of s) d]> (<[CALM := cal_value d]> r) |>).
Proof.
  intros Hv. destruct (reg_values _ _ Hv) as [Ec Et].
  unfold RTC_SetAlarmDateAndTime, set_scale, rd, wr, gets, modify, mbind, M_bind, mret, M_ret.
  fold (scale_of s). cbn. by rewrite Ec, Et.
Qed.

Lemma get_registers cal time d e out s :
  valid_time (scale_of s) d -> valid_time (scale_of s) e ->
  (forall k, cal k = cal_value d) -> (forall k, time k = time_value (scale_of s) e) ->
  get_date_time cal time out s =
    Ok (mkTime (u32Year d) (u32Month d) (u32Day d) (Z.land (rregs s WEEKDAY) RTC_WEEKDAY_WEEKDAY_Msk)
          (u32Hour e) (u32Minute e) (u32Second e) (scale_of s)
          (if scale_of s =? RTC_CLOCK_12 then u32AmPm e else u32AmPm out),
        s <| digits := read_digits cal time |>).
Proof.
  intros Hd He Hc Ht. unfold get_date_time, rd, gets, modify, mbind, M_bind, mret, M_ret.
  fold (scale_of s). cbv beta iota. do 2 f_equal.
  rewrite <- (from_registers _ _ d e out Hd He). f_equal.
  unfold read_digits. by rewrite !Hc, !Ht.
Qed.

(** C30: A date and time that was set is read back, in both modes, and so is an
    alarm: the structure returned has the mode of the clock and, in 24-hour
    mode, the caller's AM/PM field. *)
Theorem RTC_set_get d out s :
  valid_time (scale_of s) d ->
  let back := d <| u32TimeScale := scale_of s |>
                <| u32AmPm := if scale_of s =? RTC_CLOCK_12 then u32AmPm d else u32AmPm out |> in
  (exists d' s' s'', RTC_SetDateAndTime d s = Ok (d', s') /\
     RTC_GetDateAndTime (fun _ => rregs s' CAL) (fun _ => rregs s' TIME) out s' = Ok (back, s'')) /\
  (exists d' s' s'', RTC_SetAlarmDateAndTime d s = Ok (d', s') /\
     RTC_GetAlarmDateAndTime out s' =
       Ok (back <| u32DayOfWeek := rregs s WEEKDAY mod 2 ^ 3 |>, s'')).
Proof.
  intros Hv back. rewrite (SetDateAndTime_regs d s Hv), (SetAlarm_regs d s Hv).
  split; eexists _, _, _; (split; [done|]).
  - unfold RTC_GetDateAndTime. erewrite (get_registers _ _ d d); [|done..].
    match goal with |- context [Z.land ?x RTC_WEEKDAY_WEEKDAY_Msk] => change x with (u32DayOfWeek d) end.
    assert (Z.land (u32DayOfWeek d) RTC_WEEKDAY_WEEKDAY_Msk = u32DayOfWeek d) as ->.
    { change RTC_WEEKDAY_WEEKDAY_Msk with (Z.ones 3). rewrite Z.land_ones by lia.
      apply Z.mod_small. destruct Hv. lia. }
    unfold back. by destruct d.
  - unfold RTC_GetAlarmDateAndTime, rd, gets. unfold mbind at 1 2, M_bind at 1 2.
    erewrite (get_registers _ _ d d); [|done..]. unfold back.
    change RTC_WEEKDAY_WEEKDAY_Msk with (Z.ones 3). rewrite Z.land_ones by lia. by destruct d.
Qed.

(** The clock in 12-hour mode, and 2024-12-31, 11:59:59 PM, a Tuesday. *)
Definition rtc_ex : rtc_st := mkRtc (fun _ => 0) (mkDigits 0 0 0 0 0 0 0 0 0 0 0 0).
Definition eve_ex : S_RTC_TIME_DATA_T := mkTime 2024 12 31 2 11 59 59 0 RTC_PM.

Lemma eve_ex_valid : valid_time (scale_of rtc_ex) eve_ex.
Proof. constructor; cbn; try lia. split; [lia|by right]. Qed.

Lemma RTC_set_get_witness :
  exists d' s' s'', RTC_SetDateAndTime eve_ex rtc_ex = Ok (d', s') /\
    RTC_GetDateAndTime (fun _ => rregs s' CAL) (fun _ => rregs s' TIME) eve_ex s' = Ok (eve_ex, s'') /\
    rregs s' TIME = 0x315959.
Proof.
  destruct (RTC_set_get eve_ex eve_ex rtc_ex eve_ex_valid) as [(d' & s' & s'' & E1 & E2) _].
  exists d', s', s''. split; [exact E1|]. split; [exact E2|].
  injection E1 as <- <-. by vm_compute.
Defined.



Lemma field_add v w p : 0 <= w -> 0 <= p -> p + w <= 22 -> field (v + 2 ^ 22) (msk w p) p = field v (msk w p) p.
Proof.
  intros. unfold field, msk. rewrite !field_mask_shift by lia.
  replace (2 ^ 22) with (2 ^ (22 - p) * 2 ^ p) by (rewrite <- Z.pow_add_r by lia; f_equal; lia).
  rewrite Z.div_add by lia.
  replace (2 ^ (22 - p)) with (2 ^ (22 - p - w) * 2 ^ w) by (rewrite <- Z.pow_add_r by lia; f_equal; lia).
  by rewrite Z.mod_add by lia.
Qed.

(** The bits above the hour are not read. *)
Lemma read_digits_add cal v : read_digits cal (fun _ => v + 2 ^ 22) = read_digits cal (fun _ => v).
Proof.
  unfold read_digits, RTC_TIME_TENHR_Msk, RTC_TIME_HR_Msk, RTC_TIME_TENMIN_Msk, RTC_TIME_MIN_Msk,
    RTC_TIME_TENSEC_Msk, RTC_TIME_SEC_Msk, RTC_TIME_TENHR_Pos, RTC_TIME_HR_Pos, RTC_TIME_TENMIN_Pos,
    RTC_TIME_MIN_Pos, RTC_TIME_TENSEC_Pos, RTC_TIME_SEC_Pos.
  by rewrite !field_add by lia.
Qed.

(** Setting the clock again with the structure the first call returned. *)
Lemma set_again d s s1 :
  valid_time (scale_of s) d -> scale_of s = RTC_CLOCK_12 -> u32AmPm d = RTC_PM -> scale_of s1 = scale_of s ->
  exists d2, RTC_SetDateAndTime (scaled (scale_of s) d) s1 = Ok (d2,
    s1 <| rregs ::= fun r => <[TIME := bcd_value (u32Hour d) (u32Minute d) (u32Second d) + 2 ^ 22]>
            (<[CAL := cal_value d]> (<[WEEKDAY := u32DayOfWeek d]> r)) |>).
Proof.
  intros Hv Hs Hp Hs1. destruct (reg_values _ _ Hv) as [Ec _].
  destruct Hv as [Hy Hm Hd Hw Hh Hmi Hse]. rewrite Hs in *. cbn in Hh. destruct Hh as [Hh _].
  assert (u32 (u32RegTIME (u32Hour d + 40) (u32Minute d) (u32Second d)) =
          bcd_value (u32Hour d) (u32Minute d) (u32Second d) + 2 ^ 22) as Et.
  { unfold u32RegTIME. rewrite pack_bcd_value, uwrap_id by (try apply bcd_value_range; lia).
    unfold bcd_value. Z.div_mod_to_equations. lia. }
  unfold RTC_SetDateAndTime, set_scale, rd, wr, gets, modify, mbind, M_bind, mret, M_ret.
  fold (scale_of s1). rewrite Hs1. unfold scaled, pm_hour. cbn -[u32RegTIME u32RegCAL].
  rewrite Hp. cbn -[u32RegTIME u32RegCAL]. rewrite (uwrap_id 32 (u32Hour d + 20)) by lia.
  rewrite (uwrap_id 32 (u32Hour d + 20 + 20)) by lia.
  replace (u32Hour d + 20 + 20) with (u32Hour d + 40) by lia.
  rewrite Et, Ec, (uwrap_id 32 (u32DayOfWeek d)) by lia. by eexists.
Qed.

(** C33: In 12-hour mode [RTC_SetDateAndTime] leaves the hour of its structure 20
    higher for PM: setting the clock twice with the same structure makes it AM. *)
Theorem RTC_SetDateAndTime_twice d out s :
  valid_time (scale_of s) d -> scale_of s = RTC_CLOCK_12 -> u32AmPm d = RTC_PM ->
  exists d1 s1 d2 s2 t s3,
    RTC_SetDateAndTime d s = Ok (d1, s1) /\ RTC_SetDateAndTime d1 s1 = Ok (d2, s2) /\
    RTC_GetDateAndTime (fun _ => rregs s2 CAL) (fun _ => rregs s2 TIME) out s2 = Ok (t, s3) /\
    u32Hour t = u32Hour d /\ u32AmPm t = RTC_AM.
Proof.
  intros Hv Hs Hp. pose proof (SetDateAndTime_regs d s Hv) as E1.
  match type of E1 with _ = Ok (_, ?st) => destruct (set_again d s st Hv Hs Hp eq_refl) as [d2 E2] end.
  eexists _, _, d2, _, _, _. split; [exact E1|]. split; [exact E2|].
  unfold RTC_GetDateAndTime, get_date_time, rd, gets, modify, mbind, M_bind, mret, M_ret.
  cbv beta iota. split; [done|].
  match goal with |- context [from_digits ?a ?b ?c ?e] =>
    change (from_digits a b c e) with (from_digits (read_digits (fun _ => cal_value d)
      (fun _ => bcd_value (u32Hour d) (u32Minute d) (u32Second d) + 2 ^ 22)) (scale_of s) c e) end.
  rewrite read_digits_add.
  assert (valid_time (scale_of s) (d <| u32AmPm := RTC_AM |>)) as Ha.
  { destruct Hv as [? ? ? ? Hh ? ?]. constructor; try done. rewrite Hs in *. cbn in *. split; [lia|by left]. }
  match goal with |- context [from_digits _ _ ?c _] => generalize c; intros dow end.
  pose proof (from_registers (scale_of s) dow d (d <| u32AmPm := RTC_AM |>) out Hv Ha) as H.
  unfold time_value in H. cbn in H. rewrite Hs in *. cbn in H. rewrite H. done.
Qed.

Lemma RTC_SetDateAndTime_twice_witness :
  exists d1 s1 d2 s2 t s3,
    RTC_SetDateAndTime eve_ex rtc_ex = Ok (d1, s1) /\ RTC_SetDateAndTime d1 s1 = Ok (d2, s2) /\
    RTC_GetDateAndTime (fun _ => rregs s2 CAL) (fun _ => rregs s2 TIME) eve_ex s2 = Ok (t, s3) /\
    u32Hour t = 11 /\ u32AmPm t = RTC_AM.
Proof.
  exact (RTC_SetDateAndTime_twice eve_ex eve_ex rtc_ex eve_ex_valid ltac:(reflexivity) ltac:(reflexivity)).
Defined.

(** C31: Setting date and time at once is setting the date and then the time, and
    the same for the alarm, for every structure whose day of the week has three
    bits; the mode argument of the separate calls is not used. *)
Theorem RTC_set_split d mode s :
  0 <= u32DayOfWeek d < 2 ^ 3 ->
  (RTC_SetDate (u32Year d) (u32Month d) (u32Day d) (u32DayOfWeek d);;
   RTC_SetTime (u32Hour d) (u32Minute d) (u32Second d) mode (u32AmPm d)) s =
    (RTC_SetDateAndTime d;; mret tt) s /\
  (RTC_SetAlarmDate (u32Year d) (u32Month d) (u32Day d);;
   RTC_SetAlarmTime (u32Hour d) (u32Minute d) (u32Second d) mode (u32AmPm d)) s =
    (RTC_SetAlarmDateAndTime d;; mret tt) s.
Proof.
  intros Hw. unfold RTC_SetDate, RTC_SetTime, RTC_SetAlarmDate, RTC_SetAlarmTime, RTC_SetDateAndTime,
    RTC_SetAlarmDateAndTime, set_scale, rd, wr, gets, modify, mbind, M_bind, mret, M_ret.
  cbn -[u32RegTIME u32RegCAL uwrap]. split; [|done].
  change RTC_WEEKDAY_WEEKDAY_Msk with (Z.ones 3). rewrite Z.land_ones by lia.
  by rewrite (Z.mod_small (u32DayOfWeek d)) by lia.
Qed.

Lemma RTC_set_split_witness :
  exists s', (RTC_SetDate 2024 12 31 2;; RTC_SetTime 11 59 59 7 RTC_PM) rtc_ex = Ok (tt, s') /\
    rregs s' CAL = 0x241231.
Proof.
  destruct (RTC_set_split eve_ex 7 rtc_ex ltac:(cbn; lia)) as [H _].
  eexists. split; [exact H|]. by vm_compute.
Defined.
