(* ===== verification/HidParser.v ===== *)
(** HID report parser of the USB host library: [src_hid/hid_parser.c], with the
    types of [inc/usbh_hid.h].

    The state is the file-scope variables of the parser, the report description
    of the device and the DMA buffers (through the interface [DmaAlloc]).  The
    list of reports, linked through [next] in buffers of their own, is a list
    of the buffers' addresses and contents.  Descriptors and report data are
    byte lists; a read outside them is a fault.  The transfers of the HID class
    driver ([usbh_hid_get_report_descriptor], [usbh_hid_set_report]) are
    parameters. *)
From S2P Require Import Prelude UsbDefs DmaAlloc.

(** ** Constants and data (usbh_hid.h) *)
Definition HID_DESCRIPTOR_TYPE : Z := 0x21.
Definition REPORT_DESCRIPTOR_TYPE : Z := 0x22.
Definition USB_CLASS_HID : Z := 0x03.
Definition HID_SUBCLASS_BOOT_DEVICE : Z := 0x01.
Definition HID_PROTOCOL_KEYBOARD : Z := 0x01.
Definition TAG_INPUT : Z := 0x80.
Definition TAG_OUTPUT : Z := 0x90.
Definition TAG_FEATURE : Z := 0xB0.
Definition TAG_COLLECTION : Z := 0xA0.
Definition TAG_USAGE_PAGE : Z := 0x04.
Definition TAG_LOGICAL_MIN : Z := 0x14.
Definition TAG_LOGICAL_MAX : Z := 0x24.
Definition TAG_PHYSICAL_MIN : Z := 0x34.
Definition TAG_PHYSICAL_MAX : Z := 0x44.
Definition TAG_UNIT_EXPONENT : Z := 0x54.
Definition TAG_UNIT : Z := 0x64.
Definition TAG_REPORT_SIZE : Z := 0x74.
Definition TAG_REPORT_ID : Z := 0x84.
Definition TAG_REPORT_COUNT : Z := 0x94.
Definition TAG_USAGE : Z := 0x08.
Definition TAG_USAGE_MIN : Z := 0x18.
Definition TAG_USAGE_MAX : Z := 0x28.
Definition TAG_DESIGNATOR_INDEX : Z := 0x38.
Definition TAG_DESIGNATOR_MIN : Z := 0x48.
Definition TAG_DESIGNATOR_MAX : Z := 0x58.
Definition TAG_STRING_INDEX : Z := 0x78.
Definition TAG_STRING_MIN : Z := 0x88.
Definition TAG_STRING_MAX : Z := 0x98.
Definition UP_GENERIC_DESKTOP : Z := 0x01.
Definition UP_KEYCODE : Z := 0x07.
Definition UP_LEDS : Z := 0x08.
Definition UP_BUTTON : Z := 0x09.
Definition USAGE_ID_POINTER : Z := 0x01.
Definition USAGE_ID_MOUSE : Z := 0x02.
Definition USAGE_ID_KEYBOARD : Z := 0x06.
Definition USAGE_ID_X : Z := 0x30.
Definition USAGE_ID_Y : Z := 0x31.
Definition USAGE_ID_WHEEL : Z := 0x38.
Definition KEYCODE_CAPS_LOCK : Z := 0x39.
Definition KEYCODE_SCROLL_LOCK : Z := 0x47.
Definition KEYCODE_NUM_LOCK : Z := 0x53.
Definition STATE_MASK_NUM_LOCK : Z := 0x01.
Definition STATE_MASK_CAPS_LOCK : Z := 0x02.
Definition STATE_MASK_SCROLL_LOCK : Z := 0x04.
Definition RT_OUTPUT : Z := 2.

(** The one-bit fields [status] of a report. *)
Record RP_STATUS := mkStatus {
  constant : Z; variable : Z; relative : Z; wrap : Z; non_linear : Z; no_preferred : Z;
  null_state : Z; is_volatile : Z; buffered_bytes : Z }.
#[global] Instance eta_status : Eta RP_STATUS := fun s =>
  mkStatus (constant s) (variable s) (relative s) (wrap s) (non_linear s) (no_preferred s)
    (null_state s) (is_volatile s) (buffered_bytes s).

Record RP_INFO_T := mkInfo {
  rp_type : Z; usage_page : Z; app_usage : Z; data_usage : Z;
  usage_mim : Z; usage_max : Z; logical_min : Z; logical_max : Z; physical_min : Z; physical_max : Z;
  unit_exponent : Z; rp_unit : Z; designator_index : Z; designator_min : Z; designator_max : Z;
  string_index : Z; string_min : Z; string_max : Z;
  report_id : Z; report_size : Z; report_count : Z; status : RP_STATUS }.
#[global] Instance eta_info : Eta RP_INFO_T := fun r =>
  mkInfo (rp_type r) (usage_page r) (app_usage r) (data_usage r) (usage_mim r) (usage_max r)
    (logical_min r) (logical_max r) (physical_min r) (physical_max r) (unit_exponent r) (rp_unit r)
    (designator_index r) (designator_min r) (designator_max r) (string_index r) (string_min r)
    (string_max r) (report_id r) (report_size r) (report_count r) (status r).
Definition sizeof_RP_INFO_T : Z := 80.

Definition no_status : RP_STATUS := mkStatus 0 0 0 0 0 0 0 0 0.
Definition zero_info : RP_INFO_T := mkInfo 0 0 0 0 0 0 0 0 0 0 0 0 0 0 0 0 0 0 0 0 0 no_status.

Record RPD_T := mkRpd {
  has_report_id : Z; last_pressed_lock_keys : Z; lock_state : Z; report : list (Z * RP_INFO_T) }.
#[global] Instance eta_rpd : Eta RPD_T := fun r =>
  mkRpd (has_report_id r) (last_pressed_lock_keys r) (lock_state r) (report r).

(** [hid_sent] are the output reports sent, the latest first. *)
Record hid_st (D : Type) := mkHid {
  rp_info : RP_INFO_T; data_usages : list Z; data_usage_cnt : Z;
  rpd : RPD_T; hid_sent : list Z; hid_mem : D }.
Arguments mkHid {D}.
Arguments rp_info {D}.
Arguments data_usages {D}.
Arguments data_usage_cnt {D}.
Arguments rpd {D}.
Arguments hid_sent {D}.
Arguments hid_mem {D}.
#[global] Instance eta_hid_st {D} : Eta (hid_st D) := fun s =>
  mkHid (rp_info s) (data_usages s) (data_usage_cnt s) (rpd s) (hid_sent s) (hid_mem s).

(** The fields of the device that the parser reads. *)
Record HID_DEV_T := mkHidDev { bSubClassCode : Z; bProtocolCode : Z }.

Record KEYBOARD_EVENT_T := mkKbd {
  ke_lock_state : Z; modifier : Z; keycode : list Z; key_cnt : Z }.
#[global] Instance eta_kbd : Eta KEYBOARD_EVENT_T := fun k =>
  mkKbd (ke_lock_state k) (modifier k) (keycode k) (key_cnt k).

Record MOUSE_EVENT_T := mkMouse {
  axis_relative : Z; wheel_relative : Z; button_cnt : Z; button_map : Z; axis_min : Z; axis_max : Z;
  mX : Z; mY : Z; wheel_min : Z; wheel_max : Z; wheel : Z }.
#[global] Instance eta_mouse : Eta MOUSE_EVENT_T := fun m =>
  mkMouse (axis_relative m) (wheel_relative m) (button_cnt m) (button_map m) (axis_min m) (axis_max m)
    (mX m) (mY m) (wheel_min m) (wheel_max m) (wheel m).

(** ** Items *)

(** [if (byte & (1 << n)) status.field = 1] *)
Definition flag_in (byte n : Z) (old : Z) : Z := if Z.testbit byte n then 1 else old.

Definition main_item_status (b0 b1 : Z) (st : RP_STATUS) : RP_STATUS :=
  let st := if Z.testbit b0 0 then st <| constant := 1 |> <| variable := 0 |> else st in
  let st := if Z.testbit b0 1 then st <| constant := 0 |> <| variable := 1 |> else st in
  let st := st <| relative ::= flag_in b0 2 |> in
  let st := st <| wrap ::= flag_in b0 3 |> in
  let st := st <| non_linear ::= flag_in b0 4 |> in
  let st := st <| no_preferred ::= flag_in b0 5 |> in
  let st := st <| null_state ::= flag_in b0 6 |> in
  let st := st <| is_volatile ::= flag_in b0 7 |> in
  st <| buffered_bytes ::= flag_in b1 0 |>.

(** [buff] points to the byte after the item's prefix. *)
Definition hid_read_item_value (bSize : Z) (buff : list Z) : res Z :=
  if bSize =? 1 then b0 ← aget buff 0; Ok (s8 b0)
  else if bSize =? 2 then
    b0 ← aget buff 0; b1 ← aget buff 1; Ok (s16 (Z.lor b0 (Z.shiftl b1 8)))
  else if bSize =? 4 then
    b0 ← aget buff 0; b1 ← aget buff 1; b2 ← aget buff 2; b3 ← aget buff 3;
    Ok (s32 (Z.lor b0 (Z.lor (Z.shiftl b1 8) (Z.lor (Z.shiftl b2 16) (Z.shiftl b3 24)))))
  else Ok 0.

(** Size of the data and length of the whole item. *)
Definition item_header (buff : list Z) : res (Z * Z) :=
  b0 ← aget buff 0;
  let bTag := Z.land (Z.shiftr b0 4) 0xF in
  let bSize := Z.land b0 0x3 in
  if bTag =? 0xF then b1 ← aget buff 1; Ok (b1, b1 + 3)
  else let bSize := if bSize =? 3 then 4 else bSize in Ok (bSize, bSize + 1).

(** The items that set a signed value. *)
Definition value_item (tag v : Z) (r : RP_INFO_T) : option RP_INFO_T :=
  if tag =? TAG_LOGICAL_MIN then Some (r <| logical_min := v |>)
  else if tag =? TAG_LOGICAL_MAX then Some (r <| logical_max := v |>)
  else if tag =? TAG_PHYSICAL_MIN then Some (r <| physical_min := v |>)
  else if tag =? TAG_PHYSICAL_MAX then Some (r <| physical_max := v |>)
  else if tag =? TAG_UNIT_EXPONENT then Some (r <| unit_exponent := v |>)
  else if tag =? TAG_UNIT then Some (r <| rp_unit := v |>)
  else if tag =? TAG_USAGE_MIN then Some (r <| usage_mim := v |>)
  else if tag =? TAG_USAGE_MAX then Some (r <| usage_max := v |>)
  else if tag =? TAG_DESIGNATOR_INDEX then Some (r <| designator_index := v |>)
  else if tag =? TAG_DESIGNATOR_MIN then Some (r <| designator_min := v |>)
  else if tag =? TAG_DESIGNATOR_MAX then Some (r <| designator_max := v |>)
  else if tag =? TAG_STRING_INDEX then Some (r <| string_index := v |>)
  else if tag =? TAG_STRING_MIN then Some (r <| string_min := v |>)
  else if tag =? TAG_STRING_MAX then Some (r <| string_max := v |>)
  else None.

Section parser.
Context {D : Type} `{DmaAlloc D}.
Abbreviation MH := (M (hid_st D)).

Definition on_hid_mem {A} (m : M D A) : MH A := zoom hid_mem (fun d s => s <| hid_mem := d |>) m.

Definition read_main_item_status (buff : list Z) : MH unit :=
  b0 ← lift (aget buff 1);
  b1 ← lift (aget buff 2);
  modify (fun s => s <| rp_info ::= fun r => r <| status ::= main_item_status b0 b1 |> |>).

(** A copy of [_rp_info] of the given type at the end of the list. *)
Definition hid_add_report (type : Z) : MH Z :=
  p ← on_hid_mem (da_alloc sizeof_RP_INFO_T);
  if p =? NULL then mret USBH_ERR_MEMORY_OUT
  else
    modify (fun s => s <| rpd ::= fun r =>
      r <| report ::= fun l => l ++ [(p, (rp_info s) <| rp_type := type |>)] |> |>);;
    mret 0.

(** [for (i = ...; i < _data_usage_cnt; i++)]: a report per usage. *)
Fixpoint input_usages (n : nat) (i report_count : Z) : MH (option Z) :=
  match n with
  | O => mret (Some report_count)
  | S n =>
      us ← gets data_usages;
      u ← lift (aget us i);
      modify (fun s => s <| rp_info ::= fun r => r <| HidParser.report_count := 1 |> <| data_usage := u |> |>);;
      ret ← hid_add_report TAG_INPUT;
      if negb (ret =? 0) then mret None else input_usages n (i + 1) (report_count - 1)
  end.

Definition item_input (buff : list Z) : MH Z :=
  read_main_item_status buff;;
  cnt ← gets data_usage_cnt;
  ok ← (if cnt >? 0 then
          count ← gets (fun s => report_count (rp_info s));
          res ← input_usages (Z.to_nat cnt) 0 count;
          match res with
          | None => mret false
          | Some rest =>
              modify (fun s => s <| rp_info ::= fun r =>
                r <| report_count := u8 rest |> <| data_usage := 0 |> |> <| data_usage_cnt := 0 |>);;
              mret true
          end
        else mret true);
  if negb ok then mret USBH_ERR_MEMORY_OUT
  else
    count ← gets (fun s => report_count (rp_info s));
    if count >? 0 then
      ret ← hid_add_report TAG_INPUT;
      mret (if negb (ret =? 0) then USBH_ERR_MEMORY_OUT else 0)
    else mret 0.

Definition item_output (buff : list Z) : MH Z :=
  read_main_item_status buff;;
  count ← gets (fun s => report_count (rp_info s));
  if count >? 0 then
    ret ← hid_add_report TAG_OUTPUT;
    mret (if negb (ret =? 0) then USBH_ERR_MEMORY_OUT else 0)
  else mret 0.

(** [_data_usages[_data_usage_cnt++] = u] for the usages of interest. *)
Definition item_usage (u : Z) : MH unit :=
  if (u =? USAGE_ID_X) || (u =? USAGE_ID_Y) || (u =? USAGE_ID_WHEEL) then
    us ← gets data_usages;
    cnt ← gets data_usage_cnt;
    us ← lift (aset us cnt u);
    modify (fun s => s <| data_usages := us |> <| data_usage_cnt := cnt + 1 |>)
  else modify (fun s => s <| rp_info ::= fun r => r <| app_usage := u |> |>).

Definition set_info (f : RP_INFO_T -> RP_INFO_T) : MH unit := modify (fun s => s <| rp_info ::= f |>).

(** One item at the start of [buff]: its length, or an error.  The trace output
    reads all of the item first. *)
Definition hid_parse_item (buff : list Z) : MH Z :=
  b0 ← lift (aget buff 0);
  let tag := Z.land b0 0xFC in
  '(bSize, item_len) ← lift (item_header buff);
  lift (aget buff (item_len - 1));;
  let fin ret := mret (if negb (ret =? 0) then ret else item_len) in
  let data1 f := b1 ← lift (aget buff 1); set_info (f b1) in
  if tag =? TAG_INPUT then ret ← item_input buff; fin ret
  else if tag =? TAG_OUTPUT then ret ← item_output buff; fin ret
  else if tag =? TAG_FEATURE then read_main_item_status buff;; fin 0
  else if tag =? TAG_COLLECTION then lift (aget buff 1);; fin 0
  else if tag =? TAG_USAGE_PAGE then data1 (fun b r => r <| usage_page := b |>);; fin 0
  else if tag =? TAG_REPORT_SIZE then data1 (fun b r => r <| report_size := b |>);; fin 0
  else if tag =? TAG_REPORT_ID then
    data1 (fun b r => r <| report_id := b |>);;
    modify (fun s => s <| rpd ::= fun r => r <| has_report_id := 1 |> |>);; fin 0
  else if tag =? TAG_REPORT_COUNT then data1 (fun b r => r <| report_count := b |>);; fin 0
  else if tag =? TAG_USAGE then b1 ← lift (aget buff 1); item_usage b1;; fin 0
  else
    r ← gets rp_info;
    match value_item tag 0 r with
    | Some _ =>
        v ← lift (hid_read_item_value bSize (drop 1 buff));
        set_info (fun r => match value_item tag v r with Some r' => r' | None => r end);; fin 0
    | None => fin 0
    end.

(** ** The report descriptor *)

(** The reads of the configuration descriptor, at an offset. *)
Definition byte_at (cfd_buff : list Z) (off i : Z) : res Z := aget cfd_buff (off + i).

Definition byte_is (cfd_buff : list Z) (off i v : Z) : res bool :=
  b ← byte_at cfd_buff off i; Ok (b =? v).
(** [a && b], where [b] is evaluated only if [a] holds. *)
Definition cand (a b : res bool) : res bool := x ← a; if x : bool then b else Ok false.

(** [size >= sizeof(...)] compares [size] as an unsigned 64-bit number. *)
Definition size_ge (size n : Z) : bool := n <=? u64 size.

(** The first loop: [Some] the position of the interface descriptor and the
    bytes left, or what the function returns. *)
Fixpoint find_interface (fuel : nat) (cfd_buff : list Z) (if_num off size : Z) : res (Z + Z * Z) :=
  match fuel with
  | O => Fault Diverges
  | S fuel =>
      if size_ge size 9 then
        hit ← cand (byte_is cfd_buff off 1 USB_DT_INTERFACE)
                (cand (byte_is cfd_buff off 2 if_num) (byte_is cfd_buff off 5 USB_CLASS_HID));
        if hit : bool then Ok (inr (off, size))
        else
          len ← byte_at cfd_buff off 0;
          if len =? 0 then Ok (inl (-1))
          else find_interface fuel cfd_buff if_num (off + len) (size - len)
      else Ok (inl HID_RET_PARSING)
  end.

(** The second loop steps by the length of the interface descriptor. *)
Fixpoint find_hid (fuel : nat) (cfd_buff : list Z) (if_len off size : Z) : res (Z + Z * Z) :=
  match fuel with
  | O => Fault Diverges
  | S fuel =>
      if size_ge size 9 then
        hit ← cand (byte_is cfd_buff off 1 HID_DESCRIPTOR_TYPE)
                (byte_is cfd_buff off 6 REPORT_DESCRIPTOR_TYPE);
        if hit : bool then Ok (inr (off, size))
        else
          len ← byte_at cfd_buff off 0;
          if len =? 0 then Ok (inl HID_RET_PARSING)
          else find_hid fuel cfd_buff if_len (off + if_len) (size - if_len)
      else Ok (inl HID_RET_PARSING)
  end.

(** The length of the report descriptor, or an error. *)
Definition find_report_length (fuel : nat) (cfd_buff : list Z) (if_num : Z) : res (Z + Z) :=
  len ← byte_at cfd_buff 0 0;
  t0 ← byte_at cfd_buff 0 2;
  t1 ← byte_at cfd_buff 0 3;
  r ← find_interface fuel cfd_buff if_num len (t0 + 2 ^ 8 * t1 - len);
  match r with
  | inl e => Ok (inl e)
  | inr (off, size) =>
      if_len ← byte_at cfd_buff off 0;
      r ← find_hid fuel cfd_buff if_len (off + if_len) (size - if_len);
      match r with
      | inl e => Ok (inl e)
      | inr (off, _) =>
          l0 ← byte_at cfd_buff off 7;
          l1 ← byte_at cfd_buff off 8;
          Ok (inr (l0 + 2 ^ 8 * l1))
      end
  end.

(** [while (remain_len > 0)]: true when all items were parsed. *)
Fixpoint parse_items (fuel : nat) (buff : list Z) (remain_len : Z) : MH bool :=
  match fuel with
  | O => fail Diverges
  | S fuel =>
      if remain_len >? 0 then
        size ← hid_parse_item buff;
        if size <=? 0 then mret false
        else parse_items fuel (drop (Z.to_nat size) buff) (remain_len - size)
      else mret true
  end.

(** The LEDs of a keyboard go on and off again: [set_report n v] is what the
    [n]-th report sent, with the value [v], returns. *)
Context (set_report : nat -> Z -> Z).

Definition send_report (v : Z) : MH Z :=
  l ← gets hid_sent;
  modify (fun s => s <| hid_sent := v :: l |>);;
  mret (set_report (length l) v).

Fixpoint led_mask (n : nat) (leds : Z) : Z :=
  match n with O => leds | S n => led_mask n (u8 (Z.lor (Z.shiftl leds 1) 1)) end.

Definition flash_leds (r : RP_INFO_T) : MH unit :=
  when ((usage_page r =? UP_LEDS) && (report_size r =? 1) && ctrue (variable (status r)))
    (ret ← send_report (led_mask (Z.to_nat (Z.min 8 (report_count r))) 0);
     when (u8 ret =? 1) (send_report 0;; mret tt)).

Fixpoint flash_reports (l : list (Z * RP_INFO_T)) : MH unit :=
  match l with [] => mret tt | (_, r) :: l => flash_leds r;; flash_reports l end.

(** [get_rd p len] is what [usbh_hid_get_report_descriptor] returns for the
    buffer [p], and the bytes of the buffer after it. *)
Context (get_rd : Z -> Z -> Z * list Z).

Definition hid_parse_report_descriptor (fuel : nat) (hdev : HID_DEV_T) (cfd_buff : list Z) (if_num : Z)
    : MH Z :=
  modify (fun s => s <| rp_info := zero_info |> <| data_usage_cnt := 0 |>
                     <| rpd ::= fun r => r <| has_report_id := 0 |> |>);;
  found ← lift (find_report_length fuel cfd_buff if_num);
  match found with
  | inl e => mret e
  | inr rd_len =>
      let desc_buff_len := rd_len + 8 in
      desc_buff ← on_hid_mem (da_alloc desc_buff_len);
      let '(remain_len, bytes) := get_rd desc_buff desc_buff_len in
      if remain_len <=? 0 then
        on_hid_mem (da_free desc_buff desc_buff_len);;
        mret remain_len
      else if desc_buff =? NULL then fail NullDeref
      else
        ok ← parse_items fuel bytes remain_len;
        on_hid_mem (da_free desc_buff desc_buff_len);;
        if negb ok then mret HID_RET_PARSING
        else
          when ((bSubClassCode hdev =? HID_SUBCLASS_BOOT_DEVICE) &&
                (bProtocolCode hdev =? HID_PROTOCOL_KEYBOARD))
            (l ← gets (fun s => report (rpd s)); flash_reports l);;
          mret 0
  end.
End parser.

(** ** Keyboard reports *)

(** [bit << i] on a 32-bit integer. *)
Definition shift_bit (bit i : Z) : res Z := if i >=? 32 then Fault BadShift else Ok (Z.shiftl bit i).
Definition data_bit (data : list Z) (byte_idx bit_idx : Z) : res Z :=
  b ← aget data byte_idx; Ok (Z.land (Z.shiftr b (crem bit_idx 8)) 1).

(** [n] one-bit key codes, from bit [i] of [usage_val] on; [byte_idx] stays. *)
Fixpoint kbd_bits (n : nat) (data : list Z) (byte_idx i usage_val bit_idx : Z) (ev : KEYBOARD_EVENT_T)
    : res (Z * KEYBOARD_EVENT_T) :=
  match n with
  | O => Ok (bit_idx, ev)
  | S n =>
      bit ← data_bit data byte_idx bit_idx;
      sh ← shift_bit bit i;
      let usage_val := Z.lor usage_val sh in
      ev ← (if bit_idx <? 8 then Ok (ev <| modifier ::= fun m => u8 (Z.lor m usage_val) |>)
            else if bit_idx <? 16 then Ok ev
            else if bit_idx <? 64 then
              let k := cdiv (bit_idx - 16) 8 in
              old ← aget (keycode ev) k;
              kc ← aset (keycode ev) k (u8 (Z.lor old usage_val));
              Ok (ev <| keycode := kc |>)
            else Ok ev);
      kbd_bits n data byte_idx (i + 1) usage_val (bit_idx + 1) ev
  end.

(** [n] one-byte key codes. *)
Fixpoint kbd_bytes (n : nat) (data : list Z) (byte_idx : Z) (ev : KEYBOARD_EVENT_T)
    : res (Z * KEYBOARD_EVENT_T) :=
  match n with
  | O => Ok (byte_idx, ev)
  | S n =>
      ev ← (if byte_idx =? 0 then b ← aget data byte_idx; Ok (ev <| modifier := b |>)
            else if byte_idx =? 1 then Ok ev
            else if byte_idx <? 8 then
              b ← aget data byte_idx;
              kc ← aset (keycode ev) (byte_idx - 2) b;
              Ok (ev <| keycode := kc |>)
            else Ok ev);
      kbd_bytes n data (byte_idx + 1) ev
  end.

(** Where a report starts, in bytes and bits. *)
Record cursor := mkCur { byte_idx : Z; bit_idx : Z }.

(** The reports of other IDs and types are passed over. *)
Definition skip_report (has_id : Z) (id : Z) (r : RP_INFO_T) : bool :=
  (ctrue has_id && negb (report_id r =? id)) || negb (rp_type r =? TAG_INPUT).

(** [None]: the report size is not supported. *)
Fixpoint kbd_reports (l : list RP_INFO_T) (has_id id : Z) (data : list Z) (data_len : Z)
    (c : cursor) (has_event : bool) (ev : KEYBOARD_EVENT_T) : res (option (bool * KEYBOARD_EVENT_T)) :=
  match l with
  | [] => Ok (Some (has_event, ev))
  | r :: l =>
      if skip_report has_id id r then kbd_reports l has_id id data data_len c has_event ev
      else
        let next c has_event ev :=
          if byte_idx c >=? data_len then Ok (Some (has_event, ev))
          else kbd_reports l has_id id data data_len c has_event ev in
        if (usage_page r =? UP_KEYCODE) && (app_usage r =? USAGE_ID_KEYBOARD) then
          if negb (report_size r =? 1) && negb (report_size r =? 8) then Ok None
          else if report_size r =? 1 then
            '(bit, ev) ← kbd_bits (Z.to_nat (report_count r)) data (byte_idx c) 0 0 (bit_idx c) ev;
            next (mkCur (cdiv bit 8) bit) true ev
          else
            '(byte, ev) ← kbd_bytes (Z.to_nat (report_count r)) data (byte_idx c) ev;
            next (mkCur byte (bit_idx c)) true ev
        else
          let bit := bit_idx c + report_size r * report_count r in
          next (mkCur (cdiv bit 8) bit) has_event ev
  end.

(** The lock keys among the key codes, and the others moved to the front. *)
Fixpoint kbd_scan (n : nat) (i pressed : Z) (ev : KEYBOARD_EVENT_T) : res (Z * KEYBOARD_EVENT_T) :=
  match n with
  | O => Ok (pressed, ev)
  | S n =>
      k ← aget (keycode ev) i;
      if k =? KEYCODE_NUM_LOCK then kbd_scan n (i + 1) (Z.lor pressed STATE_MASK_NUM_LOCK) ev
      else if k =? KEYCODE_CAPS_LOCK then kbd_scan n (i + 1) (Z.lor pressed STATE_MASK_CAPS_LOCK) ev
      else if k =? KEYCODE_SCROLL_LOCK then kbd_scan n (i + 1) (Z.lor pressed STATE_MASK_SCROLL_LOCK) ev
      else if (k =? 0) || (k =? 1) then kbd_scan n (i + 1) pressed ev
      else
        kc ← aset (keycode ev) (key_cnt ev) k;
        kbd_scan n (i + 1) pressed (ev <| keycode := kc |> <| key_cnt := u8 (key_cnt ev + 1) |>)
  end.

(** The lock states that change: pressed now and not the last time. *)
Fixpoint toggle_locks (n : nat) (i pressed last lock : Z) (update : bool) : Z * bool :=
  match n with
  | O => (lock, update)
  | S n =>
      if ctrue (Z.land pressed (Z.shiftl 1 i)) && negb (ctrue (Z.land last (Z.shiftl 1 i)))
      then toggle_locks n (i + 1) pressed last (Z.lxor lock (Z.shiftl 1 i)) true
      else toggle_locks n (i + 1) pressed last lock update
  end.

(** The ID of the report data: the first byte, if the device uses IDs. *)
Definition start_of (has_id : Z) (data : list Z) : res (Z * cursor) :=
  if ctrue has_id then id ← aget data 0; Ok (id, mkCur 1 8) else Ok (0, mkCur 0 0).

(** Returns the result, the report description, the event given to the callback
    (if [callback] is set), and the LED report sent. *)
Definition hid_parse_keyboard_reports (callback : bool) (rpd : RPD_T) (data : list Z) (data_len : Z)
    : res (Z * RPD_T * option KEYBOARD_EVENT_T * option Z) :=
  let ev := mkKbd (lock_state rpd) 0 [0; 0; 0; 0; 0; 0] 0 in
  '(id, c) ← start_of (has_report_id rpd) data;
  o ← kbd_reports (map snd (report rpd)) (has_report_id rpd) id data data_len c false ev;
  match o with
  | None => Ok (USBH_ERR_NOT_SUPPORTED, rpd, None, None)
  | Some (has_kbd_event, ev) =>
      if has_kbd_event && callback then
        '(pressed, ev) ← kbd_scan 6 0 0 ev;
        let '(lock, update_LEDs) :=
          toggle_locks 3 0 pressed (last_pressed_lock_keys rpd) (ke_lock_state ev) false in
        let ev := ev <| ke_lock_state := lock |> in
        Ok (0, rpd <| last_pressed_lock_keys := pressed |> <| lock_state := lock |>, Some ev,
            if update_LEDs then Some lock else None)
      else Ok (0, rpd, None, None)
  end.

(** ** Mouse reports *)

(** The button bits: the cursor advances by the report size for each. *)
Fixpoint mouse_buttons (n : nat) (data : list Z) (size i : Z) (c : cursor) (map : Z) : res (cursor * Z) :=
  match n with
  | O => Ok (c, map)
  | S n =>
      bit ← data_bit data (byte_idx c) (bit_idx c);
      sh ← shift_bit bit i;
      let b := bit_idx c + size in
      mouse_buttons n data size (i + 1) (mkCur (cdiv b 8) b) (Z.lor map sh)
  end.

(** A value of [n] bits, from bit [i] of [usage_val] on. *)
Fixpoint mouse_value (n : nat) (data : list Z) (i : Z) (c : cursor) (usage_val : Z) : res (cursor * Z) :=
  match n with
  | O => Ok (c, usage_val)
  | S n =>
      bit ← data_bit data (byte_idx c) (bit_idx c);
      sh ← shift_bit bit i;
      let b := bit_idx c + 1 in
      mouse_value n data (i + 1) (mkCur (cdiv b 8) b) (Z.lor usage_val sh)
  end.

Definition sign_value (size v : Z) : Z :=
  if size <=? 8 then s8 v else if size <=? 16 then s16 v else s32 v.

Definition set_axis (r : RP_INFO_T) (v : Z) (ev : MOUSE_EVENT_T) : MOUSE_EVENT_T :=
  if data_usage r =? USAGE_ID_X then
    ev <| mX := v |> <| axis_relative := relative (status r) |>
       <| axis_min := logical_min r |> <| axis_max := logical_max r |>
  else if data_usage r =? USAGE_ID_Y then ev <| mY := v |>
  else if data_usage r =? USAGE_ID_WHEEL then
    ev <| wheel := v |> <| wheel_relative := relative (status r) |>
       <| wheel_min := logical_min r |> <| wheel_max := logical_max r |>
  else ev.

Fixpoint mouse_reports (l : list RP_INFO_T) (has_id id : Z) (data : list Z) (data_len : Z)
    (c : cursor) (has_event : bool) (ev : MOUSE_EVENT_T) : res (bool * MOUSE_EVENT_T) :=
  match l with
  | [] => Ok (has_event, ev)
  | r :: l =>
      if skip_report has_id id r then mouse_reports l has_id id data data_len c has_event ev
      else
        let next c has_event ev :=
          if byte_idx c >=? data_len then Ok (has_event, ev)
          else mouse_reports l has_id id data data_len c has_event ev in
        let pointer := (app_usage r =? USAGE_ID_MOUSE) || (app_usage r =? USAGE_ID_POINTER) in
        if (usage_page r =? UP_BUTTON) && pointer then
          if ctrue (variable (status r)) then
            '(c, m) ← mouse_buttons (Z.to_nat (report_count r)) data (report_size r) 0 c (button_map ev);
            next c true (ev <| button_cnt := report_count r |> <| button_map := m |>)
          else
            let b := bit_idx c + report_count r * report_size r in
            next (mkCur (cdiv b 8) b) true ev
        else if (usage_page r =? UP_GENERIC_DESKTOP) && (pointer || (data_usage r =? USAGE_ID_WHEEL)) then
          '(c, v) ← mouse_value (Z.to_nat (report_size r)) data 0 c 0;
          next c true (set_axis r (sign_value (report_size r) v) ev)
        else
          let b := bit_idx c + report_size r in
          next (mkCur (cdiv b 8) b) has_event ev
  end.

(** Returns the result and the event given to the callback. *)
Definition hid_parse_mouse_reports (callback : bool) (rpd : RPD_T) (data : list Z) (data_len : Z)
    : res (Z * option MOUSE_EVENT_T) :=
  '(id, c) ← start_of (has_report_id rpd) data;
  '(has_mouse_event, ev) ← mouse_reports (map snd (report rpd)) (has_report_id rpd) id data data_len c
     false (mkMouse 0 0 0 0 0 0 0 0 0 0 0);
  Ok (0, if has_mouse_event && callback then Some ev else None).
